(** * drivers/dma-buf/dma-buf.c: the buffer sharing core

    A shallow embedding of the dma-buf core: the exported buffer with its
    reservation object, its attachment list, its poll callbacks and its vmap
    bookkeeping, together with the functions that operate on them.  Exporter
    and importer callbacks are function-typed fields, as in the C capability
    tables; every call into them is recorded in a trace so that statements
    about "which hook ran, and when" can be made about the functions of this
    file. *)

From Stdlib Require Import ZArith List Bool Lia.
Import ListNotations.
Open Scope Z_scope.

Set Implicit Arguments.

(** ** Constants

    The values the headers give these names on a 64-bit build with 4 KiB
    pages. *)

Definition ENOENT : Z := 2.
Definition ENOMEM : Z := 12.
Definition EFAULT : Z := 14.
Definition EBUSY : Z := 16.
Definition EINVAL : Z := 22.
Definition EOVERFLOW : Z := 75.
Definition ERESTARTSYS : Z := 512.

Definition PAGE_SHIFT : Z := 12.
Definition PAGE_SIZE : Z := 4096.

Definition UINT_MAX : Z := 2 ^ 32 - 1.
Definition ULONG_MAX : Z := 2 ^ 64 - 1.
Definition LONG_MAX : Z := 2 ^ 63 - 1.
Definition MAX_SCHEDULE_TIMEOUT : Z := LONG_MAX.

Definition EPOLLIN : Z := 1.
Definition EPOLLOUT : Z := 4.

Definition DMA_BUF_SYNC_WRITE : Z := 2.
Definition DMA_BUF_SYNC_RW : Z := 3.

(** Arithmetic of [unsigned] and [unsigned long]. *)
Definition wrap32 (x : Z) : Z := x mod 2 ^ 32.
Definition wrap64 (x : Z) : Z := x mod 2 ^ 64.

Definition PAGE_ALIGNED (x : Z) : bool := Z.land x (PAGE_SIZE - 1) =? 0.

(** Build options the file tests with IS_ENABLED() or #ifdef. *)
Record kconfig := {
  CONFIG_DMABUF_MOVE_NOTIFY : bool;
  CONFIG_DMABUF_DEBUG : bool;
  CONFIG_DMA_API_DEBUG : bool
}.

(** ** Data model *)

Inductive dma_data_direction :=
| DMA_BIDIRECTIONAL | DMA_TO_DEVICE | DMA_FROM_DEVICE | DMA_NONE.

Definition direction_eqb (a b : dma_data_direction) : bool :=
  match a, b with
  | DMA_BIDIRECTIONAL, DMA_BIDIRECTIONAL | DMA_TO_DEVICE, DMA_TO_DEVICE
  | DMA_FROM_DEVICE, DMA_FROM_DEVICE | DMA_NONE, DMA_NONE => true
  | _, _ => false
  end.

(** Modelled from the spec: [enum dma_resv_usage] of linux/dma-resv.h,
    with the usage classes this file names, in the order of the
    enumeration.  A query for a class covers the fences of that class and of
    the ones before it: write fences also count for a read query. *)
Inductive dma_resv_usage :=
| DMA_RESV_USAGE_KERNEL | DMA_RESV_USAGE_WRITE | DMA_RESV_USAGE_READ.

Definition usage_rank (u : dma_resv_usage) : Z :=
  match u with
  | DMA_RESV_USAGE_KERNEL => 0
  | DMA_RESV_USAGE_WRITE => 1
  | DMA_RESV_USAGE_READ => 2
  end.

Definition usage_covers (query tag : dma_resv_usage) : bool :=
  usage_rank tag <=? usage_rank query.

(** Modelled from the spec: dma_resv_usage_rw() of linux/dma-resv.h.  Read
    access needs to wait only for the write-usage fences, write access for
    all of them. *)
Definition dma_resv_usage_rw (write : bool) : dma_resv_usage :=
  if write then DMA_RESV_USAGE_READ else DMA_RESV_USAGE_WRITE.

(** The two callback slots of a buffer, [dmabuf->cb_in] and
    [dmabuf->cb_out]. *)
Inductive poll_cb := CB_IN | CB_OUT.

Definition poll_cb_eqb (a b : poll_cb) : bool :=
  match a, b with
  | CB_IN, CB_IN | CB_OUT, CB_OUT => true
  | _, _ => false
  end.

Definition poll_cb_eq_dec (a b : poll_cb) : {a = b} + {a <> b}.
Proof. decide equality. Defined.

(** A fence as the core sees it: signaled or not, and the poll callbacks
    currently queued on it. *)
Record dma_fence := {
  fence_id : Z;
  signaled : bool;
  cb_list : list poll_cb
}.

Record resv_entry := {
  e_fence : dma_fence;
  e_usage : dma_resv_usage
}.

(** The reservation object: its fences and the number of slots reserved. *)
Record dma_resv := {
  fences : list resv_entry;
  max_fences : Z
}.

Definition dma_resv_init : dma_resv := {| fences := []; max_fences := 0 |}.

(** A fence handed over in a sync_file: one fence or a merge of several. *)
Inductive fence_handle :=
| FenceOne (f : dma_fence)
| FenceMerge (a b : fence_handle).

(** Modelled from the spec: dma_fence_unwrap_for_each() of
    linux/dma-fence-unwrap.h, the constituent fences of a handle. *)
Fixpoint dma_fence_unwrap (h : fence_handle) : list dma_fence :=
  match h with
  | FenceOne f => [f]
  | FenceMerge a b => dma_fence_unwrap a ++ dma_fence_unwrap b
  end.

Record scatterlist := {
  page_link : Z;
  dma_address : Z;
  dma_length : Z
}.

Definition sg_table := list scatterlist.

(** What a [struct sg_table *] can be: NULL, a table, or ERR_PTR(e). *)
Inductive sgt_ptr :=
| SgNull
| SgTable (t : sg_table)
| SgErr (e : Z).

(** A pointer-or-error return value: a valid pointer or ERR_PTR(e). *)
Inductive err_ptr (A : Type) :=
| Ptr (a : A)
| ERR_PTR (e : Z).

Arguments Ptr {A} a.
Arguments ERR_PTR {A} e.

(** Modelled from the spec: [struct iosys_map] and its helpers of
    linux/iosys-map.h, the kernel-mapping pointer of a buffer, which is
    either set or null; two mappings are equal when they are of the same
    kind and hold the same address. *)
Record iosys_map := {
  vaddr : Z;
  is_iomem : bool
}.

Definition iosys_map_null : iosys_map := {| vaddr := 0; is_iomem := false |}.
Definition iosys_map_is_null (m : iosys_map) : bool := vaddr m =? 0.
Definition iosys_map_is_set (m : iosys_map) : bool := negb (iosys_map_is_null m).
Definition iosys_map_is_equal (a b : iosys_map) : bool :=
  Bool.eqb (is_iomem a) (is_iomem b) && (vaddr a =? vaddr b).

Record vm_area_struct := {
  vm_start : Z;
  vm_end : Z;
  vm_pgoff : Z;
  vm_file : Z
}.

Definition vma_pages (vma : vm_area_struct) : Z :=
  Z.shiftr (wrap64 (vm_end vma - vm_start vma)) PAGE_SHIFT.

(** The two WARN_ON_ONCE() of the file: on a pin callback that returns
    -EBUSY in dma_buf_map_attachment(), and on a failing vmap callback in
    dma_buf_vmap(). *)
Inductive once_site := ONCE_PIN_EBUSY | ONCE_VMAP_FAILED.

(** ** Trace of the calls that leave the core *)

Inductive event :=
| EvWarn
| EvWarnOnce (site : once_site)
| EvPrDebug (addr len : Z)
| EvAttach (a : Z)
| EvDetach (a : Z)
| EvPin (a : Z)
| EvUnpin (a : Z)
| EvMapDmaBuf (a : Z) (dir : dma_data_direction)
| EvUnmapDmaBuf (a : Z) (t : sg_table) (dir : dma_data_direction)
| EvBeginCpuAccess (dir : dma_data_direction)
| EvEndCpuAccess (dir : dma_data_direction)
| EvMmap (vma : vm_area_struct)
| EvVmap (r : Z) (m : iosys_map)
| EvVunmap (m : iosys_map)
| EvMoveNotify (a : Z)
| EvResvWait (u : dma_resv_usage) (intr : bool) (timeout : Z)
| EvSleep
| EvWakeUp (key : Z)
| EvPollWait.

(** What ends a sleep: the fences waited for, a signal, or the timer. *)
Inductive wake_reason := WakeFences | WakeSignal | WakeTimeout.

(** The environment of a call: the trace so far and the answers the rest
    of the kernel will give (one wake reason per sleep, one result per
    allocation: 0 or a negative errno), and the next free address. *)
Record env := {
  trace : list event;
  wakeups : list wake_reason;
  alloc_results : list Z;
  next_addr : Z
}.

Definition env_log (ev : event) (e : env) : env :=
  {| trace := trace e ++ [ev]; wakeups := wakeups e;
     alloc_results := alloc_results e; next_addr := next_addr e |}.

Definition env_pop_wakeup (e : env) : wake_reason * env :=
  match wakeups e with
  | [] => (WakeFences, e)
  | r :: rest =>
      (r, {| trace := trace e; wakeups := rest;
             alloc_results := alloc_results e; next_addr := next_addr e |})
  end.

Definition env_pop_alloc (e : env) : Z * env :=
  match alloc_results e with
  | [] => (0, e)
  | r :: rest =>
      (r, {| trace := trace e; wakeups := wakeups e;
             alloc_results := rest; next_addr := next_addr e |})
  end.

Definition env_bump (e : env) : Z * env :=
  (next_addr e, {| trace := trace e; wakeups := wakeups e;
                   alloc_results := alloc_results e;
                   next_addr := next_addr e + 1 |}).

(** ** A state monad with fatal stops

    [Done a s] is a normal return, [Crash s] is BUG() or a call through a
    NULL function pointer. *)

Inductive result (S A : Type) :=
| Done (a : A) (s : S)
| Crash (s : S).

Arguments Done {S A} a s.
Arguments Crash {S A} s.

Definition M (S A : Type) := S -> result S A.

Definition ret {S A} (a : A) : M S A := fun s => Done a s.

Definition bind {S A B} (m : M S A) (k : A -> M S B) : M S B :=
  fun s => match m s with
           | Done a s' => k a s'
           | Crash s' => Crash s'
           end.

Definition BUG {S A} : M S A := fun s => Crash s.

Definition BUG_ON {S} (c : bool) : M S unit :=
  if c then BUG else ret tt.

Definition gets {S A} (f : S -> A) : M S A := fun s => Done (f s) s.
Definition modify {S} (f : S -> S) : M S unit := fun s => Done tt (f s).

Declare Scope monad_scope.
Delimit Scope monad_scope with monad.
Notation "x <- c ;; k" := (bind c (fun x => k))
  (at level 61, c at next level, right associativity) : monad_scope.
Notation "' pat <- c ;; k" :=
  (bind c (fun v => match v with pat => k end))
  (at level 61, pat pattern, c at next level, right associativity) : monad_scope.
Notation "c ;; k" := (bind c (fun _ => k))
  (at level 61, right associativity) : monad_scope.
Open Scope monad_scope.

(** States that carry an environment. *)
Class HasEnv (S : Type) := {
  get_env : S -> env;
  set_env : env -> S -> S
}.

Definition emit {S} `{HasEnv S} (ev : event) : M S unit :=
  modify (fun s => set_env (env_log ev (get_env s)) s).

(** WARN_ON(c): reports and evaluates to [c]. *)
Definition WARN_ON {S} `{HasEnv S} (c : bool) : M S bool :=
  if c then (emit EvWarn ;; ret true) else ret false.

Definition is_warn_once (site : once_site) (ev : event) : bool :=
  match ev, site with
  | EvWarnOnce ONCE_PIN_EBUSY, ONCE_PIN_EBUSY => true
  | EvWarnOnce ONCE_VMAP_FAILED, ONCE_VMAP_FAILED => true
  | _, _ => false
  end.

(** WARN_ON_ONCE(c) at [site]: evaluates to [c], and reports the first
    time [c] holds there.  The trace is the log of the kernel, so the
    static flag of the site is set exactly when the trace holds its
    report. *)
Definition WARN_ON_ONCE {S} `{HasEnv S} (site : once_site) (c : bool)
  : M S bool :=
  if c then
    tr <- gets (fun s => trace (get_env s)) ;;
    (if existsb (is_warn_once site) tr
     then ret tt
     else emit (EvWarnOnce site)) ;;
    ret true
  else ret false.

Definition next_wakeup {S} `{HasEnv S} : M S wake_reason :=
  fun s => let '(r, e) := env_pop_wakeup (get_env s) in Done r (set_env e s).

Definition next_alloc {S} `{HasEnv S} : M S Z :=
  fun s => let '(r, e) := env_pop_alloc (get_env s) in Done r (set_env e s).

(** kzalloc(): NULL when the allocation fails, a fresh address otherwise. *)
Definition kzalloc {S} `{HasEnv S} : M S (option Z) :=
  r <- next_alloc ;;
  if r =? 0
  then (fun s => let '(a, e) := env_bump (get_env s) in Done (Some a) (set_env e s))
  else ret None.

(** ** Buffers, attachments and the capability tables *)

Section DmaBuf.

(** [P] is the exporter's private data ([dmabuf->priv]), [Q] the importer's
    ([attach->importer_priv]); [cfg] is the kernel configuration. *)
Variables P Q : Type.
Variable cfg : kconfig.

(** What an exporter callback can reach through the [struct dma_buf *] it
    is given: its private data and the reservation object. *)
Record xstate := {
  x_priv : P;
  x_resv : dma_resv
}.

Definition hook (R : Type) := xstate -> R * xstate.

(** [struct dma_buf_ops]; [None] is a NULL function pointer.  Attachments
    are passed by address. *)
Record dma_buf_ops := {
  attach : option (Z -> hook Z);
  detach : option (Z -> hook unit);
  pin : option (Z -> hook Z);
  unpin : option (Z -> hook unit);
  map_dma_buf : option (Z -> dma_data_direction -> hook sgt_ptr);
  unmap_dma_buf : option (Z -> sg_table -> dma_data_direction -> hook unit);
  release : option (hook unit);
  begin_cpu_access : option (dma_data_direction -> hook Z);
  end_cpu_access : option (dma_data_direction -> hook Z);
  mmap : option (vm_area_struct -> hook Z);
  vmap : option (hook (Z * iosys_map));
  vunmap : option (iosys_map -> hook unit)
}.

(** [struct dma_buf_attach_ops]. *)
Record dma_buf_attach_ops := {
  allow_peer2peer : bool;
  move_notify : option (Z -> Q -> Q)
}.

(** [struct dma_buf_attachment]; [a_addr] is the address kzalloc() gave. *)
Record dma_buf_attachment := {
  a_addr : Z;
  dev : Z;
  peer2peer : bool;
  importer_ops : option dma_buf_attach_ops;
  importer_priv : option Q
}.

Record file := {
  f_count : Z;
  f_flags : Z;
  i_ino : Z
}.

(** [struct dma_buf]. *)
Record dma_buf := {
  priv : P;
  ops : dma_buf_ops;
  size : Z;
  owner : option Z;
  resv : dma_resv;
  cb_in_active : Z;
  cb_out_active : Z;
  attachments : list dma_buf_attachment;
  vmapping_counter : Z;
  vmap_ptr : iosys_map;
  dmabuf_file : file
}.

Definition set_xstate (x : xstate) (b : dma_buf) : dma_buf :=
  {| priv := x_priv x; ops := ops b; size := size b; owner := owner b;
     resv := x_resv x; cb_in_active := cb_in_active b;
     cb_out_active := cb_out_active b; attachments := attachments b;
     vmapping_counter := vmapping_counter b; vmap_ptr := vmap_ptr b;
     dmabuf_file := dmabuf_file b |}.

Definition get_xstate (b : dma_buf) : xstate :=
  {| x_priv := priv b; x_resv := resv b |}.

Definition set_resv (r : dma_resv) (b : dma_buf) : dma_buf :=
  set_xstate {| x_priv := priv b; x_resv := r |} b.

Definition cb_active (dcb : poll_cb) (b : dma_buf) : Z :=
  match dcb with
  | CB_IN => cb_in_active b
  | CB_OUT => cb_out_active b
  end.

Definition set_cb_active (dcb : poll_cb) (v : Z) (b : dma_buf) : dma_buf :=
  {| priv := priv b; ops := ops b; size := size b; owner := owner b;
     resv := resv b;
     cb_in_active := match dcb with CB_IN => v | CB_OUT => cb_in_active b end;
     cb_out_active := match dcb with CB_OUT => v | CB_IN => cb_out_active b end;
     attachments := attachments b;
     vmapping_counter := vmapping_counter b; vmap_ptr := vmap_ptr b;
     dmabuf_file := dmabuf_file b |}.

Definition set_attachments (l : list dma_buf_attachment) (b : dma_buf) : dma_buf :=
  {| priv := priv b; ops := ops b; size := size b; owner := owner b;
     resv := resv b; cb_in_active := cb_in_active b;
     cb_out_active := cb_out_active b; attachments := l;
     vmapping_counter := vmapping_counter b; vmap_ptr := vmap_ptr b;
     dmabuf_file := dmabuf_file b |}.

Definition set_vmap (n : Z) (m : iosys_map) (b : dma_buf) : dma_buf :=
  {| priv := priv b; ops := ops b; size := size b; owner := owner b;
     resv := resv b; cb_in_active := cb_in_active b;
     cb_out_active := cb_out_active b; attachments := attachments b;
     vmapping_counter := n; vmap_ptr := m;
     dmabuf_file := dmabuf_file b |}.

Definition set_f_count (n : Z) (b : dma_buf) : dma_buf :=
  {| priv := priv b; ops := ops b; size := size b; owner := owner b;
     resv := resv b; cb_in_active := cb_in_active b;
     cb_out_active := cb_out_active b; attachments := attachments b;
     vmapping_counter := vmapping_counter b; vmap_ptr := vmap_ptr b;
     dmabuf_file := {| f_count := n; f_flags := f_flags (dmabuf_file b);
                       i_ino := i_ino (dmabuf_file b) |} |}.

(** The state of a call on a live buffer: the buffer and the environment.
    The functions below take the buffer from the state; a NULL [dmabuf]
    argument, which they all reject before touching anything, is not part
    of it. *)
Record bstate := {
  buf : dma_buf;
  benv : env
}.

#[export] Instance bstate_env : HasEnv bstate := {
  get_env := benv;
  set_env := fun e s => {| buf := buf s; benv := e |}
}.

Definition modify_buf (f : dma_buf -> dma_buf) : M bstate unit :=
  modify (fun s => {| buf := f (buf s); benv := benv s |}).

(** A call of an exporter callback: logged, then run on the exporter's view
    of the buffer. *)
Definition call_hook {R} (ev : event) (h : hook R) : M bstate R :=
  emit ev ;;
  fun s => let '(r, x) := h (get_xstate (buf s)) in
           Done r {| buf := set_xstate x (buf s); benv := benv s |}.

(** A call through a pointer the code does not test: NULL is fatal. *)
Definition call_ptr {R} (ev : event) (h : option (hook R)) : M bstate R :=
  match h with
  | Some f => call_hook ev f
  | None => BUG
  end.

Definition get_file : M bstate unit :=
  modify_buf (fun b => set_f_count (f_count (dmabuf_file b) + 1) b).

(** fput() on [dmabuf->file]; the last reference, which tears the buffer
    down, is held by the caller of the functions modelled here. *)
Definition fput : M bstate unit :=
  modify_buf (fun b => set_f_count (f_count (dmabuf_file b) - 1) b).

(** ** Fences and waiting *)

Definition dma_buf_poll_cb (dcb : poll_cb) : M bstate unit :=
  active <- gets (fun s => cb_active dcb (buf s)) ;;
  emit (EvWakeUp active) ;;
  modify_buf (set_cb_active dcb 0) ;;
  fput.

Fixpoint run_callbacks (l : list poll_cb) : M bstate unit :=
  match l with
  | [] => ret tt
  | dcb :: rest => dma_buf_poll_cb dcb ;; run_callbacks rest
  end.

(** Modelled from the spec: signalling a fence (linux/dma-fence.h)
    completes it and hands its queued callbacks over for running; a fence
    that has completed stays as it is. *)
Definition fence_signal (f : dma_fence) : dma_fence * list poll_cb :=
  if signaled f then (f, [])
  else ({| fence_id := fence_id f; signaled := true; cb_list := [] |}, cb_list f).

Definition entry_signal (e : resv_entry) : resv_entry * list poll_cb :=
  let '(f, cbs) := fence_signal (e_fence e) in
  ({| e_fence := f; e_usage := e_usage e |}, cbs).

Definition entry_pending (u : dma_resv_usage) (e : resv_entry) : bool :=
  usage_covers u (e_usage e) && negb (signaled (e_fence e)).

Fixpoint signal_covered (u : dma_resv_usage) (l : list resv_entry)
  : list resv_entry * list poll_cb :=
  match l with
  | [] => ([], [])
  | e :: rest =>
      let '(rest', cbs') := signal_covered u rest in
      if usage_covers u (e_usage e)
      then let '(e', cbs) := entry_signal e in (e' :: rest', cbs ++ cbs')
      else (e :: rest', cbs')
  end.

Definition set_fences (l : list resv_entry) (r : dma_resv) : dma_resv :=
  {| fences := l; max_fences := max_fences r |}.

(** The fences covered by [u] complete while the caller sleeps. *)
Definition fences_complete (u : dma_resv_usage) : M bstate unit :=
  r <- gets (fun s => resv (buf s)) ;;
  let '(l, cbs) := signal_covered u (fences r) in
  modify_buf (set_resv (set_fences l r)) ;;
  run_callbacks cbs.

(** Modelled from the spec: dma_resv_wait_timeout() of
    drivers/dma-buf/dma-resv.c, "blocks the calling context until every
    fence relevant to usage completes, or returns a timeout/interruption
    error; never spuriously returns success early".  It returns at once
    when nothing covered is pending; otherwise the caller sleeps, and the
    sleep ends with -ERESTARTSYS on a signal if the wait is interruptible,
    with 0 when a bounded timeout expires, and with a positive value once
    the covered fences have completed. *)
Definition dma_resv_wait_timeout (u : dma_resv_usage) (intr : bool)
           (timeout : Z) : M bstate Z :=
  emit (EvResvWait u intr timeout) ;;
  r <- gets (fun s => resv (buf s)) ;;
  let remaining := if timeout =? 0 then 1 else timeout in
  if existsb (entry_pending u) (fences r) then
    emit EvSleep ;;
    why <- next_wakeup ;;
    match why with
    | WakeSignal =>
        if intr then ret (- ERESTARTSYS)
        else (fences_complete u ;; ret remaining)
    | WakeTimeout =>
        if timeout =? MAX_SCHEDULE_TIMEOUT
        then (fences_complete u ;; ret remaining)
        else ret 0
    | WakeFences => fences_complete u ;; ret remaining
    end
  else ret remaining.


(** Modelled from the spec: dma_resv_reserve_fences() of
    drivers/dma-buf/dma-resv.c makes room for [n] more fences, or fails
    with -ENOMEM and leaves the object as it was. *)
Definition dma_resv_reserve_fences (n : Z) : M bstate Z :=
  r <- gets (fun s => resv (buf s)) ;;
  let needed := Z.of_nat (length (fences r)) + n in
  if needed <=? max_fences r then ret 0
  else
    a <- next_alloc ;;
    if a =? 0
    then (modify_buf (set_resv {| fences := fences r; max_fences := needed |}) ;;
          ret 0)
    else ret (- ENOMEM).

(** Modelled from the spec: dma_resv_add_fence() of
    drivers/dma-buf/dma-resv.c puts the fence in a slot reserved before;
    running out of slots is a BUG. *)
Definition dma_resv_add_fence (f : dma_fence) (u : dma_resv_usage)
  : M bstate unit :=
  r <- gets (fun s => resv (buf s)) ;;
  BUG_ON (max_fences r <=? Z.of_nat (length (fences r))) ;;
  modify_buf (set_resv (set_fences
    (fences r ++ [{| e_fence := f; e_usage := u |}]) r)).

(** ** Poll *)

(** Modelled from the spec: dma_fence_add_callback() of
    drivers/dma-buf/dma-fence.c queues the callback on a pending fence and
    returns -ENOENT for a fence that has completed. *)
Definition dma_fence_add_callback (dcb : poll_cb) (f : dma_fence)
  : Z * dma_fence :=
  if signaled f then (- ENOENT, f)
  else (0, {| fence_id := fence_id f; signaled := false;
              cb_list := cb_list f ++ [dcb] |}).

(** The loop of dma_buf_poll_add_cb() over the fences covered by [u]. *)
Fixpoint poll_add_cb_fences (u : dma_resv_usage) (dcb : poll_cb)
         (l : list resv_entry) : bool * list resv_entry :=
  match l with
  | [] => (false, [])
  | e :: rest =>
      if usage_covers u (e_usage e) then
        let '(r, f) := dma_fence_add_callback dcb (e_fence e) in
        if r =? 0
        then (true, {| e_fence := f; e_usage := e_usage e |} :: rest)
        else let '(b, rest') := poll_add_cb_fences u dcb rest in
             (b, e :: rest')
      else let '(b, rest') := poll_add_cb_fences u dcb rest in
           (b, e :: rest')
  end.

Definition dma_buf_poll_add_cb (write : bool) (dcb : poll_cb) : M bstate bool :=
  r <- gets (fun s => resv (buf s)) ;;
  let '(queued, l) := poll_add_cb_fences (dma_resv_usage_rw write) dcb (fences r) in
  modify_buf (set_resv (set_fences l r)) ;;
  ret queued.

Definition poll_flag (dcb : poll_cb) : Z :=
  match dcb with
  | CB_IN => EPOLLIN
  | CB_OUT => EPOLLOUT
  end.

(** One of the two blocks of dma_buf_poll(): the EPOLLOUT block is
    [dma_buf_poll_dir CB_OUT true], the EPOLLIN block
    [dma_buf_poll_dir CB_IN false]. *)
Definition dma_buf_poll_dir (dcb : poll_cb) (write : bool) (events : Z)
  : M bstate Z :=
  let flag := poll_flag dcb in
  if Z.land events flag =? 0 then ret events
  else
    active <- gets (fun s => cb_active dcb (buf s)) ;;
    events <- (if negb (active =? 0)
               then ret (Z.ldiff events flag)
               else (modify_buf (set_cb_active dcb flag) ;; ret events)) ;;
    if Z.land events flag =? 0 then ret events
    else
      get_file ;;
      queued <- dma_buf_poll_add_cb write dcb ;;
      if negb queued
      then (dma_buf_poll_cb dcb ;; ret events)
      else ret (Z.ldiff events flag).

(** dma_buf_poll() on the file of a live buffer (a file without buffer or
    reservation object gets EPOLLERR); [requested] is
    poll_requested_events(poll). *)
Definition dma_buf_poll (requested : Z) : M bstate Z :=
  emit EvPollWait ;;
  let events := Z.land requested (Z.lor EPOLLIN EPOLLOUT) in
  if events =? 0 then ret 0
  else
    events <- dma_buf_poll_dir CB_OUT true events ;;
    events <- dma_buf_poll_dir CB_IN false events ;;
    ret events.

(** ** Importing a sync_file *)

Record dma_buf_import_sync_file_arg := {
  arg_flags : Z;
  arg_fd : Z
}.

Fixpoint add_fences (l : list dma_fence) (u : dma_resv_usage) : M bstate unit :=
  match l with
  | [] => ret tt
  | f :: rest => dma_resv_add_fence f u ;; add_fences rest u
  end.

(** [user_data] is what copy_from_user() reads ([None] when it faults),
    [sync_file_get_fence] the fence behind a file descriptor. *)
Definition dma_buf_import_sync_file
           (sync_file_get_fence : Z -> option fence_handle)
           (user_data : option dma_buf_import_sync_file_arg) : M bstate Z :=
  match user_data with
  | None => ret (- EFAULT)
  | Some arg =>
      if negb (Z.ldiff (arg_flags arg) DMA_BUF_SYNC_RW =? 0) then ret (- EINVAL)
      else if Z.land (arg_flags arg) DMA_BUF_SYNC_RW =? 0 then ret (- EINVAL)
      else
        match sync_file_get_fence (arg_fd arg) with
        | None => ret (- EINVAL)
        | Some fence =>
            let usage :=
              if negb (Z.land (arg_flags arg) DMA_BUF_SYNC_WRITE =? 0)
              then DMA_RESV_USAGE_WRITE else DMA_RESV_USAGE_READ in
            let num_fences :=
              wrap32 (Z.of_nat (length (dma_fence_unwrap fence))) in
            if 0 <? num_fences then
              r <- dma_resv_reserve_fences num_fences ;;
              (if r =? 0
               then add_fences (dma_fence_unwrap fence) usage
               else ret tt) ;;
              ret r
            else ret 0
        end
  end.

(** ** Attachments *)

Definition mangle_sg_table (t : sg_table) : sg_table :=
  if CONFIG_DMABUF_DEBUG cfg
  then map (fun sg => {| page_link := Z.lxor (page_link sg) (ULONG_MAX - 255);
                         dma_address := dma_address sg;
                         dma_length := dma_length sg |}) t
  else t.

Definition dma_buf_attachment_is_dynamic (att : dma_buf_attachment) : bool :=
  match importer_ops att with
  | Some _ => true
  | None => false
  end.

Definition dma_buf_pin_on_map (b : dma_buf) (att : dma_buf_attachment) : bool :=
  match pin (ops b) with
  | Some _ =>
      negb (dma_buf_attachment_is_dynamic att)
      || negb (CONFIG_DMABUF_MOVE_NOTIFY cfg)
  | None => false
  end.

(** [device] is the [dev] argument ([None] when NULL). *)
Definition dma_buf_dynamic_attach (device : option Z)
           (iops : option dma_buf_attach_ops) (ipriv : option Q)
  : M bstate (err_ptr dma_buf_attachment) :=
  w <- WARN_ON (match device with None => true | Some _ => false end) ;;
  if w then ret (ERR_PTR (- EINVAL))
  else
    w <- WARN_ON (match iops with
                  | Some o => match move_notify o with
                              | None => true
                              | Some _ => false
                              end
                  | None => false
                  end) ;;
    if w then ret (ERR_PTR (- EINVAL))
    else
      p <- kzalloc ;;
      match p, device with
      | Some addr, Some d =>
          let att := {| a_addr := addr; dev := d;
                        peer2peer := match iops with
                                     | Some o => allow_peer2peer o
                                     | None => false
                                     end;
                        importer_ops := iops;
                        importer_priv := ipriv |} in
          b <- gets buf ;;
          r <- match attach (ops b) with
               | Some h => call_hook (EvAttach addr) (h addr)
               | None => ret 0
               end ;;
          if negb (r =? 0) then ret (ERR_PTR r)
          else
            modify_buf (fun b => set_attachments (att :: attachments b) b) ;;
            ret (Ptr att)
      | _, _ => ret (ERR_PTR (- ENOMEM))
      end.

Definition dma_buf_attach (device : option Z)
  : M bstate (err_ptr dma_buf_attachment) :=
  dma_buf_dynamic_attach device None None.

(** list_del(&attach->node) *)
Definition list_del (att : dma_buf_attachment) (l : list dma_buf_attachment)
  : list dma_buf_attachment :=
  filter (fun x => negb (a_addr x =? a_addr att)) l.

Definition dma_buf_detach (attachment : option dma_buf_attachment)
  : M bstate unit :=
  match attachment with
  | None => emit EvWarn
  | Some att =>
      modify_buf (fun b => set_attachments (list_del att (attachments b)) b) ;;
      b <- gets buf ;;
      match detach (ops b) with
      | Some h => call_hook (EvDetach (a_addr att)) (h (a_addr att))
      | None => ret tt
      end
  end.

Definition dma_buf_pin (att : dma_buf_attachment) : M bstate Z :=
  WARN_ON (negb (dma_buf_attachment_is_dynamic att)) ;;
  b <- gets buf ;;
  match pin (ops b) with
  | Some h => call_hook (EvPin (a_addr att)) (h (a_addr att))
  | None => ret 0
  end.

Definition dma_buf_unpin (att : dma_buf_attachment) : M bstate unit :=
  WARN_ON (negb (dma_buf_attachment_is_dynamic att)) ;;
  b <- gets buf ;;
  match unpin (ops b) with
  | Some h => call_hook (EvUnpin (a_addr att)) (h (a_addr att))
  | None => ret tt
  end.

Definition op_at {R} (a : Z) (h : option (Z -> hook R)) : option (hook R) :=
  match h with
  | Some f => Some (f a)
  | None => None
  end.

(** The label [error_unpin] of dma_buf_map_attachment(). *)
Definition map_error_unpin (att : dma_buf_attachment) (p : sgt_ptr)
  : M bstate sgt_ptr :=
  b <- gets buf ;;
  (if dma_buf_pin_on_map b att
   then call_ptr (EvUnpin (a_addr att)) (op_at (a_addr att) (unpin (ops b)))
   else ret tt) ;;
  ret p.

(** The label [error_unmap], which falls through to [error_unpin]. *)
Definition map_error_unmap (att : dma_buf_attachment) (t : sg_table)
           (direction : dma_data_direction) (r : Z) : M bstate sgt_ptr :=
  b <- gets buf ;;
  call_ptr (EvUnmapDmaBuf (a_addr att) t direction)
           (match unmap_dma_buf (ops b) with
            | Some f => Some (f (a_addr att) t direction)
            | None => None
            end) ;;
  map_error_unpin att (SgErr r).

(** The CONFIG_DMA_API_DEBUG block: a debug message per segment whose
    address or length is not page aligned. *)
Fixpoint debug_check_aligned (t : sg_table) : M bstate unit :=
  match t with
  | [] => ret tt
  | sg :: rest =>
      (if negb (PAGE_ALIGNED (dma_address sg))
          || negb (PAGE_ALIGNED (dma_length sg))
       then emit (EvPrDebug (dma_address sg) (dma_length sg))
       else ret tt) ;;
      debug_check_aligned rest
  end.

Definition dma_buf_map_attachment (attachment : option dma_buf_attachment)
           (direction : dma_data_direction) : M bstate sgt_ptr :=
  match attachment with
  | None => emit EvWarn ;; ret (SgErr (- EINVAL))
  | Some att =>
      b <- gets buf ;;
      r <- (if dma_buf_pin_on_map b att then
              r <- call_ptr (EvPin (a_addr att))
                            (op_at (a_addr att) (pin (ops b))) ;;
              WARN_ON_ONCE ONCE_PIN_EBUSY (r =? - EBUSY) ;;
              ret r
            else ret 0) ;;
      if negb (r =? 0) then ret (SgErr r)
      else
        p <- call_ptr (EvMapDmaBuf (a_addr att) direction)
                      (match map_dma_buf (ops b) with
                       | Some f => Some (f (a_addr att) direction)
                       | None => None
                       end) ;;
        match p with
        | SgNull => map_error_unpin att (SgErr (- ENOMEM))
        | SgErr e => map_error_unpin att (SgErr e)
        | SgTable t =>
            r <- (if negb (dma_buf_attachment_is_dynamic att)
                  then dma_resv_wait_timeout DMA_RESV_USAGE_KERNEL true
                                             MAX_SCHEDULE_TIMEOUT
                  else ret r) ;;
            if r <? 0 then map_error_unmap att t direction r
            else
              let t := mangle_sg_table t in
              (if CONFIG_DMA_API_DEBUG cfg
               then debug_check_aligned t
               else ret tt) ;;
              ret (SgTable t)
        end
  end.

Definition dma_buf_unmap_attachment (attachment : option dma_buf_attachment)
           (table : option sg_table) (direction : dma_data_direction)
  : M bstate unit :=
  match attachment, table with
  | Some att, Some t =>
      let t := mangle_sg_table t in
      b <- gets buf ;;
      call_ptr (EvUnmapDmaBuf (a_addr att) t direction)
               (match unmap_dma_buf (ops b) with
                | Some f => Some (f (a_addr att) t direction)
                | None => None
                end) ;;
      if dma_buf_pin_on_map b att
      then call_ptr (EvUnpin (a_addr att)) (op_at (a_addr att) (unpin (ops b)))
      else ret tt
  | _, _ => emit EvWarn
  end.

(** The body of the loop of dma_buf_move_notify() for one attachment:
    [attach->importer_ops->move_notify(attach)] when importer_ops is set. *)
Definition move_notify_one (att : dma_buf_attachment)
  : M bstate dma_buf_attachment :=
  match importer_ops att with
  | Some o =>
      match move_notify o with
      | Some f =>
          emit (EvMoveNotify (a_addr att)) ;;
          ret {| a_addr := a_addr att; dev := dev att;
                 peer2peer := peer2peer att;
                 importer_ops := importer_ops att;
                 importer_priv :=
                   option_map (f (a_addr att)) (importer_priv att) |}
      | None => BUG
      end
  | None => ret att
  end.

Fixpoint move_notify_each (l : list dma_buf_attachment)
  : M bstate (list dma_buf_attachment) :=
  match l with
  | [] => ret []
  | att :: rest =>
      att' <- move_notify_one att ;;
      rest' <- move_notify_each rest ;;
      ret (att' :: rest')
  end.

Definition dma_buf_move_notify : M bstate unit :=
  l <- gets (fun s => attachments (buf s)) ;;
  l' <- move_notify_each l ;;
  modify_buf (set_attachments l').

(** ** CPU access *)

Definition __dma_buf_begin_cpu_access (direction : dma_data_direction)
  : M bstate Z :=
  let write := direction_eqb direction DMA_BIDIRECTIONAL
               || direction_eqb direction DMA_TO_DEVICE in
  r <- dma_resv_wait_timeout (dma_resv_usage_rw write) true
                             MAX_SCHEDULE_TIMEOUT ;;
  if r <? 0 then ret r else ret 0.

Definition dma_buf_begin_cpu_access (direction : dma_data_direction)
  : M bstate Z :=
  b <- gets buf ;;
  r <- match begin_cpu_access (ops b) with
       | Some h => call_hook (EvBeginCpuAccess direction) (h direction)
       | None => ret 0
       end ;;
  if r =? 0 then __dma_buf_begin_cpu_access direction else ret r.

Definition dma_buf_end_cpu_access (direction : dma_data_direction)
  : M bstate Z :=
  b <- gets buf ;;
  match end_cpu_access (ops b) with
  | Some h => call_hook (EvEndCpuAccess direction) (h direction)
  | None => ret 0
  end.

(** ** mmap *)

(** dma_buf_mmap_internal() on the file of the buffer (any other file gets
    -EINVAL). *)
Definition dma_buf_mmap_internal (vma : vm_area_struct) : M bstate Z :=
  b <- gets buf ;;
  match mmap (ops b) with
  | None => ret (- EINVAL)
  | Some h =>
      if wrap64 (vm_pgoff vma + vma_pages vma) >? Z.shiftr (size b) PAGE_SHIFT
      then ret (- EINVAL)
      else call_hook (EvMmap vma) (h vma)
  end.

(** Modelled from the spec: vma_set_file() of mm/util.c, part of the
    "translation of the buffer into a process address space": the vma
    takes a reference on the file of the buffer and gives up the one it
    held on its old file.  [vm_file] names a file by its inode number; the
    count of a file other than the one of the buffer is not part of the
    state. *)
Definition vma_set_file (vma : vm_area_struct) : M bstate vm_area_struct :=
  get_file ;;
  b <- gets buf ;;
  (if vm_file vma =? i_ino (dmabuf_file b) then fput else ret tt) ;;
  ret {| vm_start := vm_start vma; vm_end := vm_end vma;
         vm_pgoff := vm_pgoff vma;
         vm_file := i_ino (dmabuf_file b) |}.

Definition dma_buf_mmap (area : option vm_area_struct) (pgoff : Z)
  : M bstate Z :=
  match area with
  | None => emit EvWarn ;; ret (- EINVAL)
  | Some vma =>
      b <- gets buf ;;
      match mmap (ops b) with
      | None => ret (- EINVAL)
      | Some h =>
          if wrap64 (pgoff + vma_pages vma) <? pgoff then ret (- EOVERFLOW)
          else if wrap64 (pgoff + vma_pages vma) >? Z.shiftr (size b) PAGE_SHIFT
          then ret (- EINVAL)
          else
            vma <- vma_set_file vma ;;
            let vma := {| vm_start := vm_start vma; vm_end := vm_end vma;
                          vm_pgoff := pgoff;
                          vm_file := vm_file vma |} in
            call_hook (EvMmap vma) (h vma)
      end
  end.

(** ** vmap *)

(** Returns the return value and what is left in [*map]; the call of the
    vmap callback is logged with what it returned. *)
Definition dma_buf_vmap : M bstate (Z * iosys_map) :=
  b <- gets buf ;;
  match vmap (ops b) with
  | None => ret (- EINVAL, iosys_map_null)
  | Some h =>
      if negb (vmapping_counter b =? 0) then
        modify_buf (set_vmap (wrap32 (vmapping_counter b + 1)) (vmap_ptr b)) ;;
        BUG_ON (iosys_map_is_null (vmap_ptr b)) ;;
        ret (0, vmap_ptr b)
      else
        BUG_ON (iosys_map_is_set (vmap_ptr b)) ;;
        '(r, ptr) <- (fun s => let '(v, x) := h (get_xstate (buf s)) in
                               Done v {| buf := set_xstate x (buf s);
                                         benv := benv s |}) ;;
        emit (EvVmap r ptr) ;;
        w <- WARN_ON_ONCE ONCE_VMAP_FAILED (negb (r =? 0)) ;;
        if w then ret (r, iosys_map_null)
        else
          modify_buf (set_vmap 1 ptr) ;;
          ret (0, ptr)
  end.

Definition dma_buf_vunmap (m : iosys_map) : M bstate unit :=
  b <- gets buf ;;
  BUG_ON (iosys_map_is_null (vmap_ptr b)) ;;
  BUG_ON (vmapping_counter b =? 0) ;;
  BUG_ON (negb (iosys_map_is_equal (vmap_ptr b) m)) ;;
  let n := wrap32 (vmapping_counter b - 1) in
  modify_buf (set_vmap n (vmap_ptr b)) ;;
  if n =? 0 then
    match vunmap (ops b) with
    | Some h => call_hook (EvVunmap m) (h m)
    | None => ret tt
    end ;;
    modify_buf (fun b => set_vmap (vmapping_counter b) iosys_map_null b)
  else ret tt.

(** ** Export *)

Record dma_buf_export_info := {
  exp_owner : option Z;
  exp_ops : option dma_buf_ops;
  exp_size : Z;
  exp_flags : Z;
  exp_resv : option dma_resv;
  exp_priv : option P
}.

(** The global state export works on: the list of all buffers
    ([dmabuf_list]), the inode counter of dma_buf_getfile(), the modules
    that can still be referenced with the references taken on them, and
    the environment. *)
Record kstate := {
  dmabuf_list : list dma_buf;
  dmabuf_inode : Z;
  module_live : Z -> bool;
  module_refs : list Z;
  kenv : env
}.

#[export] Instance kstate_env : HasEnv kstate := {
  get_env := kenv;
  set_env := fun e k =>
    {| dmabuf_list := dmabuf_list k; dmabuf_inode := dmabuf_inode k;
       module_live := module_live k; module_refs := module_refs k;
       kenv := e |}
}.

Definition __dma_buf_list_add (dmabuf : dma_buf) : M kstate unit :=
  modify (fun k =>
    {| dmabuf_list := dmabuf :: dmabuf_list k; dmabuf_inode := dmabuf_inode k;
       module_live := module_live k; module_refs := module_refs k;
       kenv := kenv k |}).

(** try_module_get(): true for no module, and for a live module, on which
    it takes a reference. *)
Definition try_module_get (m : option Z) : M kstate bool :=
  match m with
  | None => ret true
  | Some id =>
      live <- gets (fun k => module_live k id) ;;
      if live then
        modify (fun k =>
          {| dmabuf_list := dmabuf_list k; dmabuf_inode := dmabuf_inode k;
             module_live := module_live k; module_refs := id :: module_refs k;
             kenv := kenv k |}) ;;
        ret true
      else ret false
  end.

Fixpoint remove_one (id : Z) (l : list Z) : list Z :=
  match l with
  | [] => []
  | x :: rest => if x =? id then rest else x :: remove_one id rest
  end.

Definition module_put (m : option Z) : M kstate unit :=
  match m with
  | None => ret tt
  | Some id =>
      modify (fun k =>
        {| dmabuf_list := dmabuf_list k; dmabuf_inode := dmabuf_inode k;
           module_live := module_live k;
           module_refs := remove_one id (module_refs k);
           kenv := kenv k |})
  end.

Definition O_ACCMODE : Z := 3.
Definition O_NONBLOCK : Z := 2048.

(** alloc_anon_inode() and alloc_file_pseudo() succeed or return an
    ERR_PTR, as the environment decides. *)
Definition dma_buf_getfile (sz flags : Z) : M kstate (err_ptr file) :=
  r <- next_alloc ;;
  if negb (r =? 0) then ret (ERR_PTR r)
  else
    modify (fun k =>
      {| dmabuf_list := dmabuf_list k; dmabuf_inode := dmabuf_inode k + 1;
         module_live := module_live k; module_refs := module_refs k;
         kenv := kenv k |}) ;;
    ino <- gets dmabuf_inode ;;
    let flags := Z.land flags (Z.lor O_ACCMODE O_NONBLOCK) in
    r <- next_alloc ;;
    if negb (r =? 0) then ret (ERR_PTR r)
    else ret (Ptr {| f_count := 1; f_flags := flags; i_ino := ino |}).

(** dma_buf_stats_setup() of dma-buf-sysfs-stats.c: 0 or a negative errno,
    as the environment decides. *)
Definition dma_buf_stats_setup : M kstate Z := next_alloc.

Definition is_null {A} (o : option A) : bool :=
  match o with
  | None => true
  | Some _ => false
  end.

(** The error paths give back what was taken: the module reference
    (the file and the memory are not part of the state).  The last case of
    the inner match is excluded by the first check. *)
Definition dma_buf_export (exp_info : dma_buf_export_info)
  : M kstate (err_ptr dma_buf) :=
  w <- WARN_ON (match exp_priv exp_info, exp_ops exp_info with
                | Some _, Some o =>
                    is_null (map_dma_buf o) || is_null (unmap_dma_buf o)
                    || is_null (release o)
                | _, _ => true
                end) ;;
  if w then ret (ERR_PTR (- EINVAL))
  else
    w <- WARN_ON (match exp_ops exp_info with
                  | Some o => negb (Bool.eqb (is_null (pin o)) (is_null (unpin o)))
                  | None => true
                  end) ;;
    if w then ret (ERR_PTR (- EINVAL))
    else
      live <- try_module_get (exp_owner exp_info) ;;
      if negb live then ret (ERR_PTR (- ENOENT))
      else
        f <- dma_buf_getfile (exp_size exp_info) (exp_flags exp_info) ;;
        match f, exp_priv exp_info, exp_ops exp_info with
        | Ptr fl, Some pv, Some o =>
            p <- kzalloc ;;
            match p with
            | None =>
                module_put (exp_owner exp_info) ;;
                ret (ERR_PTR (- ENOMEM))
            | Some _ =>
                let dmabuf :=
                  {| priv := pv; ops := o; size := exp_size exp_info;
                     owner := exp_owner exp_info;
                     resv := match exp_resv exp_info with
                             | None => dma_resv_init
                             | Some r => r
                             end;
                     cb_in_active := 0; cb_out_active := 0;
                     attachments := [];
                     vmapping_counter := 0; vmap_ptr := iosys_map_null;
                     dmabuf_file := fl |} in
                r <- dma_buf_stats_setup ;;
                if negb (r =? 0) then
                  module_put (exp_owner exp_info) ;;
                  ret (ERR_PTR r)
                else
                  __dma_buf_list_add dmabuf ;;
                  ret (Ptr dmabuf)
            end
        | ERR_PTR e, _, _ =>
            module_put (exp_owner exp_info) ;;
            ret (ERR_PTR e)
        | _, _, _ => BUG
        end.

(** ** Predicates used to state the properties *)

(** The events a call added to the trace. *)
Definition new_events (s s' : bstate) (evs : list event) : Prop :=
  trace (benv s') = trace (benv s) ++ evs.

(** The usage class an access direction has to wait for: read-only access
    the write-usage fences, write or bidirectional access all fences. *)
Definition access_usage (direction : dma_data_direction) : dma_resv_usage :=
  match direction with
  | DMA_BIDIRECTIONAL | DMA_TO_DEVICE => DMA_RESV_USAGE_READ
  | DMA_FROM_DEVICE | DMA_NONE => DMA_RESV_USAGE_WRITE
  end.

(** Every fence covered by [u] has completed. *)
Definition covered_signaled (u : dma_resv_usage) (r : dma_resv) : Prop :=
  forall e, In e (fences r) ->
            usage_covers u (e_usage e) = true -> signaled (e_fence e) = true.

(** [after] holds the same fences as [before], and those not covered by
    [u] are exactly as they were. *)
Definition uncovered_untouched (u : dma_resv_usage)
           (before after : list resv_entry) : Prop :=
  Forall2 (fun e e' =>
             e_usage e' = e_usage e /\
             fence_id (e_fence e') = fence_id (e_fence e) /\
             (usage_covers u (e_usage e) = false -> e' = e))
          before after.

(** The reservation object as the begin_cpu_access callback leaves it. *)
Definition resv_after_begin_hook (direction : dma_data_direction)
           (b : dma_buf) : dma_resv :=
  match begin_cpu_access (ops b) with
  | Some h => x_resv (snd (h direction (get_xstate b)))
  | None => resv b
  end.

(** What a wait leaves alone. *)
Definition same_frame (s s' : bstate) : Prop :=
  ops (buf s') = ops (buf s) /\
  attachments (buf s') = attachments (buf s) /\
  size (buf s') = size (buf s) /\
  vmapping_counter (buf s') = vmapping_counter (buf s) /\
  vmap_ptr (buf s') = vmap_ptr (buf s).

(** The trace of the begin_cpu_access callback, when there is one. *)
Definition begin_hook_events (direction : dma_data_direction) (b : dma_buf)
  : list event :=
  match begin_cpu_access (ops b) with
  | Some _ => [EvBeginCpuAccess direction]
  | None => []
  end.

(** What dma_buf_export() checks of a capability table: the three
    mandatory callbacks are there, pin and unpin come together. *)
Definition ops_valid (o : dma_buf_ops) : Prop :=
  is_null (map_dma_buf o) = false /\
  is_null (unmap_dma_buf o) = false /\
  is_null (release o) = false /\
  is_null (pin o) = is_null (unpin o).

(** ** The paths through dma_buf_map_attachment() *)

(** What WARN_ON_ONCE(c) at [site] adds to the trace [tr]. *)
Definition once_events (site : once_site) (c : bool) (tr : list event)
  : list event :=
  if c && negb (existsb (is_warn_once site) tr) then [EvWarnOnce site] else [].

Definition pin_events (a : Z) : list event := [EvPin a].

(** The implicit pin: its return value, the exporter's state after it and
    its trace; no pin counts as success. *)
Definition pin_stage (b : dma_buf) (att : dma_buf_attachment)
  : Z * xstate * list event :=
  if dma_buf_pin_on_map b att then
    match pin (ops b) with
    | Some h => let '(r, x) := h (a_addr att) (get_xstate b) in
                (r, x, pin_events (a_addr att))
    | None => (0, get_xstate b, [])
    end
  else (0, get_xstate b, []).

Definition unpin_events (b : dma_buf) (att : dma_buf_attachment) : list event :=
  if dma_buf_pin_on_map b att then [EvUnpin (a_addr att)] else [].

Definition debug_events (t : sg_table) : list event :=
  if CONFIG_DMA_API_DEBUG cfg then
    flat_map (fun sg => if negb (PAGE_ALIGNED (dma_address sg))
                           || negb (PAGE_ALIGNED (dma_length sg))
                        then [EvPrDebug (dma_address sg) (dma_length sg)]
                        else []) t
  else [].

(** The error a failed map_dma_buf callback stands for. *)
Definition map_hook_error (p : sgt_ptr) : option Z :=
  match p with
  | SgNull => Some (- ENOMEM)
  | SgErr e => Some e
  | SgTable _ => None
  end.

Inductive map_path (s : bstate) (att : dma_buf_attachment)
          (direction : dma_data_direction)
  : sgt_ptr -> bstate -> list event -> Prop :=
| MapPinFailed r x pre s' :
    pin_stage (buf s) att = (r, x, pre) ->
    r <> 0 ->
    get_xstate (buf s') = x ->
    map_path s att direction (SgErr r) s'
             (pre ++ once_events ONCE_PIN_EBUSY (r =? - EBUSY)
                                 (trace (benv s)))
| MapHookFailed x1 pre hm pm x2 e s' :
    pin_stage (buf s) att = (0, x1, pre) ->
    map_dma_buf (ops (buf s)) = Some hm ->
    hm (a_addr att) direction x1 = (pm, x2) ->
    map_hook_error pm = Some e ->
    map_path s att direction (SgErr e) s'
             (pre ++ [EvMapDmaBuf (a_addr att) direction]
                  ++ unpin_events (buf s) att)
| MapWaitFailed x1 pre hm t x2 s' :
    pin_stage (buf s) att = (0, x1, pre) ->
    map_dma_buf (ops (buf s)) = Some hm ->
    hm (a_addr att) direction x1 = (SgTable t, x2) ->
    dma_buf_attachment_is_dynamic att = false ->
    map_path s att direction (SgErr (- ERESTARTSYS)) s'
             (pre ++ [EvMapDmaBuf (a_addr att) direction;
                      EvResvWait DMA_RESV_USAGE_KERNEL true MAX_SCHEDULE_TIMEOUT;
                      EvSleep;
                      EvUnmapDmaBuf (a_addr att) t direction]
                  ++ unpin_events (buf s) att)
| MapDynamic x1 pre hm t x2 s' :
    pin_stage (buf s) att = (0, x1, pre) ->
    map_dma_buf (ops (buf s)) = Some hm ->
    hm (a_addr att) direction x1 = (SgTable t, x2) ->
    dma_buf_attachment_is_dynamic att = true ->
    get_xstate (buf s') = x2 ->
    map_path s att direction (SgTable (mangle_sg_table t)) s'
             (pre ++ [EvMapDmaBuf (a_addr att) direction]
                  ++ debug_events (mangle_sg_table t))
| MapStatic x1 pre hm t x2 tail s' :
    pin_stage (buf s) att = (0, x1, pre) ->
    map_dma_buf (ops (buf s)) = Some hm ->
    hm (a_addr att) direction x1 = (SgTable t, x2) ->
    dma_buf_attachment_is_dynamic att = false ->
    (forall u i w, ~ In (EvResvWait u i w) tail) ->
    covered_signaled DMA_RESV_USAGE_KERNEL (resv (buf s')) ->
    uncovered_untouched DMA_RESV_USAGE_KERNEL
                        (fences (x_resv x2)) (fences (resv (buf s'))) ->
    (existsb (entry_pending DMA_RESV_USAGE_KERNEL) (fences (x_resv x2)) = false ->
     tail = []) ->
    map_path s att direction (SgTable (mangle_sg_table t)) s'
             (pre ++ [EvMapDmaBuf (a_addr att) direction;
                      EvResvWait DMA_RESV_USAGE_KERNEL true MAX_SCHEDULE_TIMEOUT]
                  ++ tail ++ debug_events (mangle_sg_table t)).

(** Page alignment of the addresses and lengths of a table. *)
Definition sg_aligned (t : sg_table) : bool :=
  forallb (fun sg => PAGE_ALIGNED (dma_address sg)
                     && PAGE_ALIGNED (dma_length sg)) t.

(** The bytes a table covers. *)
Definition sg_total_length (t : sg_table) : Z :=
  fold_right (fun sg acc => dma_length sg + acc) 0 t.

(** ** Attachment lists *)

(** What dma_buf_dynamic_attach() guarantees of the list: an attachment is
    linked once, and one with importer_ops has a move_notify callback. *)
Definition attachments_wf (l : list dma_buf_attachment) : Prop :=
  NoDup (map a_addr l) /\
  Forall (fun att => forall o, importer_ops att = Some o ->
                               is_null (move_notify o) = false) l.

(** How often the move_notify callback of attachment [a] was called. *)
Definition move_notify_count (a : Z) (evs : list event) : nat :=
  length (filter (fun ev => match ev with
                            | EvMoveNotify a' => a' =? a
                            | _ => false
                            end) evs).

(** ** Importing fences *)

Definition import_usage (flags : Z) : dma_resv_usage :=
  if Z.land flags DMA_BUF_SYNC_WRITE =? 0
  then DMA_RESV_USAGE_READ else DMA_RESV_USAGE_WRITE.

Definition tagged (u : dma_resv_usage) (l : list dma_fence) : list resv_entry :=
  map (fun f => {| e_fence := f; e_usage := u |}) l.

(** Everything of a buffer but its reservation object. *)
Definition buf_rest (b : dma_buf) :=
  (priv b, ops b, size b, owner b, cb_in_active b, cb_out_active b,
   attachments b, vmapping_counter b, vmap_ptr b, dmabuf_file b).

(** The size of the buffer in pages, [dmabuf->size >> PAGE_SHIFT]. *)
Definition size_in_pages (b : dma_buf) : Z := Z.shiftr (size b) PAGE_SHIFT.

(** ** vmap bookkeeping *)

(** The stored pointer is set exactly when the counter is positive. *)
Definition vmap_inv (b : dma_buf) : Prop :=
  iosys_map_is_set (vmap_ptr b) = (0 <? vmapping_counter b).

Inductive vmap_call :=
| CallVmap
| CallVunmap (m : iosys_map).

Fixpoint run_vmap_calls (l : list vmap_call) : M bstate unit :=
  match l with
  | [] => ret tt
  | CallVmap :: rest => dma_buf_vmap ;; run_vmap_calls rest
  | CallVunmap m :: rest => dma_buf_vunmap m ;; run_vmap_calls rest
  end.

(** The mappings the exporter has made and not yet been asked to undo:
    successful vmap callbacks minus vunmap callbacks. *)
Fixpoint exporter_mappings (evs : list event) : Z :=
  match evs with
  | [] => 0
  | EvVmap r _ :: rest =>
      (if r =? 0 then 1 else 0) + exporter_mappings rest
  | EvVunmap _ :: rest => exporter_mappings rest - 1
  | _ :: rest => exporter_mappings rest
  end.

(** The state of the bookkeeping when the exporter has [n] mappings
    outstanding. *)
Definition vmap_state_ok (b : dma_buf) (n : Z) : Prop :=
  (n = 0 /\ vmapping_counter b = 0 /\ iosys_map_is_set (vmap_ptr b) = false)
  \/ (n = 1 /\ (vmapping_counter b <> 0 \/ iosys_map_is_set (vmap_ptr b) = true)).

(** ** Poll callbacks *)

(** How many fences hold the callback [dcb]: the armed callbacks of a
    direction. *)
Fixpoint armed (dcb : poll_cb) (l : list resv_entry) : nat :=
  match l with
  | [] => 0
  | e :: rest =>
      (count_occ poll_cb_eq_dec (cb_list (e_fence e)) dcb + armed dcb rest)%nat
  end.

Definition no_cb_when_signaled (l : list resv_entry) : Prop :=
  forall e, In e l -> signaled (e_fence e) = true -> cb_list (e_fence e) = [].

(** A completed fence holds no callback, and a direction is marked active
    exactly when its callback is queued, on one fence. *)
Definition poll_inv (b : dma_buf) : Prop :=
  no_cb_when_signaled (fences (resv b)) /\
  forall dcb,
    (cb_active dcb b = 0 /\ armed dcb (fences (resv b)) = 0%nat) \/
    (cb_active dcb b <> 0 /\ armed dcb (fences (resv b)) = 1%nat).

(** What can happen to the fences and callbacks of a buffer: a poll, the
    owner of the fence at position [i] signalling it, a wait, and a new
    fence being added. *)
Inductive poll_step :=
| StepPoll (requested : Z)
| StepSignal (i : nat)
| StepWait (u : dma_resv_usage)
| StepAddFence (id : Z) (done : bool) (u : dma_resv_usage).

Fixpoint signal_nth (i : nat) (l : list resv_entry) {struct l}
  : list resv_entry * list poll_cb :=
  match l, i with
  | [], _ => ([], [])
  | e :: rest, O => let '(e', cbs) := entry_signal e in (e' :: rest, cbs)
  | e :: rest, S j => let '(rest', cbs) := signal_nth j rest in (e :: rest', cbs)
  end.

Definition dma_fence_signal_nth (i : nat) : M bstate unit :=
  r <- gets (fun s => resv (buf s)) ;;
  let '(l, cbs) := signal_nth i (fences r) in
  modify_buf (set_resv (set_fences l r)) ;;
  run_callbacks cbs.

Definition run_poll_step (st : poll_step) : M bstate unit :=
  match st with
  | StepPoll requested => dma_buf_poll requested ;; ret tt
  | StepSignal i => dma_fence_signal_nth i
  | StepWait u => dma_resv_wait_timeout u true MAX_SCHEDULE_TIMEOUT ;; ret tt
  | StepAddFence id done u =>
      r <- dma_resv_reserve_fences 1 ;;
      if r =? 0
      then dma_resv_add_fence {| fence_id := id; signaled := done;
                                 cb_list := [] |} u
      else ret tt
  end.

Fixpoint run_poll_steps (l : list poll_step) : M bstate unit :=
  match l with
  | [] => ret tt
  | st :: rest => run_poll_step st ;; run_poll_steps rest
  end.

(** The invariant of the attachment list over attach and detach: the list
    is well formed and its addresses have all been handed out. *)
Definition attach_inv (s : bstate) : Prop :=
  attachments_wf (attachments (buf s)) /\
  Forall (fun att => a_addr att < next_addr (benv s)) (attachments (buf s)).

(** ** The calls of the interface, as a sequence

    What an importer, an exporter or the VFS can call on a live buffer. *)

Inductive dma_buf_call :=
| DoDynamicAttach (device : option Z) (iops : option dma_buf_attach_ops)
                    (ipriv : option Q)
| DoDetach (attachment : option dma_buf_attachment)
| DoPin (att : dma_buf_attachment)
| DoUnpin (att : dma_buf_attachment)
| DoMapAttachment (attachment : option dma_buf_attachment)
                    (direction : dma_data_direction)
| DoUnmapAttachment (attachment : option dma_buf_attachment)
                      (table : option sg_table)
                      (direction : dma_data_direction)
| DoMoveNotify
| DoBeginCpuAccess (direction : dma_data_direction)
| DoEndCpuAccess (direction : dma_data_direction)
| DoMmapInternal (vma : vm_area_struct)
| DoMmap (area : option vm_area_struct) (pgoff : Z)
| DoVmap
| DoVunmap (m : iosys_map)
| DoPoll (requested : Z)
| DoImportSyncFile (sync_file_get_fence : Z -> option fence_handle)
                     (user_data : option dma_buf_import_sync_file_arg).

Definition run_call (c : dma_buf_call) : M bstate unit :=
  match c with
  | DoDynamicAttach device iops ipriv =>
      dma_buf_dynamic_attach device iops ipriv ;; ret tt
  | DoDetach attachment => dma_buf_detach attachment
  | DoPin att => dma_buf_pin att ;; ret tt
  | DoUnpin att => dma_buf_unpin att
  | DoMapAttachment attachment direction =>
      dma_buf_map_attachment attachment direction ;; ret tt
  | DoUnmapAttachment attachment table direction =>
      dma_buf_unmap_attachment attachment table direction
  | DoMoveNotify => dma_buf_move_notify
  | DoBeginCpuAccess direction => dma_buf_begin_cpu_access direction ;; ret tt
  | DoEndCpuAccess direction => dma_buf_end_cpu_access direction ;; ret tt
  | DoMmapInternal vma => dma_buf_mmap_internal vma ;; ret tt
  | DoMmap area pgoff => dma_buf_mmap area pgoff ;; ret tt
  | DoVmap => dma_buf_vmap ;; ret tt
  | DoVunmap m => dma_buf_vunmap m
  | DoPoll requested => dma_buf_poll requested ;; ret tt
  | DoImportSyncFile get user_data =>
      dma_buf_import_sync_file get user_data ;; ret tt
  end.

Fixpoint run_calls (l : list dma_buf_call) : M bstate unit :=
  match l with
  | [] => ret tt
  | c :: rest => run_call c ;; run_calls rest
  end.

(** What dma_buf_export() fixes for the life of a buffer: the capability
    table, the size, the owning module and the identity of the file. *)
Definition same_identity (b b' : dma_buf) : Prop :=
  ops b' = ops b /\ size b' = size b /\ owner b' = owner b /\
  i_ino (dmabuf_file b') = i_ino (dmabuf_file b) /\
  f_flags (dmabuf_file b') = f_flags (dmabuf_file b).

(** ** File references held by poll callbacks *)

(** The callbacks queued on the fences of a reservation object. *)
Fixpoint queued_callbacks (l : list resv_entry) : Z :=
  match l with
  | [] => 0
  | e :: rest => Z.of_nat (length (cb_list (e_fence e))) + queued_callbacks rest
  end.

(** The references on the file of a buffer that are not held for a queued
    poll callback. *)
Definition other_refs (b : dma_buf) : Z :=
  f_count (dmabuf_file b) - queued_callbacks (fences (resv b)).

(** A computation is said to preserve a relation between states when every
    return of it relates the state before to the state after. *)
Definition preserves (R : bstate -> bstate -> Prop) {A} (m : M bstate A)
  : Prop :=
  forall s a s', m s = Done a s' -> R s s'.

Definition identity_kept (s s' : bstate) : Prop :=
  same_identity (buf s) (buf s').

(** The attachment list is as it was, and no address has been given
    back to the allocator. *)
Definition attachments_kept (s s' : bstate) : Prop :=
  attachments (buf s') = attachments (buf s) /\
  next_addr (benv s) <= next_addr (benv s').

(** The arguments dma_buf_dynamic_attach() refuses: no device, or
    importer_ops without a move_notify callback. *)
Definition attach_args_invalid (device : option Z)
           (iops : option dma_buf_attach_ops) : Prop :=
  device = None \/ exists o, iops = Some o /\ is_null (move_notify o) = true.

(** The next allocation fails: the environment answers it with an errno. *)
Definition alloc_fails (e : env) : Prop :=
  exists a rest, alloc_results e = a :: rest /\ a <> 0.

(** The calls that work on the attachment list. *)
Definition touches_attachments (c : dma_buf_call) : bool :=
  match c with
  | DoDynamicAttach _ _ _ | DoDetach _ | DoMoveNotify => true
  | _ => false
  end.

(** ** Readiness *)

(** The usage class whose fences a direction of poll looks at: EPOLLOUT
    all fences, EPOLLIN the write fences. *)
Definition poll_write (dcb : poll_cb) : bool :=
  match dcb with
  | CB_OUT => true
  | CB_IN => false
  end.

(** A direction is ready when its callback is not queued and no fence it
    looks at is pending. *)
Definition poll_ready (b : dma_buf) (dcb : poll_cb) : bool :=
  (cb_active dcb b =? 0)
  && negb (existsb (entry_pending (dma_resv_usage_rw (poll_write dcb)))
                   (fences (resv b))).

(** The directions marked active. *)
Definition active_callbacks (b : dma_buf) : Z :=
  (if cb_in_active b =? 0 then 0 else 1)
  + (if cb_out_active b =? 0 then 0 else 1).

(** ** The global list of buffers

    A [struct dma_buf *] into [dmabuf_list] is represented by the inode
    number of the file of the buffer, which dma_buf_getfile() takes from a
    counter of its own. *)

Definition dmabuf_ino (d : dma_buf) : Z := i_ino (dmabuf_file d).

Definition set_dmabuf_list (l : list dma_buf) (k : kstate) : kstate :=
  {| dmabuf_list := l; dmabuf_inode := dmabuf_inode k;
     module_live := module_live k; module_refs := module_refs k;
     kenv := kenv k |}.

Definition __dma_buf_list_del (dmabuf : option Z) : M kstate unit :=
  match dmabuf with
  | None => ret tt
  | Some ino =>
      modify (fun k =>
        set_dmabuf_list
          (filter (fun d => negb (dmabuf_ino d =? ino)) (dmabuf_list k)) k)
  end.

(** [file->f_op]: the file operations of this file or those of some other
    kind of file. *)
Inductive file_operations := dma_buf_fops | foreign_fops.

Definition is_dma_buf_file (f_op : file_operations) : bool :=
  match f_op with
  | dma_buf_fops => true
  | foreign_fops => false
  end.

(** [private_data] is [file->private_data], the buffer of the file. *)
Definition dma_buf_file_release (f_op : file_operations)
           (private_data : option Z) : M kstate Z :=
  if negb (is_dma_buf_file f_op) then ret (- EINVAL)
  else
    __dma_buf_list_del private_data ;;
    ret 0.

(** The loop of dma_buf_iter_begin() and dma_buf_iter_next() over (the rest
    of) the list: the first buffer on whose file file_ref_get() succeeds,
    that is, whose count has not dropped to zero, with the reference
    taken. *)
Fixpoint first_file_ref_get (l : list dma_buf) : option Z * list dma_buf :=
  match l with
  | [] => (None, [])
  | d :: rest =>
      if 0 <? f_count (dmabuf_file d)
      then (Some (dmabuf_ino d),
            set_f_count (f_count (dmabuf_file d) + 1) d :: rest)
      else let '(r, rest') := first_file_ref_get rest in (r, d :: rest')
  end.

Definition dma_buf_iter_begin : M kstate (option Z) :=
  l <- gets dmabuf_list ;;
  let '(r, l') := first_file_ref_get l in
  modify (set_dmabuf_list l') ;;
  ret r.

(** The list around the buffer a pointer stands for. *)
Fixpoint split_at_ino (ino : Z) (l : list dma_buf)
  : option (list dma_buf * dma_buf * list dma_buf) :=
  match l with
  | [] => None
  | d :: rest =>
      if dmabuf_ino d =? ino then Some ([], d, rest)
      else match split_at_ino ino rest with
           | Some (before, x, after) => Some (d :: before, x, after)
           | None => None
           end
  end.

(** dma_buf_iter_next(): dma_buf_put() on the buffer handed in, then the
    loop over the buffers after it.  The last reference of a file that is
    dropped here leaves the buffer on the list, with a count of zero, until
    dma_buf_file_release() runs.  A pointer to a buffer that is not on the
    list is outside of what is modelled. *)
Definition dma_buf_iter_next (dmabuf : Z) : M kstate (option Z) :=
  l <- gets dmabuf_list ;;
  match split_at_ino dmabuf l with
  | None => BUG
  | Some (before, d, after) =>
      let d' := set_f_count (f_count (dmabuf_file d) - 1) d in
      let '(r, after') := first_file_ref_get after in
      modify (set_dmabuf_list (before ++ d' :: after')) ;;
      ret r
  end.

(** A walk over the list as its users make it: dma_buf_iter_begin(), then
    dma_buf_iter_next() until it returns NULL; the buffers visited, in
    order. *)
Fixpoint iter_rest (fuel : nat) (cur : option Z) : M kstate (list Z) :=
  match cur, fuel with
  | None, _ => ret []
  | Some _, O => ret []
  | Some d, S n =>
      nxt <- dma_buf_iter_next d ;;
      rest <- iter_rest n nxt ;;
      ret (d :: rest)
  end.

Definition iter_all (fuel : nat) : M kstate (list Z) :=
  first <- dma_buf_iter_begin ;;
  iter_rest fuel first.

(** dma_buf_release(), the d_release operation of the dentry of the file;
    [d_fsdata] is the buffer, which by now is off the list.  Returns what
    the release callback left of the exporter's state ([None] when there
    was no buffer).  dma_buf_stats_teardown() and the dma_resv_fini() of an
    own reservation object change nothing of what is modelled. *)
Definition dma_buf_release (d_fsdata : option dma_buf)
  : M kstate (option xstate) :=
  match d_fsdata with
  | None => ret None
  | Some dmabuf =>
      BUG_ON (negb (vmapping_counter dmabuf =? 0)) ;;
      BUG_ON (negb (cb_in_active dmabuf =? 0)
              || negb (cb_out_active dmabuf =? 0)) ;;
      match release (ops dmabuf) with
      | None => BUG
      | Some h =>
          let x := snd (h (get_xstate dmabuf)) in
          WARN_ON (match attachments dmabuf with
                   | [] => false
                   | _ :: _ => true
                   end) ;;
          module_put (owner dmabuf) ;;
          ret (Some x)
      end
  end.

(** The calls that work on the global list. *)
Inductive registry_call :=
| RegExport (exp_info : dma_buf_export_info)
| RegFileRelease (f_op : file_operations) (private_data : option Z)
| RegIterBegin
| RegIterNext (dmabuf : Z).

Definition run_registry_call (c : registry_call) : M kstate unit :=
  match c with
  | RegExport exp_info => dma_buf_export exp_info ;; ret tt
  | RegFileRelease f_op private_data =>
      dma_buf_file_release f_op private_data ;; ret tt
  | RegIterBegin => dma_buf_iter_begin ;; ret tt
  | RegIterNext dmabuf => dma_buf_iter_next dmabuf ;; ret tt
  end.

Fixpoint run_registry_calls (l : list registry_call) : M kstate unit :=
  match l with
  | [] => ret tt
  | c :: rest => run_registry_call c ;; run_registry_calls rest
  end.

(** The inode numbers of the buffers on the list are distinct and have all
    been given out by the counter. *)
Definition inode_inv (k : kstate) : Prop :=
  NoDup (map dmabuf_ino (dmabuf_list k)) /\
  Forall (fun d => dmabuf_ino d <= dmabuf_inode k) (dmabuf_list k).

(** The buffers of the list a walk can take a reference on. *)
Definition live_buffers (l : list dma_buf) : list Z :=
  map dmabuf_ino (filter (fun d => 0 <? f_count (dmabuf_file d)) l).

(** ** llseek *)

Definition EBADF : Z := 9.
Definition ENOTTY : Z := 25.
Definition SEEK_SET : Z := 0.
Definition SEEK_END : Z := 2.

(** Conversion to [loff_t], a signed 64-bit integer. *)
Definition to_loff_t (x : Z) : Z := (x + 2 ^ 63) mod 2 ^ 64 - 2 ^ 63.

Definition dma_buf_llseek (f_op : file_operations) (offset whence : Z)
  : M bstate Z :=
  if negb (is_dma_buf_file f_op) then ret (- EBADF)
  else
    b <- gets buf ;;
    match (if whence =? SEEK_END then Some (to_loff_t (size b))
           else if whence =? SEEK_SET then Some 0
           else None) with
    | None => ret (- EINVAL)
    | Some base =>
        if negb (offset =? 0) then ret (- EINVAL)
        else ret (to_loff_t (base + offset))
    end.

(** ** File descriptors and the ioctl interface

    The buffer together with what user space holds on it: the name set by
    DMA_BUF_SET_NAME, and the file descriptor table of the calling process.
    A descriptor is reserved (get_unused_fd_flags()) or installed
    (fd_install()); an installed one refers to the file of the buffer
    ([None]) or to another file, known by an identifier, with a reference
    count and, if it is a sync_file, the fence it carries. *)
Record ustate := {
  u_dma : bstate;
  u_name : option (list Z);
  u_fd_reserved : list Z;
  u_fd_table : list (Z * option Z);
  u_file_refs : Z -> Z;
  u_file_fence : Z -> option fence_handle
}.

Definition set_u_dma (s : bstate) (u : ustate) : ustate :=
  {| u_dma := s; u_name := u_name u; u_fd_reserved := u_fd_reserved u;
     u_fd_table := u_fd_table u; u_file_refs := u_file_refs u;
     u_file_fence := u_file_fence u |}.

#[export] Instance ustate_env : HasEnv ustate := {
  get_env := fun u => benv (u_dma u);
  set_env := fun e u => set_u_dma {| buf := buf (u_dma u); benv := e |} u
}.

(** A function of the buffer, run on the buffer of the user-level state. *)
Definition lift {A} (m : M bstate A) : M ustate A :=
  fun u => match m (u_dma u) with
           | Done a s => Done a (set_u_dma s u)
           | Crash s => Crash (set_u_dma s u)
           end.

Definition set_u_name (n : option (list Z)) (u : ustate) : ustate :=
  {| u_dma := u_dma u; u_name := n; u_fd_reserved := u_fd_reserved u;
     u_fd_table := u_fd_table u; u_file_refs := u_file_refs u;
     u_file_fence := u_file_fence u |}.

Definition set_u_fds (reserved : list Z) (table : list (Z * option Z))
           (u : ustate) : ustate :=
  {| u_dma := u_dma u; u_name := u_name u; u_fd_reserved := reserved;
     u_fd_table := table; u_file_refs := u_file_refs u;
     u_file_fence := u_file_fence u |}.

Definition set_u_file (id : Z) (refs : Z) (fence : option fence_handle)
           (u : ustate) : ustate :=
  {| u_dma := u_dma u; u_name := u_name u;
     u_fd_reserved := u_fd_reserved u; u_fd_table := u_fd_table u;
     u_file_refs := fun i => if i =? id then refs else u_file_refs u i;
     u_file_fence := fun i => if i =? id then fence else u_file_fence u i |}.

(** Modelled from the spec: get_unused_fd_flags() of fs/file.c, the
    "allocation of the handle slot" of the handle-numbering boundary: a
    descriptor that is not in use, which stays reserved, or a negative
    errno ("resource-exhausted"), as the environment decides. *)
Definition get_unused_fd_flags : M ustate Z :=
  r <- next_alloc ;;
  if r <? 0 then ret r
  else
    fun u => let '(fd, e) := env_bump (get_env u) in
             Done fd (set_u_fds (fd :: u_fd_reserved u) (u_fd_table u)
                                (set_env e u)).

(** Modelled from the spec: put_unused_fd() of fs/file.c gives a reserved
    descriptor back, so that no "half-published handle" is left. *)
Definition put_unused_fd (fd : Z) : M ustate unit :=
  modify (fun u => set_u_fds (remove_one fd (u_fd_reserved u))
                             (u_fd_table u) u).

(** Modelled from the spec: fd_install() of fs/file.c publishes the
    handle: the reserved descriptor now refers to the file, whose reference
    it takes over. *)
Definition fd_install (fd : Z) (f : option Z) : M ustate unit :=
  modify (fun u => set_u_fds (remove_one fd (u_fd_reserved u))
                             ((fd, f) :: u_fd_table u) u).

Fixpoint fd_lookup (fd : Z) (t : list (Z * option Z)) : option (option Z) :=
  match t with
  | [] => None
  | (fd', f) :: rest => if fd' =? fd then Some f else fd_lookup fd rest
  end.

(** Modelled from the spec: fget() of fs/file.c, the lookup by handle: the
    file behind a descriptor, with a reference taken, or NULL for a
    descriptor that is not open ("not-found"). *)
Definition fget (fd : Z) : M ustate (option (option Z)) :=
  t <- gets u_fd_table ;;
  match fd_lookup fd t with
  | None => ret None
  | Some None => lift get_file ;; ret (Some None)
  | Some (Some id) =>
      modify (fun u => set_u_file id (u_file_refs u id + 1)
                                  (u_file_fence u id) u) ;;
      ret (Some (Some id))
  end.

(** Modelled from the spec: fput() of fs/file_table.c on a file other than
    the one of the buffer drops one reference. *)
Definition fput_file (id : Z) : M ustate unit :=
  modify (fun u => set_u_file id (u_file_refs u id - 1) (u_file_fence u id) u).

(** [dmabuf] and [dmabuf->file] are not NULL for a buffer dma_buf_export()
    returned, the case modelled. *)
Definition dma_buf_fd (flags : Z) : M ustate Z :=
  fd <- get_unused_fd_flags ;;
  if fd <? 0 then ret fd
  else
    fd_install fd None ;;
    ret fd.

Definition dma_buf_get (fd : Z) : M ustate (err_ptr unit) :=
  f <- fget fd ;;
  match f with
  | None => ret (ERR_PTR (- EBADF))
  | Some None => ret (Ptr tt)
  | Some (Some id) =>
      fput_file id ;;
      ret (ERR_PTR (- EINVAL))
  end.

Definition dma_buf_put : M ustate unit := lift fput.

(** dma_buf_set_name(); [name] is what strndup_user() returned. *)
Definition dma_buf_set_name (name : err_ptr (list Z)) : M ustate Z :=
  match name with
  | ERR_PTR e => ret e
  | Ptr n =>
      modify (set_u_name (Some n)) ;;
      ret 0
  end.

Record dma_buf_export_sync_file_arg := {
  export_flags : Z;
  export_fd : Z
}.

(** One fence standing for a list of fences. *)
Fixpoint fence_merge (f : dma_fence) (l : list dma_fence) : fence_handle :=
  match l with
  | [] => FenceOne f
  | g :: rest => FenceMerge (FenceOne f) (fence_merge g rest)
  end.

(** Modelled from the spec: dma_resv_get_singleton() of
    drivers/dma-buf/dma-resv.c, "give me a single combined completion
    signal for kind K": no fence when none of the usage is pending, else
    one fence for all of them, or -ENOMEM. *)
Definition dma_resv_get_singleton (u : dma_resv_usage)
  : M ustate (Z * option fence_handle) :=
  r <- gets (fun s => resv (buf (u_dma s))) ;;
  match map e_fence (filter (entry_pending u) (fences r)) with
  | [] => ret (0, None)
  | f :: rest =>
      a <- next_alloc ;;
      if a =? 0 then ret (0, Some (fence_merge f rest))
      else ret (- ENOMEM, None)
  end.

(** Modelled from the spec: dma_fence_get_stub() of
    drivers/dma-buf/dma-fence.c, a fence that has completed. *)
Definition dma_fence_stub : dma_fence :=
  {| fence_id := 0; signaled := true; cb_list := [] |}.

(** Modelled from the spec: sync_file_create() of
    drivers/dma-buf/sync_file.c "wraps it in a transferable handle": a new
    file with one reference that carries the fence, or NULL. *)
Definition sync_file_create (fence : fence_handle) : M ustate (option Z) :=
  a <- next_alloc ;;
  if a =? 0 then
    fun u => let '(id, e) := env_bump (get_env u) in
             Done (Some id) (set_u_file id 1 (Some fence) (set_env e u))
  else ret None.

(** [user_data] is what copy_from_user() reads ([None] when it faults),
    [writable] whether copy_to_user() succeeds.  Returns the return value
    and the descriptor written to user memory. *)
Definition dma_buf_export_sync_file
           (user_data : option dma_buf_export_sync_file_arg)
           (writable : bool) : M ustate (Z * option Z) :=
  match user_data with
  | None => ret (- EFAULT, None)
  | Some arg =>
      if negb (Z.ldiff (export_flags arg) DMA_BUF_SYNC_RW =? 0)
      then ret (- EINVAL, None)
      else if Z.land (export_flags arg) DMA_BUF_SYNC_RW =? 0
      then ret (- EINVAL, None)
      else
        fd <- get_unused_fd_flags ;;
        if fd <? 0 then ret (fd, None)
        else
          let usage :=
            dma_resv_usage_rw
              (negb (Z.land (export_flags arg) DMA_BUF_SYNC_WRITE =? 0)) in
          '(r, fence) <- dma_resv_get_singleton usage ;;
          if negb (r =? 0) then
            put_unused_fd fd ;;
            ret (r, None)
          else
            let fence := match fence with
                         | Some f => f
                         | None => FenceOne dma_fence_stub
                         end in
            sync_file <- sync_file_create fence ;;
            match sync_file with
            | None =>
                put_unused_fd fd ;;
                ret (- ENOMEM, None)
            | Some id =>
                if negb writable then
                  fput_file id ;;
                  put_unused_fd fd ;;
                  ret (- EFAULT, None)
                else
                  fd_install fd (Some id) ;;
                  ret (0, Some fd)
            end
  end.

(** Modelled from the spec: sync_file_get_fence() of
    drivers/dma-buf/sync_file.c: the fence of the transferable handle
    behind a descriptor, NULL for any other descriptor. *)
Definition sync_file_get_fence (u : ustate) (fd : Z) : option fence_handle :=
  match fd_lookup fd (u_fd_table u) with
  | Some (Some id) => u_file_fence u id
  | _ => None
  end.

Definition DMA_BUF_SYNC_READ : Z := 1.
Definition DMA_BUF_SYNC_END : Z := 4.
Definition DMA_BUF_SYNC_VALID_FLAGS_MASK : Z :=
  Z.lor DMA_BUF_SYNC_RW DMA_BUF_SYNC_END.

(** An ioctl on the file of the buffer: the command, with what the
    argument points to in user memory as the handler of the command reads
    it ([sync]: the flags of struct dma_buf_sync, [None] when
    copy_from_user() faults; [name]: the result of strndup_user()). *)
Inductive ioctl_request :=
| DMA_BUF_IOCTL_SYNC (sync : option Z)
| DMA_BUF_SET_NAME_A (name : err_ptr (list Z))
| DMA_BUF_SET_NAME_B (name : err_ptr (list Z))
| DMA_BUF_IOCTL_EXPORT_SYNC_FILE
    (user_data : option dma_buf_export_sync_file_arg) (writable : bool)
| DMA_BUF_IOCTL_IMPORT_SYNC_FILE
    (user_data : option dma_buf_import_sync_file_arg)
| IOCTL_OTHER (cmd : Z).

(** [sync_file] is IS_ENABLED(CONFIG_SYNC_FILE). *)
Definition dma_buf_ioctl (sync_file : bool) (req : ioctl_request)
  : M ustate Z :=
  match req with
  | DMA_BUF_IOCTL_SYNC None => ret (- EFAULT)
  | DMA_BUF_IOCTL_SYNC (Some flags) =>
      if negb (Z.ldiff flags DMA_BUF_SYNC_VALID_FLAGS_MASK =? 0)
      then ret (- EINVAL)
      else
        match (let rw := Z.land flags DMA_BUF_SYNC_RW in
               if rw =? DMA_BUF_SYNC_READ then Some DMA_FROM_DEVICE
               else if rw =? DMA_BUF_SYNC_WRITE then Some DMA_TO_DEVICE
               else if rw =? DMA_BUF_SYNC_RW then Some DMA_BIDIRECTIONAL
               else None) with
        | None => ret (- EINVAL)
        | Some direction =>
            if negb (Z.land flags DMA_BUF_SYNC_END =? 0)
            then lift (dma_buf_end_cpu_access direction)
            else lift (dma_buf_begin_cpu_access direction)
        end
  | DMA_BUF_SET_NAME_A name | DMA_BUF_SET_NAME_B name => dma_buf_set_name name
  | DMA_BUF_IOCTL_EXPORT_SYNC_FILE user_data writable =>
      if sync_file then
        r <- dma_buf_export_sync_file user_data writable ;;
        ret (fst r)
      else ret (- ENOTTY)
  | DMA_BUF_IOCTL_IMPORT_SYNC_FILE user_data =>
      if sync_file then
        u <- gets (fun u => u) ;;
        lift (dma_buf_import_sync_file (sync_file_get_fence u) user_data)
      else ret (- ENOTTY)
  | IOCTL_OTHER _ => ret (- ENOTTY)
  end.

(** What the flags of DMA_BUF_IOCTL_SYNC ask for: the direction, and
    whether the access ends. *)
Definition sync_request (flags : Z)
  : option (dma_data_direction * bool) :=
  if flags =? 1 then Some (DMA_FROM_DEVICE, false)
  else if flags =? 2 then Some (DMA_TO_DEVICE, false)
  else if flags =? 3 then Some (DMA_BIDIRECTIONAL, false)
  else if flags =? 5 then Some (DMA_FROM_DEVICE, true)
  else if flags =? 6 then Some (DMA_TO_DEVICE, true)
  else if flags =? 7 then Some (DMA_BIDIRECTIONAL, true)
  else None.

(** The descriptors and files of a state are as the allocator has handed
    them out: an identifier not yet given out names no file. *)
Definition files_wf (u : ustate) : Prop :=
  0 <= next_addr (benv (u_dma u)) /\
  forall id, next_addr (benv (u_dma u)) <= id ->
             u_file_refs u id = 0 /\ u_file_fence u id = None /\
             fd_lookup id (u_fd_table u) = None /\
             ~ In id (u_fd_reserved u).

(** The fence dma_buf_export_sync_file() puts in the sync_file. *)
Definition exported_fence (u : dma_resv_usage) (r : dma_resv) : fence_handle :=
  match map e_fence (filter (entry_pending u) (fences r)) with
  | [] => FenceOne dma_fence_stub
  | f :: rest => fence_merge f rest
  end.

(** The buffer as the begin_cpu_access callback leaves it. *)
Definition after_begin_hook (direction : dma_data_direction) (b : dma_buf)
  : dma_buf :=
  match begin_cpu_access (ops b) with
  | Some h => set_xstate (snd (h direction (get_xstate b))) b
  | None => b
  end.

(** A direction that is marked active is marked with its own event. *)
Definition active_is_flag (b : dma_buf) : Prop :=
  forall dcb, cb_active dcb b = 0 \/ cb_active dcb b = poll_flag dcb.

(** Every wake-up of the wait queue in a trace is for EPOLLIN or for
    EPOLLOUT. *)
Definition wake_ups_keyed (evs : list event) : Prop :=
  forall key, In (EvWakeUp key) evs -> key = EPOLLIN \/ key = EPOLLOUT.

End DmaBuf.

Arguments dma_resv_wait_timeout {P Q} u intr timeout _.
Arguments fences_complete {P Q} u _.
Arguments run_callbacks {P Q} l _.
Arguments dma_buf_poll_cb {P Q} dcb _.
Arguments dma_buf_begin_cpu_access {P Q} direction _.
Arguments __dma_buf_begin_cpu_access {P Q} direction _.
Arguments call_hook {P Q R} ev h _.
Arguments call_ptr {P Q R} ev h _.
Arguments fput {P Q} _.
Arguments get_file {P Q} _.
Arguments modify_buf {P Q} f _.
Arguments dma_buf_map_attachment {P Q} cfg attachment direction _.
Arguments dma_buf_unmap_attachment {P Q} cfg attachment table direction _.
Arguments map_error_unpin {P Q} cfg att p _.
Arguments map_error_unmap {P Q} cfg att t direction r _.
Arguments debug_check_aligned {P Q} t _.
Arguments dma_buf_pin_on_map {P Q} cfg b att.
Arguments pin_stage {P Q} cfg b att.
Arguments unpin_events {P Q} cfg b att.
Arguments map_path {P Q} cfg s att direction _ _ _.
Arguments dma_buf_move_notify {P Q} _.
Arguments move_notify_each {P Q} l _.
Arguments move_notify_one {P Q} att _.
Arguments attachments_wf {Q} l.
Arguments dma_buf_import_sync_file {P Q} sync_file_get_fence user_data _.
Arguments dma_resv_reserve_fences {P Q} n _.
Arguments dma_resv_add_fence {P Q} f u _.
Arguments add_fences {P Q} l u _.
Arguments buf_rest {P Q} b.
Arguments dma_buf_export {P Q} exp_info _.
Arguments dma_buf_getfile {P Q} sz flags _.
Arguments try_module_get {P Q} m _.
Arguments module_put {P Q} m _.
Arguments __dma_buf_list_add {P Q} dmabuf _.
Arguments size_in_pages {P Q} b.
Arguments dma_buf_mmap {P Q} area pgoff _.
Arguments dma_buf_mmap_internal {P Q} vma _.
Arguments dma_buf_vmap {P Q} _.
Arguments dma_buf_vunmap {P Q} m _.
Arguments dma_buf_poll {P Q} requested _.
Arguments dma_buf_poll_dir {P Q} dcb write events _.
Arguments dma_buf_poll_add_cb {P Q} write dcb _.
Arguments vmap_inv {P Q} b.
Arguments run_vmap_calls {P Q} l _.
Arguments vmap_state_ok {P Q} b n.
Arguments poll_inv {P Q} b.
Arguments run_poll_steps {P Q} l _.
Arguments run_poll_step {P Q} st _.
Arguments dma_fence_signal_nth {P Q} i _.
Arguments cb_active {P Q} dcb b.
Arguments set_cb_active {P Q} dcb v b.
Arguments attach_inv {P Q} s.
Arguments dma_buf_dynamic_attach {P Q} device iops ipriv _.
Arguments dma_buf_attach {P Q} device _.
Arguments dma_buf_detach {P Q} attachment _.
Arguments dma_buf_pin {P Q} att _.
Arguments dma_buf_unpin {P Q} att _.
Arguments dma_buf_end_cpu_access {P Q} direction _.
Arguments run_call {P Q} cfg c _.
Arguments run_calls {P Q} cfg l _.
Arguments same_identity {P Q} b b'.
Arguments other_refs {P Q} b.
Arguments preserves {P Q} R {A} m.
Arguments identity_kept {P Q} s s'.
Arguments attachments_kept {P Q} s s'.
Arguments touches_attachments {Q} c.
Arguments poll_ready {P Q} b dcb.
Arguments active_callbacks {P Q} b.
Arguments dmabuf_ino {P Q} d.
Arguments set_dmabuf_list {P Q} l k.
Arguments __dma_buf_list_del {P Q} dmabuf _.
Arguments dma_buf_file_release {P Q} f_op private_data _.
Arguments first_file_ref_get {P Q} l.
Arguments dma_buf_iter_begin {P Q} _.
Arguments split_at_ino {P Q} ino l.
Arguments dma_buf_iter_next {P Q} dmabuf _.
Arguments iter_rest {P Q} fuel cur _.
Arguments iter_all {P Q} fuel _.
Arguments dma_buf_release {P Q} d_fsdata _.
Arguments run_registry_call {P Q} c _.
Arguments run_registry_calls {P Q} l _.
Arguments inode_inv {P Q} k.
Arguments live_buffers {P Q} l.
Arguments dma_buf_llseek {P Q} f_op offset whence _.
Arguments lift {P Q A} m _.
Arguments get_unused_fd_flags {P Q} _.
Arguments put_unused_fd {P Q} fd _.
Arguments fd_install {P Q} fd f _.
Arguments fget {P Q} fd _.
Arguments fput_file {P Q} id _.
Arguments dma_buf_fd {P Q} flags _.
Arguments dma_buf_get {P Q} fd _.
Arguments dma_buf_put {P Q} _.
Arguments dma_buf_set_name {P Q} name _.
Arguments dma_resv_get_singleton {P Q} u _.
Arguments sync_file_create {P Q} fence _.
Arguments dma_buf_export_sync_file {P Q} user_data writable _.
Arguments sync_file_get_fence {P Q} u fd.
Arguments dma_buf_ioctl {P Q} sync_file req _.
Arguments files_wf {P Q} u.
Arguments set_u_dma {P Q} s u.
Arguments after_begin_hook {P Q} direction b.
Arguments active_is_flag {P Q} b.
Arguments DoMoveNotify {Q}.
Arguments DoBeginCpuAccess {Q} direction.
Arguments DoEndCpuAccess {Q} direction.
Arguments DoMmapInternal {Q} vma.
Arguments DoMmap {Q} area pgoff.
Arguments DoVmap {Q}.
Arguments DoVunmap {Q} m.
Arguments DoPoll {Q} requested.
Arguments DoImportSyncFile {Q} sync_file_get_fence user_data.
Arguments RegFileRelease {P} f_op private_data.
Arguments RegIterBegin {P}.
Arguments RegIterNext {P} dmabuf.
Arguments attach_args_invalid {Q} device iops.

(** * Example buffers

    A small exporter whose private data counts its pins, used to run the
    functions above on concrete inputs. *)

Definition demo_cfg : kconfig :=
  {| CONFIG_DMABUF_MOVE_NOTIFY := true;
     CONFIG_DMABUF_DEBUG := true;
     CONFIG_DMA_API_DEBUG := true |}.

Definition demo_table : sg_table :=
  [{| page_link := 8192; dma_address := 65536; dma_length := 4096 |}].

Definition demo_pin (a : Z) : hook Z Z :=
  fun x => (0, {| x_priv := x_priv x + 1; x_resv := x_resv x |}).

Definition demo_unpin (a : Z) : hook Z unit :=
  fun x => (tt, {| x_priv := x_priv x - 1; x_resv := x_resv x |}).

Definition demo_map (a : Z) (d : dma_data_direction) : hook Z sgt_ptr :=
  fun x => (SgTable demo_table, x).

Definition demo_vmap_ptr : iosys_map := {| vaddr := 1048576; is_iomem := false |}.

Definition demo_ops : dma_buf_ops Z :=
  {| attach := None;
     detach := None;
     pin := Some demo_pin;
     unpin := Some demo_unpin;
     map_dma_buf := Some demo_map;
     unmap_dma_buf := Some (fun a t d x => (tt, x));
     release := Some (fun x => (tt, x));
     begin_cpu_access := None;
     end_cpu_access := None;
     mmap := Some (fun vma x => (0, x));
     vmap := Some (fun x => ((0, demo_vmap_ptr), x));
     vunmap := Some (fun m x => (tt, x)) |}.

Definition demo_file : file := {| f_count := 1; f_flags := 2; i_ino := 1 |}.

Definition pending_fence (id : Z) : dma_fence :=
  {| fence_id := id; signaled := false; cb_list := [] |}.

(** A 4096-byte buffer of [o] with the fences [l]. *)
Definition demo_buf (o : dma_buf_ops Z) (l : list resv_entry)
           (atts : list (dma_buf_attachment unit)) : dma_buf Z unit :=
  {| priv := 0; ops := o; size := 4096; owner := None;
     resv := {| fences := l; max_fences := 4 |};
     cb_in_active := 0; cb_out_active := 0;
     attachments := atts;
     vmapping_counter := 0; vmap_ptr := iosys_map_null;
     dmabuf_file := demo_file |}.

Definition demo_env (w : list wake_reason) (a : list Z) : env :=
  {| trace := []; wakeups := w; alloc_results := a; next_addr := 100 |}.

Definition demo_state (o : dma_buf_ops Z) (l : list resv_entry)
           (atts : list (dma_buf_attachment unit))
           (w : list wake_reason) (a : list Z) : bstate Z unit :=
  {| buf := demo_buf o l atts; benv := demo_env w a |}.

Definition static_att : dma_buf_attachment unit :=
  {| a_addr := 1; dev := 10; peer2peer := false;
     importer_ops := None; importer_priv := None |}.

Definition dynamic_att : dma_buf_attachment unit :=
  {| a_addr := 2; dev := 11; peer2peer := true;
     importer_ops := Some {| allow_peer2peer := true;
                             move_notify := Some (fun _ q => q) |};
     importer_priv := Some tt |}.

(** One fence of each usage class, all pending. *)
Definition demo_fences : list resv_entry :=
  [{| e_fence := pending_fence 1; e_usage := DMA_RESV_USAGE_KERNEL |};
   {| e_fence := pending_fence 2; e_usage := DMA_RESV_USAGE_WRITE |};
   {| e_fence := pending_fence 3; e_usage := DMA_RESV_USAGE_READ |}].

(** An exporter whose map_dma_buf returns a segment that is not page
    aligned. *)
Definition unaligned_ops : dma_buf_ops Z :=
  {| attach := None; detach := None; pin := None; unpin := None;
     map_dma_buf :=
       Some (fun a d x =>
               (SgTable [{| page_link := 8192; dma_address := 65537;
                            dma_length := 100 |}], x));
     unmap_dma_buf := Some (fun a t d x => (tt, x));
     release := Some (fun x => (tt, x));
     begin_cpu_access := None; end_cpu_access := None;
     mmap := None; vmap := None; vunmap := None |}.

(** An exporter whose vmap reports success and leaves the mapping null. *)
Definition null_vmap_ops : dma_buf_ops Z :=
  {| attach := None; detach := None; pin := None; unpin := None;
     map_dma_buf := Some demo_map;
     unmap_dma_buf := Some (fun a t d x => (tt, x));
     release := Some (fun x => (tt, x));
     begin_cpu_access := None; end_cpu_access := None;
     mmap := None;
     vmap := Some (fun x => ((0, iosys_map_null), x));
     vunmap := Some (fun m x => (tt, x)) |}.

Definition demo_export_info (o : dma_buf_ops Z) : dma_buf_export_info Z :=
  {| exp_owner := None; exp_ops := Some o; exp_size := 4096;
     exp_flags := 2; exp_resv := None; exp_priv := Some 0 |}.

Definition demo_kstate : kstate Z unit :=
  {| dmabuf_list := []; dmabuf_inode := 0;
     module_live := fun _ => true; module_refs := [];
     kenv := demo_env [] [] |}.

(** A capability table without a release callback. *)
Definition no_release_ops : dma_buf_ops Z :=
  {| attach := None; detach := None; pin := None; unpin := None;
     map_dma_buf := Some demo_map;
     unmap_dma_buf := Some (fun a t d x => (tt, x));
     release := None;
     begin_cpu_access := None; end_cpu_access := None;
     mmap := None; vmap := None; vunmap := None |}.

Definition demo_vma (pgoff pages : Z) : vm_area_struct :=
  {| vm_start := 0; vm_end := pages * 4096; vm_pgoff := pgoff; vm_file := 0 |}.

Definition demo_poll_steps : list poll_step :=
  [StepPoll 5; StepPoll 5; StepSignal 2; StepPoll 4;
   StepAddFence 9 false DMA_RESV_USAGE_WRITE; StepWait DMA_RESV_USAGE_READ;
   StepPoll 5].

Definition demo_sync_file (fd : Z) : option fence_handle :=
  if fd =? 3
  then Some (FenceMerge (FenceOne (pending_fence 7)) (FenceOne (pending_fence 8)))
  else None.

Definition demo_import_arg : dma_buf_import_sync_file_arg :=
  {| arg_flags := DMA_BUF_SYNC_WRITE; arg_fd := 3 |}.

(** ** Example call sequences and tables *)

(** The attachment dma_buf_dynamic_attach() creates for device 10 on an
    example buffer, whose next free address is 100. *)
Definition demo_new_att : dma_buf_attachment unit :=
  {| a_addr := 100; dev := 10; peer2peer := false;
     importer_ops := None; importer_priv := None |}.

(** An importer's life on a buffer: attach, map, CPU access and mappings,
    unmap, detach, and a rejected attach at the end. *)
Definition demo_calls : list (dma_buf_call unit) :=
  [DoDynamicAttach (Some 10) None None;
   DoMapAttachment (Some demo_new_att) DMA_TO_DEVICE;
   DoVmap;
   DoPoll 5;
   DoMoveNotify;
   DoBeginCpuAccess DMA_FROM_DEVICE;
   DoMmap (Some (demo_vma 0 1)) 0;
   DoVunmap demo_vmap_ptr;
   DoUnmapAttachment (Some demo_new_att)
                     (Some (mangle_sg_table demo_cfg demo_table))
                     DMA_TO_DEVICE;
   DoDetach (Some demo_new_att);
   DoDynamicAttach None None None].

(** Three exports, one of them rejected, a walk over the list and the
    release of the first buffer's file. *)
Definition demo_registry_calls : list (registry_call Z) :=
  [RegExport (demo_export_info demo_ops);
   RegExport (demo_export_info demo_ops);
   RegExport (demo_export_info no_release_ops);
   RegIterBegin;
   RegFileRelease dma_buf_fops (Some 1);
   RegIterNext 2;
   RegExport (demo_export_info demo_ops)].

(** The example buffer with inode number [ino] and [count] references on
    its file. *)
Definition demo_buf_file (ino count : Z) : dma_buf Z unit :=
  {| priv := 0; ops := demo_ops; size := 4096; owner := None;
     resv := dma_resv_init;
     cb_in_active := 0; cb_out_active := 0;
     attachments := [];
     vmapping_counter := 0; vmap_ptr := iosys_map_null;
     dmabuf_file := {| f_count := count; f_flags := 2; i_ino := ino |} |}.

(** A list of three buffers; the file of the middle one has lost its last
    reference and is on its way out. *)
Definition demo_registry : kstate Z unit :=
  {| dmabuf_list := [demo_buf_file 3 1; demo_buf_file 2 0; demo_buf_file 1 2];
     dmabuf_inode := 3;
     module_live := fun _ => true; module_refs := [];
     kenv := demo_env [] [] |}.

(** The example buffer as a process sees it: no name, no descriptors, no
    sync files. *)
Definition demo_ustate (l : list resv_entry) (a : list Z) : ustate Z unit :=
  {| u_dma := demo_state demo_ops l [] [] a;
     u_name := None;
     u_fd_reserved := [];
     u_fd_table := [];
     u_file_refs := fun _ => 0;
     u_file_fence := fun _ => None |}.

Definition demo_export_arg : dma_buf_export_sync_file_arg :=
  {| export_flags := DMA_BUF_SYNC_WRITE; export_fd := -1 |}.

(** An exporter whose pin callback answers -EBUSY and whose vmap callback
    fails with -ENOMEM. *)
Definition refusing_ops : dma_buf_ops Z :=
  {| attach := None; detach := None;
     pin := Some (fun a x => (- EBUSY, x));
     unpin := Some demo_unpin;
     map_dma_buf := Some demo_map;
     unmap_dma_buf := Some (fun a t d x => (tt, x));
     release := Some (fun x => (tt, x));
     begin_cpu_access := None; end_cpu_access := None;
     mmap := None;
     vmap := Some (fun x => ((- ENOMEM, iosys_map_null), x));
     vunmap := None |}.

(** * Properties *)

Unset Implicit Arguments.

Section Properties.

Context {P Q : Type}.
Variable cfg : kconfig.


(** ** The monad, unfolded *)

Ltac munfold :=
  unfold bind, ret, gets, modify_buf, modify, emit, WARN_ON, BUG_ON, BUG,
         next_wakeup, next_alloc in *.

Lemma bind_done {S A B} (m : M S A) (k : A -> M S B) s a s1 :
  m s = Done a s1 -> bind m k s = k a s1.
Proof. unfold bind; intros ->; reflexivity. Qed.

Lemma bind_inv {S A B} (m : M S A) (k : A -> M S B) s b s2 :
  bind m k s = Done b s2 ->
  exists a s1, m s = Done a s1 /\ k a s1 = Done b s2.
Proof.
  unfold bind; destruct (m s) as [a s1|s1]; intros H; [eauto | discriminate].
Qed.

(** ** Completion of fences *)

Lemma signal_covered_untouched u l :
  uncovered_untouched u l (fst (signal_covered u l)).
Proof.
  induction l as [|e l IH]; simpl; [constructor|].
  destruct (signal_covered u l) as [l' cbs'] eqn:E; simpl in *.
  destruct (usage_covers u (e_usage e)) eqn:C.
  - unfold entry_signal, fence_signal.
    destruct (signaled (e_fence e)); simpl; constructor; simpl; auto;
      repeat split; auto; congruence.
  - simpl; constructor; auto.
Qed.

Lemma signal_covered_signaled u l e :
  In e (fst (signal_covered u l)) ->
  usage_covers u (e_usage e) = true -> signaled (e_fence e) = true.
Proof.
  induction l as [|x l IH]; simpl; [tauto|].
  destruct (signal_covered u l) as [l' cbs'] eqn:E; simpl in *.
  destruct (usage_covers u (e_usage x)) eqn:C.
  - unfold entry_signal, fence_signal.
    destruct (signaled (e_fence x)) eqn:Sg; simpl; intros [<-|H] Hc; simpl; auto.
  - simpl; intros [<-|H] Hc; [congruence | auto].
Qed.

Lemma uncovered_untouched_refl u l : uncovered_untouched u l l.
Proof. induction l; constructor; auto. Qed.

Lemma no_pending_signaled u l e :
  existsb (entry_pending u) l = false ->
  In e l -> usage_covers u (e_usage e) = true -> signaled (e_fence e) = true.
Proof.
  intros H Hin Hc.
  destruct (signaled (e_fence e)) eqn:Sg; auto.
  assert (existsb (entry_pending u) l = true); [|congruence].
  apply existsb_exists; exists e; split; auto.
  unfold entry_pending; rewrite Hc, Sg; reflexivity.
Qed.

Lemma run_callbacks_spec l (s : bstate P Q) :
  exists s', run_callbacks l s = Done tt s' /\
    resv (buf s') = resv (buf s) /\ priv (buf s') = priv (buf s) /\
    same_frame s s' /\
    exists evs, new_events s s' evs /\
                forall ev, In ev evs -> exists k, ev = EvWakeUp k.
Proof.
  revert s; induction l as [|dcb l IH]; intros s; simpl.
  - exists s; unfold ret, same_frame, new_events; repeat split; auto.
    exists []; rewrite app_nil_r; split; auto; intros ? [].
  - unfold dma_buf_poll_cb, fput; munfold; simpl.
    match goal with |- context [run_callbacks l ?s0] =>
      destruct (IH s0) as (s' & Hr & Hresv & Hpriv & Hf & evs & He & Hall) end.
    exists s'; rewrite Hr; split; auto.
    unfold same_frame, new_events in *; simpl in *.
    destruct Hf as (? & ? & ? & ? & ?).
    repeat split; try congruence.
    eexists (_ :: evs); rewrite He, <- app_assoc; split; [reflexivity|].
    intros ev [<-|H']; eauto.
Qed.

Lemma fences_complete_spec u (s : bstate P Q) :
  exists s', fences_complete u s = Done tt s' /\
    fences (resv (buf s')) = fst (signal_covered u (fences (resv (buf s)))) /\
    max_fences (resv (buf s')) = max_fences (resv (buf s)) /\
    priv (buf s') = priv (buf s) /\
    same_frame s s' /\
    exists evs, new_events s s' evs /\
                forall ev, In ev evs -> exists k, ev = EvWakeUp k.
Proof.
  unfold fences_complete; munfold; simpl.
  destruct (signal_covered u (fences (resv (buf s)))) as [l cbs] eqn:E; simpl.
  match goal with |- context [run_callbacks cbs ?s0] =>
    destruct (run_callbacks_spec cbs s0)
      as (s' & Hr & Hresv & Hpriv & Hf & evs & He & Hall) end.
  exists s'; rewrite Hr; simpl in *.
  unfold same_frame, new_events in *; simpl in *.
  destruct Hf as (? & ? & ? & ? & ?).
  rewrite Hresv; simpl.
  repeat split; try congruence.
  exists evs; split; auto.
Qed.

(** The wait as every caller in this file makes it: interruptible and
    without a timeout. *)
Lemma dma_resv_wait_unbounded_spec u (s : bstate P Q) :
  exists r s' evs,
    dma_resv_wait_timeout u true MAX_SCHEDULE_TIMEOUT s = Done r s' /\
    new_events s s' (EvResvWait u true MAX_SCHEDULE_TIMEOUT :: evs) /\
    (forall u' i' t', ~ In (EvResvWait u' i' t') evs) /\
    same_frame s s' /\
    priv (buf s') = priv (buf s) /\
    max_fences (resv (buf s')) = max_fences (resv (buf s)) /\
    uncovered_untouched u (fences (resv (buf s))) (fences (resv (buf s'))) /\
    (r < 0 -> r = - ERESTARTSYS /\ buf s' = buf s /\ evs = [EvSleep]) /\
    (0 <= r -> r = MAX_SCHEDULE_TIMEOUT /\ covered_signaled u (resv (buf s'))) /\
    (existsb (entry_pending u) (fences (resv (buf s))) = false ->
     evs = [] /\ buf s' = buf s /\ r = MAX_SCHEDULE_TIMEOUT).
Proof.
  unfold dma_resv_wait_timeout; munfold; simpl.
  destruct (existsb (entry_pending u) (fences (resv (buf s)))) eqn:Pend.
  - assert (Hcomp : forall (s1 : bstate P Q),
              buf s1 = buf s ->
              trace (benv s1) =
                trace (benv s) ++ [EvResvWait u true MAX_SCHEDULE_TIMEOUT; EvSleep] ->
              exists r s' evs,
                bind (fences_complete u) (fun _ => ret MAX_SCHEDULE_TIMEOUT) s1
                  = Done r s' /\
                new_events s s' (EvResvWait u true MAX_SCHEDULE_TIMEOUT :: evs) /\
                (forall u' i' t', ~ In (EvResvWait u' i' t') evs) /\
                same_frame s s' /\
                priv (buf s') = priv (buf s) /\
                max_fences (resv (buf s')) = max_fences (resv (buf s)) /\
                uncovered_untouched u (fences (resv (buf s)))
                                    (fences (resv (buf s'))) /\
                (r < 0 -> r = - ERESTARTSYS /\ buf s' = buf s /\
                          evs = [EvSleep]) /\
                (0 <= r -> r = MAX_SCHEDULE_TIMEOUT /\
                           covered_signaled u (resv (buf s'))) /\
                (true = false ->
                 evs = [] /\ buf s' = buf s /\ r = MAX_SCHEDULE_TIMEOUT)).
    { intros s1 Hb Ht.
      destruct (fences_complete_spec u s1)
        as (s' & Hr & Hfs & Hmax & Hpriv & Hf & evs & He & Hall).
      exists MAX_SCHEDULE_TIMEOUT, s', (EvSleep :: evs).
      unfold bind; rewrite Hr; unfold ret.
      unfold same_frame, new_events, covered_signaled in *; rewrite Hb in *.
      destruct Hf as (? & ? & ? & ? & ?).
      repeat split; auto; try discriminate.
      all: try (rewrite He, Ht, <- app_assoc; reflexivity).
      all: try (rewrite Hfs; apply signal_covered_untouched).
      all: try (intros e; rewrite Hfs; apply signal_covered_signaled).
      all: try (unfold MAX_SCHEDULE_TIMEOUT, LONG_MAX; lia).
      intros u' i' t' [Hin|Hin]; [discriminate|].
      apply Hall in Hin as [k Hk]; discriminate. }
    unfold env_pop_wakeup; simpl.
    destruct (wakeups (benv s)) as [|[] rest] eqn:W; simpl;
      try (apply Hcomp; simpl; [reflexivity | rewrite <- app_assoc; reflexivity]).
    eexists _, _, [EvSleep]; split; [reflexivity|].
    unfold new_events, same_frame; simpl.
    repeat split; auto using uncovered_untouched_refl; try discriminate.
    all: try (rewrite <- app_assoc; reflexivity).
    all: try (unfold ERESTARTSYS in *; lia).
    intros ? ? ? [H|[]]; discriminate.
  - eexists _, _, []; split; [reflexivity|].
    unfold new_events, same_frame, covered_signaled; simpl.
    repeat split; auto using uncovered_untouched_refl.
    all: try (unfold MAX_SCHEDULE_TIMEOUT, LONG_MAX in *; simpl in *; lia).
    intros e; apply no_pending_signaled; auto.
Qed.

Lemma usage_rw_access_usage direction :
  dma_resv_usage_rw (direction_eqb direction DMA_BIDIRECTIONAL
                     || direction_eqb direction DMA_TO_DEVICE)
  = access_usage direction.
Proof. destruct direction; reflexivity. Qed.

(** ** C1: CPU access waits for the fences of its direction *)

(** C1.  dma_buf_begin_cpu_access() always returns, and it returns success
    only after an interruptible wait without timeout, made after the
    exporter's begin_cpu_access callback (if any), for the usage class of the
    direction: DMA_RESV_USAGE_WRITE for read-only access,
    DMA_RESV_USAGE_READ, which covers all fences, for write or bidirectional
    access.  On success every fence covered by that class has completed, and
    the fences not covered are exactly as the callback left them.  Without a
    callback the wait is always made. *)
Theorem dma_buf_begin_cpu_access_waits_for_fences
        (s : bstate P Q) (direction : dma_data_direction) :
  exists r s' evs,
    dma_buf_begin_cpu_access direction s = Done r s' /\
    new_events s s' evs /\
    (begin_cpu_access (ops (buf s)) = None ->
     In (EvResvWait (access_usage direction) true MAX_SCHEDULE_TIMEOUT) evs) /\
    (r = 0 ->
     (exists tail,
         evs = begin_hook_events direction (buf s)
               ++ EvResvWait (access_usage direction) true MAX_SCHEDULE_TIMEOUT
               :: tail /\
         forall u i t, ~ In (EvResvWait u i t) tail) /\
     covered_signaled (access_usage direction) (resv (buf s')) /\
     uncovered_untouched (access_usage direction)
       (fences (resv_after_begin_hook direction (buf s)))
       (fences (resv (buf s'))) /\
     (direction = DMA_TO_DEVICE \/ direction = DMA_BIDIRECTIONAL ->
      forall e, In e (fences (resv (buf s'))) -> signaled (e_fence e) = true)).
Proof.
  assert (Hall : forall (s' : bstate P Q),
            covered_signaled (access_usage direction) (resv (buf s')) ->
            direction = DMA_TO_DEVICE \/ direction = DMA_BIDIRECTIONAL ->
            forall e, In e (fences (resv (buf s'))) ->
                      signaled (e_fence e) = true).
  { intros s' Hcov Hdir e Hin; apply Hcov; [exact Hin|].
    destruct Hdir as [-> | ->]; destruct (e_usage e); reflexivity. }
  unfold dma_buf_begin_cpu_access, __dma_buf_begin_cpu_access,
         begin_hook_events, resv_after_begin_hook.
  rewrite usage_rw_access_usage.
  set (u := access_usage direction).
  unfold bind at 1, gets at 1; cbn beta iota.
  destruct (begin_cpu_access (ops (buf s))) as [h|] eqn:Hh.
  - unfold call_hook; munfold; simpl.
    destruct (h direction (get_xstate (buf s))) as [r0 x] eqn:Hx; simpl.
    destruct (r0 =? 0) eqn:Hr0.
    + match goal with |- context [dma_resv_wait_timeout u true _ ?s0] =>
        destruct (dma_resv_wait_unbounded_spec u s0)
          as (r & s' & evs & Hrun & Hev & Hno & Hfr & Hpr & Hmx & Hun & Hneg & Hpos & _)
      end.
      rewrite Hrun.
      destruct (r <? 0) eqn:Hlt.
      * exists r, s', (EvBeginCpuAccess direction :: EvResvWait u true MAX_SCHEDULE_TIMEOUT :: evs).
        split; [reflexivity|].
        unfold new_events in *; simpl in *.
        split; [rewrite Hev, <- app_assoc; reflexivity|].
        split; [discriminate|].
        intros ->; discriminate.
      * exists 0, s', (EvBeginCpuAccess direction :: EvResvWait u true MAX_SCHEDULE_TIMEOUT :: evs).
        split; [reflexivity|].
        unfold new_events in *; simpl in *.
        split; [rewrite Hev, <- app_assoc; reflexivity|].
        split; [discriminate|].
        intros _.
        apply Z.ltb_ge in Hlt; destruct (Hpos Hlt) as [_ Hcov].
        split; [exists evs; split; [reflexivity | exact Hno]|].
        split; [exact Hcov|]. split; [|apply Hall; exact Hcov].
        exact Hun.
    + exists r0, {| buf := set_xstate x (buf s);
                    benv := env_log (EvBeginCpuAccess direction) (benv s) |},
             [EvBeginCpuAccess direction].
      split; [reflexivity|].
      split; [reflexivity|].
      split; [discriminate|].
      intros ->; discriminate.
  - unfold bind at 1, ret at 1; cbn beta iota.
    change (0 =? 0) with true; cbn iota.
    destruct (dma_resv_wait_unbounded_spec u s)
      as (r & s' & evs & Hrun & Hev & Hno & Hfr & Hpr & Hmx & Hun & Hneg & Hpos & _).
    unfold bind; rewrite Hrun.
    destruct (r <? 0) eqn:Hlt.
    + exists r, s', (EvResvWait u true MAX_SCHEDULE_TIMEOUT :: evs).
      apply Z.ltb_lt in Hlt.
      split; [reflexivity|]. split; [exact Hev|].
      split; [intros _; left; reflexivity|].
      intros ->; lia.
    + exists 0, s', (EvResvWait u true MAX_SCHEDULE_TIMEOUT :: evs).
      apply Z.ltb_ge in Hlt; destruct (Hpos Hlt) as [_ Hcov].
      split; [reflexivity|]. split; [exact Hev|].
      split; [intros _; left; reflexivity|].
      intros _; split; [exists evs; split; [reflexivity | exact Hno]|].
      split; [exact Hcov|]. split; [exact Hun | apply Hall; exact Hcov].
Qed.

(** ** dma_buf_map_attachment(), path by path *)

Lemma call_hook_eq {R} ev (h : hook P R) (s : bstate P Q) :
  call_hook ev h s =
  Done (fst (h (get_xstate (buf s))))
       {| buf := set_xstate (snd (h (get_xstate (buf s)))) (buf s);
          benv := env_log ev (benv s) |}.
Proof.
  unfold call_hook; munfold; simpl.
  destruct (h (get_xstate (buf s))); reflexivity.
Qed.

Lemma debug_check_aligned_spec t (s : bstate P Q) :
  exists s', debug_check_aligned t s = Done tt s' /\
    buf s' = buf s /\
    trace (benv s') = trace (benv s) ++
      flat_map (fun sg => if negb (PAGE_ALIGNED (dma_address sg))
                             || negb (PAGE_ALIGNED (dma_length sg))
                          then [EvPrDebug (dma_address sg) (dma_length sg)]
                          else []) t.
Proof.
  revert s; induction t as [|sg t IH]; intros s; simpl.
  - exists s; rewrite app_nil_r; auto.
  - munfold.
    destruct (negb (PAGE_ALIGNED (dma_address sg))
              || negb (PAGE_ALIGNED (dma_length sg))); simpl.
    + match goal with |- context [debug_check_aligned t ?s0] =>
        destruct (IH s0) as (s' & Hr & Hb & Ht) end.
      exists s'; rewrite Hr; simpl in *.
      rewrite Ht, <- app_assoc; auto.
    + apply IH.
Qed.

Lemma map_finish t (s0 s : bstate P Q) pre :
  trace (benv s) = trace (benv s0) ++ pre ->
  exists s',
    bind (if CONFIG_DMA_API_DEBUG cfg
          then debug_check_aligned (mangle_sg_table cfg t)
          else ret tt)
         (fun _ => ret (SgTable (mangle_sg_table cfg t))) s
    = Done (SgTable (mangle_sg_table cfg t)) s' /\
    buf s' = buf s /\
    new_events s0 s' (pre ++ debug_events cfg (mangle_sg_table cfg t)).
Proof.
  intros Ht; unfold debug_events, new_events.
  destruct (CONFIG_DMA_API_DEBUG cfg).
  - destruct (debug_check_aligned_spec (mangle_sg_table cfg t) s)
      as (s' & Hr & Hb & Ht').
    exists s'; unfold bind; rewrite Hr; unfold ret.
    rewrite Ht', Ht, <- app_assoc; auto.
  - exists s; unfold bind, ret; rewrite app_nil_r; auto.
Qed.

Lemma pin_on_map_set_xstate x (b : dma_buf P Q) att :
  dma_buf_pin_on_map cfg (set_xstate x b) att = dma_buf_pin_on_map cfg b att.
Proof. reflexivity. Qed.

Lemma map_unwind_unpin (s0 s : bstate P Q) att p pre :
  ops_valid (ops (buf s0)) ->
  ops (buf s) = ops (buf s0) ->
  trace (benv s) = trace (benv s0) ++ pre ->
  exists s',
    map_error_unpin cfg att p s = Done p s' /\
    new_events s0 s' (pre ++ unpin_events cfg (buf s0) att).
Proof.
  intros (_ & _ & _ & Hpu) Hops Ht.
  unfold map_error_unpin, unpin_events, dma_buf_pin_on_map, new_events.
  unfold bind at 1, gets at 1; cbn beta iota.
  rewrite Hops.
  destruct (pin (ops (buf s0))) as [hp|] eqn:Hp; simpl in Hpu.
  - destruct (unpin (ops (buf s0))) as [hu|] eqn:Hu; [|discriminate].
    destruct (negb (dma_buf_attachment_is_dynamic att)
              || negb (CONFIG_DMABUF_MOVE_NOTIFY cfg)).
    + unfold call_ptr, op_at, bind; rewrite call_hook_eq; unfold ret.
      eexists; split; [reflexivity|]; simpl.
      rewrite Ht, <- app_assoc; reflexivity.
    + unfold bind, ret; eexists; split; [reflexivity|].
      rewrite app_nil_r; auto.
  - unfold bind, ret; eexists; split; [reflexivity|].
    rewrite app_nil_r; auto.
Qed.

Lemma get_set_xstate x (b : dma_buf P Q) : get_xstate (set_xstate x b) = x.
Proof. destruct x; reflexivity. Qed.

Lemma WARN_ON_ONCE_run site c (s : bstate P Q) :
  exists s',
    WARN_ON_ONCE site c s = Done c s' /\
    buf s' = buf s /\
    trace (benv s') = trace (benv s) ++ once_events site c (trace (benv s)) /\
    wakeups (benv s') = wakeups (benv s) /\
    alloc_results (benv s') = alloc_results (benv s) /\
    next_addr (benv s') = next_addr (benv s).
Proof.
  unfold WARN_ON_ONCE, once_events; destruct c; munfold; cbn.
  - destruct (existsb (is_warn_once site) (trace (benv s))); cbn;
      eexists; (split; [reflexivity|]); cbn; rewrite ?app_nil_r; auto.
  - eexists; split; [reflexivity|]; rewrite app_nil_r; auto.
Qed.

Lemma once_events_snoc site c tr ev :
  is_warn_once site ev = false ->
  once_events site c (tr ++ [ev]) = once_events site c tr.
Proof.
  intros H; unfold once_events.
  rewrite existsb_app; cbn; rewrite H, !orb_false_r; reflexivity.
Qed.

Lemma once_events_false site tr : once_events site false tr = [].
Proof. reflexivity. Qed.

Lemma pin_stage_run (s : bstate P Q) att :
  ops_valid (ops (buf s)) ->
  exists r x pre s1,
    (if dma_buf_pin_on_map cfg (buf s) att then
       r <- call_ptr (EvPin (a_addr att))
                     (op_at (a_addr att) (pin (ops (buf s)))) ;;
       WARN_ON_ONCE ONCE_PIN_EBUSY (r =? - EBUSY) ;;
       ret r
     else ret 0) s = Done r s1 /\
    pin_stage cfg (buf s) att = (r, x, pre) /\
    buf s1 = set_xstate x (buf s) /\
    trace (benv s1)
    = trace (benv s)
      ++ pre ++ once_events ONCE_PIN_EBUSY (r =? - EBUSY) (trace (benv s)) /\
    wakeups (benv s1) = wakeups (benv s).
Proof.
  intros _; unfold pin_stage.
  destruct (dma_buf_pin_on_map cfg (buf s) att) eqn:Hpom.
  - unfold dma_buf_pin_on_map in Hpom.
    destruct (pin (ops (buf s))) as [hp|]; [|discriminate].
    unfold call_ptr, op_at; unfold bind at 1; rewrite call_hook_eq.
    destruct (hp (a_addr att) (get_xstate (buf s))) as [r x]; cbn [fst snd].
    unfold pin_events.
    match goal with |- context [bind (WARN_ON_ONCE ?st ?c) _ ?s0] =>
      destruct (WARN_ON_ONCE_run st c s0) as (s1 & Hw & Hb & Ht & Hwk & _)
    end.
    unfold bind at 1; rewrite Hw; unfold ret.
    exists r, x, [EvPin (a_addr att)], s1; split; [reflexivity|].
    cbn in Hb, Ht, Hwk.
    rewrite once_events_snoc in Ht by reflexivity.
    rewrite Ht, <- app_assoc; auto.
  - exists 0, (get_xstate (buf s)), [], s; unfold ret.
    rewrite !app_nil_r; repeat split; auto.
    destruct s as [b e]; destruct b; reflexivity.
Qed.

Lemma dma_buf_map_attachment_paths (s : bstate P Q) att direction :
  ops_valid (ops (buf s)) ->
  exists p s' evs,
    dma_buf_map_attachment cfg (Some att) direction s = Done p s' /\
    new_events s s' evs /\
    map_path cfg s att direction p s' evs.
Proof.
  intros Hv; pose proof Hv as (Hm & Hum & _ & Hpu).
  destruct (map_dma_buf (ops (buf s))) as [hm|] eqn:Hmap; [|discriminate].
  destruct (unmap_dma_buf (ops (buf s))) as [hum|] eqn:Humap; [|discriminate].
  unfold dma_buf_map_attachment.
  unfold bind at 1, gets at 1; cbn beta iota.
  destruct (pin_stage_run s att Hv) as (r & x1 & pre & s1 & Hrun & Hst & Hb1 & Ht1 & _).
  rewrite (@bind_done _ _ _ _ _ _ _ _ Hrun).
  destruct (r =? 0) eqn:Hr0; cbn [negb].
  2:{ eexists (SgErr r), s1, _; split; [reflexivity|].
      split; [exact Ht1|].
      eapply MapPinFailed; eauto.
      - intros ->; discriminate.
      - rewrite Hb1; apply get_set_xstate. }
  apply Z.eqb_eq in Hr0; subst r.
  change (0 =? - EBUSY) with false in Ht1.
  rewrite once_events_false, app_nil_r in Ht1.
  rewrite Hmap; unfold call_ptr; unfold bind at 1; cbn beta iota.
  rewrite call_hook_eq.
  rewrite Hb1, get_set_xstate.
  destruct (hm (a_addr att) direction x1) as [pm x2] eqn:Hhm; cbn [fst snd].
  set (s2 := {| buf := set_xstate x2 (set_xstate x1 (buf s));
                benv := env_log (EvMapDmaBuf (a_addr att) direction) (benv s1) |}).
  assert (Ht2 : trace (benv s2) =
                trace (benv s) ++ (pre ++ [EvMapDmaBuf (a_addr att) direction])).
  { simpl; rewrite Ht1, <- app_assoc; reflexivity. }
  assert (Hops2 : ops (buf s2) = ops (buf s)) by reflexivity.
  destruct pm as [|t|e].
  - destruct (@map_unwind_unpin s s2 att (SgErr (- ENOMEM)) _ Hv Hops2 Ht2)
      as (s' & Hr' & He').
    exists (SgErr (- ENOMEM)), s', ((pre ++ [EvMapDmaBuf (a_addr att) direction])
                                     ++ unpin_events cfg (buf s) att).
    split; [exact Hr'|]. split; [exact He'|].
    rewrite <- app_assoc.
    eapply MapHookFailed; eauto.
  - destruct (dma_buf_attachment_is_dynamic att) eqn:Hdyn; cbn [negb].
    + unfold bind at 1, ret at 1; cbn beta iota.
      change (0 <? 0) with false; cbn iota.
      destruct (@map_finish t s s2 _ Ht2) as (s' & Hr' & Hb' & He').
      eexists (SgTable (mangle_sg_table cfg t)), s', _.
      split; [exact Hr'|]. split; [exact He'|].
      rewrite <- app_assoc.
      eapply MapDynamic; eauto.
      rewrite Hb'; apply get_set_xstate.
    + destruct (dma_resv_wait_unbounded_spec DMA_RESV_USAGE_KERNEL s2)
        as (r & s3 & evs & Hrun3 & Hev3 & Hno & Hfr & Hpr & Hmx & Hun & Hneg & Hpos & Hidle).
      rewrite (@bind_done _ _ _ _ _ _ _ _ Hrun3).
      unfold new_events in Hev3; rewrite Ht2 in Hev3.
      destruct (r <? 0) eqn:Hlt.
      * apply Z.ltb_lt in Hlt; destruct (Hneg Hlt) as (-> & Hb3 & ->).
        unfold map_error_unmap.
        unfold bind at 1, gets at 1; cbn beta iota.
        rewrite Hb3; cbn [buf s2 ops set_xstate]; rewrite Humap.
        unfold call_ptr; unfold bind at 1; rewrite call_hook_eq.
        match goal with |- context [map_error_unpin cfg att ?p ?s4] =>
          destruct (@map_unwind_unpin s s4 att p
                      (pre ++ [EvMapDmaBuf (a_addr att) direction;
                               EvResvWait DMA_RESV_USAGE_KERNEL true MAX_SCHEDULE_TIMEOUT;
                               EvSleep;
                               EvUnmapDmaBuf (a_addr att) t direction]) Hv)
            as (s' & Hr' & He')
        end.
        { rewrite Hb3; reflexivity. }
        { simpl; rewrite Hev3, <- !app_assoc; reflexivity. }
        eexists _, s', _; split; [exact Hr'|]. split; [exact He'|].
        rewrite <- app_assoc.
        eapply MapWaitFailed; eauto.
      * apply Z.ltb_ge in Hlt; destruct (Hpos Hlt) as [_ Hcov].
        assert (Ht3 : trace (benv s3) = trace (benv s) ++
                  (pre ++ [EvMapDmaBuf (a_addr att) direction;
                           EvResvWait DMA_RESV_USAGE_KERNEL true MAX_SCHEDULE_TIMEOUT]
                       ++ evs)).
        { rewrite Hev3, <- !app_assoc; reflexivity. }
        destruct (@map_finish t s s3 _ Ht3) as (s' & Hr' & Hb' & He').
        eexists (SgTable (mangle_sg_table cfg t)), s', _.
        split; [exact Hr'|]. split; [exact He'|].
        rewrite <- !app_assoc.
        eapply MapStatic; eauto.
        -- rewrite Hb'; exact Hcov.
        -- rewrite Hb'; revert Hun; cbn [buf s2 resv set_xstate]; auto.
        -- intros Hnp; apply Hidle; cbn [buf s2 resv set_xstate]; exact Hnp.
  - destruct (@map_unwind_unpin s s2 att (SgErr e) _ Hv Hops2 Ht2)
      as (s' & Hr' & He').
    exists (SgErr e), s', ((pre ++ [EvMapDmaBuf (a_addr att) direction])
                            ++ unpin_events cfg (buf s) att).
    split; [exact Hr'|]. split; [exact He'|].
    rewrite <- app_assoc.
    eapply MapHookFailed; eauto.
Qed.

Lemma pin_stage_no_wait (b : dma_buf P Q) att r x pre :
  pin_stage cfg b att = (r, x, pre) ->
  forall u i w, ~ In (EvResvWait u i w) pre.
Proof.
  unfold pin_stage, pin_events.
  destruct (dma_buf_pin_on_map cfg b att); [destruct (pin (ops b)) as [h|]|].
  - destruct (h (a_addr att) (get_xstate b)) as [r0 x0].
    intros [= <- <- <-] u i w Hin; destruct Hin as [H|[]]; discriminate.
  - intros [= <- <- <-] u i w [].
  - intros [= <- <- <-] u i w [].
Qed.

Lemma once_events_no_wait site c tr u i w :
  ~ In (EvResvWait u i w) (once_events site c tr).
Proof.
  unfold once_events; destruct (c && _); intros Hin;
    [destruct Hin as [H|[]]; discriminate | destruct Hin].
Qed.

Lemma unpin_events_no_wait (b : dma_buf P Q) att u i w :
  ~ In (EvResvWait u i w) (unpin_events cfg b att).
Proof.
  unfold unpin_events; destruct (dma_buf_pin_on_map cfg b att);
    intros Hin; [destruct Hin as [H|[]]; discriminate | destruct Hin].
Qed.

Lemma debug_events_only_debug t ev :
  In ev (debug_events cfg t) -> exists a l, ev = EvPrDebug a l.
Proof.
  unfold debug_events; destruct (CONFIG_DMA_API_DEBUG cfg); [|intros []].
  intros H; apply in_flat_map in H as (sg & _ & H).
  destruct (negb (PAGE_ALIGNED (dma_address sg))
            || negb (PAGE_ALIGNED (dma_length sg))); simpl in H;
    [destruct H as [<-|[]]; eauto | destruct H].
Qed.

Lemma debug_events_no_wait t u i w :
  ~ In (EvResvWait u i w) (debug_events cfg t).
Proof.
  intros H; apply debug_events_only_debug in H as (a & l & H); discriminate.
Qed.

(** ** C2: static attachments wait for the kernel fences in map *)

(** C2.  On a buffer whose capability table passed dma_buf_export(),
    dma_buf_map_attachment() always returns.  For a static attachment (no
    importer_ops) a successful return comes only after an interruptible wait
    without timeout for DMA_RESV_USAGE_KERNEL, made right after the
    map_dma_buf callback, and every kernel-usage fence of the buffer has
    then completed.  For a dynamic attachment no wait is made at all. *)
Theorem dma_buf_map_attachment_fence_wait
        (s : bstate P Q) (att : dma_buf_attachment Q)
        (direction : dma_data_direction) :
  ops_valid (ops (buf s)) ->
  exists p s' evs,
    dma_buf_map_attachment cfg (Some att) direction s = Done p s' /\
    new_events s s' evs /\
    (dma_buf_attachment_is_dynamic att = false ->
     forall t, p = SgTable t ->
       (exists pre tail,
           evs = pre ++ EvMapDmaBuf (a_addr att) direction
                     :: EvResvWait DMA_RESV_USAGE_KERNEL true
                                   MAX_SCHEDULE_TIMEOUT
                     :: tail /\
           (forall u i w, ~ In (EvResvWait u i w) pre) /\
           (forall u i w, ~ In (EvResvWait u i w) tail)) /\
       covered_signaled DMA_RESV_USAGE_KERNEL (resv (buf s'))) /\
    (dma_buf_attachment_is_dynamic att = true ->
     forall u i w, ~ In (EvResvWait u i w) evs).
Proof.
  intros Hv.
  destruct (dma_buf_map_attachment_paths s att direction Hv)
    as (p & s' & evs & Hrun & Hev & Hpath).
  exists p, s', evs; split; [exact Hrun|]; split; [exact Hev|].
  split.
  - intros Hst t ->.
    inversion Hpath; subst; try congruence.
    split; [|assumption].
    exists pre, (tail ++ debug_events cfg (mangle_sg_table cfg t0)).
    split; [reflexivity|].
    split; [eapply pin_stage_no_wait; eauto|].
    intros u i w Hin; apply in_app_or in Hin as [Hin|Hin].
    + match goal with
      | Hno : forall u i w, ~ In (EvResvWait u i w) tail |- _ =>
          eapply Hno; eauto
      end.
    + eapply debug_events_no_wait; eauto.
  - intros Hdyn u i w Hin.
    inversion Hpath; subst; try congruence.
    + apply in_app_or in Hin as [Hin|Hin];
        [eapply pin_stage_no_wait; eauto|].
      eapply once_events_no_wait; eauto.
    + apply in_app_or in Hin as [Hin|Hin];
        [eapply pin_stage_no_wait; eauto|].
      destruct Hin as [Hin|Hin]; [discriminate|].
      eapply unpin_events_no_wait; eauto.
    + apply in_app_or in Hin as [Hin|Hin];
        [eapply pin_stage_no_wait; eauto|].
      destruct Hin as [Hin|Hin]; [discriminate|].
      eapply debug_events_no_wait; eauto.
Qed.

(** ** C3: a failing map undoes the map and the implicit pin *)



(** dma_buf_unmap_attachment() hands the table back and drops the pin that
    map took. *)
Lemma dma_buf_unmap_attachment_trace (s : bstate P Q) att t direction :
  ops_valid (ops (buf s)) ->
  exists s',
    dma_buf_unmap_attachment cfg (Some att) (Some t) direction s = Done tt s' /\
    new_events s s'
      (EvUnmapDmaBuf (a_addr att) (mangle_sg_table cfg t) direction
       :: unpin_events cfg (buf s) att).
Proof.
  intros (_ & Hum & _ & Hpu).
  unfold dma_buf_unmap_attachment, unpin_events, dma_buf_pin_on_map, new_events.
  unfold bind at 1, gets at 1; cbn beta iota.
  destruct (unmap_dma_buf (ops (buf s))) as [hum|]; [|discriminate].
  unfold call_ptr at 1; unfold bind at 1; rewrite call_hook_eq.
  destruct (hum (a_addr att) (mangle_sg_table cfg t) direction
                (get_xstate (buf s))) as [[] x1]; cbn [fst snd].
  destruct (pin (ops (buf s))) as [hp|]; cbn in Hpu.
  - destruct (unpin (ops (buf s))) as [hu|]; [|discriminate].
    destruct (negb (dma_buf_attachment_is_dynamic att)
              || negb (CONFIG_DMABUF_MOVE_NOTIFY cfg)).
    + unfold call_ptr, op_at; rewrite call_hook_eq.
      match goal with |- context [hu ?a ?b] => destruct (hu a b) as [[] x2] end.
      eexists; split; [reflexivity|]; cbn.
      rewrite <- app_assoc; reflexivity.
    + eexists; split; [reflexivity|]; reflexivity.
  - eexists; split; [reflexivity|]; reflexivity.
Qed.

(** ** The region map returns is the exporter's *)

Lemma mangle_sg_table_dma t :
  map dma_address (mangle_sg_table cfg t) = map dma_address t /\
  map dma_length (mangle_sg_table cfg t) = map dma_length t.
Proof.
  unfold mangle_sg_table; destruct (CONFIG_DMABUF_DEBUG cfg); [|auto].
  rewrite !map_map; simpl; auto.
Qed.

Lemma sg_aligned_dma t t' :
  map dma_address t = map dma_address t' ->
  map dma_length t = map dma_length t' ->
  sg_aligned t = sg_aligned t' /\ sg_total_length t = sg_total_length t'.
Proof.
  revert t'; induction t as [|sg t IH]; intros [|sg' t']; simpl;
    try discriminate; auto.
  intros [= Ha Hta] [= Hl Htl].
  destruct (IH t' Hta Htl) as [-> ->]; rewrite Ha, Hl; auto.
Qed.

Lemma pin_stage_no_sleep (b : dma_buf P Q) att r x pre :
  pin_stage cfg b att = (r, x, pre) -> ~ In EvSleep pre.
Proof.
  unfold pin_stage, pin_events.
  destruct (dma_buf_pin_on_map cfg b att); [destruct (pin (ops b)) as [h|]|].
  - destruct (h (a_addr att) (get_xstate b)) as [r0 x0].
    intros [= <- <- <-] Hin; destruct Hin as [H|[]]; discriminate.
  - intros [= <- <- <-] [].
  - intros [= <- <- <-] [].
Qed.

(** X27.  A successful dma_buf_map_attachment() on a buffer whose
    capability table passed dma_buf_export() returns the table of the
    exporter's map_dma_buf callback, called after a pin stage that returned
    0, with its DMA addresses and lengths unchanged: the table is page
    aligned exactly when the exporter's table is, and covers as many bytes.
    When no kernel-usage fence is pending after the callback, the call
    returns without sleeping. *)
Theorem dma_buf_map_attachment_region
        (s s' : bstate P Q) (att : dma_buf_attachment Q)
        (direction : dma_data_direction) (t : sg_table) (evs : list event) :
  ops_valid (ops (buf s)) ->
  dma_buf_map_attachment cfg (Some att) direction s = Done (SgTable t) s' ->
  new_events s s' evs ->
  exists x1 pre hm t0 x2,
    pin_stage cfg (buf s) att = (0, x1, pre) /\
    map_dma_buf (ops (buf s)) = Some hm /\
    hm (a_addr att) direction x1 = (SgTable t0, x2) /\
    map dma_address t = map dma_address t0 /\
    map dma_length t = map dma_length t0 /\
    sg_aligned t = sg_aligned t0 /\
    sg_total_length t = sg_total_length t0 /\
    (existsb (entry_pending DMA_RESV_USAGE_KERNEL) (fences (x_resv x2)) = false ->
     ~ In EvSleep evs).
Proof.
  intros Hv Hrun Hev.
  destruct (dma_buf_map_attachment_paths s att direction Hv)
    as (p & s1 & evs1 & Hrun1 & Hev1 & Hpath).
  rewrite Hrun in Hrun1; inversion Hrun1; subst p s1; clear Hrun1.
  assert (evs1 = evs) as ->.
  { unfold new_events in *; rewrite Hev in Hev1.
    apply app_inv_head in Hev1; auto. }
  inversion Hpath; subst;
    match goal with
    | Hh : _ = (SgTable ?t0, _) |- _ =>
        destruct (mangle_sg_table_dma t0) as [Ha Hl];
        destruct (sg_aligned_dma _ _ Ha Hl) as [Hal Htot]
    end;
    (eexists _, _, _, _, _; split; [eassumption|]; split; [eassumption|];
     split; [eassumption|]; repeat split; auto).
  - intros _ Hin; apply in_app_or in Hin as [Hin|Hin];
      [eapply pin_stage_no_sleep; eauto|].
    destruct Hin as [Hin|Hin]; [discriminate|].
    apply debug_events_only_debug in Hin as (a & l & Hin); discriminate.
  - intros Hidle Hin.
    match goal with
    | H : _ = false -> ?tl = [] |- _ => rewrite (H Hidle) in Hin
    end.
    apply in_app_or in Hin as [Hin|Hin];
      [eapply pin_stage_no_sleep; eauto|].
    destruct Hin as [Hin|[Hin|Hin]]; try discriminate.
    apply debug_events_only_debug in Hin as (a & l & Hin); discriminate.
Qed.

(** ** C5: move_notify reaches every dynamic attachment once *)

Lemma move_notify_each_spec (l : list (dma_buf_attachment Q)) (s : bstate P Q) :
  Forall (fun att => forall o, importer_ops att = Some o ->
                               is_null (move_notify o) = false) l ->
  exists l' s',
    move_notify_each l s = Done l' s' /\
    buf s' = buf s /\
    map (@a_addr Q) l' = map (@a_addr Q) l /\
    new_events s s'
      (map (fun att => EvMoveNotify (a_addr att))
           (filter (@dma_buf_attachment_is_dynamic Q) l)).
Proof.
  revert s; induction l as [|att l IH]; intros s Hwf.
  - exists [], s; unfold new_events; simpl; rewrite app_nil_r; auto.
  - inversion Hwf as [|? ? Hatt Hl]; subst.
    simpl; unfold move_notify_one, dma_buf_attachment_is_dynamic.
    destruct (importer_ops att) as [o|] eqn:Ho.
    + specialize (Hatt o eq_refl).
      destruct (move_notify o) as [f|]; [|discriminate].
      munfold; simpl.
      match goal with |- context [move_notify_each l ?s0] =>
        destruct (IH s0 Hl) as (l' & s' & Hr & Hb & Hm & He) end.
      rewrite Hr; eexists _, s'; split; [reflexivity|].
      unfold new_events in *; simpl in *.
      rewrite Hm, He, <- app_assoc; auto.
    + munfold; simpl.
      destruct (IH s Hl) as (l' & s' & Hr & Hb & Hm & He).
      rewrite Hr; eexists _, s'; split; [reflexivity|].
      simpl; rewrite Hm; auto.
Qed.

Lemma move_notify_count_app a l1 l2 :
  move_notify_count a (l1 ++ l2)
  = (move_notify_count a l1 + move_notify_count a l2)%nat.
Proof.
  unfold move_notify_count; rewrite filter_app, length_app; reflexivity.
Qed.

Lemma move_notify_count_absent a (l : list (dma_buf_attachment Q)) :
  ~ In a (map (@a_addr Q) l) ->
  move_notify_count a
    (map (fun att => EvMoveNotify (a_addr att))
         (filter (@dma_buf_attachment_is_dynamic Q) l)) = 0%nat.
Proof.
  induction l as [|x l IH]; simpl; intros Hn; [reflexivity|].
  destruct (dma_buf_attachment_is_dynamic x); simpl.
  - unfold move_notify_count in *; simpl.
    destruct (a_addr x =? a) eqn:E;
      [apply Z.eqb_eq in E; tauto | apply IH; tauto].
  - apply IH; tauto.
Qed.

Lemma move_notify_count_once (l : list (dma_buf_attachment Q)) att :
  NoDup (map (@a_addr Q) l) -> In att l ->
  move_notify_count (a_addr att)
    (map (fun x => EvMoveNotify (a_addr x))
         (filter (@dma_buf_attachment_is_dynamic Q) l))
  = if dma_buf_attachment_is_dynamic att then 1%nat else 0%nat.
Proof.
  induction l as [|x l IH]; simpl; intros Hnd Hin; [destruct Hin|].
  inversion Hnd as [|? ? Hx Hl]; subst.
  destruct Hin as [->|Hin].
  - destruct (dma_buf_attachment_is_dynamic att) eqn:D; simpl.
    + change (EvMoveNotify (a_addr att) :: ?r) with ([EvMoveNotify (a_addr att)] ++ r).
      rewrite move_notify_count_app, move_notify_count_absent by assumption.
      unfold move_notify_count; simpl; rewrite Z.eqb_refl; reflexivity.
    + apply move_notify_count_absent; assumption.
  - assert (a_addr x <> a_addr att).
    { intros E; apply Hx; rewrite E; apply in_map; assumption. }
    destruct (dma_buf_attachment_is_dynamic x); simpl; [|apply IH; auto].
    change (EvMoveNotify (a_addr x) :: ?r) with ([EvMoveNotify (a_addr x)] ++ r).
    rewrite move_notify_count_app, IH by auto.
    unfold move_notify_count at 1; simpl.
    destruct (a_addr x =? a_addr att) eqn:E;
      [apply Z.eqb_eq in E; tauto | reflexivity].
Qed.

(** dma_buf_dynamic_attach() and dma_buf_detach() keep the attachment list
    well formed. *)
Lemma dma_buf_dynamic_attach_inv device iops ipriv (s s' : bstate P Q) r :
  attach_inv s ->
  dma_buf_dynamic_attach device iops ipriv s = Done r s' ->
  attach_inv s'.
Proof.
  intros Hinv; unfold dma_buf_dynamic_attach, kzalloc; munfold.
  unfold env_pop_alloc, env_bump.
  destruct device as [d|]; cbn; [|intros [= <- <-]; exact Hinv].
  assert (Hiops : (match iops with
                   | Some o => match move_notify o with
                               | Some _ => false
                               | None => true
                               end
                   | None => false
                   end) = false ->
                  forall o, iops = Some o -> is_null (move_notify o) = false).
  { intros H o ->; destruct (move_notify o); [reflexivity | discriminate]. }
  destruct (match iops with
            | Some o => match move_notify o with
                        | Some _ => false
                        | None => true
                        end
            | None => false
            end) eqn:Hchk; cbn; [intros [= <- <-]; exact Hinv|].
  specialize (Hiops eq_refl).
  destruct Hinv as [[Hnd Hwf] Hlt].
  assert (Hadd : forall (b : dma_buf P Q) (e : env),
    attachments b = attachments (buf s) ->
    next_addr e = next_addr (benv s) + 1 ->
    attach_inv
      {| buf := set_attachments
                  ({| a_addr := next_addr (benv s); dev := d;
                      peer2peer := match iops with
                                   | Some o => allow_peer2peer o
                                   | None => false
                                   end;
                      importer_ops := iops; importer_priv := ipriv |}
                   :: attachments b) b;
         benv := e |}).
  { intros b e Hb He.
    unfold attach_inv, attachments_wf; cbn; rewrite Hb, He.
    repeat split.
    - constructor; [|exact Hnd].
      intros Hin; apply in_map_iff in Hin as (x & Hx & Hin).
      rewrite Forall_forall in Hlt; specialize (Hlt x Hin); lia.
    - constructor; [exact Hiops | exact Hwf].
    - constructor; [cbn; lia|].
      eapply Forall_impl; [|exact Hlt]; cbn; intros; lia. }
  assert (Hkeep : forall (b : dma_buf P Q) (e : env),
    attachments b = attachments (buf s) ->
    next_addr (benv s) <= next_addr e ->
    attach_inv {| buf := b; benv := e |}).
  { intros b e Hb He; unfold attach_inv, attachments_wf; cbn; rewrite Hb.
    repeat split; auto.
    eapply Forall_impl; [|exact Hlt]; cbn; intros; lia. }
  destruct (alloc_results (benv s)) as [|a rest]; cbn.
  - destruct (attach (ops (buf s))) as [h|]; cbn.
    + unfold call_hook; munfold; cbn.
      destruct (h (next_addr (benv s)) (get_xstate (buf s))) as [r0 x]; cbn.
      destruct (r0 =? 0); cbn; intros [= <- <-].
      * eapply (Hadd (set_xstate x (buf s))); reflexivity.
      * apply Hkeep; cbn; [reflexivity | lia].
    + intros [= <- <-]; eapply (Hadd (buf s)); reflexivity.
  - destruct (a =? 0); cbn; [|intros [= <- <-]; apply Hkeep; cbn; [reflexivity|lia]].
    destruct (attach (ops (buf s))) as [h|]; cbn.
    + unfold call_hook; munfold; cbn.
      destruct (h (next_addr (benv s)) (get_xstate (buf s))) as [r0 x]; cbn.
      destruct (r0 =? 0); cbn; intros [= <- <-].
      * eapply (Hadd (set_xstate x (buf s))); reflexivity.
      * apply Hkeep; cbn; [reflexivity | lia].
    + intros [= <- <-]; eapply (Hadd (buf s)); reflexivity.
Qed.

Lemma list_del_distinct (att : dma_buf_attachment Q) atts :
  NoDup (map (@a_addr Q) atts) ->
  NoDup (map (@a_addr Q) (list_del att atts)).
Proof.
  unfold list_del; induction atts as [|a atts IH]; cbn; intros Hnd.
  - constructor.
  - inversion Hnd as [|? ? Hfresh Hrest]; subst.
    destruct (a_addr a =? a_addr att); cbn; [auto|].
    constructor; [|auto].
    rewrite in_map_iff; intros (b & Hb & Hin).
    apply filter_In in Hin as [Hin _].
    apply Hfresh; rewrite <- Hb; apply in_map; exact Hin.
Qed.

Lemma dma_buf_detach_inv attachment (s s' : bstate P Q) :
  attach_inv s ->
  dma_buf_detach attachment s = Done tt s' ->
  attach_inv s'.
Proof.
  intros [[Hnd Hwf] Hlt]; unfold dma_buf_detach.
  destruct attachment as [att|]; [|munfold; cbn; intros [= <-]; repeat split; auto].
  assert (Hdel : forall (b : dma_buf P Q) (e : env),
    attachments b = list_del att (attachments (buf s)) ->
    next_addr e = next_addr (benv s) ->
    attach_inv {| buf := b; benv := e |}).
  { intros b e Hb He; unfold attach_inv, attachments_wf; cbn; rewrite Hb, He.
    split; [split|].
    - apply list_del_distinct; exact Hnd.
    - rewrite Forall_forall in *; intros x Hin.
      apply filter_In in Hin as [Hin _]; apply Hwf; exact Hin.
    - rewrite Forall_forall in *; intros x Hin.
      apply filter_In in Hin as [Hin _]; apply Hlt; exact Hin. }
  munfold; cbn.
  destruct (detach (ops (buf s))) as [h|]; cbn.
  - unfold call_hook; munfold; cbn.
    destruct (h (a_addr att) _) as [[] x]; cbn.
    intros [= <-]; apply Hdel; reflexivity.
  - intros [= <-]; apply Hdel; reflexivity.
Qed.

(** C5.  On a buffer whose attachment list is as dma_buf_dynamic_attach()
    builds it, dma_buf_move_notify() returns, and the trace of the call
    holds the move_notify callback of every dynamic attachment of the list
    exactly once and of no static attachment; nothing else is called, and
    the list holds the same attachments afterwards. *)
Theorem dma_buf_move_notify_dynamic_once (s : bstate P Q) :
  attachments_wf (attachments (buf s)) ->
  exists s' evs,
    dma_buf_move_notify s = Done tt s' /\
    new_events s s' evs /\
    map (@a_addr Q) (attachments (buf s')) = map (@a_addr Q) (attachments (buf s)) /\
    (forall att, In att (attachments (buf s)) ->
       move_notify_count (a_addr att) evs
       = if dma_buf_attachment_is_dynamic att then 1%nat else 0%nat) /\
    (forall ev, In ev evs ->
       exists att, In att (attachments (buf s)) /\
                   dma_buf_attachment_is_dynamic att = true /\
                   ev = EvMoveNotify (a_addr att)).
Proof.
  intros [Hnd Hwf].
  unfold dma_buf_move_notify; munfold; simpl.
  destruct (move_notify_each_spec (attachments (buf s)) s Hwf)
    as (l' & s' & Hr & Hb & Hm & He).
  rewrite Hr; eexists _, _; split; [reflexivity|].
  split; [exact He|]; simpl.
  split; [exact Hm|].
  split.
  - intros att Hin; apply move_notify_count_once; assumption.
  - intros ev Hin; apply in_map_iff in Hin as (att & <- & Hin).
    apply filter_In in Hin as [Hin Hd]; eauto.
Qed.

(** ** C6: fences are imported all or none *)

Lemma add_fences_spec l u (s : bstate P Q) :
  Z.of_nat (length (fences (resv (buf s)))) + Z.of_nat (length l)
  <= max_fences (resv (buf s)) ->
  exists s',
    add_fences l u s = Done tt s' /\
    fences (resv (buf s')) = fences (resv (buf s)) ++ tagged u l /\
    max_fences (resv (buf s')) = max_fences (resv (buf s)) /\
    buf_rest (buf s') = buf_rest (buf s) /\
    benv s' = benv s.
Proof.
  revert s; induction l as [|f l IH]; intros s Hcap.
  - exists s; simpl; unfold ret; rewrite app_nil_r; repeat split; auto.
  - simpl add_fences; unfold dma_resv_add_fence; munfold; cbn [buf benv].
    simpl length in Hcap.
    destruct (max_fences (resv (buf s))
              <=? Z.of_nat (length (fences (resv (buf s))))) eqn:E;
      [apply Z.leb_le in E; lia|].
    unfold ret, modify; cbn beta iota.
    match goal with |- context [add_fences l u ?s0] =>
      destruct (IH s0) as (s' & Hr & Hf & Hm & Hb & He) end.
    { cbn; rewrite length_app; simpl; lia. }
    exists s'; rewrite Hr; cbn in *.
    rewrite Hf, Hm, <- app_assoc; repeat split; auto.
Qed.

Lemma reserve_fences_outcome n (s : bstate P Q) :
  exists r s',
    dma_resv_reserve_fences n s = Done r s' /\
    fences (resv (buf s')) = fences (resv (buf s)) /\
    buf_rest (buf s') = buf_rest (buf s) /\
    (r = 0 ->
     Z.of_nat (length (fences (resv (buf s)))) + n
     <= max_fences (resv (buf s'))) /\
    (r <> 0 -> r = - ENOMEM /\ buf s' = buf s).
Proof.
  unfold dma_resv_reserve_fences; munfold; unfold env_pop_alloc; cbn.
  destruct (Z.of_nat (length (fences (resv (buf s)))) + n
            <=? max_fences (resv (buf s))) eqn:E.
  - apply Z.leb_le in E; eexists _, _; split; [reflexivity|].
    repeat split; auto; congruence.
  - destruct (alloc_results (benv s)) as [|a rest]; cbn.
    + eexists _, _; split; [reflexivity|]; cbn; repeat split; auto; try lia;
        congruence.
    + destruct (a =? 0); cbn; eexists _, _; (split; [reflexivity|]); cbn;
        repeat split; auto; try lia; try discriminate; congruence.
Qed.

(** C6.  dma_buf_import_sync_file() with valid flags, on a descriptor that
    holds a fence unwrapping to n >= 1 fences (n within [unsigned int]),
    returns what the reservation of room for n fences returns.  When the
    reservation succeeds, room for all n has been made and all n have been
    appended, tagged DMA_RESV_USAGE_WRITE if DMA_BUF_SYNC_WRITE is set and
    DMA_RESV_USAGE_READ otherwise, with the rest of the buffer and the
    environment as the reservation left them.  When the reservation fails,
    the call returns its error, -ENOMEM, and the state is the one the
    failed reservation left: no fence has been added and the buffer is as
    it was. *)
Theorem dma_buf_import_sync_file_all_or_none
        (s : bstate P Q) (sync_file_get_fence : Z -> option fence_handle)
        (arg : dma_buf_import_sync_file_arg) (fence : fence_handle) :
  Z.ldiff (arg_flags arg) DMA_BUF_SYNC_RW = 0 ->
  Z.land (arg_flags arg) DMA_BUF_SYNC_RW <> 0 ->
  sync_file_get_fence (arg_fd arg) = Some fence ->
  (1 <= length (dma_fence_unwrap fence))%nat ->
  Z.of_nat (length (dma_fence_unwrap fence)) <= UINT_MAX ->
  exists reserved sr r s',
    dma_resv_reserve_fences (Z.of_nat (length (dma_fence_unwrap fence))) s
    = Done reserved sr /\
    dma_buf_import_sync_file sync_file_get_fence (Some arg) s = Done r s' /\
    r = reserved /\
    (reserved = 0 ->
     Z.of_nat (length (fences (resv (buf s))))
     + Z.of_nat (length (dma_fence_unwrap fence))
     <= max_fences (resv (buf sr)) /\
     fences (resv (buf s')) =
       fences (resv (buf s))
       ++ tagged (import_usage (arg_flags arg)) (dma_fence_unwrap fence) /\
     max_fences (resv (buf s')) = max_fences (resv (buf sr)) /\
     Z.of_nat (length (fences (resv (buf s')))) <= max_fences (resv (buf s')) /\
     buf_rest (buf s') = buf_rest (buf s) /\
     benv s' = benv sr) /\
    (reserved <> 0 ->
     reserved = - ENOMEM /\ s' = sr /\ buf s' = buf s).
Proof.
  intros Hfl Hrw Hfd Hn Hmax.
  unfold dma_buf_import_sync_file.
  rewrite Hfl; cbn [negb Z.eqb].
  destruct (Z.land (arg_flags arg) DMA_BUF_SYNC_RW =? 0) eqn:E;
    [apply Z.eqb_eq in E; contradiction|].
  rewrite Hfd.
  set (l := dma_fence_unwrap fence) in *.
  assert (Hw : wrap32 (Z.of_nat (length l)) = Z.of_nat (length l)).
  { unfold wrap32; apply Z.mod_small; unfold UINT_MAX in Hmax; lia. }
  rewrite Hw.
  destruct (0 <? Z.of_nat (length l)) eqn:Hpos; [|apply Z.ltb_ge in Hpos; lia].
  assert (Husage : (if negb (Z.land (arg_flags arg) DMA_BUF_SYNC_WRITE =? 0)
                    then DMA_RESV_USAGE_WRITE else DMA_RESV_USAGE_READ)
                   = import_usage (arg_flags arg)).
  { unfold import_usage.
    destruct (Z.land (arg_flags arg) DMA_BUF_SYNC_WRITE =? 0); reflexivity. }
  rewrite Husage.
  destruct (reserve_fences_outcome (Z.of_nat (length l)) s)
    as (rr & sr & Hres & Hf & Hrest & Hok & Hfail).
  unfold bind at 1; rewrite Hres.
  destruct (rr =? 0) eqn:Hrr.
  - apply Z.eqb_eq in Hrr; subst rr; specialize (Hok eq_refl).
    destruct (add_fences_spec l (import_usage (arg_flags arg)) sr)
      as (s' & Hr & Hf' & Hm & Hb & He).
    { rewrite Hf; exact Hok. }
    unfold bind at 1; rewrite Hr; unfold ret.
    exists 0, sr, 0, s'; split; [reflexivity|]; split; [reflexivity|].
    split; [reflexivity|]; split; [|intros H; contradiction].
    intros _; rewrite Hf', Hm, Hf, Hb, length_app.
    unfold tagged; rewrite length_map.
    repeat split; auto; lia.
  - apply Z.eqb_neq in Hrr; destruct (Hfail Hrr) as [-> Hb].
    unfold bind, ret.
    exists (- ENOMEM), sr, (- ENOMEM), sr.
    split; [reflexivity|]; split; [reflexivity|]; split; [reflexivity|].
    split; [intros H; discriminate | auto].
Qed.

(** ** C7: export validates the capability table *)

(** C7.  dma_buf_export() with a capability table that lacks map_dma_buf,
    unmap_dma_buf or release, or that has exactly one of pin and unpin,
    returns ERR_PTR(-EINVAL) after the WARN_ON and changes nothing else: no
    buffer joins the global list, no inode number is taken, no module
    reference, no allocation is made. *)
Theorem dma_buf_export_rejects_bad_ops
        (k : kstate P Q) (exp_info : dma_buf_export_info P)
        (o : dma_buf_ops P) :
  exp_ops exp_info = Some o ->
  is_null (map_dma_buf o) = true \/
  is_null (unmap_dma_buf o) = true \/
  is_null (release o) = true \/
  is_null (pin o) <> is_null (unpin o) ->
  exists k',
    dma_buf_export exp_info k = Done (ERR_PTR (- EINVAL)) k' /\
    dmabuf_list k' = dmabuf_list k /\
    dmabuf_inode k' = dmabuf_inode k /\
    module_refs k' = module_refs k /\
    trace (kenv k') = trace (kenv k) ++ [EvWarn] /\
    alloc_results (kenv k') = alloc_results (kenv k) /\
    next_addr (kenv k') = next_addr (kenv k).
Proof.
  intros Ho Hbad.
  unfold dma_buf_export; rewrite Ho.
  destruct (exp_priv exp_info) as [pv|].
  - destruct (is_null (map_dma_buf o) || is_null (unmap_dma_buf o)
              || is_null (release o)) eqn:Hm.
    + munfold; cbn; eexists; repeat split.
    + apply orb_false_elim in Hm as [Hm Hrel].
      apply orb_false_elim in Hm as [Hmap Hunmap].
      destruct Hbad as [H|[H|[H|H]]]; try congruence.
      assert (Hne : Bool.eqb (is_null (pin o)) (is_null (unpin o)) = false).
      { destruct (is_null (pin o)), (is_null (unpin o)); auto; congruence. }
      rewrite Hne; munfold; cbn; eexists; repeat split.
  - munfold; cbn; eexists; repeat split.
Qed.

(** A buffer that dma_buf_export() returns has a valid capability table
    and is on the global list. *)
Lemma dma_buf_export_ops_valid
      (k k' : kstate P Q) (exp_info : dma_buf_export_info P)
      (d : dma_buf P Q) :
  dma_buf_export exp_info k = Done (Ptr d) k' ->
  ops_valid (ops d) /\ In d (dmabuf_list k') /\
  attachments d = [] /\ vmapping_counter d = 0 /\
  vmap_ptr d = iosys_map_null /\
  cb_in_active d = 0 /\ cb_out_active d = 0.
Proof.
  unfold dma_buf_export.
  destruct (exp_priv exp_info) as [pv|], (exp_ops exp_info) as [o|];
    try (munfold; cbn; discriminate).
  destruct (is_null (map_dma_buf o) || is_null (unmap_dma_buf o)
            || is_null (release o)) eqn:Hm;
    [munfold; cbn; discriminate|].
  destruct (Bool.eqb (is_null (pin o)) (is_null (unpin o))) eqn:Hpu;
    [|munfold; cbn; discriminate].
  apply orb_false_elim in Hm as [Hm Hrel].
  apply orb_false_elim in Hm as [Hmap Hunmap].
  apply eqb_prop in Hpu.
  unfold try_module_get, dma_buf_getfile, kzalloc, module_put,
         __dma_buf_list_add, dma_buf_stats_setup; munfold.
  unfold env_pop_alloc, env_bump; cbn.
  intros H.
  repeat match type of H with
         | context [match ?x with _ => _ end] =>
             destruct x eqn:?; cbn in H; try discriminate
         end.
  all: inversion H; subst; clear H; cbn.
  all: unfold ops_valid; repeat split; auto.
Qed.

(** ** mmap requests outside the buffer *)

Lemma vma_pages_range vma : 0 <= vma_pages vma <= ULONG_MAX.
Proof.
  unfold vma_pages, wrap64, ULONG_MAX, PAGE_SHIFT.
  rewrite Z.shiftr_div_pow2 by lia.
  pose proof (Z.mod_pos_bound (vm_end vma - vm_start vma) (2 ^ 64) ltac:(lia)).
  split.
  - apply Z.div_pos; lia.
  - apply Z.le_trans with ((vm_end vma - vm_start vma) mod 2 ^ 64); [|lia].
    apply Z.div_le_upper_bound; lia.
Qed.

Lemma wrap64_small x : 0 <= x <= ULONG_MAX -> wrap64 x = x.
Proof. unfold wrap64, ULONG_MAX; intros; apply Z.mod_small; lia. Qed.

Lemma wrap64_overflow a b :
  0 <= a <= ULONG_MAX -> 0 <= b <= ULONG_MAX -> ULONG_MAX < a + b ->
  wrap64 (a + b) < a.
Proof.
  unfold wrap64, ULONG_MAX; intros Ha Hb Hov.
  replace (a + b) with ((a + b - 2 ^ 64) + 1 * 2 ^ 64) by lia.
  rewrite Z.mod_add by lia.
  rewrite Z.mod_small; lia.
Qed.

(** X29.  With page offsets in the range of [unsigned long]:
    dma_buf_mmap_internal() returns -EINVAL, without calling the exporter
    or changing anything, when the exporter has no mmap callback or when
    vm_pgoff plus the page count of the vma, a sum that stays within
    [unsigned long], exceeds the size of the buffer in pages;
    dma_buf_mmap() does the same for its pgoff argument, and returns
    -EOVERFLOW, again without calling the exporter or changing anything,
    when pgoff plus the page count overflows [unsigned long]. *)
Theorem dma_buf_mmap_rejects
        (s : bstate P Q) (vma : vm_area_struct) (pgoff : Z) :
  0 <= vm_pgoff vma <= ULONG_MAX ->
  0 <= pgoff <= ULONG_MAX ->
  (mmap (ops (buf s)) = None \/
   (vm_pgoff vma + vma_pages vma <= ULONG_MAX /\
    size_in_pages (buf s) < vm_pgoff vma + vma_pages vma) ->
   dma_buf_mmap_internal vma s = Done (- EINVAL) s) /\
  (mmap (ops (buf s)) = None \/
   (pgoff + vma_pages vma <= ULONG_MAX /\
    size_in_pages (buf s) < pgoff + vma_pages vma) ->
   dma_buf_mmap (Some vma) pgoff s = Done (- EINVAL) s) /\
  (mmap (ops (buf s)) <> None ->
   ULONG_MAX < pgoff + vma_pages vma ->
   dma_buf_mmap (Some vma) pgoff s = Done (- EOVERFLOW) s).
Proof.
  intros Hoff Hpg.
  pose proof (vma_pages_range vma) as Hvp.
  unfold dma_buf_mmap_internal, dma_buf_mmap, size_in_pages.
  unfold bind, gets, ret.
  destruct (mmap (ops (buf s))) as [h|].
  - split; [|split].
    + intros [H|[Hsum Hbig]]; [discriminate|].
      rewrite wrap64_small by lia.
      destruct (_ >? _) eqn:E; [reflexivity|].
      rewrite Z.gtb_ltb in E; apply Z.ltb_ge in E; lia.
    + intros [H|[Hsum Hbig]]; [discriminate|].
      rewrite wrap64_small by lia.
      destruct (_ <? pgoff) eqn:Elt; [apply Z.ltb_lt in Elt; lia|].
      destruct (_ >? _) eqn:E; [reflexivity|].
      rewrite Z.gtb_ltb in E; apply Z.ltb_ge in E; lia.
    + intros _ Hov.
      pose proof (wrap64_overflow pgoff (vma_pages vma) Hpg Hvp Hov) as Hw.
      destruct (_ <? pgoff) eqn:Elt; [reflexivity|].
      apply Z.ltb_ge in Elt; lia.
  - split; [|split]; auto.
    intros H; contradiction.
Qed.

(** ** The vmap counter and the stored pointer *)

Lemma dma_buf_vmap_first (s : bstate P Q) h :
  vmap (ops (buf s)) = Some h ->
  vmapping_counter (buf s) = 0 ->
  iosys_map_is_set (vmap_ptr (buf s)) = false ->
  let r := fst (fst (h (get_xstate (buf s)))) in
  let ptr := snd (fst (h (get_xstate (buf s)))) in
  exists s',
    dma_buf_vmap s = Done (if r =? 0 then (0, ptr) else (r, iosys_map_null)) s' /\
    new_events s s'
      (EvVmap r ptr
       :: once_events ONCE_VMAP_FAILED (negb (r =? 0)) (trace (benv s))) /\
    vmapping_counter (buf s') = (if r =? 0 then 1 else 0) /\
    vmap_ptr (buf s') = (if r =? 0 then ptr else vmap_ptr (buf s)) /\
    ops (buf s') = ops (buf s).
Proof.
  intros Hh Hc Hp; cbn zeta.
  unfold dma_buf_vmap.
  unfold bind at 1, gets at 1; cbn beta iota.
  rewrite Hh, Hc; cbn [Z.eqb negb].
  unfold bind at 1, BUG_ON at 1; rewrite Hp; unfold ret at 1; cbn beta iota.
  unfold bind at 1.
  destruct (h (get_xstate (buf s))) as [[r ptr] x]; cbn [fst snd].
  unfold bind at 1, emit at 1, modify at 1; cbn beta iota.
  match goal with |- context [bind (WARN_ON_ONCE ?st ?c) _ ?s0] =>
    destruct (WARN_ON_ONCE_run st c s0) as (s1 & Hw & Hb & Ht & _)
  end.
  unfold bind at 1; rewrite Hw.
  cbn [buf benv get_env set_env bstate_env env_log trace] in Hb, Ht.
  rewrite once_events_snoc in Ht by reflexivity.
  destruct (r =? 0) eqn:Hr; cbn [negb].
  - unfold bind, modify_buf, modify, ret; cbn.
    eexists; split; [reflexivity|]; unfold new_events; cbn.
    rewrite Ht, Hb, <- app_assoc; repeat split; auto.
  - unfold ret; eexists; split; [reflexivity|]; unfold new_events.
    rewrite Ht, Hb, <- app_assoc; repeat split; auto.
Qed.

Lemma dma_buf_vmap_nested (s : bstate P Q) h :
  vmap (ops (buf s)) = Some h ->
  vmapping_counter (buf s) <> 0 ->
  iosys_map_is_set (vmap_ptr (buf s)) = true ->
  exists s',
    dma_buf_vmap s = Done (0, vmap_ptr (buf s)) s' /\
    new_events s s' [] /\
    get_xstate (buf s') = get_xstate (buf s) /\
    vmapping_counter (buf s') = wrap32 (vmapping_counter (buf s) + 1) /\
    vmap_ptr (buf s') = vmap_ptr (buf s) /\
    ops (buf s') = ops (buf s).
Proof.
  intros Hh Hc Hp.
  unfold dma_buf_vmap; munfold; cbn beta iota.
  rewrite Hh.
  destruct (vmapping_counter (buf s) =? 0) eqn:E;
    [apply Z.eqb_eq in E; contradiction|].
  unfold iosys_map_is_set in Hp; apply negb_true_iff in Hp.
  cbn; rewrite Hp.
  eexists; split; [reflexivity|]; unfold new_events; cbn.
  rewrite app_nil_r; repeat split.
Qed.

Lemma dma_buf_vunmap_run (s : bstate P Q) m :
  iosys_map_is_set (vmap_ptr (buf s)) = true ->
  vmapping_counter (buf s) <> 0 ->
  iosys_map_is_equal (vmap_ptr (buf s)) m = true ->
  let n := wrap32 (vmapping_counter (buf s) - 1) in
  exists s',
    dma_buf_vunmap m s = Done tt s' /\
    vmapping_counter (buf s') = n /\
    ops (buf s') = ops (buf s) /\
    (if n =? 0
     then vmap_ptr (buf s') = iosys_map_null /\
          new_events s s' (match vunmap (ops (buf s)) with
                           | Some _ => [EvVunmap m]
                           | None => []
                           end)
     else vmap_ptr (buf s') = vmap_ptr (buf s) /\
          new_events s s' [] /\
          get_xstate (buf s') = get_xstate (buf s)).
Proof.
  intros Hp Hc He; cbn zeta.
  unfold dma_buf_vunmap; munfold; cbn beta iota.
  unfold iosys_map_is_set in Hp; apply negb_true_iff in Hp.
  rewrite Hp, He.
  destruct (vmapping_counter (buf s) =? 0) eqn:E;
    [apply Z.eqb_eq in E; contradiction|].
  cbn.
  destruct (wrap32 (vmapping_counter (buf s) - 1) =? 0) eqn:En; cbn.
  - destruct (vunmap (ops (buf s))) as [hu|]; cbn.
    + unfold call_hook; munfold; cbn.
      match goal with |- context [hu ?a ?b] => destruct (hu a b) as [[] x] end.
      eexists; split; [reflexivity|]; cbn.
      unfold new_events; cbn; repeat split; auto;
        try (apply Z.eqb_eq in En; auto).
    + eexists; split; [reflexivity|]; cbn.
      unfold new_events; cbn; rewrite app_nil_r; repeat split; auto;
        try (apply Z.eqb_eq in En; auto).
  - eexists; split; [reflexivity|]; cbn.
    unfold new_events; cbn; rewrite app_nil_r; repeat split; auto.
Qed.

Lemma dma_buf_vmap_cases (s s1 : bstate P Q) a :
  dma_buf_vmap s = Done a s1 ->
  (vmap (ops (buf s)) = None /\ s1 = s) \/
  (exists h, vmap (ops (buf s)) = Some h /\
             vmapping_counter (buf s) = 0 /\
             iosys_map_is_set (vmap_ptr (buf s)) = false) \/
  (exists h, vmap (ops (buf s)) = Some h /\
             vmapping_counter (buf s) <> 0 /\
             iosys_map_is_set (vmap_ptr (buf s)) = true).
Proof.
  intros H.
  destruct (vmap (ops (buf s))) as [h|] eqn:Hh.
  - right.
    destruct (vmapping_counter (buf s) =? 0) eqn:Hc;
      destruct (iosys_map_is_null (vmap_ptr (buf s))) eqn:Hp.
    + left; exists h; apply Z.eqb_eq in Hc.
      unfold iosys_map_is_set; rewrite Hp; auto.
    + exfalso; revert H; unfold dma_buf_vmap; munfold; cbn beta iota.
      unfold iosys_map_is_set; rewrite Hh, Hc, Hp; cbn; discriminate.
    + exfalso; revert H; unfold dma_buf_vmap; munfold; cbn beta iota.
      rewrite Hh, Hc; cbn; rewrite Hp; discriminate.
    + right; exists h; apply Z.eqb_neq in Hc.
      unfold iosys_map_is_set; rewrite Hp; auto.
  - left; split; auto.
    revert H; unfold dma_buf_vmap; munfold; cbn beta iota.
    rewrite Hh; intros [= _ <-]; reflexivity.
Qed.

Lemma dma_buf_vunmap_cases (s s1 : bstate P Q) m :
  dma_buf_vunmap m s = Done tt s1 ->
  iosys_map_is_set (vmap_ptr (buf s)) = true /\
  vmapping_counter (buf s) <> 0 /\
  iosys_map_is_equal (vmap_ptr (buf s)) m = true.
Proof.
  unfold dma_buf_vunmap, iosys_map_is_set; munfold; cbn beta iota.
  destruct (iosys_map_is_null (vmap_ptr (buf s))); [discriminate|].
  destruct (vmapping_counter (buf s) =? 0) eqn:Hc; [discriminate|].
  destruct (iosys_map_is_equal (vmap_ptr (buf s)) m); [|discriminate].
  apply Z.eqb_neq in Hc; auto.
Qed.

Lemma exporter_mappings_app a b :
  exporter_mappings (a ++ b) = exporter_mappings a + exporter_mappings b.
Proof.
  induction a as [|ev a IH]; simpl; [reflexivity|].
  destruct ev; rewrite ?IH; try lia.
Qed.

Lemma new_events_trans (s s1 s2 : bstate P Q) e1 e2 :
  new_events s s1 e1 -> new_events s1 s2 e2 -> new_events s s2 (e1 ++ e2).
Proof.
  unfold new_events; intros H1 H2; rewrite H2, H1, app_assoc; reflexivity.
Qed.

Lemma run_vmap_calls_mappings l :
  forall (s s' : bstate P Q) n,
    vunmap (ops (buf s)) <> None ->
    vmap_state_ok (buf s) n ->
    run_vmap_calls l s = Done tt s' ->
    exists evs, new_events s s' evs /\
                vmap_state_ok (buf s') (n + exporter_mappings evs).
Proof.
  induction l as [|c l IH]; intros s s' n Hu Hok Hrun.
  - inversion Hrun; subst; exists []; unfold new_events.
    rewrite app_nil_r, Z.add_0_r; auto.
  - destruct c as [|m]; simpl in Hrun;
      apply bind_inv in Hrun as (a & s1 & Hstep & Hrest).
    + destruct (dma_buf_vmap_cases s s1 a Hstep)
        as [[Hn ->]|[(h & Hh & Hc & Hp)|(h & Hh & Hc & Hp)]].
      * apply (IH s s' n Hu Hok Hrest).
      * destruct (dma_buf_vmap_first s h Hh Hc Hp)
          as (s1' & Hr & He & Hc' & Hp' & Hops).
        rewrite Hstep in Hr; inversion Hr; subst s1'; clear Hr.
        destruct Hok as [(-> & _ & _)|(_ & [Hx|Hx])]; try congruence.
        set (r := fst (fst (h (get_xstate (buf s))))) in *.
        assert (Hok1 : vmap_state_ok (buf s1) (if r =? 0 then 1 else 0)).
        { destruct (r =? 0); [right|left]; rewrite Hc', ?Hp';
            repeat split; auto; left; discriminate. }
        rewrite <- Hops in Hu.
        destruct (IH s1 s' _ Hu Hok1 Hrest) as (evs & He' & Hok').
        eexists; split; [eapply new_events_trans; eauto|].
        rewrite exporter_mappings_app.
        replace (0 + _) with ((if r =? 0 then 1 else 0) + exporter_mappings evs);
          auto.
        simpl; unfold once_events.
        destruct (r =? 0); cbn [negb andb]; [simpl; lia|].
        destruct (existsb _ _); simpl; lia.
      * destruct (dma_buf_vmap_nested s h Hh Hc Hp)
          as (s1' & Hr & He & _ & Hc' & Hp' & Hops).
        rewrite Hstep in Hr; inversion Hr; subst s1'; clear Hr.
        destruct Hok as [(-> & Hz & _)|(-> & _)]; try congruence.
        assert (Hok1 : vmap_state_ok (buf s1) 1).
        { right; split; auto; right; rewrite Hp'; auto. }
        rewrite <- Hops in Hu.
        destruct (IH s1 s' _ Hu Hok1 Hrest) as (evs & He' & Hok').
        exists ([] ++ evs); split; [eapply new_events_trans; eauto|].
        simpl; auto.
    + destruct a.
      destruct (dma_buf_vunmap_cases s s1 m Hstep) as (Hp & Hc & Heq).
      destruct (dma_buf_vunmap_run s m Hp Hc Heq)
        as (s1' & Hr & Hc' & Hops & Hres).
      rewrite Hstep in Hr; inversion Hr; subst s1'; clear Hr.
      destruct Hok as [(-> & Hz & _)|(-> & _)]; try congruence.
      pose proof Hu as Hu1; rewrite <- Hops in Hu1.
      destruct (wrap32 (vmapping_counter (buf s) - 1) =? 0) eqn:En.
      * destruct Hres as [Hp' He].
        destruct (vunmap (ops (buf s))) as [hu|]; [|contradiction].
        assert (Hok1 : vmap_state_ok (buf s1) 0).
        { left; rewrite Hc', Hp'; apply Z.eqb_eq in En; auto. }
        destruct (IH s1 s' _ Hu1 Hok1 Hrest) as (evs & He' & Hok').
        eexists; split; [eapply new_events_trans; eauto|].
        rewrite exporter_mappings_app; cbn [exporter_mappings app].
        match goal with
        | |- vmap_state_ok _ ?k =>
            replace k with (0 + exporter_mappings evs) by lia
        end; auto.
      * destruct Hres as (Hp' & He & _).
        assert (Hok1 : vmap_state_ok (buf s1) 1).
        { right; split; auto; left; rewrite Hc'; apply Z.eqb_neq in En; auto. }
        destruct (IH s1 s' _ Hu1 Hok1 Hrest) as (evs & He' & Hok').
        exists ([] ++ evs); split; [eapply new_events_trans; eauto|].
        simpl; auto.
Qed.

Lemma wrap32_small x : 0 <= x <= UINT_MAX -> wrap32 x = x.
Proof. unfold wrap32, UINT_MAX; intros; apply Z.mod_small; lia. Qed.

(** X28.  On a buffer on which the stored mapping is set exactly when the
    counter is positive: dma_buf_vmap() calls the exporter's vmap callback
    only when the counter is 0 (a failure is returned after the
    WARN_ON_ONCE, with counter and mapping untouched; on success the
    mapping is stored and the counter set to 1), and with a counter above
    0 it returns the stored mapping and increments the counter without
    calling the exporter.  dma_buf_vunmap() decrements the counter, and
    only when it reaches 0 calls the vunmap callback (if any) and clears
    the stored mapping.  The invariant is kept by every vunmap, by every
    nested vmap below UINT_MAX, and by a first vmap whose callback, when
    it returns 0, has filled in a mapping that is not null.  In every run
    of vmap and vunmap calls from an unmapped buffer whose exporter has a
    vunmap callback, successful vmap callbacks exceed vunmap callbacks by
    at most one, whatever the nesting depth. *)
Theorem dma_buf_vmap_vunmap_bookkeeping :
  (forall (s : bstate P Q) (h : hook P (Z * iosys_map)),
      vmap (ops (buf s)) = Some h ->
      vmap_inv (buf s) ->
      0 <= vmapping_counter (buf s) <= UINT_MAX ->
      let r := fst (fst (h (get_xstate (buf s)))) in
      let ptr := snd (fst (h (get_xstate (buf s)))) in
      exists res s' evs,
        dma_buf_vmap s = Done res s' /\
        new_events s s' evs /\
        if vmapping_counter (buf s) =? 0 then
          evs = EvVmap r ptr
                :: once_events ONCE_VMAP_FAILED (negb (r =? 0))
                               (trace (benv s)) /\
          res = (if r =? 0 then (0, ptr) else (r, iosys_map_null)) /\
          vmapping_counter (buf s') = (if r =? 0 then 1 else 0) /\
          vmap_ptr (buf s') = (if r =? 0 then ptr else vmap_ptr (buf s)) /\
          ((r = 0 -> iosys_map_is_set ptr = true) -> vmap_inv (buf s'))
        else
          evs = [] /\
          get_xstate (buf s') = get_xstate (buf s) /\
          res = (0, vmap_ptr (buf s)) /\
          vmapping_counter (buf s') = wrap32 (vmapping_counter (buf s) + 1) /\
          vmap_ptr (buf s') = vmap_ptr (buf s) /\
          (vmapping_counter (buf s) < UINT_MAX ->
           vmapping_counter (buf s') = vmapping_counter (buf s) + 1 /\
           vmap_inv (buf s')))
  /\
  (forall (s : bstate P Q) (m : iosys_map),
      vmap_inv (buf s) ->
      0 < vmapping_counter (buf s) <= UINT_MAX ->
      iosys_map_is_equal (vmap_ptr (buf s)) m = true ->
      exists s' evs,
        dma_buf_vunmap m s = Done tt s' /\
        new_events s s' evs /\
        vmapping_counter (buf s') = vmapping_counter (buf s) - 1 /\
        vmap_inv (buf s') /\
        if vmapping_counter (buf s) =? 1 then
          vmap_ptr (buf s') = iosys_map_null /\
          evs = match vunmap (ops (buf s)) with
                | Some _ => [EvVunmap m]
                | None => []
                end
        else
          vmap_ptr (buf s') = vmap_ptr (buf s) /\
          evs = [] /\
          get_xstate (buf s') = get_xstate (buf s))
  /\
  (forall (l : list vmap_call) (s s' : bstate P Q) (evs : list event),
      vmapping_counter (buf s) = 0 ->
      iosys_map_is_set (vmap_ptr (buf s)) = false ->
      vunmap (ops (buf s)) <> None ->
      run_vmap_calls l s = Done tt s' ->
      new_events s s' evs ->
      0 <= exporter_mappings evs <= 1).
Proof.
  split; [|split].
  - intros s h Hh Hinv Hrange; cbn zeta.
    unfold vmap_inv in Hinv.
    destruct (vmapping_counter (buf s) =? 0) eqn:Hc.
    + apply Z.eqb_eq in Hc.
      assert (Hp : iosys_map_is_set (vmap_ptr (buf s)) = false)
        by (rewrite Hinv, Hc; reflexivity).
      destruct (dma_buf_vmap_first s h Hh Hc Hp)
        as (s' & Hr & He & Hc' & Hp' & _).
      eexists _, s', _; split; [exact Hr|]; split; [exact He|].
      repeat split; auto.
      intros Hset; unfold vmap_inv; rewrite Hc', Hp'.
      destruct (fst (fst (h (get_xstate (buf s)))) =? 0) eqn:Hr0.
      * apply Z.eqb_eq in Hr0; rewrite (Hset Hr0); reflexivity.
      * rewrite Hp; reflexivity.
    + apply Z.eqb_neq in Hc.
      assert (Hp : iosys_map_is_set (vmap_ptr (buf s)) = true).
      { rewrite Hinv; apply Z.ltb_lt; lia. }
      destruct (dma_buf_vmap_nested s h Hh Hc Hp)
        as (s' & Hr & He & Hx & Hc' & Hp' & _).
      eexists _, s', _; split; [exact Hr|]; split; [exact He|].
      repeat split; auto.
      * rewrite Hc'; apply wrap32_small; lia.
      * unfold vmap_inv; rewrite Hc', Hp', Hp, wrap32_small by lia.
        symmetry; apply Z.ltb_lt; lia.
  - intros s m Hinv Hrange Heq.
    unfold vmap_inv in Hinv.
    assert (Hp : iosys_map_is_set (vmap_ptr (buf s)) = true).
    { rewrite Hinv; apply Z.ltb_lt; lia. }
    assert (Hc : vmapping_counter (buf s) <> 0) by lia.
    destruct (dma_buf_vunmap_run s m Hp Hc Heq)
      as (s' & Hr & Hc' & _ & Hres).
    rewrite wrap32_small in Hc', Hres by lia.
    destruct (vmapping_counter (buf s) =? 1) eqn:H1.
    + apply Z.eqb_eq in H1.
      replace (vmapping_counter (buf s) - 1 =? 0) with true in Hres
        by (symmetry; apply Z.eqb_eq; lia).
      destruct Hres as [Hp' He].
      eexists s', _; split; [exact Hr|]; split; [exact He|].
      repeat split; auto.
      unfold vmap_inv; rewrite Hc', Hp', H1; reflexivity.
    + apply Z.eqb_neq in H1.
      replace (vmapping_counter (buf s) - 1 =? 0) with false in Hres
        by (symmetry; apply Z.eqb_neq; lia).
      destruct Hres as (Hp' & He & Hx).
      eexists s', _; split; [exact Hr|]; split; [exact He|].
      repeat split; auto.
      unfold vmap_inv; rewrite Hc', Hp', Hp.
      symmetry; apply Z.ltb_lt; lia.
  - intros l s s' evs Hc Hp Hu Hrun Hev.
    assert (Hok : vmap_state_ok (buf s) 0) by (left; auto).
    destruct (run_vmap_calls_mappings l s s' 0 Hu Hok Hrun)
      as (evs' & Hev' & Hok').
    assert (evs' = evs) as ->.
    { unfold new_events in *; rewrite Hev in Hev'.
      apply app_inv_head in Hev'; auto. }
    destruct Hok' as [(Hk & _)|(Hk & _)]; lia.
Qed.

(** ** C4: one armed poll callback per direction *)

Lemma poll_cb_eqb_eq a b : poll_cb_eqb a b = true <-> a = b.
Proof. destruct a, b; simpl; split; congruence. Qed.

Lemma armed_app d l1 l2 : armed d (l1 ++ l2) = (armed d l1 + armed d l2)%nat.
Proof. induction l1; simpl; lia. Qed.

Lemma run_callbacks_active cbs (s : bstate P Q) :
  exists s', run_callbacks cbs s = Done tt s' /\
    resv (buf s') = resv (buf s) /\
    forall d, cb_active d (buf s')
              = if existsb (poll_cb_eqb d) cbs then 0 else cb_active d (buf s).
Proof.
  revert s; induction cbs as [|c cbs IH]; intros s; simpl.
  - exists s; auto.
  - unfold dma_buf_poll_cb, fput; munfold; simpl.
    match goal with |- context [run_callbacks cbs ?s0] =>
      destruct (IH s0) as (s' & Hr & Hresv & Hact) end.
    exists s'; rewrite Hr; split; [reflexivity|]; split; [rewrite Hresv; reflexivity|].
    intros d; rewrite Hact.
    destruct (existsb (poll_cb_eqb d) cbs); [rewrite orb_true_r; reflexivity|].
    rewrite orb_false_r; destruct d, c; reflexivity.
Qed.

Lemma entry_signal_armed e d :
  (armed d [e] = armed d [fst (entry_signal e)]
                 + count_occ poll_cb_eq_dec (snd (entry_signal e)) d)%nat /\
  (signaled (e_fence (fst (entry_signal e))) = true ->
   cb_list (e_fence (fst (entry_signal e))) = [] \/
   fst (entry_signal e) = e).
Proof.
  unfold entry_signal, fence_signal.
  destruct (signaled (e_fence e)) eqn:Sg; simpl; split; auto; try lia.
  intros _; right; destruct e as [[] ?]; simpl in *; subst; reflexivity.
Qed.

Lemma signal_covered_armed u l d :
  no_cb_when_signaled l ->
  (armed d l = armed d (fst (signal_covered u l))
               + count_occ poll_cb_eq_dec (snd (signal_covered u l)) d)%nat /\
  no_cb_when_signaled (fst (signal_covered u l)).
Proof.
  induction l as [|e l IH]; intros Hn; simpl.
  - split; [reflexivity|]; intros ? [].
  - destruct IH as [IHa IHn].
    { intros x Hx; apply Hn; right; assumption. }
    destruct (signal_covered u l) as [l' cbs'] eqn:E; simpl in *.
    destruct (usage_covers u (e_usage e)).
    + destruct (entry_signal_armed e d) as [Ha Hs].
      destruct (entry_signal e) as [e' cbs] eqn:Ee; simpl in *.
      rewrite count_occ_app; split; [lia|].
      intros x [<-|Hx] Hsig; [|apply IHn; assumption].
      destruct (Hs Hsig) as [H|H]; [assumption|].
      subst e'; apply Hn; [left; reflexivity | assumption].
    + simpl; split; [lia|].
      intros x [<-|Hx] Hsig; [apply Hn; [left; reflexivity|assumption]|].
      apply IHn; assumption.
Qed.

Lemma signal_nth_armed i l d :
  no_cb_when_signaled l ->
  (armed d l = armed d (fst (signal_nth i l))
               + count_occ poll_cb_eq_dec (snd (signal_nth i l)) d)%nat /\
  no_cb_when_signaled (fst (signal_nth i l)).
Proof.
  revert i; induction l as [|e l IH]; intros i Hn; simpl.
  - split; [reflexivity|]; intros ? [].
  - destruct i as [|j].
    + destruct (entry_signal_armed e d) as [Ha Hs].
      destruct (entry_signal e) as [e' cbs] eqn:Ee; simpl in *.
      split; [lia|].
      intros x [<-|Hx] Hsig; [|apply Hn; [right|]; assumption].
      destruct (Hs Hsig) as [H|H]; [assumption|].
      subst e'; apply Hn; [left; reflexivity | assumption].
    + destruct (IH j) as [IHa IHn].
      { intros x Hx; apply Hn; right; assumption. }
      destruct (signal_nth j l) as [l' cbs'] eqn:E; simpl in *.
      split; [lia|].
      intros x [<-|Hx] Hsig; [apply Hn; [left; reflexivity|assumption]|].
      apply IHn; assumption.
Qed.

Lemma count_occ_existsb d cbs :
  existsb (poll_cb_eqb d) cbs = false <-> count_occ poll_cb_eq_dec cbs d = 0%nat.
Proof.
  induction cbs as [|c cbs IH]; simpl; [tauto|].
  destruct (poll_cb_eq_dec c d) as [->|Hne].
  - replace (poll_cb_eqb d d) with true by (destruct d; reflexivity).
    simpl; split; [discriminate | lia].
  - replace (poll_cb_eqb d c) with false.
    + simpl; exact IH.
    + destruct d, c; try reflexivity; congruence.
Qed.

(** Signalling fences and running their callbacks keeps the invariant. *)
Lemma poll_inv_after_signal (b b' : dma_buf P Q) cbs :
  poll_inv b ->
  no_cb_when_signaled (fences (resv b')) ->
  (forall d, armed d (fences (resv b))
             = (armed d (fences (resv b')) + count_occ poll_cb_eq_dec cbs d)%nat) ->
  (forall d, cb_active d b'
             = if existsb (poll_cb_eqb d) cbs then 0 else cb_active d b) ->
  poll_inv b'.
Proof.
  intros [Hn Hinv] Hn' Harm Hact; split; [exact Hn'|].
  intros d; specialize (Harm d); rewrite (Hact d).
  destruct (existsb (poll_cb_eqb d) cbs) eqn:Ex.
  - left; split; [reflexivity|].
    assert (count_occ poll_cb_eq_dec cbs d <> 0%nat).
    { intros H0; apply count_occ_existsb in H0; congruence. }
    destruct (Hinv d) as [[_ Ha]|[_ Ha]]; lia.
  - apply count_occ_existsb in Ex.
    destruct (Hinv d) as [[Hz Ha]|[Hz Ha]]; [left|right]; split; auto; lia.
Qed.

Lemma signal_and_run (s : bstate P Q) l' cbs :
  poll_inv (buf s) ->
  no_cb_when_signaled l' ->
  (forall d, armed d (fences (resv (buf s)))
             = (armed d l' + count_occ poll_cb_eq_dec cbs d)%nat) ->
  exists s',
    (modify_buf (set_resv (set_fences l' (resv (buf s)))) ;;
     run_callbacks cbs) s = Done tt s' /\
    poll_inv (buf s').
Proof.
  intros Hinv Hn Harm; munfold; cbn beta iota.
  match goal with |- context [run_callbacks cbs ?s0] =>
    destruct (run_callbacks_active cbs s0) as (s' & Hr & Hresv & Hact) end.
  exists s'; split; [exact Hr|].
  apply (poll_inv_after_signal (buf s) (buf s') cbs Hinv).
  - rewrite Hresv; exact Hn.
  - rewrite Hresv; exact Harm.
  - intros d; rewrite Hact; destruct d; reflexivity.
Qed.

Lemma fences_complete_poll_inv u (s : bstate P Q) :
  poll_inv (buf s) ->
  exists s', fences_complete u s = Done tt s' /\ poll_inv (buf s').
Proof.
  intros Hinv; unfold fences_complete.
  unfold bind at 1, gets at 1; cbn beta iota.
  pose proof (fun d => signal_covered_armed u (fences (resv (buf s))) d
                         (proj1 Hinv)) as H.
  destruct (signal_covered u (fences (resv (buf s)))) as [l cbs] eqn:E.
  apply signal_and_run; auto.
  - apply (H CB_IN).
  - intros d; apply (H d).
Qed.

Lemma dma_fence_signal_nth_poll_inv i (s : bstate P Q) :
  poll_inv (buf s) ->
  exists s', dma_fence_signal_nth i s = Done tt s' /\ poll_inv (buf s').
Proof.
  intros Hinv; unfold dma_fence_signal_nth.
  unfold bind at 1, gets at 1; cbn beta iota.
  pose proof (fun d => signal_nth_armed i (fences (resv (buf s))) d
                         (proj1 Hinv)) as H.
  destruct (signal_nth i (fences (resv (buf s)))) as [l cbs] eqn:E.
  apply signal_and_run; auto.
  - apply (H CB_IN).
  - intros d; apply (H d).
Qed.

Lemma dma_resv_wait_poll_inv u (s : bstate P Q) :
  poll_inv (buf s) ->
  exists r s',
    dma_resv_wait_timeout u true MAX_SCHEDULE_TIMEOUT s = Done r s' /\
    poll_inv (buf s').
Proof.
  intros Hinv; unfold dma_resv_wait_timeout; munfold; simpl.
  destruct (existsb (entry_pending u) (fences (resv (buf s)))).
  - unfold env_pop_wakeup; simpl.
    assert (Hc : forall (s1 : bstate P Q), buf s1 = buf s ->
              exists r s',
                bind (fences_complete u) (fun _ => ret MAX_SCHEDULE_TIMEOUT) s1
                = Done r s' /\ poll_inv (buf s')).
    { intros s1 Hb.
      destruct (fences_complete_poll_inv u s1) as (s' & Hr & Hi);
        [rewrite Hb; exact Hinv|].
      exists MAX_SCHEDULE_TIMEOUT, s'; unfold bind; rewrite Hr; auto. }
    destruct (wakeups (benv s)) as [|[] rest]; simpl;
      try (apply Hc; reflexivity).
    eexists _, _; split; [reflexivity|]; exact Hinv.
  - eexists _, _; split; [reflexivity|]; exact Hinv.
Qed.

Lemma poll_inv_ext (b b' : dma_buf P Q) :
  fences (resv b') = fences (resv b) ->
  (forall d, cb_active d b' = cb_active d b) ->
  poll_inv b -> poll_inv b'.
Proof.
  unfold poll_inv; intros Hf Ha [Hn Hi]; rewrite Hf; split; [exact Hn|].
  intros d; rewrite Ha; apply Hi.
Qed.

Lemma poll_inv_add (b b' : dma_buf P Q) f u :
  fences (resv b') = fences (resv b) ++ [{| e_fence := f; e_usage := u |}] ->
  cb_list f = [] ->
  (forall d, cb_active d b' = cb_active d b) ->
  poll_inv b -> poll_inv b'.
Proof.
  unfold poll_inv; intros Hf Hc Ha [Hn Hi]; rewrite Hf; split.
  - intros e Hin Hs; apply in_app_or in Hin as [Hin|[<-|[]]]; auto.
  - intros d; rewrite Ha, armed_app; cbn; rewrite Hc; cbn.
    destruct (Hi d) as [[Hz Hd]|[Hz Hd]]; [left|right]; (split; [exact Hz | lia]).
Qed.

Lemma dma_resv_reserve_fences_spec n (s : bstate P Q) :
  exists r s',
    dma_resv_reserve_fences n s = Done r s' /\
    fences (resv (buf s')) = fences (resv (buf s)) /\
    buf_rest (buf s') = buf_rest (buf s) /\
    (r = 0 ->
     Z.of_nat (length (fences (resv (buf s)))) + n <= max_fences (resv (buf s'))).
Proof.
  unfold dma_resv_reserve_fences; munfold; unfold env_pop_alloc; cbn.
  destruct (Z.of_nat (length (fences (resv (buf s)))) + n
            <=? max_fences (resv (buf s))) eqn:E.
  - apply Z.leb_le in E; eexists _, _; split; [reflexivity|]; auto.
  - destruct (alloc_results (benv s)) as [|a rest]; cbn.
    + eexists _, _; split; [reflexivity|]; cbn; repeat split; auto; lia.
    + destruct (a =? 0); cbn; eexists _, _; (split; [reflexivity|]); cbn;
        repeat split; auto; try lia; try discriminate.
Qed.

Lemma buf_rest_cb_active (b b' : dma_buf P Q) :
  buf_rest b' = buf_rest b -> forall d, cb_active d b' = cb_active d b.
Proof.
  unfold buf_rest; intros [= ? ? ? ? Hin Hout ? ? ? ?] d.
  destruct d; assumption.
Qed.

Lemma add_fence_poll_inv id done u (s : bstate P Q) :
  poll_inv (buf s) ->
  exists s', run_poll_step (StepAddFence id done u) s = Done tt s' /\
             poll_inv (buf s').
Proof.
  intros Hinv; unfold run_poll_step.
  destruct (dma_resv_reserve_fences_spec 1 s) as (r & s1 & Hr & Hf & Hrest & Hcap).
  unfold bind at 1; rewrite Hr.
  assert (Hinv1 : poll_inv (buf s1)).
  { eapply poll_inv_ext; eauto using buf_rest_cb_active. }
  destruct (r =? 0) eqn:Hr0.
  - apply Z.eqb_eq in Hr0; specialize (Hcap Hr0).
    unfold dma_resv_add_fence; munfold; cbn beta iota.
    destruct (max_fences (resv (buf s1))
              <=? Z.of_nat (length (fences (resv (buf s1))))) eqn:E.
    + apply Z.leb_le in E; rewrite Hf in E; lia.
    + cbn; eexists; split; [reflexivity|].
      apply (poll_inv_add (buf s1) _
               {| fence_id := id; signaled := done; cb_list := [] |} u);
        auto; intros d; destruct d; reflexivity.
  - exists s1; unfold ret; auto.
Qed.

Lemma count_occ_snoc (l : list poll_cb) c d :
  count_occ poll_cb_eq_dec (l ++ [c]) d
  = (count_occ poll_cb_eq_dec l d + if poll_cb_eqb d c then 1 else 0)%nat.
Proof.
  rewrite count_occ_app; simpl.
  destruct (poll_cb_eq_dec c d) as [->|Hne].
  - replace (poll_cb_eqb d d) with true by (destruct d; reflexivity); lia.
  - replace (poll_cb_eqb d c) with false; [lia|].
    destruct d, c; try reflexivity; congruence.
Qed.

Lemma poll_add_cb_fences_spec u dcb l :
  no_cb_when_signaled l ->
  no_cb_when_signaled (snd (poll_add_cb_fences u dcb l)) /\
  (forall d, armed d (snd (poll_add_cb_fences u dcb l))
             = (armed d l + if fst (poll_add_cb_fences u dcb l)
                               && poll_cb_eqb d dcb then 1 else 0)%nat) /\
  (fst (poll_add_cb_fences u dcb l) = false ->
   snd (poll_add_cb_fences u dcb l) = l).
Proof.
  induction l as [|e l IH]; intros Hn; simpl.
  - repeat split; auto; intros d; simpl; lia.
  - destruct IH as (IHn & IHa & IHf).
    { intros x Hx; apply Hn; right; assumption. }
    assert (Hskip :
      no_cb_when_signaled (e :: snd (poll_add_cb_fences u dcb l)) /\
      (forall d, armed d (e :: snd (poll_add_cb_fences u dcb l))
                 = (armed d (e :: l)
                    + if fst (poll_add_cb_fences u dcb l)
                         && poll_cb_eqb d dcb then 1 else 0)%nat) /\
      (fst (poll_add_cb_fences u dcb l) = false ->
       e :: snd (poll_add_cb_fences u dcb l) = e :: l)).
    { repeat split.
      - intros x [<-|Hx] Hs; [apply Hn; [left; reflexivity|assumption]|].
        apply IHn; assumption.
      - intros d; simpl; rewrite IHa; lia.
      - intros Hf; rewrite (IHf Hf); reflexivity. }
    destruct (poll_add_cb_fences u dcb l) as [b rest] eqn:E; simpl in *.
    destruct (usage_covers u (e_usage e)); [|exact Hskip].
    unfold dma_fence_add_callback.
    destruct (signaled (e_fence e)) eqn:Sg; simpl; [exact Hskip|].
    repeat split; try discriminate.
    + intros x [<-|Hx] Hs; simpl in *; [discriminate|].
      apply Hn; [right|]; assumption.
    + intros d; simpl; rewrite count_occ_snoc; lia.
Qed.

Lemma land_ldiff_other d dcb ev :
  d <> dcb ->
  Z.land (Z.ldiff ev (poll_flag dcb)) (poll_flag d) = Z.land ev (poll_flag d).
Proof.
  intros Hne; apply Z.bits_inj'; intros n Hn.
  rewrite !Z.land_spec, Z.ldiff_spec.
  destruct d, dcb; try congruence; unfold poll_flag, EPOLLIN, EPOLLOUT.
  - change 1 with (2 ^ 0); change 4 with (2 ^ 2).
    rewrite !Z.pow2_bits_eqb by lia.
    destruct (0 =? n) eqn:E0; [apply Z.eqb_eq in E0; subst; simpl|];
      rewrite ?andb_false_r; auto.
    rewrite andb_true_r; reflexivity.
  - change 1 with (2 ^ 0); change 4 with (2 ^ 2).
    rewrite !Z.pow2_bits_eqb by lia.
    destruct (2 =? n) eqn:E0; [apply Z.eqb_eq in E0; subst; simpl|];
      rewrite ?andb_false_r; auto.
    rewrite andb_true_r; reflexivity.
Qed.

Lemma poll_flag_nonzero dcb : poll_flag dcb <> 0.
Proof. destruct dcb; discriminate. Qed.

Lemma dma_buf_poll_dir_spec dcb write events (s : bstate P Q) :
  poll_inv (buf s) ->
  exists ev' s',
    dma_buf_poll_dir dcb write events s = Done ev' s' /\
    poll_inv (buf s') /\
    (forall d, d <> dcb ->
       Z.land ev' (poll_flag d) = Z.land events (poll_flag d) /\
       armed d (fences (resv (buf s'))) = armed d (fences (resv (buf s)))) /\
    (Z.land events (poll_flag dcb) = 0 -> Z.land ev' (poll_flag dcb) = 0) /\
    (armed dcb (fences (resv (buf s))) = 1%nat ->
       Z.land ev' (poll_flag dcb) = 0 /\
       fences (resv (buf s')) = fences (resv (buf s))).
Proof.
  intros Hinv; pose proof Hinv as [Hn Hi].
  unfold dma_buf_poll_dir.
  destruct (Z.land events (poll_flag dcb) =? 0) eqn:Hreq.
  { apply Z.eqb_eq in Hreq.
    exists events, s; unfold ret; repeat split; auto. }
  apply Z.eqb_neq in Hreq.
  unfold bind at 1, gets at 1; cbn beta iota.
  destruct (cb_active dcb (buf s) =? 0) eqn:Hact; cbn [negb].
  - apply Z.eqb_eq in Hact.
    assert (Harm0 : armed dcb (fences (resv (buf s))) = 0%nat).
    { destruct (Hi dcb) as [[_ H]|[H _]]; [exact H | contradiction]. }
    unfold dma_buf_poll_add_cb, get_file, dma_buf_poll_cb, fput; munfold.
    cbn beta iota; cbn [buf benv resv set_cb_active set_f_count].
    destruct (Z.land events (poll_flag dcb) =? 0) eqn:Hreq';
      [apply Z.eqb_eq in Hreq'; contradiction|].
    cbn beta iota; cbn [buf benv resv set_cb_active set_f_count].
    destruct (poll_add_cb_fences_spec (dma_resv_usage_rw write) dcb
                (fences (resv (buf s))) Hn) as (Hn' & Ha' & Hf').
    destruct (poll_add_cb_fences (dma_resv_usage_rw write) dcb
                (fences (resv (buf s)))) as [q l'] eqn:E.
    cbn [fst snd] in *.
    destruct q; cbn.
    + eexists _, _; split; [reflexivity|]; cbn.
      split; [|split; [|split]].
      * split; [exact Hn'|].
        intros d; rewrite Ha'; cbn [andb].
        destruct (poll_cb_eq_dec d dcb) as [->|Hne].
        -- right; replace (poll_cb_eqb dcb dcb) with true
             by (destruct dcb; reflexivity).
           split; [destruct dcb; discriminate | rewrite Harm0; reflexivity].
        -- replace (poll_cb_eqb d dcb) with false
             by (destruct d, dcb; try reflexivity; congruence).
           rewrite Nat.add_0_r.
           destruct (Hi d) as [[Hz Hd]|[Hz Hd]]; [left|right];
             (split; [destruct d, dcb; try congruence; exact Hz | exact Hd]).
      * intros d Hne; split; [apply land_ldiff_other; exact Hne|].
        rewrite Ha'; cbn [andb].
        replace (poll_cb_eqb d dcb) with false
          by (destruct d, dcb; try reflexivity; congruence).
        apply Nat.add_0_r.
      * intros _; apply Z.land_ldiff.
      * intros H1; rewrite Harm0 in H1; discriminate.
    + specialize (Hf' eq_refl); subst l'.
      eexists _, _; split; [reflexivity|]; cbn.
      split; [|split; [|split]].
      * split; [exact Hn|].
        intros d; destruct (poll_cb_eq_dec d dcb) as [->|Hne].
        -- left; split; [destruct dcb; reflexivity | exact Harm0].
        -- destruct (Hi d) as [[Hz Hd]|[Hz Hd]]; [left|right];
             (split; [destruct d, dcb; try congruence; exact Hz | exact Hd]).
      * intros d Hne; auto.
      * intros H0; contradiction.
      * intros H1; rewrite Harm0 in H1; discriminate.
  - apply Z.eqb_neq in Hact.
    unfold bind at 1, ret at 1; cbn beta iota.
    rewrite Z.land_ldiff; cbn [Z.eqb].
    exists (Z.ldiff events (poll_flag dcb)), s; unfold ret.
    split; [reflexivity|]. split; [exact Hinv|].
    split; [intros d Hne; split;
            [apply land_ldiff_other; exact Hne | reflexivity]|].
    split; [intros _; apply Z.land_ldiff|].
    intros _; split; [apply Z.land_ldiff | reflexivity].
Qed.

Lemma dma_buf_poll_spec requested (s : bstate P Q) :
  poll_inv (buf s) ->
  exists ev s',
    dma_buf_poll requested s = Done ev s' /\
    poll_inv (buf s') /\
    forall dcb, armed dcb (fences (resv (buf s))) = 1%nat ->
                Z.land ev (poll_flag dcb) = 0 /\
                armed dcb (fences (resv (buf s'))) = 1%nat.
Proof.
  intros Hinv; unfold dma_buf_poll.
  unfold bind at 1, emit, modify; cbn beta iota.
  set (s0 := set_env (env_log EvPollWait (get_env s)) s).
  assert (Hb0 : buf s0 = buf s) by reflexivity.
  destruct (Z.land requested (Z.lor EPOLLIN EPOLLOUT) =? 0).
  { exists 0, s0; unfold ret; rewrite Hb0.
    split; [reflexivity|]; split; [exact Hinv|]; auto. }
  destruct (dma_buf_poll_dir_spec CB_OUT true
              (Z.land requested (Z.lor EPOLLIN EPOLLOUT)) s0)
    as (ev1 & s1 & Hr1 & Hinv1 & Hoth1 & Hclr1 & Harm1);
    [rewrite Hb0; exact Hinv|].
  destruct (dma_buf_poll_dir_spec CB_IN false ev1 s1 Hinv1)
    as (ev2 & s2 & Hr2 & Hinv2 & Hoth2 & Hclr2 & Harm2).
  exists ev2, s2; unfold bind; rewrite Hr1, Hr2; unfold ret.
  split; [reflexivity|]; split; [exact Hinv2|].
  rewrite Hb0 in *.
  intros dcb Ha; destruct dcb.
  - destruct (Hoth1 CB_IN ltac:(discriminate)) as [_ Ha1].
    rewrite Ha in Ha1.
    destruct (Harm2 Ha1) as [Hz Hf]; split; [exact Hz|].
    rewrite Hf; exact Ha1.
  - destruct (Harm1 Ha) as [Hz Hf].
    destruct (Hoth2 CB_OUT ltac:(discriminate)) as [Hbit Ha2].
    split; [rewrite Hbit; exact Hz|].
    rewrite Ha2, Hf; exact Ha.
Qed.

Lemma run_poll_step_inv st (s : bstate P Q) :
  poll_inv (buf s) ->
  exists s', run_poll_step st s = Done tt s' /\ poll_inv (buf s').
Proof.
  intros Hinv; destruct st as [requested|i|u|id done u].
  - destruct (dma_buf_poll_spec requested s Hinv) as (ev & s' & Hr & Hi & _).
    exists s'; simpl; unfold bind; rewrite Hr; auto.
  - apply dma_fence_signal_nth_poll_inv; exact Hinv.
  - destruct (dma_resv_wait_poll_inv u s Hinv) as (r & s' & Hr & Hi).
    exists s'; simpl; unfold bind; rewrite Hr; auto.
  - apply add_fence_poll_inv; exact Hinv.
Qed.

Lemma run_poll_steps_inv l (s : bstate P Q) :
  poll_inv (buf s) ->
  exists s', run_poll_steps l s = Done tt s' /\ poll_inv (buf s').
Proof.
  revert s; induction l as [|st l IH]; intros s Hinv; simpl.
  - exists s; auto.
  - destruct (run_poll_step_inv st s Hinv) as (s1 & Hr & Hi).
    destruct (IH s1 Hi) as (s' & Hr' & Hi').
    exists s'; unfold bind; rewrite Hr; auto.
Qed.

Lemma poll_inv_armed_le (b : dma_buf P Q) dcb :
  poll_inv b -> (armed dcb (fences (resv b)) <= 1)%nat.
Proof. intros [_ Hi]; destruct (Hi dcb) as [[_ H]|[_ H]]; lia. Qed.

(** C4.  Start from a buffer on which, for each direction, the callback is
    queued on one fence if the direction is marked active and on none
    otherwise (as after dma_buf_export()), and let polls, fence signals,
    waits and new fences follow in any order.  Every such sequence runs to
    its end, after it at most one callback of each direction is queued, and
    a poll arriving while the callback of a direction is queued returns
    without that direction's event bit and leaves exactly that one callback
    queued. *)
Theorem dma_buf_poll_one_armed_callback
        (steps : list poll_step) (s : bstate P Q) :
  poll_inv (buf s) ->
  exists s',
    run_poll_steps steps s = Done tt s' /\
    (forall dcb, (armed dcb (fences (resv (buf s'))) <= 1)%nat) /\
    forall requested dcb,
      armed dcb (fences (resv (buf s'))) = 1%nat ->
      exists ev s'',
        dma_buf_poll requested s' = Done ev s'' /\
        Z.land ev (poll_flag dcb) = 0 /\
        armed dcb (fences (resv (buf s''))) = 1%nat /\
        (forall d, (armed d (fences (resv (buf s''))) <= 1)%nat).
Proof.
  intros Hinv.
  destruct (run_poll_steps_inv steps s Hinv) as (s' & Hr & Hi).
  exists s'; split; [exact Hr|].
  split; [intros dcb; apply poll_inv_armed_le; exact Hi|].
  intros requested dcb Ha.
  destruct (dma_buf_poll_spec requested s' Hi) as (ev & s'' & Hr' & Hi' & Hp).
  destruct (Hp dcb Ha) as [Hz Ha'].
  exists ev, s''; repeat split; auto.
  intros d; apply poll_inv_armed_le; exact Hi'.
Qed.

(** ** The invariants hold of a freshly exported buffer *)

Lemma dma_buf_export_invariants
      (k k' : kstate P Q) (exp_info : dma_buf_export_info P)
      (d : dma_buf P Q) :
  dma_buf_export exp_info k = Done (Ptr d) k' ->
  vmap_inv d /\
  attachments_wf (attachments d) /\
  (exp_resv exp_info = None -> poll_inv d).
Proof.
  intros H; pose proof H as Hresv.
  apply dma_buf_export_ops_valid in H
    as (_ & _ & Hatt & Hc & Hp & Hin & Hout).
  split; [unfold vmap_inv; rewrite Hc, Hp; reflexivity|].
  split; [rewrite Hatt; split; constructor|].
  intros Hnone.
  assert (Hf : fences (resv d) = []).
  { revert Hresv; unfold dma_buf_export.
    unfold try_module_get, dma_buf_getfile, kzalloc, module_put,
           __dma_buf_list_add, dma_buf_stats_setup; munfold.
    unfold env_pop_alloc, env_bump; rewrite Hnone; cbn.
    intros H.
    repeat match type of H with
           | context [match ?x with _ => _ end] =>
               destruct x eqn:?; cbn in H; try discriminate
           end.
    all: inversion H; subst; reflexivity. }
  split.
  - intros e; rewrite Hf; intros [].
  - intros dcb; left; rewrite Hf; destruct dcb; auto.
Qed.

(** * Further properties of the functions of the file *)

(** ** What the calls leave alone *)

Lemma same_identity_refl (b : dma_buf P Q) : same_identity b b.
Proof. repeat split. Qed.

Lemma same_identity_trans (b1 b2 b3 : dma_buf P Q) :
  same_identity b1 b2 -> same_identity b2 b3 -> same_identity b1 b3.
Proof.
  unfold same_identity; intros (?&?&?&?&?) (?&?&?&?&?).
  repeat split; congruence.
Qed.

Section Preserves.

(** A relation every step of the core respects: a change of the
    environment that keeps the allocator, and a change of the buffer that
    keeps its attachments and identity. *)
Variable R : bstate P Q -> bstate P Q -> Prop.
Hypothesis R_refl : forall s, R s s.
Hypothesis R_trans : forall s1 s2 s3, R s1 s2 -> R s2 s3 -> R s1 s3.
Hypothesis R_env : forall s e,
  next_addr (benv s) <= next_addr e -> R s {| buf := buf s; benv := e |}.
Hypothesis R_buf : forall s b,
  attachments b = attachments (buf s) -> same_identity (buf s) b ->
  R s {| buf := b; benv := benv s |}.

Lemma pres_ret {A} (a : A) : preserves R (ret a).
Proof. intros s a' s' H; inversion H; subst; apply R_refl. Qed.

Lemma pres_bind {A B} (m : M (bstate P Q) A) (k : A -> M (bstate P Q) B) :
  preserves R m -> (forall a, preserves R (k a)) -> preserves R (bind m k).
Proof.
  intros Hm Hk s b s' H; apply bind_inv in H as (a & s1 & H1 & H2).
  eapply R_trans; [eapply Hm | eapply Hk]; eassumption.
Qed.

Lemma pres_gets {A} (f : bstate P Q -> A) : preserves R (gets f).
Proof. intros s a s' H; inversion H; subst; apply R_refl. Qed.

Lemma pres_emit ev : preserves R (emit ev).
Proof.
  intros s a s' H; unfold emit, modify in H; inversion H; subst.
  apply R_env; cbn; lia.
Qed.

Lemma pres_BUG {A} : preserves R (BUG (A := A)).
Proof. intros s a s'; discriminate. Qed.

Lemma pres_BUG_ON c : preserves R (BUG_ON c).
Proof. destruct c; [apply pres_BUG | apply pres_ret]. Qed.

Lemma pres_WARN_ON c : preserves R (WARN_ON c).
Proof.
  destruct c; unfold WARN_ON; [|apply pres_ret].
  apply pres_bind; [apply pres_emit | intro; apply pres_ret].
Qed.

Lemma pres_WARN_ON_ONCE site c : preserves R (WARN_ON_ONCE site c).
Proof.
  destruct c; unfold WARN_ON_ONCE; [|apply pres_ret].
  apply pres_bind; [apply pres_gets|intros tr].
  apply pres_bind; [|intro; apply pres_ret].
  destruct (existsb _ tr); [apply pres_ret | apply pres_emit].
Qed.

Lemma pres_modify_buf (f : dma_buf P Q -> dma_buf P Q) :
  (forall b, attachments (f b) = attachments b) ->
  (forall b, same_identity b (f b)) ->
  preserves R (modify_buf f).
Proof.
  intros Ha Hf s a s' H; unfold modify_buf, modify in H; inversion H; subst.
  apply R_buf; auto.
Qed.

Lemma pres_hook {R'} (h : hook P R') :
  preserves R (fun s => let '(r, x) := h (get_xstate (buf s)) in
                        Done r {| buf := set_xstate x (buf s);
                                  benv := benv s |}).
Proof.
  intros s a s'; destruct (h (get_xstate (buf s))) as [r x].
  intros H; inversion H; subst; apply R_buf; repeat split.
Qed.

Lemma pres_call_hook {R'} ev (h : hook P R') : preserves R (call_hook ev h).
Proof.
  unfold call_hook; apply pres_bind; [apply pres_emit | intro; apply pres_hook].
Qed.

Lemma pres_call_ptr {R'} ev (h : option (hook P R')) :
  preserves R (call_ptr ev h).
Proof. destruct h; [apply pres_call_hook | apply pres_BUG]. Qed.

Lemma pres_next_alloc : preserves R next_alloc.
Proof.
  intros s a s'; unfold next_alloc, env_pop_alloc; cbn.
  destruct (alloc_results (benv s)); intros H; inversion H; subst;
    apply R_env; cbn; lia.
Qed.

Lemma pres_next_wakeup : preserves R next_wakeup.
Proof.
  intros s a s'; unfold next_wakeup, env_pop_wakeup; cbn.
  destruct (wakeups (benv s)); intros H; inversion H; subst;
    apply R_env; cbn; lia.
Qed.

Lemma pres_kzalloc : preserves R kzalloc.
Proof.
  unfold kzalloc; apply pres_bind; [apply pres_next_alloc|].
  intros r; destruct (r =? 0); [|apply pres_ret].
  intros s a s' H; cbn in H; inversion H; subst.
  apply R_env; cbn; lia.
Qed.

(** One step of a proof that a function preserves [R]: the operations of
    the monad by their lemmas, a branch by cases. *)
Create HintDb pres discriminated.

Ltac pres_step :=
  first
    [ solve [auto 1 with pres nocore]
    | apply pres_ret | apply pres_gets | apply pres_emit
    | apply pres_BUG_ON | apply pres_BUG | apply pres_WARN_ON
    | apply pres_WARN_ON_ONCE
    | apply pres_call_hook | apply pres_call_ptr | apply pres_hook
    | apply pres_next_alloc | apply pres_next_wakeup | apply pres_kzalloc
    | apply pres_modify_buf; intro; solve [repeat split]
    | apply pres_bind; [|intro]
    | match goal with
      | |- preserves _ (match ?x with _ => _ end) => destruct x
      | |- preserves _ (let '(_, _) := ?x in _) => destruct x
      end ].

Ltac pres := repeat pres_step.

Lemma pres_dma_buf_poll_cb dcb : preserves R (dma_buf_poll_cb dcb).
Proof. unfold dma_buf_poll_cb, fput; pres; destruct dcb; reflexivity. Qed.

#[local] Hint Resolve pres_dma_buf_poll_cb : pres.

Lemma pres_run_callbacks l : preserves R (run_callbacks l).
Proof.
  induction l; simpl; [apply pres_ret|].
  apply pres_bind; [apply pres_dma_buf_poll_cb | intro; assumption].
Qed.

#[local] Hint Resolve pres_run_callbacks : pres.

Lemma pres_fences_complete u : preserves R (fences_complete u).
Proof. unfold fences_complete; pres. Qed.

#[local] Hint Resolve pres_fences_complete : pres.

Lemma pres_dma_resv_wait_timeout u intr timeout :
  preserves R (dma_resv_wait_timeout u intr timeout).
Proof. unfold dma_resv_wait_timeout; pres. Qed.

#[local] Hint Resolve pres_dma_resv_wait_timeout : pres.

Lemma pres_add_fences l u : preserves R (add_fences l u).
Proof.
  induction l; simpl; [apply pres_ret|].
  apply pres_bind; [unfold dma_resv_add_fence; pres | intro; assumption].
Qed.

#[local] Hint Resolve pres_add_fences : pres.

Lemma pres_debug_check_aligned t : preserves R (debug_check_aligned t).
Proof.
  induction t; simpl; [apply pres_ret|].
  apply pres_bind; [pres | intro; assumption].
Qed.

#[local] Hint Resolve pres_debug_check_aligned : pres.

Lemma pres_dma_buf_map_attachment attachment direction :
  preserves R (dma_buf_map_attachment cfg attachment direction).
Proof.
  unfold dma_buf_map_attachment, map_error_unmap, map_error_unpin; pres.
Qed.

Lemma pres_dma_buf_unmap_attachment attachment table direction :
  preserves R (dma_buf_unmap_attachment cfg attachment table direction).
Proof. unfold dma_buf_unmap_attachment; pres. Qed.

Lemma pres_dma_buf_vmap : preserves R dma_buf_vmap.
Proof. unfold dma_buf_vmap; pres. Qed.

Lemma pres_dma_buf_vunmap m : preserves R (dma_buf_vunmap m).
Proof. unfold dma_buf_vunmap; pres. Qed.

Lemma pres_dma_buf_poll requested : preserves R (dma_buf_poll requested).
Proof.
  unfold dma_buf_poll, dma_buf_poll_dir, dma_buf_poll_add_cb, get_file; pres.
Qed.

Lemma pres_run_call (c : dma_buf_call Q) :
  touches_attachments c = false -> preserves R (run_call cfg c).
Proof.
  destruct c; try discriminate; intros _; unfold run_call.
  - unfold dma_buf_pin; pres.
  - unfold dma_buf_unpin; pres.
  - apply pres_bind; [apply pres_dma_buf_map_attachment | intro; apply pres_ret].
  - apply pres_dma_buf_unmap_attachment.
  - unfold dma_buf_begin_cpu_access, __dma_buf_begin_cpu_access; pres.
  - unfold dma_buf_end_cpu_access; pres.
  - unfold dma_buf_mmap_internal; pres.
  - unfold dma_buf_mmap, vma_set_file, get_file, fput; pres.
  - apply pres_bind; [apply pres_dma_buf_vmap | intro; apply pres_ret].
  - apply pres_dma_buf_vunmap.
  - apply pres_bind; [apply pres_dma_buf_poll | intro; apply pres_ret].
  - unfold dma_buf_import_sync_file, dma_resv_reserve_fences; pres.
Qed.

(** The three calls that work on the attachment list also preserve a
    relation that does not look at the list. *)
Hypothesis R_att : forall s l,
  R s {| buf := set_attachments l (buf s); benv := benv s |}.

Lemma pres_set_attachments (f : dma_buf P Q -> list (dma_buf_attachment Q)) :
  preserves R (modify_buf (fun b => set_attachments (f b) b)).
Proof.
  intros s a s' H; unfold modify_buf, modify in H; inversion H; subst.
  apply R_att.
Qed.

Lemma pres_move_notify_each l : preserves R (move_notify_each l).
Proof.
  induction l; simpl; [apply pres_ret|].
  apply pres_bind; [unfold move_notify_one; pres|].
  intro; apply pres_bind; [assumption | intro; apply pres_ret].
Qed.

Lemma pres_run_call_all (c : dma_buf_call Q) : preserves R (run_call cfg c).
Proof.
  destruct (touches_attachments c) eqn:Hc; [|apply pres_run_call; exact Hc].
  destruct c; try discriminate; unfold run_call.
  - unfold dma_buf_dynamic_attach; pres.
    apply (pres_set_attachments (fun b => _ :: attachments b)).
  - unfold dma_buf_detach; pres.
    apply (pres_set_attachments (fun b => list_del _ (attachments b))).
  - unfold dma_buf_move_notify; pres; [apply pres_move_notify_each|].
    apply (pres_set_attachments (fun _ => _)).
Qed.

End Preserves.

Lemma identity_kept_run_calls (calls : list (dma_buf_call Q)) :
  preserves identity_kept (run_calls (P := P) cfg calls).
Proof.
  assert (Hrefl : forall s : bstate P Q, identity_kept s s)
    by (intros; apply same_identity_refl).
  assert (Htrans : forall s1 s2 s3 : bstate P Q,
             identity_kept s1 s2 -> identity_kept s2 s3 -> identity_kept s1 s3)
    by (intros ? ? ?; apply same_identity_trans).
  induction calls as [|c calls IH]; simpl.
  - apply pres_ret; exact Hrefl.
  - apply pres_bind; [exact Htrans| |intro; exact IH].
    apply pres_run_call_all; auto.
    + intros s e _; apply same_identity_refl.
    + intros s l; repeat split.
Qed.

(** X1.  The capability table, the size, the owning module and the file
    identity of a buffer are fixed: whatever sequence of calls of the
    interface has run on a buffer, these are as they were before it, so a
    table that passed the checks of dma_buf_export() still passes them. *)
Theorem dma_buf_identity_is_fixed
        (calls : list (dma_buf_call Q)) (s s' : bstate P Q) :
  run_calls cfg calls s = Done tt s' ->
  same_identity (buf s) (buf s') /\
  (ops_valid (ops (buf s)) -> ops_valid (ops (buf s'))).
Proof.
  intros Hrun; pose proof (identity_kept_run_calls calls s tt s' Hrun) as Hid.
  split; [exact Hid|].
  destruct Hid as (Hops & _); rewrite Hops; auto.
Qed.

(** ** The attachment list *)

Lemma attachments_kept_refl (s : bstate P Q) : attachments_kept s s.
Proof. split; [reflexivity | lia]. Qed.

Lemma attachments_kept_trans (s1 s2 s3 : bstate P Q) :
  attachments_kept s1 s2 -> attachments_kept s2 s3 -> attachments_kept s1 s3.
Proof. intros [H1 L1] [H2 L2]; split; [congruence | lia]. Qed.

Lemma attach_inv_kept (s s' : bstate P Q) :
  attach_inv s -> attachments_kept s s' -> attach_inv s'.
Proof.
  intros [Hwf Hlt] [Hatt Hle]; unfold attach_inv; rewrite Hatt.
  split; [exact Hwf|].
  eapply Forall_impl; [|exact Hlt]; cbn; intros; lia.
Qed.

Lemma move_notify_each_same (l : list (dma_buf_attachment Q))
      (s s' : bstate P Q) l' :
  move_notify_each l s = Done l' s' ->
  Forall2 (fun a a' => a_addr a' = a_addr a /\ dev a' = dev a /\
                       peer2peer a' = peer2peer a /\
                       importer_ops a' = importer_ops a) l l' /\
  attachments_kept s s'.
Proof.
  revert s l'; induction l as [|att l IH]; intros s l'; simpl.
  - intros H; inversion H; subst; split; [constructor|apply attachments_kept_refl].
  - intros H; apply bind_inv in H as (att' & s1 & H1 & H).
    apply bind_inv in H as (rest' & s2 & H2 & H).
    inversion H; subst; clear H.
    apply IH in H2 as [Hf Hk].
    assert (Hone : (a_addr att' = a_addr att /\ dev att' = dev att /\
                    peer2peer att' = peer2peer att /\
                    importer_ops att' = importer_ops att) /\
                   attachments_kept s s1).
    { revert H1; unfold move_notify_one.
      destruct (importer_ops att) as [o|] eqn:Ho.
      - destruct (move_notify o); [|discriminate].
        munfold; cbn; intros H; inversion H; subst; cbn.
        repeat split; cbn; auto; lia.
      - intros H; inversion H; subst.
        repeat split; cbn; auto; lia. }
    destruct Hone as [Hatt Hk1]; split; [constructor; assumption|].
    eapply attachments_kept_trans; eassumption.
Qed.

Lemma dma_buf_move_notify_inv (s s' : bstate P Q) :
  attach_inv s -> dma_buf_move_notify s = Done tt s' -> attach_inv s'.
Proof.
  intros [[Hnd Hwf] Hlt]; unfold dma_buf_move_notify.
  intros H; apply bind_inv in H as (l & s0 & H0 & H).
  inversion H0; subst; clear H0.
  apply bind_inv in H as (l' & s1 & H1 & H).
  unfold modify_buf, modify in H; inversion H; subst; clear H.
  apply move_notify_each_same in H1 as [Hf [Hatt Hle]].
  assert (Hmap : map (@a_addr Q) l' = map (@a_addr Q) (attachments (buf s0))).
  { clear - Hf; induction Hf as [|a a' l0 l0' (Ha & _) _ IH]; cbn;
      [reflexivity | rewrite Ha, IH; reflexivity]. }
  unfold attach_inv, attachments_wf; cbn; rewrite Hmap.
  split; [split; [exact Hnd|]|].
  - clear - Hf Hwf; induction Hf as [|a a' l0 l0' (_ & _ & _ & Ho) _ IH];
      [constructor|].
    inversion Hwf; subst; constructor; [rewrite Ho; assumption | auto].
  - clear - Hf Hlt Hle; induction Hf as [|a a' l0 l0' (Ha & _) _ IH];
      [constructor|].
    inversion Hlt; subst; constructor; [rewrite Ha; lia | auto].
Qed.

Lemma attach_inv_run_call (c : dma_buf_call Q) (s s' : bstate P Q) :
  attach_inv s -> run_call cfg c s = Done tt s' -> attach_inv s'.
Proof.
  intros Hinv Hrun.
  destruct (touches_attachments c) eqn:Hc.
  - destruct c; try discriminate; unfold run_call in Hrun.
    + apply bind_inv in Hrun as (r & s1 & H1 & H); inversion H; subst.
      eapply dma_buf_dynamic_attach_inv; eassumption.
    + eapply dma_buf_detach_inv; eassumption.
    + eapply dma_buf_move_notify_inv; eassumption.
  - apply (attach_inv_kept s s' Hinv).
    refine (pres_run_call attachments_kept attachments_kept_refl
              attachments_kept_trans _ _ c Hc s tt s' Hrun).
    + intros s0 e He; split; [reflexivity | exact He].
    + intros s0 b Hb _; split; [exact Hb | cbn; lia].
Qed.

(** X2.  The attachment list stays as dma_buf_dynamic_attach() builds it:
    starting from a list in which every attachment is linked once, under an
    address the allocator has handed out, and every attachment with
    importer_ops has a move_notify callback, any sequence of calls of the
    interface that returns leaves such a list. *)
Theorem dma_buf_attachments_stay_well_formed
        (calls : list (dma_buf_call Q)) (s s' : bstate P Q) :
  attach_inv s ->
  run_calls cfg calls s = Done tt s' ->
  attach_inv s' /\ attachments_wf (attachments (buf s')).
Proof.
  revert s; induction calls as [|c calls IH]; intros s Hinv; simpl.
  - intros H; inversion H; subst; split; [exact Hinv | apply Hinv].
  - intros H; apply bind_inv in H as ([] & s1 & H1 & H2).
    apply (IH s1); [|exact H2].
    eapply attach_inv_run_call; eassumption.
Qed.

Lemma list_del_fresh (att : dma_buf_attachment Q) l :
  ~ In (a_addr att) (map (@a_addr Q) l) -> list_del att l = l.
Proof.
  unfold list_del; induction l as [|x l IH]; cbn; intros Hfresh; [reflexivity|].
  destruct (a_addr x =? a_addr att) eqn:E.
  - apply Z.eqb_eq in E; exfalso; apply Hfresh; left; exact E.
  - cbn; rewrite IH; [reflexivity|].
    intros Hin; apply Hfresh; right; exact Hin.
Qed.

Lemma dma_buf_detach_run (att : dma_buf_attachment Q) (s : bstate P Q) :
  exists s',
    dma_buf_detach (Some att) s = Done tt s' /\
    attachments (buf s') = list_del att (attachments (buf s)) /\
    new_events s s' (match detach (ops (buf s)) with
                     | Some _ => [EvDetach (a_addr att)]
                     | None => []
                     end).
Proof.
  unfold dma_buf_detach, new_events; munfold; cbn.
  destruct (detach (ops (buf s))) as [h|]; cbn.
  - unfold call_hook; munfold; cbn.
    destruct (h (a_addr att) _) as [[] x]; cbn.
    eexists; split; [reflexivity|]; cbn; auto.
  - eexists; split; [reflexivity|]; cbn; rewrite app_nil_r; auto.
Qed.

Lemma dma_buf_dynamic_attach_cases device iops ipriv (s s1 : bstate P Q) r :
  dma_buf_dynamic_attach device iops ipriv s = Done r s1 ->
  match r with
  | Ptr att =>
      attachments (buf s1) = att :: attachments (buf s) /\
      a_addr att = next_addr (benv s) /\
      device = Some (dev att) /\
      importer_ops att = iops /\ importer_priv att = ipriv /\
      peer2peer att = match iops with
                      | Some o => allow_peer2peer o
                      | None => false
                      end /\
      new_events s s1 (match attach (ops (buf s)) with
                       | Some _ => [EvAttach (a_addr att)]
                       | None => []
                       end)
  | ERR_PTR e =>
      attachments (buf s1) = attachments (buf s) /\
      ((e = - EINVAL /\ buf s1 = buf s /\ new_events s s1 [EvWarn] /\
        alloc_results (benv s1) = alloc_results (benv s) /\
        (device = None \/
         exists o, iops = Some o /\ is_null (move_notify o) = true)) \/
       (e = - ENOMEM /\ buf s1 = buf s /\ new_events s s1 []) \/
       (exists h, attach (ops (buf s)) = Some h /\ e <> 0 /\
                  h (next_addr (benv s)) (get_xstate (buf s))
                  = (e, get_xstate (buf s1)) /\
                  new_events s s1 [EvAttach (next_addr (benv s))]))
  end.
Proof.
  unfold dma_buf_dynamic_attach, kzalloc, new_events; munfold.
  unfold env_pop_alloc, env_bump.
  destruct device as [d|]; cbn.
  2:{ intros H; inversion H; subst; cbn; split; [reflexivity|].
      left; repeat split; auto. }
  destruct iops as [o|]; cbn.
  - destruct (move_notify o) as [f|] eqn:Hmn; cbn.
    2:{ intros H; inversion H; subst; cbn; split; [reflexivity|].
        left; repeat split; auto.
        right; exists o; rewrite Hmn; auto. }
    destruct (alloc_results (benv s)) as [|a rest]; cbn.
    + destruct (attach (ops (buf s))) as [h|]; cbn.
      * unfold call_hook; munfold; cbn.
        destruct (h (next_addr (benv s)) (get_xstate (buf s))) as [r0 x] eqn:Hh.
        cbn; destruct (r0 =? 0) eqn:Hr0; cbn; intros H; inversion H; subst; cbn.
        -- repeat split; auto.
        -- split; [reflexivity|]; right; right; exists h.
           apply Z.eqb_neq in Hr0; rewrite get_set_xstate; auto.
      * intros H; inversion H; subst; cbn.
        rewrite app_nil_r; repeat split; auto.
    + destruct (a =? 0); cbn.
      2:{ intros H; inversion H; subst; cbn; split; [reflexivity|].
          right; left; rewrite app_nil_r; auto. }
      destruct (attach (ops (buf s))) as [h|]; cbn.
      * unfold call_hook; munfold; cbn.
        destruct (h (next_addr (benv s)) (get_xstate (buf s))) as [r0 x] eqn:Hh.
        cbn; destruct (r0 =? 0) eqn:Hr0; cbn; intros H; inversion H; subst; cbn.
        -- repeat split; auto.
        -- split; [reflexivity|]; right; right; exists h.
           apply Z.eqb_neq in Hr0; rewrite get_set_xstate; auto.
      * intros H; inversion H; subst; cbn.
        rewrite app_nil_r; repeat split; auto.
  - destruct (alloc_results (benv s)) as [|a rest]; cbn.
    + destruct (attach (ops (buf s))) as [h|]; cbn.
      * unfold call_hook; munfold; cbn.
        destruct (h (next_addr (benv s)) (get_xstate (buf s))) as [r0 x] eqn:Hh.
        cbn; destruct (r0 =? 0) eqn:Hr0; cbn; intros H; inversion H; subst; cbn.
        -- repeat split; auto.
        -- split; [reflexivity|]; right; right; exists h.
           apply Z.eqb_neq in Hr0; rewrite get_set_xstate; auto.
      * intros H; inversion H; subst; cbn.
        rewrite app_nil_r; repeat split; auto.
    + destruct (a =? 0); cbn.
      2:{ intros H; inversion H; subst; cbn; split; [reflexivity|].
          right; left; rewrite app_nil_r; auto. }
      destruct (attach (ops (buf s))) as [h|]; cbn.
      * unfold call_hook; munfold; cbn.
        destruct (h (next_addr (benv s)) (get_xstate (buf s))) as [r0 x] eqn:Hh.
        cbn; destruct (r0 =? 0) eqn:Hr0; cbn; intros H; inversion H; subst; cbn.
        -- repeat split; auto.
        -- split; [reflexivity|]; right; right; exists h.
           apply Z.eqb_neq in Hr0; rewrite get_set_xstate; auto.
      * intros H; inversion H; subst; cbn.
        rewrite app_nil_r; repeat split; auto.
Qed.

(** X3.  Attach and detach are inverse to each other on the list.  A
    successful dma_buf_dynamic_attach() puts one new attachment at the head
    of the list, under an address no other attachment has, for the device
    and with the importer_ops and importer_priv it was given (so an
    attachment made by dma_buf_attach() is static); dma_buf_detach() of
    that attachment then returns and leaves the list as it was before the
    attach. *)
Theorem dma_buf_attach_detach_round_trip
        (device : option Z) (iops : option (dma_buf_attach_ops Q))
        (ipriv : option Q) (s s1 : bstate P Q) (att : dma_buf_attachment Q) :
  attach_inv s ->
  dma_buf_dynamic_attach device iops ipriv s = Done (Ptr att) s1 ->
  attachments (buf s1) = att :: attachments (buf s) /\
  ~ In (a_addr att) (map (@a_addr Q) (attachments (buf s))) /\
  device = Some (dev att) /\
  importer_ops att = iops /\ importer_priv att = ipriv /\
  dma_buf_attachment_is_dynamic att = negb (is_null iops) /\
  exists s2,
    dma_buf_detach (Some att) s1 = Done tt s2 /\
    attachments (buf s2) = attachments (buf s).
Proof.
  intros [_ Hlt] Hrun.
  apply dma_buf_dynamic_attach_cases in Hrun
    as (Hatt & Haddr & Hdev & Hops & Hpriv & _ & _).
  assert (Hfresh : ~ In (a_addr att) (map (@a_addr Q) (attachments (buf s)))).
  { intros Hin; apply in_map_iff in Hin as (x & Hx & Hin).
    rewrite Forall_forall in Hlt; specialize (Hlt x Hin); lia. }
  repeat split; auto.
  - unfold dma_buf_attachment_is_dynamic; rewrite Hops.
    destruct iops; reflexivity.
  - destruct (dma_buf_detach_run att s1) as (s2 & Hrun2 & Hl & _).
    exists s2; split; [exact Hrun2|].
    rewrite Hl, Hatt; unfold list_del; cbn.
    rewrite Z.eqb_refl; cbn.
    apply list_del_fresh; exact Hfresh.
Qed.

(** X4.  dma_buf_dynamic_attach() always returns, and it fails for one of
    three reasons, tried in this order.  With no device, or with
    importer_ops that lack move_notify, it returns ERR_PTR(-EINVAL) after
    one warning and before anything is allocated or called.  Otherwise,
    when the attachment cannot be allocated, it returns ERR_PTR(-ENOMEM)
    with the buffer untouched and nothing called.  Otherwise, when the
    exporter's attach callback returns a nonzero value, it returns that
    value as the error, with nothing but the callback run.  A call that
    fails fails for one of these reasons, and in each case the attachment
    list is as it was. *)
Theorem dma_buf_dynamic_attach_failure
        (device : option Z) (iops : option (dma_buf_attach_ops Q))
        (ipriv : option Q) (s : bstate P Q) :
  exists r s1,
    dma_buf_dynamic_attach device iops ipriv s = Done r s1 /\
    (attach_args_invalid device iops ->
     r = ERR_PTR (- EINVAL) /\
     buf s1 = buf s /\
     new_events s s1 [EvWarn] /\
     alloc_results (benv s1) = alloc_results (benv s) /\
     next_addr (benv s1) = next_addr (benv s)) /\
    (~ attach_args_invalid device iops ->
     alloc_fails (benv s) ->
     r = ERR_PTR (- ENOMEM) /\
     buf s1 = buf s /\
     new_events s s1 [] /\
     alloc_results (benv s1) = tl (alloc_results (benv s)) /\
     next_addr (benv s1) = next_addr (benv s)) /\
    (~ attach_args_invalid device iops ->
     ~ alloc_fails (benv s) ->
     forall h e x,
       attach (ops (buf s)) = Some h ->
       h (next_addr (benv s)) (get_xstate (buf s)) = (e, x) ->
       e <> 0 ->
       r = ERR_PTR e /\
       buf s1 = set_xstate x (buf s) /\
       new_events s s1 [EvAttach (next_addr (benv s))]) /\
    (forall e,
       r = ERR_PTR e ->
       attachments (buf s1) = attachments (buf s) /\
       (attach_args_invalid device iops \/
        (~ attach_args_invalid device iops /\ alloc_fails (benv s)) \/
        (~ attach_args_invalid device iops /\ ~ alloc_fails (benv s) /\
         exists h x, attach (ops (buf s)) = Some h /\
                     h (next_addr (benv s)) (get_xstate (buf s)) = (e, x) /\
                     e <> 0))).
Proof.
  assert (Hvalid : forall d, iops = None \/
                     (exists o f, iops = Some o /\ move_notify o = Some f) ->
                   ~ attach_args_invalid (Some d) iops).
  { intros d Hi [Hd|(o & Ho & Hn)]; [discriminate|].
    destruct Hi as [Hi|(o' & f & Hi & Hf)]; rewrite Hi in Ho;
      [discriminate|].
    inversion Ho; subst; rewrite Hf in Hn; discriminate. }
  assert (Hinv : attach_args_invalid device iops ->
                 exists s1,
                   dma_buf_dynamic_attach device iops ipriv s
                   = Done (ERR_PTR (- EINVAL)) s1 /\
                   buf s1 = buf s /\
                   new_events s s1 [EvWarn] /\
                   alloc_results (benv s1) = alloc_results (benv s) /\
                   next_addr (benv s1) = next_addr (benv s)).
  { intros [->|(o & -> & Hn)];
      unfold dma_buf_dynamic_attach, new_events; munfold; cbn.
    - eexists; split; [reflexivity|]; cbn; auto.
    - destruct device; cbn.
      + destruct (move_notify o); [discriminate|]; cbn.
        eexists; split; [reflexivity|]; cbn; auto.
      + eexists; split; [reflexivity|]; cbn; auto. }
  assert (Hdec : attach_args_invalid device iops \/
                 exists d, device = Some d /\
                           (iops = None \/
                            exists o f, iops = Some o /\ move_notify o = Some f)).
  { destruct device as [d|]; [|left; left; reflexivity].
    destruct iops as [o|]; [|right; eauto].
    destruct (move_notify o) as [f|] eqn:Hn.
    - right; exists d; split; [reflexivity|]; right; eauto.
    - left; right; exists o; rewrite Hn; auto. }
  destruct Hdec as [Hbad|(d & -> & Hi)].
  { destruct (Hinv Hbad) as (s1 & Hrun & Hb & Hev & Ha & Hn).
    exists (ERR_PTR (- EINVAL)), s1; split; [exact Hrun|].
    split; [auto|]. split; [intros H; contradiction|].
    split; [intros H; contradiction|].
    intros e _; rewrite Hb; auto. }
  pose proof (Hvalid d Hi) as Hok; clear Hinv Hvalid.
  assert (Hhead :
            dma_buf_dynamic_attach (Some d) iops ipriv s
            = (p <- kzalloc ;;
               match p with
               | Some addr =>
                   let att := {| a_addr := addr; dev := d;
                                 peer2peer := match iops with
                                              | Some o => allow_peer2peer o
                                              | None => false
                                              end;
                                 importer_ops := iops;
                                 importer_priv := ipriv |} in
                   b <- gets (fun s0 : bstate P Q => buf s0) ;;
                   r <- match attach (ops b) with
                        | Some h => call_hook (EvAttach addr) (h addr)
                        | None => ret 0
                        end ;;
                   if negb (r =? 0) then ret (ERR_PTR r)
                   else
                     modify_buf (fun b => set_attachments
                                            (att :: attachments b) b) ;;
                     ret (Ptr att)
               | None => ret (ERR_PTR (- ENOMEM))
               end) s).
  { unfold dma_buf_dynamic_attach; munfold; cbn.
    destruct Hi as [->|(o & f & -> & Hf)]; cbn; rewrite ?Hf; cbn;
      destruct (env_pop_alloc (benv s)) as [a e0]; cbn;
      destruct (a =? 0); reflexivity. }
  rewrite Hhead; clear Hhead.
  unfold kzalloc, new_events, alloc_fails; munfold.
  unfold env_pop_alloc, env_bump; cbn.
  destruct (alloc_results (benv s)) as [|a rest] eqn:Hal; cbn.
  - destruct (attach (ops (buf s))) as [h|] eqn:Hat; cbn.
    + unfold call_hook; munfold; cbn.
      destruct (h (next_addr (benv s)) (get_xstate (buf s))) as [r0 x] eqn:Hh.
      cbn; destruct (r0 =? 0) eqn:Hr0; cbn; eexists _, _;
        (split; [reflexivity|]); cbn.
      * apply Z.eqb_eq in Hr0; subst r0.
        split; [intros H; contradiction|].
        split; [intros _ (a & rest & Ha & _); discriminate|].
        split; [|intros e H; discriminate].
        intros _ _ h' e x' [= <-] He Hne; rewrite Hh in He.
        inversion He; subst; contradiction.
      * apply Z.eqb_neq in Hr0.
        split; [intros H; contradiction|].
        split; [intros _ (a & rest & Ha & _); discriminate|].
        split.
        -- intros _ _ h' e x' [= <-] He Hne; rewrite Hh in He.
           inversion He; subst; auto.
        -- intros e [= <-]; split; [reflexivity|].
           right; right; split; [exact Hok|].
           split; [intros (a & rest & Ha & _); discriminate|].
           exists h, x; auto.
    + eexists _, _; split; [reflexivity|]; cbn.
      split; [intros H; contradiction|].
      split; [intros _ (a & rest & Ha & _); discriminate|].
      split; [intros _ _ h e x H; discriminate | intros e H; discriminate].
  - destruct (a =? 0) eqn:Ea; cbn.
    + apply Z.eqb_eq in Ea; subst a.
      destruct (attach (ops (buf s))) as [h|] eqn:Hat; cbn.
      * unfold call_hook; munfold; cbn.
        destruct (h (next_addr (benv s)) (get_xstate (buf s))) as [r0 x] eqn:Hh.
        cbn; destruct (r0 =? 0) eqn:Hr0; cbn; eexists _, _;
          (split; [reflexivity|]); cbn.
        -- apply Z.eqb_eq in Hr0; subst r0.
           split; [intros H; contradiction|].
           split; [intros _ (a & rest' & [= <- _] & Ha); contradiction|].
           split; [|intros e H; discriminate].
           intros _ _ h' e x' [= <-] He Hne; rewrite Hh in He.
           inversion He; subst; contradiction.
        -- apply Z.eqb_neq in Hr0.
           split; [intros H; contradiction|].
           split; [intros _ (a & rest' & [= <- _] & Ha); contradiction|].
           split.
           ++ intros _ _ h' e x' [= <-] He Hne; rewrite Hh in He.
              inversion He; subst; auto.
           ++ intros e [= <-]; split; [reflexivity|].
              right; right; split; [exact Hok|].
              split; [intros (a & rest' & [= <- _] & Ha); contradiction|].
              exists h, x; auto.
      * eexists _, _; split; [reflexivity|]; cbn.
        split; [intros H; contradiction|].
        split; [intros _ (a & rest' & [= <- _] & Ha); contradiction|].
        split; [intros _ _ h e x H; discriminate | intros e H; discriminate].
    + apply Z.eqb_neq in Ea.
      eexists _, _; split; [reflexivity|]; cbn.
      split; [intros H; contradiction|].
      split; [intros _ _; rewrite app_nil_r; auto|].
      split; [intros _ Hn; exfalso; apply Hn; eauto|].
      intros e [= <-]; split; [reflexivity|].
      right; left; split; [exact Hok|eauto].
Qed.

(** ** Mapping and unmapping *)

Lemma mangle_mask_shape : ULONG_MAX - 255 = Z.shiftl (Z.ones 56) 8.
Proof. reflexivity. Qed.

Lemma mangle_mask_low n : 0 <= n < 8 -> Z.testbit (ULONG_MAX - 255) n = false.
Proof.
  intros Hn; rewrite mangle_mask_shape, Z.shiftl_spec by lia.
  apply Z.testbit_neg_r; lia.
Qed.

Lemma lxor_mask_low a :
  Z.land (Z.lxor a (ULONG_MAX - 255)) 255 = Z.land a 255.
Proof.
  apply Z.bits_inj'; intros n Hn.
  rewrite !Z.land_spec, Z.lxor_spec.
  change 255 with (Z.ones 8).
  destruct (Z.ltb_spec n 8) as [Hlt|Hge].
  - change (Z.ones 8) with 255; rewrite mangle_mask_low by lia.
    rewrite xorb_false_r; reflexivity.
  - rewrite Z.ones_spec_high by lia; rewrite !andb_false_r; reflexivity.
Qed.

Lemma lxor_mask_range a :
  0 <= a <= ULONG_MAX -> 0 <= Z.lxor a (ULONG_MAX - 255) <= ULONG_MAX.
Proof.
  intros [Ha Hb].
  assert (Hm : 0 <= ULONG_MAX - 255) by (unfold ULONG_MAX; lia).
  assert (Hnn : 0 <= Z.lxor a (ULONG_MAX - 255)) by (apply Z.lxor_nonneg; tauto).
  split; [exact Hnn|].
  destruct (Z.eq_dec (Z.lxor a (ULONG_MAX - 255)) 0) as [->|Hne];
    [unfold ULONG_MAX; lia|].
  assert (Hlog : Z.log2 (Z.lxor a (ULONG_MAX - 255)) < 64).
  { pose proof (Z.log2_lxor a (ULONG_MAX - 255) Ha Hm) as Hl.
    assert (Z.log2 a < 64).
    { destruct (Z.eq_dec a 0) as [->|Ha0]; [cbn; lia|].
      apply Z.log2_lt_pow2; unfold ULONG_MAX in *; lia. }
    assert (Z.log2 (ULONG_MAX - 255) < 64) by (cbn; lia).
    lia. }
  apply Z.log2_lt_pow2 in Hlog; unfold ULONG_MAX in *; lia.
Qed.

Lemma lxor_mask_changes a : Z.lxor a (ULONG_MAX - 255) <> a.
Proof.
  intros H.
  assert (Hz : Z.lxor a (Z.lxor a (ULONG_MAX - 255)) = 0)
    by (rewrite H; apply Z.lxor_nilpotent).
  rewrite <- Z.lxor_assoc, Z.lxor_nilpotent, Z.lxor_0_l in Hz.
  discriminate.
Qed.

Lemma mangle_sg_table_twice t :
  mangle_sg_table cfg (mangle_sg_table cfg t) = t.
Proof.
  unfold mangle_sg_table; destruct (CONFIG_DMABUF_DEBUG cfg); [|reflexivity].
  rewrite map_map; transitivity (map (fun sg : scatterlist => sg) t);
    [|apply map_id].
  apply map_ext; intros [pl da dl]; cbn [page_link dma_address dma_length].
  rewrite Z.lxor_assoc, Z.lxor_nilpotent, Z.lxor_0_r; reflexivity.
Qed.

(** X5.  mangle_sg_table() undoes itself: applied twice it gives the table
    back, which is how dma_buf_unmap_attachment() restores what
    dma_buf_map_attachment() mixed up.  It never touches a DMA address or
    length, it keeps the low eight bits of every page_link and the range of
    an unsigned long, and with CONFIG_DMABUF_DEBUG it changes every
    page_link, so that an importer using the page of a mapped table does
    not get the exporter's. *)
Theorem mangle_sg_table_round_trip (t : sg_table) :
  mangle_sg_table cfg (mangle_sg_table cfg t) = t /\
  map dma_address (mangle_sg_table cfg t) = map dma_address t /\
  map dma_length (mangle_sg_table cfg t) = map dma_length t /\
  map (fun sg => Z.land (page_link sg) 255) (mangle_sg_table cfg t)
  = map (fun sg => Z.land (page_link sg) 255) t /\
  (Forall (fun sg => 0 <= page_link sg <= ULONG_MAX) t ->
   Forall (fun sg => 0 <= page_link sg <= ULONG_MAX) (mangle_sg_table cfg t)) /\
  (CONFIG_DMABUF_DEBUG cfg = true ->
   Forall2 (fun sg sg' => page_link sg' <> page_link sg)
           t (mangle_sg_table cfg t)).
Proof.
  split; [apply mangle_sg_table_twice|].
  destruct (mangle_sg_table_dma t) as [Ha Hl].
  split; [exact Ha|]; split; [exact Hl|].
  unfold mangle_sg_table; destruct (CONFIG_DMABUF_DEBUG cfg).
  - split; [|split].
    + rewrite map_map; apply map_ext; intros sg; cbn; apply lxor_mask_low.
    + intros Hr; rewrite Forall_forall in *; intros sg' Hin.
      apply in_map_iff in Hin as (sg & <- & Hin); cbn.
      apply lxor_mask_range, Hr, Hin.
    + intros _; clear Ha Hl.
      induction t as [|sg t IH]; cbn [map]; constructor; auto.
      cbn [page_link]; apply lxor_mask_changes.
  - split; [reflexivity|]; split; [auto | discriminate].
Qed.

Lemma pin_stage_success (b : dma_buf P Q) att x pre :
  pin_stage cfg b att = (0, x, pre) ->
  pre = if dma_buf_pin_on_map cfg b att then [EvPin (a_addr att)] else [].
Proof.
  unfold pin_stage; destruct (dma_buf_pin_on_map cfg b att) eqn:Hp.
  - unfold dma_buf_pin_on_map in Hp.
    destruct (pin (ops b)) as [h|]; [|discriminate].
    destruct (h (a_addr att) (get_xstate b)) as [r x0].
    intros H; inversion H; subst; reflexivity.
  - intros H; inversion H; reflexivity.
Qed.

(** X6.  What dma_buf_map_attachment() did, dma_buf_unmap_attachment()
    undoes.  After a successful map, unmapping the returned table returns,
    hands the exporter's unmap_dma_buf callback the very table its
    map_dma_buf callback produced (the mixing of page links is undone), and
    calls unpin exactly when the map had called pin. *)
Theorem dma_buf_map_unmap_round_trip
        (s s1 : bstate P Q) (att : dma_buf_attachment Q)
        (direction : dma_data_direction) (t : sg_table) (evs : list event) :
  ops_valid (ops (buf s)) ->
  dma_buf_map_attachment cfg (Some att) direction s = Done (SgTable t) s1 ->
  new_events s s1 evs ->
  exists x1 hm t0 x2 rest s2,
    pin_stage cfg (buf s) att
    = (0, x1, if dma_buf_pin_on_map cfg (buf s) att
              then [EvPin (a_addr att)] else []) /\
    map_dma_buf (ops (buf s)) = Some hm /\
    hm (a_addr att) direction x1 = (SgTable t0, x2) /\
    evs = (if dma_buf_pin_on_map cfg (buf s) att
           then [EvPin (a_addr att)] else [])
          ++ EvMapDmaBuf (a_addr att) direction :: rest /\
    dma_buf_unmap_attachment cfg (Some att) (Some t) direction s1
    = Done tt s2 /\
    new_events s1 s2
      (EvUnmapDmaBuf (a_addr att) t0 direction
       :: if dma_buf_pin_on_map cfg (buf s) att
          then [EvUnpin (a_addr att)] else []).
Proof.
  intros Hv Hrun Hev.
  assert (Hops : ops (buf s1) = ops (buf s)).
  { refine (proj1 (pres_dma_buf_map_attachment identity_kept _ _ _ _
                     (Some att) direction s _ s1 Hrun)).
    - intros; apply same_identity_refl.
    - intros ? ? ?; apply same_identity_trans.
    - intros; apply same_identity_refl.
    - intros ? ? _ Hid; exact Hid. }
  destruct (dma_buf_map_attachment_paths s att direction Hv)
    as (p & s' & evs1 & Hrun1 & Hev1 & Hpath).
  rewrite Hrun in Hrun1; inversion Hrun1; subst p s'; clear Hrun1.
  assert (evs1 = evs) as ->.
  { unfold new_events in *; rewrite Hev in Hev1.
    apply app_inv_head in Hev1; auto. }
  assert (Hv1 : ops_valid (ops (buf s1))) by (rewrite Hops; exact Hv).
  destruct (dma_buf_unmap_attachment_trace s1 att t direction Hv1)
    as (s2 & Hrun2 & Hev2).
  assert (Hpom : dma_buf_pin_on_map cfg (buf s1) att
                 = dma_buf_pin_on_map cfg (buf s) att)
    by (unfold dma_buf_pin_on_map; rewrite Hops; reflexivity).
  unfold unpin_events in Hev2; rewrite Hpom in Hev2.
  inversion Hpath; subst;
    match goal with
    | Hps : pin_stage _ _ _ = (0, _, ?pre) |- _ =>
        pose proof (pin_stage_success _ _ _ _ Hps) as Hpre
    end;
    rewrite mangle_sg_table_twice in Hev2;
    (eexists _, _, _, _, _, s2; split; [rewrite <- Hpre; eassumption|];
     split; [eassumption|]; split; [eassumption|];
     split; [rewrite <- Hpre; cbn; reflexivity|];
     split; [exact Hrun2 | exact Hev2]).
Qed.

(** ** Poll *)

Lemma poll_add_cb_fences_queued u dcb l :
  fst (poll_add_cb_fences u dcb l) = existsb (entry_pending u) l /\
  (forall u', existsb (entry_pending u') (snd (poll_add_cb_fences u dcb l))
              = existsb (entry_pending u') l) /\
  queued_callbacks (snd (poll_add_cb_fences u dcb l))
  = queued_callbacks l + (if fst (poll_add_cb_fences u dcb l) then 1 else 0).
Proof.
  induction l as [|e l (IHq & IHp & IHn)]; cbn.
  - repeat split; auto.
  - unfold entry_pending at 1, dma_fence_add_callback.
    destruct (usage_covers u (e_usage e)) eqn:Hc; cbn.
    + destruct (signaled (e_fence e)) eqn:Hs; cbn.
      * destruct (poll_add_cb_fences u dcb l) as [b l'] eqn:E; cbn in *.
        split; [exact IHq|]; split; [|lia].
        intros u'; rewrite IHp; reflexivity.
      * split; [reflexivity|]; split.
        -- intros u'; unfold entry_pending; cbn; rewrite Hs; reflexivity.
        -- rewrite length_app; cbn; lia.
    + destruct (poll_add_cb_fences u dcb l) as [b l'] eqn:E; cbn in *.
      split; [exact IHq|]; split; [|lia].
      intros u'; rewrite IHp; reflexivity.
Qed.

Lemma dma_buf_poll_dir_result dcb write events (s : bstate P Q) :
  exists s',
    dma_buf_poll_dir dcb write events s
    = Done (if (cb_active dcb (buf s) =? 0)
               && negb (existsb (entry_pending (dma_resv_usage_rw write))
                                (fences (resv (buf s))))
            then events else Z.ldiff events (poll_flag dcb)) s' /\
    (Z.land events (poll_flag dcb) = 0 -> buf s' = buf s) /\
    (forall d, d <> dcb -> cb_active d (buf s') = cb_active d (buf s)) /\
    (forall u, existsb (entry_pending u) (fences (resv (buf s')))
               = existsb (entry_pending u) (fences (resv (buf s)))) /\
    other_refs (buf s') = other_refs (buf s).
Proof.
  unfold dma_buf_poll_dir.
  destruct (Z.land events (poll_flag dcb) =? 0) eqn:Hreq.
  { apply Z.eqb_eq in Hreq.
    assert (Hld : Z.ldiff events (poll_flag dcb) = events).
    { apply Z.bits_inj'; intros n Hn; rewrite Z.ldiff_spec.
      assert (Hb : Z.testbit (Z.land events (poll_flag dcb)) n = false)
        by (rewrite Hreq; apply Z.bits_0).
      rewrite Z.land_spec in Hb.
      destruct (Z.testbit events n), (Z.testbit (poll_flag dcb) n);
        cbn in *; congruence. }
    exists s; rewrite Hld; unfold ret.
    split; [destruct (_ && _); reflexivity|]; auto. }
  apply Z.eqb_neq in Hreq.
  unfold bind at 1, gets at 1; cbn beta iota.
  destruct (cb_active dcb (buf s) =? 0) eqn:Hact; cbn [negb andb].
  - unfold bind at 1; unfold modify_buf at 1, modify at 1; cbn beta iota.
    unfold bind at 1, ret at 1; cbn beta iota.
    destruct (Z.land events (poll_flag dcb) =? 0) eqn:Hreq';
      [apply Z.eqb_eq in Hreq'; congruence|].
    unfold get_file, dma_buf_poll_add_cb; munfold; cbn.
    destruct (poll_add_cb_fences_queued (dma_resv_usage_rw write) dcb
                (fences (resv (buf s)))) as (Hq & Hp & Hn).
    destruct (poll_add_cb_fences (dma_resv_usage_rw write) dcb
                (fences (resv (buf s)))) as [queued l] eqn:E; cbn in *.
    rewrite <- Hq; destruct queued; cbn.
    + eexists; split; [reflexivity|]; cbn.
      split; [intros; congruence|].
      split; [intros d Hd; destruct d, dcb; try reflexivity; congruence|].
      split; [exact Hp|].
      unfold other_refs; cbn; lia.
    + unfold dma_buf_poll_cb, fput; munfold; cbn.
      eexists; split; [reflexivity|]; cbn.
      split; [intros; congruence|].
      split; [intros d Hd; destruct d, dcb; try reflexivity; congruence|].
      split; [exact Hp|].
      unfold other_refs; cbn; destruct dcb; cbn; lia.
  - unfold bind at 1, ret at 1; cbn beta iota.
    rewrite Z.land_ldiff, Z.eqb_refl.
    exists s; unfold ret; repeat split; auto; intros; congruence.
Qed.

Lemma land_mask_flag r dcb :
  Z.land (Z.land r (Z.lor EPOLLIN EPOLLOUT)) (poll_flag dcb)
  = Z.land r (poll_flag dcb).
Proof. rewrite <- Z.land_assoc; destruct dcb; reflexivity. Qed.

Lemma ldiff_mask_mask r :
  Z.ldiff (Z.land r (Z.lor EPOLLIN EPOLLOUT)) (Z.lor EPOLLIN EPOLLOUT) = 0.
Proof.
  apply Z.bits_inj'; intros n Hn.
  rewrite Z.ldiff_spec, Z.land_spec, Z.bits_0.
  destruct (Z.testbit r n), (Z.testbit (Z.lor EPOLLIN EPOLLOUT) n); reflexivity.
Qed.

Lemma ldiff_ldiff_mask e f m : Z.ldiff e m = 0 -> Z.ldiff (Z.ldiff e f) m = 0.
Proof.
  intros H; apply Z.bits_inj'; intros n Hn.
  assert (Hb : Z.testbit (Z.ldiff e m) n = false)
    by (rewrite H; apply Z.bits_0).
  rewrite Z.ldiff_spec in Hb; rewrite !Z.ldiff_spec, Z.bits_0.
  destruct (Z.testbit e n), (Z.testbit f n), (Z.testbit m n);
    cbn in *; congruence.
Qed.

(** X7.  What dma_buf_poll() returns.  The call always returns; of the
    events asked for it reports EPOLLIN exactly when the EPOLLIN callback is
    not queued and no write-usage (or kernel-usage) fence is pending, and
    EPOLLOUT exactly when the EPOLLOUT callback is not queued and no fence
    at all is pending; it never reports any other event. *)
Theorem dma_buf_poll_reports_readiness (requested : Z) (s : bstate P Q) :
  exists ev s',
    dma_buf_poll requested s = Done ev s' /\
    (forall dcb,
        Z.land ev (poll_flag dcb)
        = if poll_ready (buf s) dcb
          then Z.land requested (poll_flag dcb) else 0) /\
    Z.ldiff ev (Z.lor EPOLLIN EPOLLOUT) = 0.
Proof.
  unfold dma_buf_poll.
  unfold bind at 1, emit, modify; cbn beta iota.
  set (s0 := set_env (env_log EvPollWait (get_env s)) s).
  assert (Hb0 : buf s0 = buf s) by reflexivity.
  destruct (Z.land requested (Z.lor EPOLLIN EPOLLOUT) =? 0) eqn:Hz.
  { apply Z.eqb_eq in Hz.
    exists 0, s0; unfold ret; split; [reflexivity|]; split; [|reflexivity].
    intros dcb; rewrite Z.land_0_l, <- land_mask_flag, Hz, Z.land_0_l.
    destruct (poll_ready (buf s) dcb); reflexivity. }
  destruct (dma_buf_poll_dir_result CB_OUT true
              (Z.land requested (Z.lor EPOLLIN EPOLLOUT)) s0)
    as (s1 & Hr1 & _ & Hact1 & Hpend1 & _).
  match type of Hr1 with _ = Done ?e _ => set (ev1 := e) in * end.
  destruct (dma_buf_poll_dir_result CB_IN false ev1 s1)
    as (s2 & Hr2 & _ & _ & _ & _).
  match type of Hr2 with _ = Done ?e _ => set (ev2 := e) in * end.
  exists ev2, s2; unfold bind; rewrite Hr1, Hr2; unfold ret.
  split; [reflexivity|].
  assert (Hin : (cb_active CB_IN (buf s1) =? 0)
                && negb (existsb (entry_pending (dma_resv_usage_rw false))
                                 (fences (resv (buf s1))))
                = poll_ready (buf s) CB_IN).
  { unfold poll_ready; rewrite Hact1 by discriminate.
    rewrite Hpend1, Hb0; reflexivity. }
  assert (Hout : (cb_active CB_OUT (buf s0) =? 0)
                 && negb (existsb (entry_pending (dma_resv_usage_rw true))
                                  (fences (resv (buf s0))))
                 = poll_ready (buf s) CB_OUT)
    by (rewrite Hb0; reflexivity).
  subst ev1 ev2; rewrite Hin, Hout.
  split.
  - intros dcb.
    destruct dcb, (poll_ready (buf s) CB_IN), (poll_ready (buf s) CB_OUT).
    all: rewrite ?Z.land_ldiff; try reflexivity.
    all: rewrite ?(land_ldiff_other CB_IN CB_OUT),
           ?(land_ldiff_other CB_OUT CB_IN) by discriminate.
    all: rewrite ?Z.land_ldiff, ?land_mask_flag; reflexivity.
  - destruct (poll_ready (buf s) CB_IN), (poll_ready (buf s) CB_OUT).
    all: repeat apply ldiff_ldiff_mask; apply ldiff_mask_mask.
Qed.

(** ** File references held for poll callbacks *)

Lemma run_callbacks_refs cbs (s : bstate P Q) :
  exists s', run_callbacks cbs s = Done tt s' /\
    resv (buf s') = resv (buf s) /\
    f_count (dmabuf_file (buf s'))
    = f_count (dmabuf_file (buf s)) - Z.of_nat (length cbs).
Proof.
  revert s; induction cbs as [|c cbs IH]; intros s; simpl length.
  - exists s; cbn; unfold ret; repeat split; lia.
  - cbn [run_callbacks]; unfold dma_buf_poll_cb, fput; munfold; cbn.
    match goal with |- context [run_callbacks cbs ?s0] =>
      destruct (IH s0) as (s' & Hr & Hresv & Hcnt) end.
    exists s'; rewrite Hr; split; [reflexivity|].
    rewrite Hresv, Hcnt; cbn; destruct c; cbn; split; auto; lia.
Qed.

Lemma entry_signal_queued e :
  queued_callbacks [e]
  = queued_callbacks [fst (entry_signal e)]
    + Z.of_nat (length (snd (entry_signal e))).
Proof.
  unfold entry_signal, fence_signal.
  destruct (signaled (e_fence e)); cbn; lia.
Qed.

Lemma signal_covered_queued u l :
  queued_callbacks l
  = queued_callbacks (fst (signal_covered u l))
    + Z.of_nat (length (snd (signal_covered u l))).
Proof.
  induction l as [|e l IH]; cbn; [reflexivity|].
  destruct (signal_covered u l) as [l' cbs'] eqn:E; cbn in *.
  destruct (usage_covers u (e_usage e)).
  - pose proof (entry_signal_queued e) as He.
    destruct (entry_signal e) as [e' cbs] eqn:Ee; cbn in *.
    rewrite length_app; lia.
  - cbn; lia.
Qed.

Lemma signal_nth_queued i l :
  queued_callbacks l
  = queued_callbacks (fst (signal_nth i l))
    + Z.of_nat (length (snd (signal_nth i l))).
Proof.
  revert i; induction l as [|e l IH]; intros i; cbn; [reflexivity|].
  destruct i as [|j].
  - pose proof (entry_signal_queued e) as He.
    destruct (entry_signal e) as [e' cbs] eqn:Ee; cbn in *; lia.
  - specialize (IH j).
    destruct (signal_nth j l) as [l' cbs'] eqn:E; cbn in *; lia.
Qed.

Lemma signal_and_run_refs (s : bstate P Q) l' cbs :
  queued_callbacks (fences (resv (buf s)))
  = queued_callbacks l' + Z.of_nat (length cbs) ->
  exists s',
    (modify_buf (set_resv (set_fences l' (resv (buf s)))) ;;
     run_callbacks cbs) s = Done tt s' /\
    other_refs (buf s') = other_refs (buf s).
Proof.
  intros Hq; munfold; cbn beta iota.
  match goal with |- context [run_callbacks cbs ?s0] =>
    destruct (run_callbacks_refs cbs s0) as (s' & Hr & Hresv & Hcnt) end.
  exists s'; split; [exact Hr|].
  unfold other_refs; rewrite Hresv, Hcnt; cbn; lia.
Qed.

Lemma fences_complete_refs u (s : bstate P Q) :
  exists s', fences_complete u s = Done tt s' /\
             other_refs (buf s') = other_refs (buf s).
Proof.
  unfold fences_complete.
  unfold bind at 1, gets at 1; cbn beta iota.
  pose proof (signal_covered_queued u (fences (resv (buf s)))) as H.
  destruct (signal_covered u (fences (resv (buf s)))) as [l cbs] eqn:E.
  apply signal_and_run_refs; exact H.
Qed.

Lemma dma_resv_wait_refs u (s : bstate P Q) :
  exists r s',
    dma_resv_wait_timeout u true MAX_SCHEDULE_TIMEOUT s = Done r s' /\
    other_refs (buf s') = other_refs (buf s).
Proof.
  unfold dma_resv_wait_timeout; munfold; simpl.
  destruct (existsb (entry_pending u) (fences (resv (buf s)))).
  - unfold env_pop_wakeup; simpl.
    assert (Hc : forall (s1 : bstate P Q), buf s1 = buf s ->
              exists r s',
                bind (fences_complete u) (fun _ => ret MAX_SCHEDULE_TIMEOUT) s1
                = Done r s' /\ other_refs (buf s') = other_refs (buf s)).
    { intros s1 Hb.
      destruct (fences_complete_refs u s1) as (s' & Hr & Hi).
      exists MAX_SCHEDULE_TIMEOUT, s'; unfold bind; rewrite Hr, Hi, Hb; auto. }
    destruct (wakeups (benv s)) as [|[] rest]; simpl;
      try (apply Hc; reflexivity).
    eexists _, _; split; reflexivity.
  - eexists _, _; split; reflexivity.
Qed.

Lemma run_poll_step_refs st (s s' : bstate P Q) :
  run_poll_step st s = Done tt s' ->
  other_refs (buf s') = other_refs (buf s).
Proof.
  destruct st as [requested|i|u|id done u]; unfold run_poll_step.
  - unfold dma_buf_poll.
    intros H; apply bind_inv in H as (ev & s3 & H & Hret).
    inversion Hret; subst; clear Hret.
    apply bind_inv in H as ([] & s0 & H0 & H).
    unfold emit, modify in H0; inversion H0; subst; clear H0.
    destruct (Z.land requested (Z.lor EPOLLIN EPOLLOUT) =? 0);
      [inversion H; subst; reflexivity|].
    apply bind_inv in H as (ev1 & s1 & H1 & H).
    apply bind_inv in H as (ev2 & s2 & H2 & H).
    inversion H; subst; clear H.
    match type of H1 with
    | dma_buf_poll_dir _ _ ?e ?s0 = _ =>
        destruct (dma_buf_poll_dir_result CB_OUT true e s0)
          as (t1 & Ht1 & _ & _ & _ & Hk1)
    end.
    rewrite Ht1 in H1; inversion H1; subst; clear H1.
    match type of H2 with
    | dma_buf_poll_dir _ _ ?e ?s0 = _ =>
        destruct (dma_buf_poll_dir_result CB_IN false e s0)
          as (t2 & Ht2 & _ & _ & _ & Hk2)
    end.
    rewrite Ht2 in H2; inversion H2; subst; clear H2.
    rewrite Hk2, Hk1; reflexivity.
  - unfold dma_fence_signal_nth.
    unfold bind at 1, gets at 1; cbn beta iota.
    pose proof (signal_nth_queued i (fences (resv (buf s)))) as H.
    destruct (signal_nth i (fences (resv (buf s)))) as [l cbs] eqn:E.
    destruct (signal_and_run_refs s l cbs H) as (s1 & Hr & Hk).
    rewrite Hr; intros H1; inversion H1; subst; exact Hk.
  - destruct (dma_resv_wait_refs u s) as (r & s1 & Hr & Hk).
    unfold bind; rewrite Hr; intros H; inversion H; subst; exact Hk.
  - destruct (dma_resv_reserve_fences_spec 1 s)
      as (r & s1 & Hr & Hf & Hrest & _).
    unfold bind at 1; rewrite Hr.
    assert (Hk1 : other_refs (buf s1) = other_refs (buf s)).
    { unfold other_refs; rewrite Hf.
      unfold buf_rest in Hrest; inversion Hrest; congruence. }
    destruct (r =? 0); [|intros H; inversion H; subst; exact Hk1].
    unfold dma_resv_add_fence; munfold; cbn beta iota.
    destruct (max_fences (resv (buf s1))
              <=? Z.of_nat (length (fences (resv (buf s1))))); cbn;
      [discriminate|].
    intros H; inversion H; subst; clear H.
    rewrite <- Hk1; unfold other_refs; cbn.
    assert (Hq : forall l e, cb_list (e_fence e) = [] ->
                   queued_callbacks (l ++ [e]) = queued_callbacks l).
    { intros l e He; induction l; cbn; [rewrite He; reflexivity | lia]. }
    rewrite Hq by reflexivity; reflexivity.
Qed.

Lemma queued_armed l :
  queued_callbacks l = Z.of_nat (armed CB_IN l + armed CB_OUT l).
Proof.
  induction l as [|e l IH]; cbn; [reflexivity|].
  assert (Hl : forall cbs : list poll_cb,
            length cbs = (count_occ poll_cb_eq_dec cbs CB_IN
                          + count_occ poll_cb_eq_dec cbs CB_OUT)%nat).
  { induction cbs as [|c cbs IHc]; cbn; [reflexivity|].
    destruct c; cbn; lia. }
  rewrite (Hl (cb_list (e_fence e))); lia.
Qed.

Lemma poll_inv_queued (b : dma_buf P Q) :
  poll_inv b -> queued_callbacks (fences (resv b)) = active_callbacks b.
Proof.
  intros [_ Hi]; rewrite queued_armed; unfold active_callbacks.
  destruct (Hi CB_IN) as [[Hz Ha]|[Hz Ha]], (Hi CB_OUT) as [[Hz' Ha']|[Hz' Ha']];
    cbn in Hz, Hz'; rewrite Ha, Ha'.
  all: repeat match goal with
              | H : ?x = 0 |- context [?x =? 0] => rewrite H; cbn
              | H : ?x <> 0 |- context [?x =? 0] =>
                  apply Z.eqb_neq in H; rewrite H; cbn
              end; reflexivity.
Qed.

(** X8.  Every queued poll callback holds one reference on the file, and
    nothing else of polling does: over any sequence of polls, fence
    signals, waits and added fences, the references on the file that are
    not held for a queued callback stay the same.  On a buffer that
    satisfies the poll invariant the sequence returns, and afterwards the
    file count is those other references plus one for each direction marked
    active, so a count of zero leaves no direction active, which is what
    dma_buf_release() insists on. *)
Theorem dma_buf_poll_reference_balance
        (steps : list poll_step) (s : bstate P Q) :
  poll_inv (buf s) ->
  exists s',
    run_poll_steps steps s = Done tt s' /\
    other_refs (buf s') = other_refs (buf s) /\
    f_count (dmabuf_file (buf s'))
    = other_refs (buf s) + active_callbacks (buf s') /\
    (0 <= other_refs (buf s) ->
     f_count (dmabuf_file (buf s')) = 0 ->
     cb_in_active (buf s') = 0 /\ cb_out_active (buf s') = 0).
Proof.
  intros Hinv.
  destruct (run_poll_steps_inv steps s Hinv) as (s' & Hrun & Hinv').
  exists s'; split; [exact Hrun|].
  assert (Hk : other_refs (buf s') = other_refs (buf s)).
  { clear Hinv Hinv'; revert s Hrun.
    induction steps as [|st steps IH]; intros s; cbn.
    - intros H; inversion H; reflexivity.
    - intros H; apply bind_inv in H as ([] & s1 & H1 & H2).
      rewrite (IH s1 H2); eapply run_poll_step_refs; exact H1. }
  split; [exact Hk|].
  assert (Hcnt : f_count (dmabuf_file (buf s'))
                 = other_refs (buf s) + active_callbacks (buf s')).
  { rewrite <- Hk, <- (poll_inv_queued (buf s') Hinv').
    unfold other_refs; lia. }
  split; [exact Hcnt|].
  intros Hnn Hz; rewrite Hz in Hcnt; unfold active_callbacks in Hcnt.
  destruct (cb_in_active (buf s') =? 0) eqn:Ei,
           (cb_out_active (buf s') =? 0) eqn:Eo; lia.
Qed.

(** ** mmap and vmap *)

Lemma vma_set_file_run (s : bstate P Q) (vma : vm_area_struct) :
  vma_set_file vma s
  = Done {| vm_start := vm_start vma; vm_end := vm_end vma;
            vm_pgoff := vm_pgoff vma;
            vm_file := i_ino (dmabuf_file (buf s)) |}
         {| buf := set_f_count
                     (f_count (dmabuf_file (buf s))
                      + (if vm_file vma =? i_ino (dmabuf_file (buf s))
                         then 0 else 1))
                     (buf s);
            benv := benv s |}.
Proof.
  unfold vma_set_file, get_file, fput; munfold; cbn.
  destruct (vm_file vma =? i_ino (dmabuf_file (buf s))); cbn.
  - unfold set_f_count; cbn.
    replace (f_count (dmabuf_file (buf s)) + 1 - 1)
      with (f_count (dmabuf_file (buf s)) + 0) by lia.
    reflexivity.
  - reflexivity.
Qed.

(** X9.  A request inside the buffer reaches the exporter.  When the
    exporter has an mmap callback and the page offset plus the page count
    of the vma does not exceed the size of the buffer in pages,
    dma_buf_mmap_internal() calls the callback once with the vma as it
    is and changes nothing else.  dma_buf_mmap() first makes the vma refer
    to the file of the buffer, which takes one reference on that file (and
    gives up the one the vma held, if it was on this file already), then
    calls the callback once with that vma and the pgoff argument as its
    vm_pgoff.  Both return what the callback returns. *)
Theorem dma_buf_mmap_passes_request
        (s : bstate P Q) (vma : vm_area_struct) (pgoff : Z)
        (h : vm_area_struct -> hook P Z) :
  mmap (ops (buf s)) = Some h ->
  size_in_pages (buf s) <= ULONG_MAX ->
  (0 <= vm_pgoff vma ->
   vm_pgoff vma + vma_pages vma <= size_in_pages (buf s) ->
   dma_buf_mmap_internal vma s
   = Done (fst (h vma (get_xstate (buf s))))
          {| buf := set_xstate (snd (h vma (get_xstate (buf s)))) (buf s);
             benv := env_log (EvMmap vma) (benv s) |}) /\
  (0 <= pgoff ->
   pgoff + vma_pages vma <= size_in_pages (buf s) ->
   let vma' := {| vm_start := vm_start vma; vm_end := vm_end vma;
                  vm_pgoff := pgoff;
                  vm_file := i_ino (dmabuf_file (buf s)) |} in
   let taken := if vm_file vma =? i_ino (dmabuf_file (buf s))
                then 0 else 1 in
   dma_buf_mmap (Some vma) pgoff s
   = Done (fst (h vma' (get_xstate (buf s))))
          {| buf := set_xstate (snd (h vma' (get_xstate (buf s))))
                      (set_f_count (f_count (dmabuf_file (buf s)) + taken)
                                   (buf s));
             benv := env_log (EvMmap vma') (benv s) |}).
Proof.
  intros Hh Hsz.
  pose proof (vma_pages_range vma) as Hvp.
  unfold dma_buf_mmap_internal, dma_buf_mmap, size_in_pages in *.
  unfold bind at 1, gets at 1; rewrite Hh; split.
  - intros Hoff Hfit.
    rewrite wrap64_small by lia.
    destruct (_ >? _) eqn:E;
      [rewrite Z.gtb_ltb in E; apply Z.ltb_lt in E; lia|].
    apply call_hook_eq.
  - intros Hoff Hfit; cbn zeta.
    unfold bind at 1, gets at 1; rewrite Hh.
    rewrite wrap64_small by lia.
    destruct (_ <? pgoff) eqn:Elt; [apply Z.ltb_lt in Elt; lia|].
    destruct (_ >? _) eqn:E;
      [rewrite Z.gtb_ltb in E; apply Z.ltb_lt in E; lia|].
    unfold bind at 1; rewrite vma_set_file_run.
    cbn [vm_start vm_end vm_file].
    rewrite call_hook_eq; reflexivity.
Qed.

(** X10.  When dma_buf_vmap() and dma_buf_vunmap() stop at a BUG_ON.
    dma_buf_vmap() returns -EINVAL with a cleared map and no other effect
    when the exporter has no vmap callback; with one it returns exactly when
    counter and stored mapping agree (both zero and null, or both set).
    dma_buf_vunmap() returns exactly when a mapping is stored, the counter
    is not zero and the map handed in equals the stored one.  Every other
    call is fatal. *)
Theorem dma_buf_vmap_vunmap_bug_conditions (s : bstate P Q) (m : iosys_map) :
  (vmap (ops (buf s)) = None ->
   dma_buf_vmap s = Done (- EINVAL, iosys_map_null) s) /\
  (vmap (ops (buf s)) <> None ->
   ((exists r s', dma_buf_vmap s = Done r s') <->
    (vmapping_counter (buf s) =? 0)
    = iosys_map_is_null (vmap_ptr (buf s)))) /\
  ((exists s', dma_buf_vunmap m s = Done tt s') <->
   iosys_map_is_set (vmap_ptr (buf s)) = true /\
   vmapping_counter (buf s) <> 0 /\
   iosys_map_is_equal (vmap_ptr (buf s)) m = true).
Proof.
  split; [|split].
  - intros Hh; unfold dma_buf_vmap; munfold; rewrite Hh; reflexivity.
  - intros Hh; destruct (vmap (ops (buf s))) as [h|] eqn:Hv; [|congruence].
    split.
    + intros (r & s' & Hrun).
      apply dma_buf_vmap_cases in Hrun as [[Hn _]|[(h' & _ & Hc & Hp)|(h' & _ & Hc & Hp)]].
      * congruence.
      * unfold iosys_map_is_set in Hp; apply negb_false_iff in Hp.
        rewrite Hc, Hp; reflexivity.
      * unfold iosys_map_is_set in Hp; apply negb_true_iff in Hp.
        apply Z.eqb_neq in Hc; rewrite Hc, Hp; reflexivity.
    + intros Heq.
      destruct (vmapping_counter (buf s) =? 0) eqn:Hc.
      * apply Z.eqb_eq in Hc.
        destruct (dma_buf_vmap_first s h Hv Hc) as (s' & Hrun & _);
          [unfold iosys_map_is_set; rewrite <- Heq; reflexivity|].
        eauto.
      * apply Z.eqb_neq in Hc.
        destruct (dma_buf_vmap_nested s h Hv Hc) as (s' & Hrun & _);
          [unfold iosys_map_is_set; rewrite <- Heq; reflexivity|].
        eauto.
  - split.
    + intros (s' & Hrun); eapply dma_buf_vunmap_cases; exact Hrun.
    + intros (Hp & Hc & He).
      destruct (dma_buf_vunmap_run s m Hp Hc He) as (s' & Hrun & _).
      eauto.
Qed.

Lemma vmap_nest_up (h : hook P (Z * iosys_map)) (k : nat) :
  forall s : bstate P Q,
    vmap (ops (buf s)) = Some h ->
    1 <= vmapping_counter (buf s) ->
    iosys_map_is_set (vmap_ptr (buf s)) = true ->
    vmapping_counter (buf s) + Z.of_nat k <= UINT_MAX ->
    exists s1,
      (forall rest, run_vmap_calls (repeat CallVmap k ++ rest) s
                    = run_vmap_calls rest s1) /\
      vmapping_counter (buf s1) = vmapping_counter (buf s) + Z.of_nat k /\
      vmap_ptr (buf s1) = vmap_ptr (buf s) /\
      ops (buf s1) = ops (buf s) /\
      trace (benv s1) = trace (benv s).
Proof.
  induction k as [|k IH]; intros s Hh Hc Hp Hmax.
  - exists s; repeat split; auto; lia.
  - destruct (dma_buf_vmap_nested s h Hh ltac:(lia) Hp)
      as (s0 & Hrun & Hev & _ & Hcnt & Hptr & Hops).
    rewrite wrap32_small in Hcnt by lia.
    destruct (IH s0) as (s1 & Hrest & Hc1 & Hp1 & Ho1 & Ht1);
      try congruence; try lia.
    exists s1; split; [|repeat split; try congruence; try lia].
    + intros rest; cbn [repeat app run_vmap_calls].
      unfold bind at 1; rewrite Hrun; apply Hrest.
    + unfold new_events in Hev; rewrite app_nil_r in Hev; congruence.
Qed.

Lemma vunmap_nest_down (m : iosys_map) (k : nat) :
  forall s : bstate P Q,
    iosys_map_is_set (vmap_ptr (buf s)) = true ->
    iosys_map_is_equal (vmap_ptr (buf s)) m = true ->
    1 <= vmapping_counter (buf s) - Z.of_nat k ->
    vmapping_counter (buf s) <= UINT_MAX ->
    exists s1,
      (forall rest, run_vmap_calls (repeat (CallVunmap m) k ++ rest) s
                    = run_vmap_calls rest s1) /\
      vmapping_counter (buf s1) = vmapping_counter (buf s) - Z.of_nat k /\
      vmap_ptr (buf s1) = vmap_ptr (buf s) /\
      ops (buf s1) = ops (buf s) /\
      trace (benv s1) = trace (benv s).
Proof.
  induction k as [|k IH]; intros s Hp He Hc Hmax.
  - exists s; repeat split; auto; lia.
  - destruct (dma_buf_vunmap_run s m Hp ltac:(lia) He)
      as (s0 & Hrun & Hcnt & Hops & Hcase).
    rewrite wrap32_small in Hcnt, Hcase by lia.
    destruct (vmapping_counter (buf s) - 1 =? 0) eqn:E;
      [apply Z.eqb_eq in E; lia|].
    destruct Hcase as (Hptr & Hev & _).
    destruct (IH s0) as (s1 & Hrest & Hc1 & Hp1 & Ho1 & Ht1);
      try congruence; try lia.
    exists s1; split; [|repeat split; try congruence; try lia].
    + intros rest; cbn [repeat app run_vmap_calls].
      unfold bind at 1; rewrite Hrun; apply Hrest.
    + unfold new_events in Hev; rewrite app_nil_r in Hev; congruence.
Qed.

(** X11.  Nested kernel mappings reach the exporter once.  On an unmapped
    buffer whose vmap callback succeeds with a mapping that is not null,
    [n] calls of dma_buf_vmap() followed by [n] calls of dma_buf_vunmap()
    with that mapping (for any depth [n] from 1 up to UINT_MAX) all return,
    call the vmap callback once and the vunmap callback once, and leave the
    buffer unmapped again. *)
Theorem dma_buf_vmap_nesting
        (n : nat) (s : bstate P Q) (h : hook P (Z * iosys_map))
        (hu : iosys_map -> hook P unit) (m : iosys_map) (x1 : xstate P) :
  vmap (ops (buf s)) = Some h ->
  vunmap (ops (buf s)) = Some hu ->
  vmapping_counter (buf s) = 0 ->
  iosys_map_is_set (vmap_ptr (buf s)) = false ->
  h (get_xstate (buf s)) = ((0, m), x1) ->
  iosys_map_is_set m = true ->
  (0 < n)%nat -> Z.of_nat n <= UINT_MAX ->
  exists s',
    run_vmap_calls (repeat CallVmap n ++ repeat (CallVunmap m) n) s
    = Done tt s' /\
    new_events s s' [EvVmap 0 m; EvVunmap m] /\
    vmapping_counter (buf s') = 0 /\
    vmap_ptr (buf s') = iosys_map_null.
Proof.
  intros Hh Hhu Hc Hp Hhook Hm Hn Hmax.
  destruct n as [|k]; [lia|].
  destruct (dma_buf_vmap_first s h Hh Hc Hp)
    as (s0 & Hrun0 & Hev0 & Hc0 & Hp0 & Ho0).
  rewrite Hhook in *; cbn [fst snd] in *.
  change (0 =? 0) with true in *; cbn iota in *.
  assert (Heq : iosys_map_is_equal m m = true).
  { unfold iosys_map_is_equal; rewrite Z.eqb_refl, Bool.eqb_reflx; reflexivity. }
  destruct (vmap_nest_up h k s0) as (s1 & Hrest1 & Hc1 & Hp1 & Ho1 & Ht1);
    try congruence; try lia.
  destruct (vunmap_nest_down m k s1) as (s2 & Hrest2 & Hc2 & Hp2 & Ho2 & Ht2);
    try congruence; try lia.
  destruct (dma_buf_vunmap_run s2 m) as (s3 & Hrun3 & Hc3 & Ho3 & Hcase);
    try congruence; try lia.
  assert (Hone : vmapping_counter (buf s2) = 1) by lia.
  rewrite Hone in *; change (wrap32 (1 - 1) =? 0) with true in Hcase.
  cbn iota in Hcase; destruct Hcase as (Hp3 & Hev3).
  assert (Hu2 : vunmap (ops (buf s2)) = Some hu) by congruence.
  rewrite Hu2 in Hev3.
  exists s3; split; [|split; [|split]].
  - cbn [repeat app run_vmap_calls]; unfold bind at 1; rewrite Hrun0.
    rewrite repeat_cons, Hrest1, Hrest2.
    cbn [app run_vmap_calls]; unfold bind; rewrite Hrun3; reflexivity.
  - unfold new_events in *.
    rewrite Hev3, Ht2, Ht1, Hev0, <- app_assoc; reflexivity.
  - rewrite Hc3; reflexivity.
  - exact Hp3.
Qed.

(** ** Export and the global list *)

Lemma dma_buf_export_cases
      (k k' : kstate P Q) (exp_info : dma_buf_export_info P)
      (r : err_ptr (dma_buf P Q)) :
  dma_buf_export exp_info k = Done r k' ->
  module_live k' = module_live k /\
  dmabuf_inode k <= dmabuf_inode k' <= dmabuf_inode k + 1 /\
  match r with
  | Ptr d =>
      dmabuf_list k' = d :: dmabuf_list k /\
      exp_priv exp_info = Some (priv d) /\
      exp_ops exp_info = Some (ops d) /\
      size d = exp_size exp_info /\
      owner d = exp_owner exp_info /\
      resv d = match exp_resv exp_info with
               | None => dma_resv_init
               | Some rv => rv
               end /\
      dmabuf_file d
      = {| f_count := 1;
           f_flags := Z.land (exp_flags exp_info) (Z.lor O_ACCMODE O_NONBLOCK);
           i_ino := dmabuf_inode k + 1 |} /\
      dmabuf_inode k' = dmabuf_inode k + 1 /\
      module_refs k'
      = match exp_owner exp_info with
        | Some id => id :: module_refs k
        | None => module_refs k
        end /\
      (forall id, exp_owner exp_info = Some id -> module_live k id = true)
  | ERR_PTR e =>
      dmabuf_list k' = dmabuf_list k /\
      module_refs k' = module_refs k
  end.
Proof.
  unfold dma_buf_export.
  destruct (exp_priv exp_info) as [pv|], (exp_ops exp_info) as [o|];
    try (munfold; cbn; intros H; inversion H; subst; cbn;
         repeat split; auto; lia).
  destruct (is_null (map_dma_buf o) || is_null (unmap_dma_buf o)
            || is_null (release o)) eqn:Hm;
    [munfold; cbn; intros H; inversion H; subst; cbn; repeat split; auto; lia|].
  destruct (Bool.eqb (is_null (pin o)) (is_null (unpin o))) eqn:Hpu;
    [|munfold; cbn; intros H; inversion H; subst; cbn;
      repeat split; auto; lia].
  unfold try_module_get, dma_buf_getfile, kzalloc, module_put,
         __dma_buf_list_add, dma_buf_stats_setup; munfold.
  unfold env_pop_alloc, env_bump; cbn.
  intros H.
  repeat match type of H with
         | context [match ?x with _ => _ end] =>
             lazymatch x with
             | context [match _ with _ => _ end] => fail
             | _ => destruct x eqn:?
             end; cbn in H; try discriminate
         end.
  all: inversion H; subst; clear H; cbn.
  all: rewrite ?Z.eqb_refl.
  all: repeat split; auto; try lia.
  all: try (intros id' Hid; inversion Hid; subst; assumption).
  all: try discriminate.
Qed.

Lemma dma_buf_export_returns
      (k : kstate P Q) (exp_info : dma_buf_export_info P) :
  exists r k', dma_buf_export exp_info k = Done r k'.
Proof.
  destruct (dma_buf_export exp_info k) as [r k'|k'] eqn:H; [eauto|].
  exfalso; revert H; unfold dma_buf_export.
  destruct (exp_priv exp_info) as [pv|], (exp_ops exp_info) as [o|];
    try (munfold; cbn; discriminate).
  destruct (is_null (map_dma_buf o) || is_null (unmap_dma_buf o)
            || is_null (release o)) eqn:Hm; [munfold; cbn; discriminate|].
  destruct (Bool.eqb (is_null (pin o)) (is_null (unpin o))) eqn:Hpu;
    [|munfold; cbn; discriminate].
  unfold try_module_get, dma_buf_getfile, kzalloc, module_put,
         __dma_buf_list_add, dma_buf_stats_setup; munfold.
  unfold env_pop_alloc, env_bump; cbn.
  intros H.
  repeat match type of H with
         | context [match ?x with _ => _ end] =>
             lazymatch x with
             | context [match _ with _ => _ end] => fail
             | _ => destruct x eqn:?
             end; cbn in H; try discriminate
         end.
Qed.

(** X12.  What a successful dma_buf_export() leaves.  The new buffer is at
    the head of the global list and carries the private data, capability
    table, size and owner of the export information, the reservation object
    handed in or an empty one of its own; its file has one reference, the
    flags masked to O_ACCMODE | O_NONBLOCK and the next inode number of the
    counter; one reference has been taken on a live owner module.  The
    buffer starts unmapped, unattached and with no poll callback active, so
    it satisfies what the other functions of the file expect of a
    buffer. *)
Theorem dma_buf_export_registers_buffer
        (k k' : kstate P Q) (exp_info : dma_buf_export_info P)
        (d : dma_buf P Q) :
  dma_buf_export exp_info k = Done (Ptr d) k' ->
  dmabuf_list k' = d :: dmabuf_list k /\
  exp_priv exp_info = Some (priv d) /\
  exp_ops exp_info = Some (ops d) /\
  size d = exp_size exp_info /\
  owner d = exp_owner exp_info /\
  resv d = match exp_resv exp_info with
           | None => dma_resv_init
           | Some rv => rv
           end /\
  dmabuf_file d
  = {| f_count := 1;
       f_flags := Z.land (exp_flags exp_info) (Z.lor O_ACCMODE O_NONBLOCK);
       i_ino := dmabuf_inode k + 1 |} /\
  dmabuf_inode k' = dmabuf_inode k + 1 /\
  module_refs k'
  = match exp_owner exp_info with
    | Some id => id :: module_refs k
    | None => module_refs k
    end /\
  (forall id, exp_owner exp_info = Some id -> module_live k id = true) /\
  ops_valid (ops d) /\
  vmap_inv d /\
  attachments_wf (attachments d) /\
  (exp_resv exp_info = None -> poll_inv d).
Proof.
  intros Hrun.
  pose proof (dma_buf_export_cases k k' exp_info _ Hrun) as (_ & _ & Hc).
  pose proof (dma_buf_export_ops_valid k k' exp_info d Hrun) as (Hv & _).
  pose proof (dma_buf_export_invariants k k' exp_info d Hrun) as Hinv.
  cbn in Hc; tauto.
Qed.

(** X13.  dma_buf_export() always returns, and a failed export leaves
    nothing behind: whatever the error (missing callbacks, a module that is
    going away, no file, no memory, no statistics entry), the global list
    holds the buffers it held before and the references on modules are the
    ones there were before; the reference taken on the owner has been given
    back. *)
Theorem dma_buf_export_failure_leaves_nothing
        (k : kstate P Q) (exp_info : dma_buf_export_info P) :
  exists r k',
    dma_buf_export exp_info k = Done r k' /\
    forall e, r = ERR_PTR e ->
      dmabuf_list k' = dmabuf_list k /\
      module_refs k' = module_refs k /\
      module_live k' = module_live k.
Proof.
  destruct (dma_buf_export_returns k exp_info) as (r & k' & Hrun).
  exists r, k'; split; [exact Hrun|].
  intros e ->.
  pose proof (dma_buf_export_cases k k' exp_info _ Hrun) as (Hl & _ & Hc).
  cbn in Hc; tauto.
Qed.

Lemma first_file_ref_get_inos (l : list (dma_buf P Q)) :
  map dmabuf_ino (snd (first_file_ref_get l)) = map dmabuf_ino l.
Proof.
  induction l as [|d l IH]; cbn; [reflexivity|].
  destruct (0 <? f_count (dmabuf_file d)); cbn; [reflexivity|].
  destruct (first_file_ref_get l) as [r l']; cbn in *.
  rewrite IH; reflexivity.
Qed.

Lemma split_at_ino_eq ino (l : list (dma_buf P Q)) before d after :
  split_at_ino ino l = Some (before, d, after) ->
  l = before ++ d :: after /\ dmabuf_ino d = ino.
Proof.
  revert before; induction l as [|x l IH]; intros before; cbn; [discriminate|].
  destruct (dmabuf_ino x =? ino) eqn:E.
  - intros H; inversion H; subst; apply Z.eqb_eq in E; auto.
  - destruct (split_at_ino ino l) as [[[b y] a]|]; [|discriminate].
    intros H; inversion H; subst.
    destruct (IH b eq_refl) as [-> Hd]; auto.
Qed.

Lemma split_at_ino_found ino (before after : list (dma_buf P Q)) d :
  dmabuf_ino d = ino ->
  ~ In ino (map dmabuf_ino before) ->
  split_at_ino ino (before ++ d :: after) = Some (before, d, after).
Proof.
  intros Hd; induction before as [|x before IH]; cbn; intros Hnot.
  - rewrite Hd, Z.eqb_refl; reflexivity.
  - destruct (dmabuf_ino x =? ino) eqn:E.
    + apply Z.eqb_eq in E; exfalso; apply Hnot; left; exact E.
    + rewrite IH; [reflexivity|].
      intros Hin; apply Hnot; right; exact Hin.
Qed.

Lemma filter_keeps_distinct_inos (keep : dma_buf P Q -> bool) l :
  NoDup (map dmabuf_ino l) -> NoDup (map dmabuf_ino (filter keep l)).
Proof.
  induction l as [|d l IH]; cbn; intros Hnd; [constructor|].
  apply NoDup_cons_iff in Hnd as [Hfresh Hrest].
  destruct (keep d); cbn; [|auto].
  apply NoDup_cons_iff; split; [|auto].
  intros Hin; apply Hfresh.
  apply in_map_iff in Hin as (x & Hx & Hin).
  apply in_map_iff; exists x; split; [exact Hx|].
  apply filter_In in Hin; tauto.
Qed.

Lemma inode_inv_same_inos (k k' : kstate P Q) :
  map dmabuf_ino (dmabuf_list k') = map dmabuf_ino (dmabuf_list k) ->
  dmabuf_inode k' = dmabuf_inode k ->
  inode_inv k -> inode_inv k'.
Proof.
  unfold inode_inv; intros Hm Hi [Hnd Hle]; rewrite Hm, Hi; split; [exact Hnd|].
  rewrite Forall_forall in *; intros d Hin.
  assert (Hd : In (dmabuf_ino d) (map dmabuf_ino (dmabuf_list k)))
    by (rewrite <- Hm; apply in_map; exact Hin).
  apply in_map_iff in Hd as (x & Hx & Hinx).
  rewrite <- Hx; apply Hle; exact Hinx.
Qed.

Lemma inode_inv_run_registry_call (c : registry_call P) (k k' : kstate P Q) :
  inode_inv k -> run_registry_call c k = Done tt k' -> inode_inv k'.
Proof.
  intros Hinv; destruct c as [exp_info|f_op pd| |dmabuf]; unfold run_registry_call.
  - intros H; apply bind_inv in H as (r & k1 & H1 & H); inversion H; subst.
    apply dma_buf_export_cases in H1 as (_ & Hino & Hc).
    destruct Hinv as [Hnd Hle]; unfold inode_inv.
    destruct r as [d|e].
    + destruct Hc as (Hl & _ & _ & _ & _ & _ & Hf & Hi & _).
      rewrite Hl, Hi; cbn; split.
      * constructor; [|exact Hnd].
        intros Hin; apply in_map_iff in Hin as (x & Hx & Hin).
        rewrite Forall_forall in Hle; specialize (Hle x Hin).
        unfold dmabuf_ino in *; rewrite Hf in Hx; cbn in Hx; lia.
      * constructor; [unfold dmabuf_ino; rewrite Hf; cbn; lia|].
        eapply Forall_impl; [|exact Hle]; cbn; intros; lia.
    + destruct Hc as (Hl & _); rewrite Hl; split; [exact Hnd|].
      eapply Forall_impl; [|exact Hle]; cbn; intros; lia.
  - unfold dma_buf_file_release, __dma_buf_list_del.
    destruct (is_dma_buf_file f_op); cbn;
      [|intros H; inversion H; subst; exact Hinv].
    destruct pd as [ino|]; munfold; cbn; intros H; inversion H; subst;
      [|exact Hinv].
    destruct Hinv as [Hnd Hle]; split; cbn.
    + apply filter_keeps_distinct_inos; exact Hnd.
    + rewrite Forall_forall in *; intros d Hin.
      apply filter_In in Hin; apply Hle; tauto.
  - unfold dma_buf_iter_begin; munfold; cbn.
    pose proof (first_file_ref_get_inos (dmabuf_list k)) as Hm.
    destruct (first_file_ref_get (dmabuf_list k)) as [r l']; cbn in *.
    intros H; inversion H; subst.
    eapply inode_inv_same_inos; [| |exact Hinv]; [exact Hm | reflexivity].
  - unfold dma_buf_iter_next; munfold; cbn.
    destruct (split_at_ino dmabuf (dmabuf_list k)) as [[[before d] after]|] eqn:Hs;
      [|discriminate].
    apply split_at_ino_eq in Hs as [Hl _].
    pose proof (first_file_ref_get_inos after) as Hm.
    destruct (first_file_ref_get after) as [r after']; cbn in *.
    intros H; inversion H; subst.
    eapply inode_inv_same_inos; [| |exact Hinv]; [|reflexivity].
    cbn; rewrite Hl, !map_app; cbn; rewrite Hm; reflexivity.
Qed.

(** X14.  Inode numbers identify buffers.  Whatever sequence of exports,
    file releases and list walks runs on the global list, the buffers on
    it have pairwise different inode numbers, none above the counter:
    dma_buf_getfile() gives every file a number of its own, and nothing
    else changes a number or puts a buffer on the list. *)
Theorem dma_buf_inode_numbers_unique
        (calls : list (registry_call P)) (k k' : kstate P Q) :
  inode_inv k ->
  run_registry_calls calls k = Done tt k' ->
  NoDup (map dmabuf_ino (dmabuf_list k')) /\
  Forall (fun d => dmabuf_ino d <= dmabuf_inode k') (dmabuf_list k').
Proof.
  revert k; induction calls as [|c calls IH]; intros k Hinv; cbn.
  - intros H; inversion H; subst; exact Hinv.
  - intros H; apply bind_inv in H as ([] & k1 & H1 & H2).
    apply (IH k1); [|exact H2].
    eapply inode_inv_run_registry_call; eassumption.
Qed.

(** ** Walking the global list *)

Lemma set_f_count_back (d : dma_buf P Q) :
  set_f_count (f_count (dmabuf_file d) + 1 - 1)
              (set_f_count (f_count (dmabuf_file d) + 1) d) = d.
Proof.
  destruct d as [? ? ? ? ? ? ? ? ? ? [c fl ino]]; unfold set_f_count; cbn.
  rewrite Z.add_simpl_r; reflexivity.
Qed.

Lemma first_file_ref_get_spec (l : list (dma_buf P Q)) :
  (first_file_ref_get l = (None, l) /\ live_buffers l = []) \/
  (exists dead e rest,
      l = dead ++ e :: rest /\
      first_file_ref_get l
      = (Some (dmabuf_ino e),
         dead ++ set_f_count (f_count (dmabuf_file e) + 1) e :: rest) /\
      live_buffers l = dmabuf_ino e :: live_buffers rest).
Proof.
  induction l as [|d l IH]; cbn; [left; auto|].
  unfold live_buffers; cbn.
  destruct (0 <? f_count (dmabuf_file d)) eqn:E.
  - right; exists [], d, l; cbn; auto.
  - destruct IH as [[Hn Hl]|(dead & e & rest & Hl & Hr & Hlive)].
    + left; rewrite Hn; auto.
    + right; exists (d :: dead), e, rest; rewrite Hr; cbn.
      subst l; repeat split; exact Hlive.
Qed.

Lemma iter_rest_spec (fuel : nat) :
  forall (before after : list (dma_buf P Q)) (d : dma_buf P Q) (k : kstate P Q),
    dmabuf_list k
    = before ++ set_f_count (f_count (dmabuf_file d) + 1) d :: after ->
    ~ In (dmabuf_ino d) (map dmabuf_ino before) ->
    NoDup (map dmabuf_ino (before ++ d :: after)) ->
    (length after < fuel)%nat ->
    exists k',
      iter_rest fuel (Some (dmabuf_ino d)) k
      = Done (dmabuf_ino d :: live_buffers after) k' /\
      dmabuf_list k' = before ++ d :: after /\
      dmabuf_inode k' = dmabuf_inode k /\
      module_refs k' = module_refs k /\
      kenv k' = kenv k.
Proof.
  induction fuel as [|fuel IH]; intros before after d k Hl Hfresh Hnd Hfuel;
    [lia|].
  cbn [iter_rest]; unfold dma_buf_iter_next.
  unfold bind at 1; unfold bind at 1, gets at 1; cbn beta iota.
  rewrite Hl, split_at_ino_found; [|reflexivity|exact Hfresh].
  cbn beta iota zeta.
  replace (f_count (dmabuf_file (set_f_count (f_count (dmabuf_file d) + 1) d)) - 1)
    with (f_count (dmabuf_file d) + 1 - 1) by reflexivity.
  rewrite set_f_count_back.
  destruct (first_file_ref_get_spec after)
    as [[Hn Hlive]|(dead & e & rest & Hafter & Hr & Hlive)].
  - rewrite Hn; munfold; cbn.
    destruct fuel; cbn; rewrite Hlive; eexists; split; reflexivity || (repeat split).
  - rewrite Hr; munfold; cbn beta iota.
    set (k1 := set_dmabuf_list
                 (before ++ d :: dead
                  ++ set_f_count (f_count (dmabuf_file e) + 1) e :: rest) k).
    assert (Heq : before ++ d :: after = (before ++ d :: dead) ++ e :: rest)
      by (subst after; rewrite <- app_assoc; reflexivity).
    destruct (IH (before ++ d :: dead) rest e k1) as (k' & Hrun & Hl' & Hi & Hm & He).
    + subst k1; cbn; rewrite <- app_assoc; reflexivity.
    + rewrite Heq, map_app in Hnd; cbn [map] in Hnd.
      apply NoDup_remove_2 in Hnd.
      intros Hin; apply Hnd, in_or_app; left; exact Hin.
    + rewrite <- Heq; exact Hnd.
    + subst after; rewrite length_app in Hfuel; cbn in Hfuel; lia.
    + rewrite Hrun; exists k'; rewrite Hlive; split; [reflexivity|].
      rewrite Hl', <- Heq; auto.
Qed.

(** X15.  A walk over the global list.  When the buffers on the list have
    distinct inode numbers, dma_buf_iter_begin() followed by
    dma_buf_iter_next() until it returns NULL visits exactly the buffers
    whose file count has not dropped to zero, each once and in list order,
    and skips the others; when the walk ends every reference it took has
    been dropped again, so the list is exactly as before. *)
Theorem dma_buf_iter_visits_live_buffers (fuel : nat) (k : kstate P Q) :
  NoDup (map dmabuf_ino (dmabuf_list k)) ->
  (length (dmabuf_list k) <= fuel)%nat ->
  exists k',
    iter_all fuel k = Done (live_buffers (dmabuf_list k)) k' /\
    dmabuf_list k' = dmabuf_list k /\
    dmabuf_inode k' = dmabuf_inode k /\
    module_refs k' = module_refs k /\
    kenv k' = kenv k.
Proof.
  intros Hnd Hfuel; unfold iter_all, dma_buf_iter_begin.
  unfold bind at 1; unfold bind at 1, gets at 1; cbn beta iota.
  destruct (first_file_ref_get_spec (dmabuf_list k))
    as [[Hn Hlive]|(dead & e & rest & Hl & Hr & Hlive)].
  - rewrite Hn, Hlive; munfold; cbn.
    destruct fuel; cbn; eexists; split; reflexivity || (repeat split).
  - rewrite Hr, Hlive; munfold; cbn beta iota.
    set (k1 := set_dmabuf_list
                 (dead ++ set_f_count (f_count (dmabuf_file e) + 1) e :: rest) k).
    destruct (iter_rest_spec fuel dead rest e k1) as (k' & Hrun & Hl' & Hi & Hm & He).
    + reflexivity.
    + rewrite Hl, map_app in Hnd; cbn in Hnd.
      apply NoDup_remove_2 in Hnd.
      intros Hin; apply Hnd, in_or_app; left; exact Hin.
    + rewrite <- Hl; exact Hnd.
    + rewrite Hl, length_app in Hfuel; cbn in Hfuel; lia.
    + exists k'; rewrite Hrun; split; [reflexivity|].
      rewrite Hl', Hl; auto.
Qed.

(** ** The end of a buffer *)

Lemma dma_buf_release_run (d : dma_buf P Q) (k : kstate P Q)
      (h : hook P unit) :
  vmapping_counter d = 0 ->
  cb_in_active d = 0 ->
  cb_out_active d = 0 ->
  release (ops d) = Some h ->
  exists k',
    dma_buf_release (Some d) k = Done (Some (snd (h (get_xstate d)))) k' /\
    dmabuf_list k' = dmabuf_list k /\
    dmabuf_inode k' = dmabuf_inode k /\
    module_refs k' = match owner d with
                     | Some id => remove_one id (module_refs k)
                     | None => module_refs k
                     end /\
    trace (kenv k') = trace (kenv k) ++ match attachments d with
                                        | [] => []
                                        | _ :: _ => [EvWarn]
                                        end.
Proof.
  intros Hc Hin Hout Hrel; unfold dma_buf_release, module_put.
  rewrite Hc, Hin, Hout, Hrel; munfold; cbn.
  destruct (attachments d), (owner d); cbn;
    eexists; (split; [reflexivity|]); cbn; rewrite ?app_nil_r; auto.
Qed.

(** X16.  A buffer comes and goes without a trace in the registry.  After
    a successful dma_buf_export(), dma_buf_file_release() on the file of the
    new buffer returns 0 and takes exactly that buffer off the global list,
    and dma_buf_release() then returns without a warning, having called the
    exporter's release callback once and given back the reference on the
    owner: list and module references are what they were before the
    export. *)
Theorem dma_buf_export_release_round_trip
        (k k1 : kstate P Q) (exp_info : dma_buf_export_info P)
        (d : dma_buf P Q) :
  inode_inv k ->
  dma_buf_export exp_info k = Done (Ptr d) k1 ->
  exists k2 k3 h,
    dma_buf_file_release dma_buf_fops (Some (dmabuf_ino d)) k1 = Done 0 k2 /\
    dmabuf_list k2 = dmabuf_list k /\
    release (ops d) = Some h /\
    dma_buf_release (Some d) k2
    = Done (Some (snd (h (get_xstate d)))) k3 /\
    dmabuf_list k3 = dmabuf_list k /\
    module_refs k3 = module_refs k /\
    trace (kenv k3) = trace (kenv k1).
Proof.
  intros [_ Hle] Hrun.
  pose proof (dma_buf_export_cases k k1 exp_info _ Hrun)
    as (_ & _ & Hl & _ & _ & _ & Hown & _ & Hf & Hi & Hrefs & _).
  pose proof (dma_buf_export_ops_valid k k1 exp_info d Hrun)
    as ((_ & _ & Hrel & _) & _ & Hatt & Hc & _ & Hin & Hout).
  destruct (release (ops d)) as [h|] eqn:Hh; [|discriminate].
  assert (Hdel : filter (fun x => negb (dmabuf_ino x =? dmabuf_ino d))
                        (dmabuf_list k1) = dmabuf_list k).
  { rewrite Hl; cbn; rewrite Z.eqb_refl; cbn.
    apply forallb_filter_id, forallb_forall; intros x Hx.
    rewrite Forall_forall in Hle; specialize (Hle x Hx).
    apply negb_true_iff, Z.eqb_neq.
    unfold dmabuf_ino in *; rewrite Hf; cbn; lia. }
  set (k2 := set_dmabuf_list
               (filter (fun x => negb (dmabuf_ino x =? dmabuf_ino d))
                       (dmabuf_list k1)) k1).
  destruct (dma_buf_release_run d k2 h Hc Hin Hout Hh)
    as (k3 & Hrun3 & Hl3 & _ & Hm3 & Ht3).
  exists k2, k3, h.
  split; [reflexivity|]; split; [exact Hdel|]; split; [reflexivity|].
  split; [exact Hrun3|]; split; [rewrite Hl3; exact Hdel|].
  rewrite Hatt, app_nil_r in Ht3; split; [|exact Ht3].
  rewrite Hm3, Hown; subst k2; cbn; rewrite Hrefs.
  destruct (exp_owner exp_info); [cbn; rewrite Z.eqb_refl|]; reflexivity.
Qed.

(** X17.  When dma_buf_release() stops at a BUG_ON.  The release of a
    buffer returns exactly when no kernel mapping is outstanding, neither
    poll direction is marked active and the exporter has a release
    callback; it then drops one reference on the owner and warns exactly
    when attachments are left.  A buffer whose capability table passed
    dma_buf_export(), that is unmapped, that satisfies the poll invariant
    and whose file count has dropped to zero with no reference unaccounted
    for meets these conditions. *)
Theorem dma_buf_release_conditions (d : dma_buf P Q) (k : kstate P Q) :
  ((exists r k', dma_buf_release (Some d) k = Done r k') <->
   vmapping_counter d = 0 /\ cb_in_active d = 0 /\ cb_out_active d = 0 /\
   release (ops d) <> None) /\
  (forall r k',
      dma_buf_release (Some d) k = Done r k' ->
      module_refs k' = match owner d with
                       | Some id => remove_one id (module_refs k)
                       | None => module_refs k
                       end /\
      trace (kenv k') = trace (kenv k) ++ match attachments d with
                                          | [] => []
                                          | _ :: _ => [EvWarn]
                                          end) /\
  (ops_valid (ops d) -> vmapping_counter d = 0 -> poll_inv d ->
   0 <= other_refs d -> f_count (dmabuf_file d) = 0 ->
   exists r k', dma_buf_release (Some d) k = Done r k').
Proof.
  assert (Hnec : forall r k',
             dma_buf_release (Some d) k = Done r k' ->
             vmapping_counter d = 0 /\ cb_in_active d = 0 /\
             cb_out_active d = 0 /\ release (ops d) <> None).
  { intros r k'; unfold dma_buf_release; munfold.
    destruct (vmapping_counter d =? 0) eqn:Hc; cbn; [|discriminate].
    destruct (cb_in_active d =? 0) eqn:Hin; cbn; [|discriminate].
    destruct (cb_out_active d =? 0) eqn:Hout; cbn; [|discriminate].
    destruct (release (ops d)); [|discriminate].
    intros _; apply Z.eqb_eq in Hc, Hin, Hout; repeat split; auto; discriminate. }
  assert (Hsuf : vmapping_counter d = 0 -> cb_in_active d = 0 ->
                 cb_out_active d = 0 -> release (ops d) <> None ->
                 exists r k', dma_buf_release (Some d) k = Done r k').
  { intros Hc Hin Hout Hrel.
    destruct (release (ops d)) as [h|] eqn:Hh; [|congruence].
    destruct (dma_buf_release_run d k h Hc Hin Hout Hh) as (k' & Hrun & _).
    eauto. }
  split; [|split].
  - split; [intros (r & k' & Hrun); eapply Hnec; exact Hrun|].
    intros (Hc & Hin & Hout & Hrel); auto.
  - intros r k' Hrun.
    destruct (Hnec r k' Hrun) as (Hc & Hin & Hout & Hrel).
    destruct (release (ops d)) as [h|] eqn:Hh; [|congruence].
    destruct (dma_buf_release_run d k h Hc Hin Hout Hh)
      as (k'' & Hrun' & _ & _ & Hm & Ht).
    rewrite Hrun in Hrun'; inversion Hrun'; subst; auto.
  - intros (_ & _ & Hrel & _) Hc Hinv Hnn Hz.
    pose proof (poll_inv_queued d Hinv) as Hq.
    unfold other_refs in Hnn; rewrite Hz, Hq in Hnn.
    unfold active_callbacks in Hnn.
    apply Hsuf; auto.
    + destruct (cb_in_active d =? 0) eqn:E, (cb_out_active d =? 0); lia.
    + destruct (cb_in_active d =? 0), (cb_out_active d =? 0) eqn:E; lia.
    + destruct (release (ops d)); [discriminate | discriminate].
Qed.

(** ** llseek *)

Lemma to_loff_t_small x : 0 <= x <= LONG_MAX -> to_loff_t x = x.
Proof.
  unfold to_loff_t, LONG_MAX; intros H.
  rewrite Z.mod_small; lia.
Qed.

(** X18.  dma_buf_llseek() only tells the size.  On a buffer whose size
    fits a loff_t the call changes nothing and returns: -EBADF for a file
    that is not a dma-buf file; the size of the buffer for SEEK_END with
    offset 0; 0 for SEEK_SET with offset 0; and -EINVAL for every other
    offset or origin.  So a result that is not negative is 0 or the
    size. *)
Theorem dma_buf_llseek_reports_size
        (f_op : file_operations) (offset whence : Z) (s : bstate P Q) :
  0 <= size (buf s) <= LONG_MAX ->
  exists r,
    dma_buf_llseek f_op offset whence s = Done r s /\
    (is_dma_buf_file f_op = false -> r = - EBADF) /\
    (is_dma_buf_file f_op = true ->
     (offset = 0 /\ whence = SEEK_END -> r = size (buf s)) /\
     (offset = 0 /\ whence = SEEK_SET -> r = 0) /\
     (offset <> 0 \/ (whence <> SEEK_END /\ whence <> SEEK_SET) ->
      r = - EINVAL)) /\
    (0 <= r -> r = 0 \/ r = size (buf s)).
Proof.
  intros Hsz; unfold dma_buf_llseek.
  destruct (is_dma_buf_file f_op); cbn [negb].
  2:{ exists (- EBADF); unfold ret; split; [reflexivity|].
      split; [auto|]; split; [discriminate|]; unfold EBADF; lia. }
  unfold bind, gets.
  destruct (whence =? SEEK_END) eqn:He; [|destruct (whence =? SEEK_SET) eqn:Hs].
  - apply Z.eqb_eq in He; destruct (offset =? 0) eqn:Ho; cbn [negb]; unfold ret.
    + apply Z.eqb_eq in Ho; subst offset.
      rewrite Z.add_0_r, to_loff_t_small, to_loff_t_small by
        (rewrite ?to_loff_t_small; lia).
      exists (size (buf s)); split; [reflexivity|].
      split; [discriminate|]; split; [|auto].
      intros _; split; [auto|]; split.
      * intros [_ Hw]; unfold SEEK_END, SEEK_SET in *; lia.
      * intros [H|[H _]]; congruence.
    + apply Z.eqb_neq in Ho.
      exists (- EINVAL); split; [reflexivity|].
      split; [discriminate|]; split; [|unfold EINVAL; lia].
      intros _; repeat split; auto; intros [H _]; congruence.
  - apply Z.eqb_eq in Hs; apply Z.eqb_neq in He.
    destruct (offset =? 0) eqn:Ho; cbn [negb]; unfold ret.
    + apply Z.eqb_eq in Ho; subst offset.
      exists 0; split; [reflexivity|].
      split; [discriminate|]; split; [|auto].
      intros _; split; [intros [_ Hw]; congruence|]; split; [auto|].
      intros [H|[_ H]]; congruence.
    + apply Z.eqb_neq in Ho.
      exists (- EINVAL); split; [reflexivity|].
      split; [discriminate|]; split; [|unfold EINVAL; lia].
      intros _; repeat split; auto; intros [H _]; congruence.
  - apply Z.eqb_neq in He, Hs; unfold ret.
    exists (- EINVAL); split; [reflexivity|].
    split; [discriminate|]; split; [|unfold EINVAL; lia].
    intros _; repeat split; auto; intros [_ H]; congruence.
Qed.

(** ** The ioctl interface *)

Lemma ldiff_valid_mask flags :
  0 <= flags -> Z.ldiff flags 7 = 0 -> flags < 8.
Proof.
  intros Hnn Hz.
  assert (Hf : flags = Z.land flags (Z.ones 3)).
  { rewrite <- (Z.lor_ldiff_and flags 7) at 1; rewrite Hz; reflexivity. }
  rewrite Z.land_ones in Hf by lia.
  pose proof (Z.mod_pos_bound flags (2 ^ 3) ltac:(lia)); lia.
Qed.

(** X19.  What dma_buf_ioctl() accepts.  DMA_BUF_IOCTL_SYNC takes exactly
    six values of the flags: 1, 2 and 3 begin CPU access for reading,
    writing and both (dma_buf_begin_cpu_access() with DMA_FROM_DEVICE,
    DMA_TO_DEVICE and DMA_BIDIRECTIONAL), 5, 6 and 7 end it
    (dma_buf_end_cpu_access()), and the ioctl returns what these return;
    any other value gives -EINVAL, and flags that cannot be read -EFAULT,
    with nothing called or changed.  A command that is not known, and the
    two sync_file commands in a kernel built without CONFIG_SYNC_FILE, give
    -ENOTTY with nothing changed. *)
Theorem dma_buf_ioctl_dispatch
        (sync_file : bool) (flags : Z) (u : ustate P Q) :
  0 <= flags ->
  dma_buf_ioctl sync_file (DMA_BUF_IOCTL_SYNC (Some flags)) u
  = match sync_request flags with
    | Some (direction, false) => lift (dma_buf_begin_cpu_access direction) u
    | Some (direction, true) => lift (dma_buf_end_cpu_access direction) u
    | None => Done (- EINVAL) u
    end /\
  dma_buf_ioctl sync_file (DMA_BUF_IOCTL_SYNC None) u = Done (- EFAULT) u /\
  (forall cmd, dma_buf_ioctl sync_file (IOCTL_OTHER cmd) u
               = Done (- ENOTTY) u) /\
  (sync_file = false ->
   (forall user_data writable,
       dma_buf_ioctl sync_file
         (DMA_BUF_IOCTL_EXPORT_SYNC_FILE user_data writable) u
       = Done (- ENOTTY) u) /\
   (forall user_data,
       dma_buf_ioctl sync_file (DMA_BUF_IOCTL_IMPORT_SYNC_FILE user_data) u
       = Done (- ENOTTY) u)).
Proof.
  intros Hnn; split; [|split; [reflexivity|split; [reflexivity|]]].
  - destruct (Z_lt_le_dec flags 8) as [Hlt|Hge].
    + assert (Hcases : flags = 0 \/ flags = 1 \/ flags = 2 \/ flags = 3 \/
                       flags = 4 \/ flags = 5 \/ flags = 6 \/ flags = 7) by lia.
      destruct Hcases as [->|[->|[->|[->|[->|[->|[->| ->]]]]]]]; reflexivity.
    + assert (Hreq : sync_request flags = None).
      { unfold sync_request.
        repeat match goal with
               | |- context [flags =? ?c] =>
                   destruct (Z.eqb_spec flags c); [lia|]
               end; reflexivity. }
      rewrite Hreq; unfold dma_buf_ioctl.
      destruct (Z.ldiff flags DMA_BUF_SYNC_VALID_FLAGS_MASK =? 0) eqn:E;
        [|reflexivity].
      apply Z.eqb_eq in E; apply ldiff_valid_mask in E; lia.
  - intros ->; split; reflexivity.
Qed.

Lemma remove_one_head fd l : remove_one fd (fd :: l) = l.
Proof. cbn; rewrite Z.eqb_refl; reflexivity. Qed.

(** X20.  dma_buf_export_sync_file() leaves nothing behind when it fails.
    In a process whose descriptors and files are as the allocator handed
    them out, the call always returns and never changes the buffer.  When
    it fails (flags that cannot be read or are not 1, 2 or 3, no free
    descriptor, no memory, a result that cannot be written back) no
    descriptor stays reserved or installed and no file keeps a reference.
    When it returns 0, one new descriptor has been installed and written
    to user memory; it refers to a new sync_file with one reference whose
    fence stands for the pending fences the flags select (with the write
    flag all of them, without it the write-usage ones), or is a completed
    stub fence when there are none. *)
Theorem dma_buf_export_sync_file_no_leak
        (user_data : option dma_buf_export_sync_file_arg) (writable : bool)
        (u : ustate P Q) :
  files_wf u ->
  exists r out u',
    dma_buf_export_sync_file user_data writable u = Done (r, out) u' /\
    buf (u_dma u') = buf (u_dma u) /\
    u_name u' = u_name u /\
    u_fd_reserved u' = u_fd_reserved u /\
    (r <> 0 ->
     out = None /\ u_fd_table u' = u_fd_table u /\
     forall id, u_file_refs u' id = u_file_refs u id) /\
    (r = 0 ->
     exists arg fd id,
       user_data = Some arg /\ writable = true /\
       Z.ldiff (export_flags arg) DMA_BUF_SYNC_RW = 0 /\
       Z.land (export_flags arg) DMA_BUF_SYNC_RW <> 0 /\
       out = Some fd /\
       fd_lookup fd (u_fd_table u) = None /\
       u_fd_table u' = (fd, Some id) :: u_fd_table u /\
       u_file_refs u' id = 1 /\
       (forall i, i <> id -> u_file_refs u' i = u_file_refs u i) /\
       sync_file_get_fence u' fd
       = Some (exported_fence
                 (dma_resv_usage_rw
                    (negb (Z.land (export_flags arg) DMA_BUF_SYNC_WRITE =? 0)))
                 (resv (buf (u_dma u))))).
Proof.
  intros [Hpos Hwf].
  unfold dma_buf_export_sync_file.
  destruct user_data as [arg|];
    [|eexists _, _, _; split; [reflexivity|]; repeat split; auto; discriminate].
  destruct (Z.ldiff (export_flags arg) DMA_BUF_SYNC_RW =? 0) eqn:Hld; cbn [negb];
    [|eexists _, _, _; split; [reflexivity|]; repeat split; auto; discriminate].
  destruct (Z.land (export_flags arg) DMA_BUF_SYNC_RW =? 0) eqn:Hla;
    [eexists _, _, _; split; [reflexivity|]; repeat split; auto; discriminate|].
  apply Z.eqb_eq in Hld; apply Z.eqb_neq in Hla.
  unfold get_unused_fd_flags, dma_resv_get_singleton, sync_file_create,
         put_unused_fd, fd_install, fput_file, exported_fence.
  set (usage := dma_resv_usage_rw
                  (negb (Z.land (export_flags arg) DMA_BUF_SYNC_WRITE =? 0))).
  munfold; unfold env_pop_alloc, env_bump; cbn.
  assert (Hfd := Hwf (next_addr (benv (u_dma u))) ltac:(lia)).
  assert (Hid := Hwf (next_addr (benv (u_dma u)) + 1) ltac:(lia)).
  destruct Hfd as (_ & _ & Hfd & _); destruct Hid as (Hid & _).
  repeat match goal with
         | |- context [match ?x with _ => _ end] =>
             lazymatch x with
             | context [match _ with _ => _ end] => fail
             | _ => destruct x eqn:?
             end; cbn; rewrite ?Z.eqb_refl; cbn
         end.
  all: try (exfalso; lia).
  all: eexists _, _, _; (split; [reflexivity|]); cbn.
  all: rewrite ?Z.eqb_refl; cbn.
  all: split; [reflexivity|]; split; [reflexivity|]; split; [reflexivity|].
  all: split; intros Hr; try (exfalso; (congruence || lia)).
  all: try (split; [reflexivity|]; split; [reflexivity|]; intros id;
            repeat match goal with
                   | |- context [id =? ?c] => destruct (Z.eqb_spec id c); subst
                   end; cbn; congruence || lia).
  all: exists arg, (next_addr (benv (u_dma u))),
         (next_addr (benv (u_dma u)) + 1).
  all: subst usage;
       repeat match goal with
              | H : map e_fence _ = _ |- _ => rewrite H; clear H
              end.
  all: unfold sync_file_get_fence; cbn; rewrite ?Z.eqb_refl; cbn.
  all: repeat split; auto.
  all: try (destruct writable; [reflexivity | discriminate]).
  all: intros i Hi; destruct (Z.eqb_spec i (next_addr (benv (u_dma u)) + 1));
       congruence.
Qed.

(** ** File descriptors *)

Lemma get_put_file (b : dma_buf P Q) :
  set_f_count (f_count (dmabuf_file (set_f_count (f_count (dmabuf_file b) + 1) b)) - 1)
              (set_f_count (f_count (dmabuf_file b) + 1) b) = b.
Proof. apply set_f_count_back. Qed.

(** X21.  dma_buf_get() takes a reference only on a dma-buf.  For a
    descriptor that is not open it returns ERR_PTR(-EBADF) and changes
    nothing.  For a descriptor of another kind of file it returns
    ERR_PTR(-EINVAL), and the reference fget() took on that file has been
    dropped again: no reference count differs from before.  For a
    descriptor of the buffer it returns the buffer with one more reference
    on its file.  The descriptor table is never changed. *)
Theorem dma_buf_get_takes_reference (fd : Z) (u : ustate P Q) :
  (fd_lookup fd (u_fd_table u) = None ->
   dma_buf_get fd u = Done (ERR_PTR (- EBADF)) u) /\
  (forall id, fd_lookup fd (u_fd_table u) = Some (Some id) ->
     exists u',
       dma_buf_get fd u = Done (ERR_PTR (- EINVAL)) u' /\
       u_dma u' = u_dma u /\
       u_fd_table u' = u_fd_table u /\
       u_fd_reserved u' = u_fd_reserved u /\
       forall i, u_file_refs u' i = u_file_refs u i) /\
  (fd_lookup fd (u_fd_table u) = Some None ->
   exists u',
     dma_buf_get fd u = Done (Ptr tt) u' /\
     f_count (dmabuf_file (buf (u_dma u')))
     = f_count (dmabuf_file (buf (u_dma u))) + 1 /\
     same_identity (buf (u_dma u)) (buf (u_dma u')) /\
     u_fd_table u' = u_fd_table u /\
     u_fd_reserved u' = u_fd_reserved u /\
     forall i, u_file_refs u' i = u_file_refs u i).
Proof.
  unfold dma_buf_get, fget, fput_file, lift, get_file; munfold.
  split; [|split].
  - intros ->; reflexivity.
  - intros id ->; cbn.
    eexists; split; [reflexivity|]; cbn; repeat split.
    intros i; rewrite ?Z.eqb_refl.
    destruct (Z.eqb_spec i id); [subst; lia | reflexivity].
  - intros ->; cbn.
    eexists; split; [reflexivity|]; cbn; repeat split.
Qed.

(** X22.  A descriptor made by dma_buf_fd() gives the buffer back.  In a
    process whose descriptors are as the allocator handed them out,
    dma_buf_fd() always returns and never changes the reference count of
    the file (the descriptor takes over the reference of the caller).  A
    negative result leaves the descriptor table as it was.  Otherwise the
    result is a descriptor that was not open before and now refers to the
    file of the buffer: dma_buf_get() on it returns the buffer with one
    more reference, and dma_buf_put() drops that reference again. *)
Theorem dma_buf_fd_get_put_round_trip (flags : Z) (u : ustate P Q) :
  files_wf u ->
  exists fd u1,
    dma_buf_fd flags u = Done fd u1 /\
    buf (u_dma u1) = buf (u_dma u) /\
    u_fd_reserved u1 = u_fd_reserved u /\
    (fd < 0 -> u_fd_table u1 = u_fd_table u) /\
    (0 <= fd ->
     fd_lookup fd (u_fd_table u) = None /\
     u_fd_table u1 = (fd, None) :: u_fd_table u /\
     exists u2,
       dma_buf_get fd u1 = Done (Ptr tt) u2 /\
       f_count (dmabuf_file (buf (u_dma u2)))
       = f_count (dmabuf_file (buf (u_dma u))) + 1 /\
       u_fd_table u2 = u_fd_table u1 /\
       exists u3,
         dma_buf_put u2 = Done tt u3 /\
         buf (u_dma u3) = buf (u_dma u) /\
         u_fd_table u3 = u_fd_table u1).
Proof.
  intros [Hpos Hwf].
  assert (Hfd := Hwf (next_addr (benv (u_dma u))) ltac:(lia)).
  destruct Hfd as (_ & _ & Hfd & _).
  unfold dma_buf_fd, get_unused_fd_flags, fd_install.
  munfold; unfold env_pop_alloc, env_bump; cbn.
  assert (Hget : forall u1 : ustate P Q,
            buf (u_dma u1) = buf (u_dma u) ->
            u_fd_table u1
            = (next_addr (benv (u_dma u)), None) :: u_fd_table u ->
            exists u2,
              dma_buf_get (next_addr (benv (u_dma u))) u1 = Done (Ptr tt) u2 /\
              f_count (dmabuf_file (buf (u_dma u2)))
              = f_count (dmabuf_file (buf (u_dma u))) + 1 /\
              u_fd_table u2 = u_fd_table u1 /\
              exists u3,
                dma_buf_put u2 = Done tt u3 /\
                buf (u_dma u3) = buf (u_dma u) /\
                u_fd_table u3 = u_fd_table u1).
  { intros u1 Hb Ht.
    unfold dma_buf_get, fget, lift, get_file; munfold.
    rewrite Ht; cbn; rewrite Z.eqb_refl; cbn.
    eexists; split; [reflexivity|]; cbn; rewrite Hb.
    split; [reflexivity|]; split; [auto|].
    unfold dma_buf_put, lift, fput; munfold; cbn.
    eexists; split; [reflexivity|]; cbn; split; [|auto].
    apply get_put_file. }
  destruct (alloc_results (benv (u_dma u))) as [|a rest]; cbn.
  - destruct (next_addr (benv (u_dma u)) <? 0) eqn:E; [lia|]; cbn.
    rewrite Z.eqb_refl.
    eexists _, _; split; [reflexivity|]; cbn.
    repeat split; auto; try lia.
  - destruct (a <? 0) eqn:Ea; cbn.
    + rewrite Ea.
      eexists _, _; split; [reflexivity|]; cbn.
      repeat split; auto; lia.
    + destruct (next_addr (benv (u_dma u)) <? 0) eqn:E; [lia|]; cbn.
      rewrite Z.eqb_refl.
      eexists _, _; split; [reflexivity|]; cbn.
      repeat split; auto; try lia.
Qed.

(** ** CPU access and imported fences: the paths that do not wait *)

(** X23.  The error path of dma_buf_begin_cpu_access(), and
    dma_buf_end_cpu_access().  When the exporter's begin_cpu_access
    callback fails, its error is returned at once: no fence is waited for
    and nothing but the callback has run.  dma_buf_end_cpu_access() always
    returns, with the value of the exporter's end_cpu_access callback or 0
    when there is none, and never waits for a fence or sleeps. *)
Theorem dma_buf_cpu_access_without_wait
        (direction : dma_data_direction) (s : bstate P Q) :
  (forall h r x,
      begin_cpu_access (ops (buf s)) = Some h ->
      h direction (get_xstate (buf s)) = (r, x) ->
      r <> 0 ->
      dma_buf_begin_cpu_access direction s
      = Done r {| buf := set_xstate x (buf s);
                  benv := env_log (EvBeginCpuAccess direction) (benv s) |}) /\
  exists r s',
    dma_buf_end_cpu_access direction s = Done r s' /\
    new_events s s' (match end_cpu_access (ops (buf s)) with
                     | Some _ => [EvEndCpuAccess direction]
                     | None => []
                     end) /\
    match end_cpu_access (ops (buf s)) with
    | Some h =>
        r = fst (h direction (get_xstate (buf s))) /\
        buf s' = set_xstate (snd (h direction (get_xstate (buf s)))) (buf s)
    | None => r = 0 /\ buf s' = buf s
    end.
Proof.
  split.
  - intros h r x Hh Hhook Hr.
    unfold dma_buf_begin_cpu_access.
    unfold bind at 1, gets at 1; cbn beta iota; rewrite Hh.
    unfold bind; rewrite call_hook_eq, Hhook; cbn [fst snd].
    apply Z.eqb_neq in Hr; rewrite Hr; reflexivity.
  - unfold dma_buf_end_cpu_access, new_events.
    unfold bind, gets.
    destruct (end_cpu_access (ops (buf s))) as [h|].
    + rewrite call_hook_eq; eexists _, _; split; [reflexivity|]; cbn; auto.
    + exists 0, s; unfold ret; rewrite app_nil_r; auto.
Qed.

Lemma ldiff_rw_mask flags :
  0 <= flags -> Z.ldiff flags 3 = 0 -> flags < 4.
Proof.
  intros Hnn Hz.
  assert (Hf : flags = Z.land flags (Z.ones 2)).
  { rewrite <- (Z.lor_ldiff_and flags 3) at 1; rewrite Hz; reflexivity. }
  rewrite Z.land_ones in Hf by lia.
  pose proof (Z.mod_pos_bound flags (2 ^ 2) ltac:(lia)); lia.
Qed.

(** X24.  What dma_buf_import_sync_file() rejects.  An argument that
    cannot be read gives -EFAULT; flags other than 1, 2 or 3 give -EINVAL;
    so does a descriptor that is not a sync_file.  In all these cases
    nothing is reserved or added: the buffer and the environment are
    exactly as before. *)
Theorem dma_buf_import_sync_file_rejects
        (sync_file_get_fence : Z -> option fence_handle) (s : bstate P Q) :
  dma_buf_import_sync_file sync_file_get_fence None s = Done (- EFAULT) s /\
  forall arg,
    0 <= arg_flags arg ->
    (arg_flags arg <> 1 /\ arg_flags arg <> 2 /\ arg_flags arg <> 3) \/
    sync_file_get_fence (arg_fd arg) = None ->
    dma_buf_import_sync_file sync_file_get_fence (Some arg) s
    = Done (- EINVAL) s.
Proof.
  split; [reflexivity|].
  intros arg Hnn Hbad; unfold dma_buf_import_sync_file.
  destruct (Z.ldiff (arg_flags arg) DMA_BUF_SYNC_RW =? 0) eqn:Hld;
    [|reflexivity].
  cbn [negb].
  destruct (Z.land (arg_flags arg) DMA_BUF_SYNC_RW =? 0) eqn:Hla;
    [reflexivity|].
  destruct Hbad as [(H1 & H2 & H3)|Hnone]; [|rewrite Hnone; reflexivity].
  exfalso.
  apply Z.eqb_eq in Hld; apply Z.eqb_neq in Hla.
  apply ldiff_rw_mask in Hld; [|exact Hnn].
  assert (H0 : arg_flags arg = 0) by lia.
  rewrite H0 in Hla; apply Hla; reflexivity.
Qed.

(** ** Access, then poll *)

Lemma all_signaled_not_pending u (l : list resv_entry) :
  (forall e, In e l -> signaled (e_fence e) = true) ->
  existsb (entry_pending u) l = false.
Proof.
  intros H; induction l as [|e l IH]; cbn; [reflexivity|].
  unfold entry_pending at 1; rewrite (H e (or_introl eq_refl)); cbn.
  rewrite andb_false_r; apply IH; intros x Hx; apply H; right; exact Hx.
Qed.

Lemma all_signaled_not_armed d (l : list resv_entry) :
  no_cb_when_signaled l ->
  (forall e, In e l -> signaled (e_fence e) = true) ->
  armed d l = 0%nat.
Proof.
  intros Hn H; induction l as [|e l IH]; cbn; [reflexivity|].
  rewrite (Hn e (or_introl eq_refl) (H e (or_introl eq_refl))); cbn.
  apply IH.
  - intros x Hx; apply Hn; right; exact Hx.
  - intros x Hx; apply H; right; exact Hx.
Qed.

Lemma write_wait_leaves_ready (s0 s1 : bstate P Q) r :
  poll_inv (buf s0) ->
  dma_resv_wait_timeout DMA_RESV_USAGE_READ true MAX_SCHEDULE_TIMEOUT s0
  = Done r s1 ->
  0 <= r ->
  (forall e, In e (fences (resv (buf s1))) -> signaled (e_fence e) = true) /\
  cb_in_active (buf s1) = 0 /\ cb_out_active (buf s1) = 0.
Proof.
  intros Hinv Hrun Hr.
  destruct (dma_resv_wait_poll_inv DMA_RESV_USAGE_READ s0 Hinv)
    as (r' & s' & Hrun' & Hinv').
  rewrite Hrun in Hrun'; inversion Hrun'; subst r' s'; clear Hrun'.
  destruct (dma_resv_wait_unbounded_spec DMA_RESV_USAGE_READ s0)
    as (r' & s' & evs & Hrun' & _ & _ & _ & _ & _ & _ & _ & Hpos & _).
  rewrite Hrun in Hrun'; inversion Hrun'; subst r' s'; clear Hrun'.
  destruct (Hpos Hr) as [_ Hcov].
  assert (Hall : forall e, In e (fences (resv (buf s1))) ->
                           signaled (e_fence e) = true).
  { intros e Hin; apply Hcov; [exact Hin|].
    destruct (e_usage e); reflexivity. }
  split; [exact Hall|].
  destruct Hinv' as [Hn Hi].
  pose proof (all_signaled_not_armed CB_IN _ Hn Hall) as Hain.
  pose proof (all_signaled_not_armed CB_OUT _ Hn Hall) as Haout.
  destruct (Hi CB_IN) as [[Hz _]|[_ Ha]]; [|rewrite Hain in Ha; discriminate].
  destruct (Hi CB_OUT) as [[Hz' _]|[_ Ha]]; [|rewrite Haout in Ha; discriminate].
  auto.
Qed.

(** X25.  After write access, poll reports the buffer ready.  When
    dma_buf_begin_cpu_access() for writing (DMA_TO_DEVICE or
    DMA_BIDIRECTIONAL) has returned 0 on a buffer that satisfied the poll
    invariant when the wait began, every fence of the buffer has completed
    and no poll callback is left queued, and a dma_buf_poll() that follows
    returns all of EPOLLIN and EPOLLOUT that it is asked for. *)
Theorem dma_buf_write_access_then_poll_ready
        (direction : dma_data_direction) (s s1 : bstate P Q) (requested : Z) :
  direction = DMA_TO_DEVICE \/ direction = DMA_BIDIRECTIONAL ->
  poll_inv (after_begin_hook direction (buf s)) ->
  dma_buf_begin_cpu_access direction s = Done 0 s1 ->
  (forall e, In e (fences (resv (buf s1))) -> signaled (e_fence e) = true) /\
  cb_in_active (buf s1) = 0 /\ cb_out_active (buf s1) = 0 /\
  exists s2,
    dma_buf_poll requested s1
    = Done (Z.land requested (Z.lor EPOLLIN EPOLLOUT)) s2.
Proof.
  intros Hdir Hinv Hrun.
  assert (Hready : (forall e, In e (fences (resv (buf s1))) ->
                              signaled (e_fence e) = true) /\
                   cb_in_active (buf s1) = 0 /\ cb_out_active (buf s1) = 0).
  { revert Hrun Hinv; unfold dma_buf_begin_cpu_access, after_begin_hook.
    unfold bind at 1, gets at 1; cbn beta iota.
    assert (Hw : forall s0 : bstate P Q,
               poll_inv (buf s0) ->
               __dma_buf_begin_cpu_access direction s0 = Done 0 s1 ->
               (forall e, In e (fences (resv (buf s1))) ->
                          signaled (e_fence e) = true) /\
               cb_in_active (buf s1) = 0 /\ cb_out_active (buf s1) = 0).
    { intros s0 Hinv0; unfold __dma_buf_begin_cpu_access.
      replace (direction_eqb direction DMA_BIDIRECTIONAL
               || direction_eqb direction DMA_TO_DEVICE) with true
        by (destruct Hdir as [-> | ->]; reflexivity).
      cbn [dma_resv_usage_rw].
      intros H; apply bind_inv in H as (r & s' & Hwait & H).
      destruct (r <? 0) eqn:Hneg; inversion H; subst.
      - apply Z.ltb_lt in Hneg; lia.
      - apply Z.ltb_ge in Hneg.
        eapply write_wait_leaves_ready; eassumption. }
    destruct (begin_cpu_access (ops (buf s))) as [h|].
    - unfold bind; rewrite call_hook_eq.
      destruct (fst (h direction (get_xstate (buf s))) =? 0) eqn:Hr0.
      + intros Hrun Hinv; eapply Hw; [|exact Hrun]; exact Hinv.
      + intros H; inversion H as [[Hr Hs]]; rewrite Hr in Hr0; discriminate.
    - unfold bind, ret; cbn.
      intros Hrun Hinv; eapply Hw; [|exact Hrun]; exact Hinv. }
  destruct Hready as (Hall & Hin & Hout).
  split; [exact Hall|]; split; [exact Hin|]; split; [exact Hout|].
  unfold dma_buf_poll.
  unfold bind at 1, emit, modify; cbn beta iota.
  set (s0 := set_env (env_log EvPollWait (get_env s1)) s1).
  assert (Hb0 : buf s0 = buf s1) by reflexivity.
  destruct (Z.land requested (Z.lor EPOLLIN EPOLLOUT) =? 0) eqn:Hz.
  { apply Z.eqb_eq in Hz; rewrite Hz; exists s0; reflexivity. }
  destruct (dma_buf_poll_dir_result CB_OUT true
              (Z.land requested (Z.lor EPOLLIN EPOLLOUT)) s0)
    as (t1 & Hr1 & _ & Hact1 & Hpend1 & _).
  rewrite Hb0 in Hr1; cbn [cb_active] in Hr1.
  rewrite Hout, (all_signaled_not_pending _ _ Hall) in Hr1.
  change ((0 =? 0) && negb false) with true in Hr1; cbn iota in Hr1.
  destruct (dma_buf_poll_dir_result CB_IN false
              (Z.land requested (Z.lor EPOLLIN EPOLLOUT)) t1)
    as (t2 & Hr2 & _).
  rewrite (Hact1 CB_IN ltac:(discriminate)), Hpend1, Hb0 in Hr2.
  cbn [cb_active] in Hr2.
  rewrite Hin, (all_signaled_not_pending _ _ Hall) in Hr2.
  change ((0 =? 0) && negb false) with true in Hr2; cbn iota in Hr2.
  exists t2; unfold bind; rewrite Hr1, Hr2; reflexivity.
Qed.

(** ** The key of a wake-up *)

Lemma wake_ups_keyed_app a b :
  wake_ups_keyed a -> wake_ups_keyed b -> wake_ups_keyed (a ++ b).
Proof.
  intros Ha Hb key Hin; apply in_app_or in Hin as [Hin|Hin]; auto.
Qed.

Lemma wake_ups_keyed_nil : wake_ups_keyed [].
Proof. intros key []. Qed.

Lemma poll_flag_key dcb : poll_flag dcb = EPOLLIN \/ poll_flag dcb = EPOLLOUT.
Proof. destruct dcb; auto. Qed.

Lemma run_callbacks_keys cbs :
  forall s : bstate P Q,
    active_is_flag (buf s) ->
    (forall d, (count_occ poll_cb_eq_dec cbs d <= 1)%nat) ->
    (forall d, (1 <= count_occ poll_cb_eq_dec cbs d)%nat ->
               cb_active d (buf s) = poll_flag d) ->
    exists s' evs,
      run_callbacks cbs s = Done tt s' /\
      new_events s s' evs /\ wake_ups_keyed evs /\
      active_is_flag (buf s').
Proof.
  induction cbs as [|c cbs IH]; intros s Hflag Hone Hact.
  - exists s, []; unfold new_events; rewrite app_nil_r.
    repeat split; auto using wake_ups_keyed_nil.
  - cbn [run_callbacks]; unfold dma_buf_poll_cb, fput; munfold; cbn.
    assert (Hc : cb_active c (buf s) = poll_flag c).
    { apply Hact; cbn; destruct (poll_cb_eq_dec c c); [lia|congruence]. }
    assert (Hrest0 : count_occ poll_cb_eq_dec cbs c = 0%nat).
    { specialize (Hone c); cbn in Hone.
      destruct (poll_cb_eq_dec c c); [lia|congruence]. }
    match goal with |- context [run_callbacks cbs ?s0] =>
      destruct (IH s0) as (s' & evs & Hr & He & Hk & Hf) end.
    + intros d; pose proof (Hflag CB_IN); pose proof (Hflag CB_OUT).
      destruct d, c; cbn in *; auto.
    + intros d; specialize (Hone d); cbn in Hone.
      destruct (poll_cb_eq_dec c d); lia.
    + intros d Hd; cbn.
      assert (Hne : d <> c) by (intros ->; lia).
      rewrite <- (Hact d).
      * destruct d, c; try reflexivity; congruence.
      * cbn; destruct (poll_cb_eq_dec c d); lia.
    + exists s', (EvWakeUp (cb_active c (buf s)) :: evs).
      split; [exact Hr|]; split; [|split; [|exact Hf]].
      * unfold new_events in *; cbn in He; rewrite He, <- app_assoc; reflexivity.
      * intros key [Hin|Hin]; [|apply Hk; exact Hin].
        inversion Hin; subst; rewrite Hc; apply poll_flag_key.
Qed.

Lemma signal_and_run_keys (s : bstate P Q) l' cbs :
  poll_inv (buf s) -> active_is_flag (buf s) ->
  (forall d, armed d (fences (resv (buf s)))
             = (armed d l' + count_occ poll_cb_eq_dec cbs d)%nat) ->
  exists s' evs,
    (modify_buf (set_resv (set_fences l' (resv (buf s)))) ;;
     run_callbacks cbs) s = Done tt s' /\
    new_events s s' evs /\ wake_ups_keyed evs /\
    active_is_flag (buf s').
Proof.
  intros Hinv Hflag Harm; munfold; cbn beta iota.
  match goal with |- context [run_callbacks cbs ?s0] =>
    destruct (run_callbacks_keys cbs s0) as (s' & evs & Hr & He & Hk & Hf) end.
  - intros d; destruct (Hflag d); destruct d; cbn in *; auto.
  - intros d; pose proof (poll_inv_armed_le (buf s) d Hinv).
    specialize (Harm d); lia.
  - intros d Hd.
    destruct Hinv as [_ Hi]; specialize (Harm d).
    destruct (Hi d) as [[_ Ha]|[Hnz _]]; [lia|].
    destruct (Hflag d) as [Hz|Hfl]; [contradiction|].
    destruct d; exact Hfl.
  - exists s', evs; repeat split; auto.
Qed.

Lemma fences_complete_keys u (s : bstate P Q) :
  poll_inv (buf s) -> active_is_flag (buf s) ->
  exists s' evs,
    fences_complete u s = Done tt s' /\
    new_events s s' evs /\ wake_ups_keyed evs /\
    active_is_flag (buf s').
Proof.
  intros Hinv Hflag; unfold fences_complete.
  unfold bind at 1, gets at 1; cbn beta iota.
  pose proof (fun d => proj1 (signal_covered_armed u (fences (resv (buf s))) d
                                (proj1 Hinv))) as H.
  destruct (signal_covered u (fences (resv (buf s)))) as [l cbs] eqn:E.
  apply signal_and_run_keys; auto.
Qed.

Lemma dma_buf_poll_dir_keys dcb write events (s s' : bstate P Q) ev :
  active_is_flag (buf s) ->
  dma_buf_poll_dir dcb write events s = Done ev s' ->
  exists evs,
    new_events s s' evs /\ wake_ups_keyed evs /\ active_is_flag (buf s').
Proof.
  intros Hflag; unfold dma_buf_poll_dir.
  destruct (Z.land events (poll_flag dcb) =? 0).
  { intros H; inversion H; subst; exists []; unfold new_events.
    rewrite app_nil_r; auto using wake_ups_keyed_nil. }
  unfold bind at 1, gets at 1; cbn beta iota.
  destruct (cb_active dcb (buf s) =? 0) eqn:Hact; cbn [negb].
  - unfold bind at 1; unfold modify_buf at 1, modify at 1; cbn beta iota.
    unfold bind at 1, ret at 1; cbn beta iota.
    destruct (Z.land events (poll_flag dcb) =? 0).
    { intros H; inversion H; subst; exists []; unfold new_events; cbn.
      rewrite app_nil_r; split; [reflexivity|].
      split; [apply wake_ups_keyed_nil|].
      intros d; pose proof (Hflag CB_IN); pose proof (Hflag CB_OUT).
      destruct d, dcb; cbn in *; auto. }
    unfold get_file, dma_buf_poll_add_cb; munfold; cbn.
    destruct (poll_add_cb_fences (dma_resv_usage_rw write) dcb
                (fences (resv (buf s)))) as [queued l]; cbn.
    destruct queued; cbn.
    + intros H; inversion H; subst; exists []; unfold new_events; cbn.
      rewrite app_nil_r; split; [reflexivity|].
      split; [apply wake_ups_keyed_nil|].
      intros d; pose proof (Hflag CB_IN); pose proof (Hflag CB_OUT).
      destruct d, dcb; cbn in *; auto.
    + unfold dma_buf_poll_cb, fput; munfold; cbn.
      intros H; inversion H; subst.
      exists [EvWakeUp (poll_flag dcb)]; unfold new_events; cbn.
      split; [destruct dcb; reflexivity|]; split.
      * intros key [Hin|[]]; inversion Hin; apply poll_flag_key.
      * intros d; pose proof (Hflag CB_IN); pose proof (Hflag CB_OUT).
        destruct d, dcb; cbn in *; auto.
  - unfold bind at 1, ret at 1; cbn beta iota.
    rewrite Z.land_ldiff, Z.eqb_refl.
    intros H; inversion H; subst; exists []; unfold new_events.
    rewrite app_nil_r; auto using wake_ups_keyed_nil.
Qed.

Lemma dma_resv_wait_keys u (s : bstate P Q) :
  poll_inv (buf s) -> active_is_flag (buf s) ->
  exists r s' evs,
    dma_resv_wait_timeout u true MAX_SCHEDULE_TIMEOUT s = Done r s' /\
    new_events s s' evs /\ wake_ups_keyed evs /\
    active_is_flag (buf s').
Proof.
  intros Hinv Hflag; unfold dma_resv_wait_timeout; munfold; simpl.
  destruct (existsb (entry_pending u) (fences (resv (buf s)))).
  - unfold env_pop_wakeup; simpl.
    assert (Hc : forall (s1 : bstate P Q),
              buf s1 = buf s ->
              trace (benv s1)
              = trace (benv s)
                ++ [EvResvWait u true MAX_SCHEDULE_TIMEOUT; EvSleep] ->
              exists r s' evs,
                bind (fences_complete u) (fun _ => ret MAX_SCHEDULE_TIMEOUT) s1
                = Done r s' /\
                new_events s s' evs /\ wake_ups_keyed evs /\
                active_is_flag (buf s')).
    { intros s1 Hb Ht.
      destruct (fences_complete_keys u s1) as (t & evs & Hr & He & Hk & Hf);
        [rewrite Hb; exact Hinv | rewrite Hb; exact Hflag|].
      exists MAX_SCHEDULE_TIMEOUT, t,
        ([EvResvWait u true MAX_SCHEDULE_TIMEOUT; EvSleep] ++ evs).
      unfold bind; rewrite Hr; split; [reflexivity|].
      split; [|split; [|exact Hf]].
      - unfold new_events in *; rewrite He, Ht, <- app_assoc; reflexivity.
      - apply wake_ups_keyed_app; [|exact Hk].
        intros key [Hin|[Hin|[]]]; discriminate. }
    destruct (wakeups (benv s)) as [|[] rest]; simpl;
      try (apply Hc; simpl; [reflexivity | rewrite <- app_assoc; reflexivity]).
    eexists _, _, [EvResvWait u true MAX_SCHEDULE_TIMEOUT; EvSleep].
    split; [reflexivity|]; unfold new_events; cbn; rewrite <- ?app_assoc.
    split; [reflexivity|]; split; [|exact Hflag].
    intros key [Hin|[Hin|[]]]; discriminate.
  - eexists _, _, [EvResvWait u true MAX_SCHEDULE_TIMEOUT].
    split; [reflexivity|]; unfold new_events; cbn.
    split; [reflexivity|]; split; [|exact Hflag].
    intros key [Hin|[]]; discriminate.
Qed.

Lemma run_poll_step_keys st (s : bstate P Q) :
  poll_inv (buf s) -> active_is_flag (buf s) ->
  exists s' evs,
    run_poll_step st s = Done tt s' /\
    new_events s s' evs /\ wake_ups_keyed evs /\
    poll_inv (buf s') /\ active_is_flag (buf s').
Proof.
  intros Hinv Hflag.
  destruct (run_poll_step_inv st s Hinv) as (s' & Hrun & Hinv').
  exists s'.
  assert (Hrest : exists evs,
             new_events s s' evs /\ wake_ups_keyed evs /\
             active_is_flag (buf s')).
  { revert Hrun; destruct st as [requested|i|u|id done u]; unfold run_poll_step.
    - unfold dma_buf_poll.
      intros H; apply bind_inv in H as (ev & s3 & H & Hret).
      inversion Hret; subst; clear Hret.
      apply bind_inv in H as ([] & s0 & H0 & H).
      unfold emit, modify in H0; inversion H0; subst; clear H0.
      destruct (Z.land requested (Z.lor EPOLLIN EPOLLOUT) =? 0).
      { inversion H; subst; exists [EvPollWait]; unfold new_events; cbn.
        split; [reflexivity|]; split; [|exact Hflag].
        intros key [Hin|[]]; discriminate. }
      apply bind_inv in H as (ev1 & s1 & H1 & H).
      apply bind_inv in H as (ev2 & s2 & H2 & H).
      inversion H; subst; clear H.
      apply dma_buf_poll_dir_keys in H1 as (e1 & He1 & Hk1 & Hf1);
        [|exact Hflag].
      apply dma_buf_poll_dir_keys in H2 as (e2 & He2 & Hk2 & Hf2);
        [|exact Hf1].
      exists (EvPollWait :: e1 ++ e2); split; [|split; [|exact Hf2]].
      + unfold new_events in *; cbn in He1.
        rewrite He2, He1, <- !app_assoc; reflexivity.
      + intros key [Hin|Hin]; [discriminate|].
        apply (wake_ups_keyed_app e1 e2 Hk1 Hk2); exact Hin.
    - unfold dma_fence_signal_nth.
      unfold bind at 1, gets at 1; cbn beta iota.
      pose proof (fun d => proj1 (signal_nth_armed i (fences (resv (buf s))) d
                                    (proj1 Hinv))) as H.
      destruct (signal_nth i (fences (resv (buf s)))) as [l cbs] eqn:E.
      destruct (signal_and_run_keys s l cbs Hinv Hflag H)
        as (t & evs & Hr & He & Hk & Hf).
      rewrite Hr; intros H1; inversion H1; subst; eauto.
    - destruct (dma_resv_wait_keys u s Hinv Hflag)
        as (r & t & evs & Hr & He & Hk & Hf).
      unfold bind; rewrite Hr; intros H; inversion H; subst; eauto.
    - destruct (dma_resv_reserve_fences_spec 1 s)
        as (r & s1 & Hr & Hf & Hrest & _).
      unfold bind at 1; rewrite Hr.
      assert (Ht1 : trace (benv s1) = trace (benv s)).
      { revert Hr; unfold dma_resv_reserve_fences; munfold.
        unfold env_pop_alloc; cbn.
        destruct (_ <=? _); [intros H; inversion H; reflexivity|].
        destruct (alloc_results (benv s)) as [|a rest]; cbn;
          [intros H; inversion H; reflexivity|].
        destruct (a =? 0); cbn; intros H; inversion H; reflexivity. }
      assert (Hf1 : active_is_flag (buf s1)).
      { intros d; rewrite (buf_rest_cb_active _ _ Hrest d); apply Hflag. }
      destruct (r =? 0).
      + unfold dma_resv_add_fence; munfold; cbn beta iota.
        destruct (max_fences (resv (buf s1))
                  <=? Z.of_nat (length (fences (resv (buf s1))))); cbn;
          [discriminate|].
        intros H; inversion H; subst; exists []; unfold new_events; cbn.
        rewrite app_nil_r; split; [exact Ht1|].
        split; [apply wake_ups_keyed_nil|].
        intros d; destruct (Hf1 d); destruct d; cbn in *; auto.
      + intros H; inversion H; subst; exists []; unfold new_events.
        rewrite app_nil_r; split; [exact Ht1|].
        split; [apply wake_ups_keyed_nil | exact Hf1]. }
  destruct Hrest as (evs & He & Hk & Hf).
  exists evs; split; [exact Hrun|]; split; [exact He|]; split; [exact Hk|].
  split; [exact Hinv' | exact Hf].
Qed.

(** X26.  A waiter is woken for the event it waited for.  On a buffer that
    satisfies the poll invariant and whose active directions are marked
    with their own event (as after dma_buf_export()), every run of polls,
    fence signals, waits and added fences returns, and every wake-up of the
    wait queue in its trace carries EPOLLIN or EPOLLOUT, never 0 or
    anything else; the marks stay as they should be. *)
Theorem dma_buf_poll_wake_up_keys
        (steps : list poll_step) (s : bstate P Q) :
  poll_inv (buf s) -> active_is_flag (buf s) ->
  exists s' evs,
    run_poll_steps steps s = Done tt s' /\
    new_events s s' evs /\
    wake_ups_keyed evs /\
    active_is_flag (buf s').
Proof.
  revert s; induction steps as [|st steps IH]; intros s Hinv Hflag; cbn.
  - exists s, []; unfold new_events; rewrite app_nil_r.
    repeat split; auto using wake_ups_keyed_nil.
  - destruct (run_poll_step_keys st s Hinv Hflag)
      as (s1 & e1 & Hr1 & He1 & Hk1 & Hinv1 & Hf1).
    destruct (IH s1 Hinv1 Hf1) as (s' & e2 & Hr2 & He2 & Hk2 & Hf2).
    exists s', (e1 ++ e2); unfold bind; rewrite Hr1.
    split; [exact Hr2|]; split; [|split; [|exact Hf2]].
    + eapply new_events_trans; eassumption.
    + apply wake_ups_keyed_app; assumption.
Qed.

End Properties.

(** * The properties on the example buffers *)

Ltac by_running :=
  repeat eexists; repeat (split; [lazy; reflexivity|]); lazy; reflexivity.

(** Read access to a buffer with one pending fence of each class: the
    kernel and write fences are waited for, the read fence is not. *)
Example begin_cpu_access_read_run :
  exists s',
    dma_buf_begin_cpu_access DMA_FROM_DEVICE
      (demo_state demo_ops demo_fences [] [] []) = Done 0 s' /\
    map (fun e => signaled (e_fence e)) (fences (resv (buf s')))
    = [true; true; false] /\
    trace (benv s')
    = [EvResvWait DMA_RESV_USAGE_WRITE true MAX_SCHEDULE_TIMEOUT; EvSleep].
Proof. by_running. Qed.

(** Write access waits for all three; a signal makes it fail. *)
Example begin_cpu_access_write_run :
  exists s',
    dma_buf_begin_cpu_access DMA_TO_DEVICE
      (demo_state demo_ops demo_fences [] [] []) = Done 0 s' /\
    map (fun e => signaled (e_fence e)) (fences (resv (buf s')))
    = [true; true; true].
Proof. by_running. Qed.

Example begin_cpu_access_interrupted_run :
  exists s',
    dma_buf_begin_cpu_access DMA_BIDIRECTIONAL
      (demo_state demo_ops demo_fences [] [WakeSignal] [])
    = Done (- ERESTARTSYS) s' /\
    map (fun e => signaled (e_fence e)) (fences (resv (buf s')))
    = [false; false; false].
Proof. by_running. Qed.

Lemma demo_ops_valid : ops_valid demo_ops.
Proof. repeat split. Qed.

Lemma dma_buf_map_attachment_fence_wait_witness :
  ops_valid (ops (buf (demo_state demo_ops demo_fences [static_att] [] []))) /\
  exists p s' evs,
    dma_buf_map_attachment demo_cfg (Some static_att) DMA_TO_DEVICE
      (demo_state demo_ops demo_fences [static_att] [] []) = Done p s' /\
    new_events (demo_state demo_ops demo_fences [static_att] [] []) s' evs /\
    (dma_buf_attachment_is_dynamic static_att = false ->
     forall t, p = SgTable t ->
       (exists pre tail,
           evs = pre ++ EvMapDmaBuf (a_addr static_att) DMA_TO_DEVICE
                     :: EvResvWait DMA_RESV_USAGE_KERNEL true
                                   MAX_SCHEDULE_TIMEOUT
                     :: tail /\
           (forall u i w, ~ In (EvResvWait u i w) pre) /\
           (forall u i w, ~ In (EvResvWait u i w) tail)) /\
       covered_signaled DMA_RESV_USAGE_KERNEL (resv (buf s'))) /\
    (dma_buf_attachment_is_dynamic static_att = true ->
     forall u i w, ~ In (EvResvWait u i w) evs).
Proof.
  split; [exact demo_ops_valid|].
  apply (dma_buf_map_attachment_fence_wait demo_cfg
           (demo_state demo_ops demo_fences [static_att] [] [])
           static_att DMA_TO_DEVICE demo_ops_valid).
Defined.

(** The same call, run: the static attachment pins, maps, waits for the
    kernel fence and gets the exporter's table (mangled, as
    CONFIG_DMABUF_DEBUG is set). *)
Example map_attachment_static_run :
  exists s',
    dma_buf_map_attachment demo_cfg (Some static_att) DMA_TO_DEVICE
      (demo_state demo_ops demo_fences [static_att] [] [])
    = Done (SgTable (mangle_sg_table demo_cfg demo_table)) s' /\
    trace (benv s')
    = [EvPin 1; EvMapDmaBuf 1 DMA_TO_DEVICE;
       EvResvWait DMA_RESV_USAGE_KERNEL true MAX_SCHEDULE_TIMEOUT; EvSleep] /\
    map (fun e => signaled (e_fence e)) (fences (resv (buf s')))
    = [true; false; false].
Proof. by_running. Qed.

(** A dynamic attachment maps without pinning and without waiting. *)
Example map_attachment_dynamic_run :
  exists s',
    dma_buf_map_attachment demo_cfg (Some dynamic_att) DMA_TO_DEVICE
      (demo_state demo_ops demo_fences [dynamic_att] [] [])
    = Done (SgTable (mangle_sg_table demo_cfg demo_table)) s' /\
    trace (benv s') = [EvMapDmaBuf 2 DMA_TO_DEVICE] /\
    map (fun e => signaled (e_fence e)) (fences (resv (buf s')))
    = [false; false; false].
Proof. by_running. Qed.

Lemma dma_buf_begin_cpu_access_waits_for_fences_witness :
  exists s',
    dma_buf_begin_cpu_access DMA_FROM_DEVICE
      (demo_state demo_ops demo_fences [] [] []) = Done 0 s' /\
    covered_signaled DMA_RESV_USAGE_WRITE (resv (buf s')) /\
    uncovered_untouched DMA_RESV_USAGE_WRITE demo_fences
                        (fences (resv (buf s'))).
Proof.
  destruct (dma_buf_begin_cpu_access_waits_for_fences
              (demo_state demo_ops demo_fences [] [] []) DMA_FROM_DEVICE)
    as (r & s' & evs & Hrun & _ & _ & Hok).
  assert (Hr : r = 0).
  { vm_compute in Hrun; inversion Hrun; reflexivity. }
  subst r; destruct (Hok eq_refl) as (_ & Hcov & Hun & _).
  exists s'; repeat split; assumption.
Defined.

(** The interrupted map of a static attachment: the table is handed back
    to unmap_dma_buf and the pin is dropped before -ERESTARTSYS is
    returned; the exporter's pin count is back at 0. *)
Example map_attachment_interrupted_run :
  exists s',
    dma_buf_map_attachment demo_cfg (Some static_att) DMA_TO_DEVICE
      (demo_state demo_ops demo_fences [static_att] [WakeSignal] [])
    = Done (SgErr (- ERESTARTSYS)) s' /\
    trace (benv s')
    = [EvPin 1; EvMapDmaBuf 1 DMA_TO_DEVICE;
       EvResvWait DMA_RESV_USAGE_KERNEL true MAX_SCHEDULE_TIMEOUT; EvSleep;
       EvUnmapDmaBuf 1 demo_table DMA_TO_DEVICE; EvUnpin 1] /\
    priv (buf s') = 0.
Proof. by_running. Qed.


(** C8.  The function does not do what its own description promises
    ("On success, the DMA addresses and lengths in the returned scatterlist
    are PAGE_SIZE aligned").  A static attachment of a 4096-byte buffer
    without fences, whose exporter's map_dma_buf callback returns one
    segment at address 65537 of length 100: dma_buf_map_attachment()
    succeeds and returns that segment, which is not page aligned; the
    CONFIG_DMA_API_DEBUG block, which tests for exactly this, has only
    printed. *)
Lemma dma_buf_map_attachment_unaligned :
  exists t s',
    dma_buf_map_attachment demo_cfg (Some static_att) DMA_FROM_DEVICE
      (demo_state unaligned_ops [] [static_att] [] []) = Done (SgTable t) s' /\
    map dma_address t = [65537] /\
    map dma_length t = [100] /\
    sg_aligned t = false /\
    trace (benv s')
    = [EvMapDmaBuf 1 DMA_FROM_DEVICE;
       EvResvWait DMA_RESV_USAGE_KERNEL true MAX_SCHEDULE_TIMEOUT;
       EvPrDebug 65537 100].
Proof. eexists _, _; split; [lazy; reflexivity|]; auto. Qed.

Lemma unaligned_ops_valid : ops_valid unaligned_ops.
Proof. repeat split. Qed.

(** The scenario of the specification: a 4096-byte buffer, a static
    attachment, no fences, and an exporter that maps one aligned page. *)
Lemma dma_buf_map_attachment_region_witness :
  exists s',
    dma_buf_map_attachment demo_cfg (Some static_att) DMA_FROM_DEVICE
      (demo_state demo_ops [] [static_att] [] [])
    = Done (SgTable (mangle_sg_table demo_cfg demo_table)) s' /\
    sg_aligned (mangle_sg_table demo_cfg demo_table) = true /\
    sg_total_length (mangle_sg_table demo_cfg demo_table) = 4096 /\
    ~ In EvSleep (trace (benv s')).
Proof.
  eexists; split; [reflexivity|].
  match goal with |- context [trace (benv ?s1)] => set (s' := s1) end.
  destruct (dma_buf_map_attachment_region demo_cfg
              (demo_state demo_ops [] [static_att] [] []) s'
              static_att DMA_FROM_DEVICE
              (mangle_sg_table demo_cfg demo_table) (trace (benv s'))
              demo_ops_valid eq_refl eq_refl)
    as (x1 & pre & hm & t0 & x2 & Hpin & Hm & Hhm & _ & _ & Hal & Hlen & Hsl).
  vm_compute in Hpin; inversion Hpin; subst x1 pre; clear Hpin.
  vm_compute in Hm; inversion Hm; subst hm; clear Hm.
  vm_compute in Hhm; inversion Hhm; subst t0 x2; clear Hhm.
  split; [rewrite Hal; reflexivity|].
  split; [rewrite Hlen; reflexivity|].
  apply Hsl; reflexivity.
Defined.

Lemma demo_poll_inv :
  poll_inv (buf (demo_state demo_ops demo_fences [] [] [])).
Proof.
  split.
  - intros e Hin _; simpl in Hin.
    destruct Hin as [<-|[<-|[<-|[]]]]; reflexivity.
  - intros dcb; left; destruct dcb; split; reflexivity.
Qed.

Lemma dma_buf_poll_one_armed_callback_witness :
  poll_inv (buf (demo_state demo_ops demo_fences [] [] [])) /\
  exists s',
    run_poll_steps demo_poll_steps (demo_state demo_ops demo_fences [] [] [])
    = Done tt s' /\
    (forall dcb, (armed dcb (fences (resv (buf s'))) <= 1)%nat) /\
    forall requested dcb,
      armed dcb (fences (resv (buf s'))) = 1%nat ->
      exists ev s'',
        dma_buf_poll requested s' = Done ev s'' /\
        Z.land ev (poll_flag dcb) = 0 /\
        armed dcb (fences (resv (buf s''))) = 1%nat /\
        (forall d, (armed d (fences (resv (buf s''))) <= 1)%nat).
Proof.
  split; [exact demo_poll_inv|].
  apply (dma_buf_poll_one_armed_callback demo_poll_steps
           (demo_state demo_ops demo_fences [] [] []) demo_poll_inv).
Defined.

(** Two polls for both directions on pending fences: the first arms one
    callback per direction and reports nothing ready, the second finds
    them armed, reports nothing ready and queues nothing. *)
Example poll_twice_run :
  exists s1 s2,
    dma_buf_poll 5 (demo_state demo_ops demo_fences [] [] []) = Done 0 s1 /\
    map (fun e => cb_list (e_fence e)) (fences (resv (buf s1)))
    = [[CB_OUT; CB_IN]; []; []] /\
    dma_buf_poll 5 s1 = Done 0 s2 /\
    map (fun e => cb_list (e_fence e)) (fences (resv (buf s2)))
    = [[CB_OUT; CB_IN]; []; []] /\
    f_count (dmabuf_file (buf s2)) = 3.
Proof.
  eexists _, _; split; [lazy; reflexivity|]; split; [reflexivity|].
  split; [lazy; reflexivity|]; split; reflexivity.
Qed.

(** With nothing pending both directions are ready at once and no callback
    stays armed. *)
Example poll_idle_run :
  exists s1,
    dma_buf_poll 5 (demo_state demo_ops [] [] [] []) = Done 5 s1 /\
    cb_in_active (buf s1) = 0 /\ cb_out_active (buf s1) = 0 /\
    f_count (dmabuf_file (buf s1)) = 1.
Proof. by_running. Qed.

Lemma demo_attachments_wf : attachments_wf [dynamic_att; static_att].
Proof.
  split.
  - repeat constructor; simpl; intuition discriminate.
  - repeat constructor; simpl; intros o H; inversion H; reflexivity.
Qed.

Lemma dma_buf_move_notify_dynamic_once_witness :
  attachments_wf
    (attachments (buf (demo_state demo_ops [] [dynamic_att; static_att] [] []))) /\
  exists s' evs,
    dma_buf_move_notify (demo_state demo_ops [] [dynamic_att; static_att] [] [])
    = Done tt s' /\
    new_events (demo_state demo_ops [] [dynamic_att; static_att] [] []) s' evs /\
    map (@a_addr unit) (attachments (buf s')) = [2; 1] /\
    move_notify_count 2 evs = 1%nat /\
    move_notify_count 1 evs = 0%nat.
Proof.
  split; [exact demo_attachments_wf|].
  destruct (dma_buf_move_notify_dynamic_once
              (demo_state demo_ops [] [dynamic_att; static_att] [] [])
              demo_attachments_wf)
    as (s' & evs & Hrun & Hev & Hm & Hcount & _).
  exists s', evs; repeat split; auto.
  - apply (Hcount dynamic_att); simpl; auto.
  - apply (Hcount static_att); simpl; auto.
Defined.

Example move_notify_run :
  exists s',
    dma_buf_move_notify (demo_state demo_ops [] [dynamic_att; static_att] [] [])
    = Done tt s' /\
    trace (benv s') = [EvMoveNotify 2].
Proof. by_running. Qed.

Lemma dma_buf_import_sync_file_all_or_none_witness :
  (exists s',
      dma_buf_import_sync_file demo_sync_file (Some demo_import_arg)
        (demo_state demo_ops demo_fences [] [] []) = Done 0 s' /\
      fences (resv (buf s')) =
        demo_fences
        ++ tagged DMA_RESV_USAGE_WRITE [pending_fence 7; pending_fence 8] /\
      buf_rest (buf s') = buf_rest (demo_buf demo_ops demo_fences [])) /\
  (exists s',
      dma_buf_import_sync_file demo_sync_file (Some demo_import_arg)
        (demo_state demo_ops demo_fences [] [] [- ENOMEM])
      = Done (- ENOMEM) s' /\
      buf s' = demo_buf demo_ops demo_fences []).
Proof.
  split.
  - destruct (dma_buf_import_sync_file_all_or_none
                (demo_state demo_ops demo_fences [] [] [])
                demo_sync_file demo_import_arg
                (FenceMerge (FenceOne (pending_fence 7))
                            (FenceOne (pending_fence 8))))
      as (reserved & sr & r & s' & Hres & Hrun & -> & Hok & _);
      [reflexivity | discriminate | reflexivity | simpl; lia
       | simpl; unfold UINT_MAX; lia |].
    assert (H0 : reserved = 0)
      by (vm_compute in Hres; inversion Hres; reflexivity).
    subst reserved; destruct (Hok eq_refl) as (_ & Hf & _ & _ & Hb & _).
    exists s'; split; [exact Hrun|]; split; [exact Hf | exact Hb].
  - destruct (dma_buf_import_sync_file_all_or_none
                (demo_state demo_ops demo_fences [] [] [- ENOMEM])
                demo_sync_file demo_import_arg
                (FenceMerge (FenceOne (pending_fence 7))
                            (FenceOne (pending_fence 8))))
      as (reserved & sr & r & s' & Hres & Hrun & -> & _ & Hfail);
      [reflexivity | discriminate | reflexivity | simpl; lia
       | simpl; unfold UINT_MAX; lia |].
    assert (H0 : reserved = - ENOMEM)
      by (vm_compute in Hres; inversion Hres; reflexivity).
    subst reserved.
    destruct Hfail as (_ & _ & Hb); [discriminate|].
    exists s'; split; [exact Hrun | exact Hb].
Defined.

(** Both outcomes, run: with room to be made the two fences are appended,
    and when the reservation fails nothing is. *)
Example import_sync_file_run :
  exists s',
    dma_buf_import_sync_file demo_sync_file (Some demo_import_arg)
      (demo_state demo_ops demo_fences [] [] []) = Done 0 s' /\
    map (fun e => (fence_id (e_fence e), e_usage e)) (fences (resv (buf s')))
    = [(1, DMA_RESV_USAGE_KERNEL); (2, DMA_RESV_USAGE_WRITE);
       (3, DMA_RESV_USAGE_READ); (7, DMA_RESV_USAGE_WRITE);
       (8, DMA_RESV_USAGE_WRITE)] /\
    max_fences (resv (buf s')) = 5.
Proof. by_running. Qed.

Example import_sync_file_enomem_run :
  exists s',
    dma_buf_import_sync_file demo_sync_file (Some demo_import_arg)
      (demo_state demo_ops demo_fences [] [] [- ENOMEM]) = Done (- ENOMEM) s' /\
    buf s' = demo_buf demo_ops demo_fences [].
Proof. by_running. Qed.

Lemma dma_buf_export_rejects_bad_ops_witness :
  exists k',
    dma_buf_export (demo_export_info no_release_ops) demo_kstate
    = Done (ERR_PTR (- EINVAL)) k' /\
    dmabuf_list k' = [] /\
    dmabuf_inode k' = 0 /\
    module_refs k' = [] /\
    trace (kenv k') = [EvWarn] /\
    alloc_results (kenv k') = [] /\
    next_addr (kenv k') = 100.
Proof.
  apply (dma_buf_export_rejects_bad_ops demo_kstate
           (demo_export_info no_release_ops) no_release_ops eq_refl).
  right; right; left; reflexivity.
Defined.

(** A complete table is exported and registered. *)
Example export_run :
  exists d k',
    dma_buf_export (demo_export_info demo_ops) demo_kstate = Done (Ptr d) k' /\
    dmabuf_list k' = [d] /\ size d = 4096 /\
    i_ino (dmabuf_file d) = 1.
Proof. by_running. Qed.

(** C9.  dma_buf_vmap() does not keep "the stored mapping is set exactly
    when the counter is positive", the invariant its own BUG_ON()s assert.
    On an unmapped buffer whose exporter's vmap callback returns 0 and
    leaves the mapping null, the call returns 0, the counter is 1 and the
    stored mapping is null: the invariant held before the call and is lost
    by it.  The next dma_buf_vmap() or dma_buf_vunmap() on that buffer
    stops at the BUG_ON() on a null mapping. *)
Lemma dma_buf_vmap_null_mapping :
  vmap_inv (demo_buf null_vmap_ops [] []) /\
  exists s',
    dma_buf_vmap (demo_state null_vmap_ops [] [] [] [])
    = Done (0, iosys_map_null) s' /\
    vmapping_counter (buf s') = 1 /\
    iosys_map_is_set (vmap_ptr (buf s')) = false /\
    ~ vmap_inv (buf s') /\
    (exists s2, dma_buf_vmap s' = Crash s2) /\
    dma_buf_vunmap iosys_map_null s' = Crash s'.
Proof.
  split; [reflexivity|].
  eexists; split; [lazy; reflexivity|].
  split; [reflexivity|]; split; [reflexivity|].
  split; [unfold vmap_inv; simpl; discriminate|].
  split; [eexists; lazy; reflexivity | lazy; reflexivity].
Qed.

Example vmap_after_null_mapping_run :
  exists s1 s2,
    dma_buf_vmap (demo_state null_vmap_ops [] [] [] []) = Done (0, iosys_map_null) s1 /\
    dma_buf_vmap s1 = Crash s2 /\
    dma_buf_vunmap iosys_map_null s1 = Crash s1.
Proof. by_running. Qed.

Lemma dma_buf_vmap_vunmap_bookkeeping_witness :
  exists s1 s2 s3 s4,
    dma_buf_vmap (demo_state demo_ops [] [] [] []) = Done (0, demo_vmap_ptr) s1 /\
    vmap_inv (buf s1) /\ vmapping_counter (buf s1) = 1 /\
    dma_buf_vmap s1 = Done (0, demo_vmap_ptr) s2 /\
    vmap_inv (buf s2) /\ vmapping_counter (buf s2) = 2 /\
    dma_buf_vunmap demo_vmap_ptr s2 = Done tt s3 /\
    vmap_inv (buf s3) /\ vmapping_counter (buf s3) = 1 /\
    dma_buf_vunmap demo_vmap_ptr s3 = Done tt s4 /\
    vmap_inv (buf s4) /\ vmapping_counter (buf s4) = 0 /\
    trace (benv s4) = [EvVmap 0 demo_vmap_ptr; EvVunmap demo_vmap_ptr] /\
    0 <= exporter_mappings (trace (benv s4)) <= 1.
Proof.
  destruct (@dma_buf_vmap_vunmap_bookkeeping Z unit) as (_ & _ & Hruns).
  pose proof (Hruns [CallVmap; CallVmap; CallVunmap demo_vmap_ptr;
                     CallVunmap demo_vmap_ptr]
                    (demo_state demo_ops [] [] [] [])) as H.
  eexists _, _, _, _.
  split; [lazy; reflexivity|]. split; [reflexivity|]. split; [reflexivity|].
  split; [lazy; reflexivity|]. split; [reflexivity|]. split; [reflexivity|].
  split; [lazy; reflexivity|]. split; [reflexivity|]. split; [reflexivity|].
  split; [lazy; reflexivity|]. split; [reflexivity|]. split; [reflexivity|].
  split; [reflexivity|].
  eapply H; try reflexivity; discriminate.
Defined.


Lemma dma_buf_mmap_rejects_witness :
  dma_buf_mmap_internal (demo_vma 0 2) (demo_state demo_ops [] [] [] [])
  = Done (- EINVAL) (demo_state demo_ops [] [] [] []) /\
  dma_buf_mmap (Some (demo_vma 0 1)) 1 (demo_state demo_ops [] [] [] [])
  = Done (- EINVAL) (demo_state demo_ops [] [] [] []) /\
  dma_buf_mmap (Some (demo_vma 0 1)) ULONG_MAX (demo_state demo_ops [] [] [] [])
  = Done (- EOVERFLOW) (demo_state demo_ops [] [] [] []).
Proof.
  split; [|split].
  - apply (dma_buf_mmap_rejects (demo_state demo_ops [] [] [] [])
             (demo_vma 0 2) 0); [vm_compute | vm_compute | right; vm_compute];
      intuition discriminate.
  - apply (dma_buf_mmap_rejects (demo_state demo_ops [] [] [] [])
             (demo_vma 0 1) 1); [vm_compute | vm_compute | right; vm_compute];
      intuition discriminate.
  - apply (dma_buf_mmap_rejects (demo_state demo_ops [] [] [] [])
             (demo_vma 0 1) ULONG_MAX);
      [vm_compute | vm_compute | discriminate | vm_compute];
      intuition discriminate.
Defined.

(** A request inside the buffer reaches the exporter, and one without an
    mmap callback is refused. *)
Example mmap_accepted_run :
  exists s',
    dma_buf_mmap (Some (demo_vma 7 1)) 0 (demo_state demo_ops [] [] [] [])
    = Done 0 s' /\
    trace (benv s')
    = [EvMmap {| vm_start := 0; vm_end := 4096; vm_pgoff := 0; vm_file := 1 |}].
Proof. by_running. Qed.

Example mmap_no_callback_run :
  dma_buf_mmap_internal (demo_vma 0 1) (demo_state unaligned_ops [] [] [] [])
  = Done (- EINVAL) (demo_state unaligned_ops [] [] [] []).
Proof. reflexivity. Qed.

(** * The further properties on the example buffers *)

Lemma demo_attach_inv :
  attach_inv (demo_state demo_ops demo_fences [static_att] [] []).
Proof.
  split; [split|].
  - repeat constructor; simpl; intuition.
  - repeat constructor; simpl; intros o H; discriminate.
  - repeat constructor; simpl; reflexivity.
Qed.

Lemma dma_buf_identity_is_fixed_witness :
  exists s',
    run_calls demo_cfg demo_calls
              (demo_state demo_ops demo_fences [static_att] [] [])
    = Done tt s' /\
    same_identity (demo_buf demo_ops demo_fences [static_att]) (buf s') /\
    (ops_valid demo_ops -> ops_valid (ops (buf s'))).
Proof.
  eexists; split; [vm_compute; reflexivity|].
  apply (dma_buf_identity_is_fixed demo_cfg demo_calls
           (demo_state demo_ops demo_fences [static_att] [] [])).
  vm_compute; reflexivity.
Defined.

Lemma dma_buf_attachments_stay_well_formed_witness :
  exists s',
    run_calls demo_cfg demo_calls
              (demo_state demo_ops demo_fences [static_att] [] [])
    = Done tt s' /\
    attach_inv s' /\ attachments_wf (attachments (buf s')).
Proof.
  eexists; split; [vm_compute; reflexivity|].
  apply (dma_buf_attachments_stay_well_formed demo_cfg demo_calls
           (demo_state demo_ops demo_fences [static_att] [] []) _
           demo_attach_inv).
  vm_compute; reflexivity.
Defined.

Lemma dma_buf_attach_detach_round_trip_witness :
  exists s1,
    dma_buf_dynamic_attach (Some 10) None None
      (demo_state demo_ops demo_fences [static_att] [] [])
    = Done (Ptr demo_new_att) s1 /\
    attachments (buf s1) = [demo_new_att; static_att] /\
    exists s2,
      dma_buf_detach (Some demo_new_att) s1 = Done tt s2 /\
      attachments (buf s2) = [static_att].
Proof.
  eexists; split; [lazy; reflexivity|].
  destruct (dma_buf_attach_detach_round_trip (Some 10) None None
              (demo_state demo_ops demo_fences [static_att] [] []) _
              demo_new_att demo_attach_inv eq_refl)
    as (Hl & _ & _ & _ & _ & _ & Hd).
  split; [exact Hl | exact Hd].
Defined.

Lemma dma_buf_dynamic_attach_failure_witness :
  (exists s1,
      dma_buf_dynamic_attach None None None
        (demo_state demo_ops [] [static_att] [] [])
      = Done (ERR_PTR (- EINVAL)) s1 /\
      buf s1 = demo_buf demo_ops [] [static_att] /\
      trace (benv s1) = [EvWarn]) /\
  (exists s1,
      dma_buf_dynamic_attach (Some 10) None None
        (demo_state demo_ops [] [static_att] [] [- ENOMEM])
      = Done (ERR_PTR (- ENOMEM)) s1 /\
      buf s1 = demo_buf demo_ops [] [static_att] /\
      trace (benv s1) = []).
Proof.
  split.
  - destruct (dma_buf_dynamic_attach_failure None None None
                (demo_state demo_ops [] [static_att] [] []))
      as (r & s1 & Hrun & Hbad & _).
    destruct (Hbad (or_introl eq_refl)) as (-> & Hb & Hev & _).
    exists s1; split; [exact Hrun|]; split; [exact Hb | exact Hev].
  - destruct (dma_buf_dynamic_attach_failure (Some 10) None None
                (demo_state demo_ops [] [static_att] [] [- ENOMEM]))
      as (r & s1 & Hrun & _ & Hmem & _).
    destruct Hmem as (-> & Hb & Hev & _).
    + intros [H|(o & H & _)]; discriminate.
    + exists (- ENOMEM), []; split; [reflexivity | discriminate].
    + exists s1; split; [exact Hrun|]; split; [exact Hb | exact Hev].
Defined.

Lemma dma_buf_map_unmap_round_trip_witness :
  exists s1,
    dma_buf_map_attachment demo_cfg (Some static_att) DMA_TO_DEVICE
      (demo_state demo_ops [] [static_att] [] [])
    = Done (SgTable (mangle_sg_table demo_cfg demo_table)) s1 /\
    exists s2,
      dma_buf_unmap_attachment demo_cfg (Some static_att)
        (Some (mangle_sg_table demo_cfg demo_table)) DMA_TO_DEVICE s1
      = Done tt s2 /\
      trace (benv s2)
      = [EvPin 1; EvMapDmaBuf 1 DMA_TO_DEVICE;
         EvResvWait DMA_RESV_USAGE_KERNEL true MAX_SCHEDULE_TIMEOUT;
         EvUnmapDmaBuf 1 demo_table DMA_TO_DEVICE; EvUnpin 1].
Proof.
  eexists; split; [vm_compute; reflexivity|].
  match goal with
  | |- exists s2, dma_buf_unmap_attachment _ _ _ _ ?s1 = _ /\ _ =>
      destruct (dma_buf_map_unmap_round_trip demo_cfg
                  (demo_state demo_ops [] [static_att] [] []) s1
                  static_att DMA_TO_DEVICE
                  (mangle_sg_table demo_cfg demo_table)
                  [EvPin 1; EvMapDmaBuf 1 DMA_TO_DEVICE;
                   EvResvWait DMA_RESV_USAGE_KERNEL true MAX_SCHEDULE_TIMEOUT]
                  demo_ops_valid)
        as (x1 & hm & t0 & x2 & rest & s2 & _ & Hm & Ht & _ & Hun & Hev)
  end.
  - vm_compute; reflexivity.
  - reflexivity.
  - exists s2; split; [exact Hun|].
    rewrite Hev. inversion Hm; subst hm. inversion Ht; subst t0. reflexivity.
Defined.

Lemma dma_buf_poll_reference_balance_witness :
  exists s',
    run_poll_steps demo_poll_steps (demo_state demo_ops demo_fences [] [] [])
    = Done tt s' /\
    other_refs (buf s') = 1 /\
    f_count (dmabuf_file (buf s')) = 1 + active_callbacks (buf s').
Proof.
  destruct (dma_buf_poll_reference_balance demo_poll_steps
              (demo_state demo_ops demo_fences [] [] []) demo_poll_inv)
    as (s' & Hrun & Ho & Hc & _).
  exists s'; repeat split; assumption.
Defined.

Lemma dma_buf_mmap_passes_request_witness :
  dma_buf_mmap_internal (demo_vma 0 1) (demo_state demo_ops [] [] [] [])
  = Done 0 {| buf := demo_buf demo_ops [] [];
              benv := env_log (EvMmap (demo_vma 0 1)) (demo_env [] []) |} /\
  exists s',
    dma_buf_mmap (Some (demo_vma 7 1)) 0 (demo_state demo_ops [] [] [] [])
    = Done 0 s' /\
    f_count (dmabuf_file (buf s')) = 2 /\
    trace (benv s')
    = [EvMmap {| vm_start := 0; vm_end := 4096;
                 vm_pgoff := 0; vm_file := 1 |}].
Proof.
  destruct (dma_buf_mmap_passes_request
              (demo_state demo_ops [] [] [] []) (demo_vma 7 1) 0
              (fun vma x => (0, x)) eq_refl) as [_ Hm].
  { vm_compute; discriminate. }
  destruct (dma_buf_mmap_passes_request
              (demo_state demo_ops [] [] [] []) (demo_vma 0 1) 0
              (fun vma x => (0, x)) eq_refl) as [Hi _].
  { vm_compute; discriminate. }
  split.
  - apply Hi; vm_compute; discriminate.
  - eexists; split; [apply Hm; vm_compute; discriminate|].
    split; reflexivity.
Defined.

Lemma dma_buf_vmap_nesting_witness :
  exists s',
    run_vmap_calls (repeat CallVmap 3 ++ repeat (CallVunmap demo_vmap_ptr) 3)
                   (demo_state demo_ops [] [] [] [])
    = Done tt s' /\
    new_events (demo_state demo_ops [] [] [] []) s'
               [EvVmap 0 demo_vmap_ptr; EvVunmap demo_vmap_ptr] /\
    vmapping_counter (buf s') = 0 /\
    vmap_ptr (buf s') = iosys_map_null.
Proof.
  apply (dma_buf_vmap_nesting 3 (demo_state demo_ops [] [] [] [])
           (fun x => ((0, demo_vmap_ptr), x)) (fun m x => (tt, x))
           demo_vmap_ptr
           {| x_priv := 0; x_resv := {| fences := []; max_fences := 4 |} |}
           eq_refl eq_refl eq_refl eq_refl eq_refl eq_refl).
  - lia.
  - vm_compute; discriminate.
Defined.

Lemma dma_buf_export_registers_buffer_witness :
  exists d k',
    dma_buf_export (demo_export_info demo_ops) demo_kstate = Done (Ptr d) k' /\
    dmabuf_list k' = [d] /\
    ops d = demo_ops /\
    size d = 4096 /\
    dmabuf_file d = {| f_count := 1; f_flags := 2; i_ino := 1 |} /\
    poll_inv d.
Proof.
  eexists _, _; split; [vm_compute; reflexivity|].
  match goal with
  | |- dmabuf_list ?k' = [?d] /\ _ =>
      destruct (dma_buf_export_registers_buffer demo_kstate k'
                  (demo_export_info demo_ops) d)
        as (Hl & _ & Ho & Hs & _ & _ & Hf & _ & _ & _ & _ & _ & _ & Hp)
  end.
  - vm_compute; reflexivity.
  - split; [exact Hl|]. split; [reflexivity|]. split; [exact Hs|].
    split; [exact Hf|]. apply Hp; reflexivity.
Defined.

Lemma demo_inode_inv : inode_inv demo_kstate.
Proof. split; constructor. Qed.

Lemma dma_buf_inode_numbers_unique_witness :
  exists k',
    run_registry_calls demo_registry_calls demo_kstate = Done tt k' /\
    NoDup (map dmabuf_ino (dmabuf_list k')) /\
    Forall (fun d => dmabuf_ino d <= dmabuf_inode k') (dmabuf_list k').
Proof.
  eexists; split; [vm_compute; reflexivity|].
  apply (dma_buf_inode_numbers_unique demo_registry_calls demo_kstate _
           demo_inode_inv).
  vm_compute; reflexivity.
Defined.

Lemma dma_buf_iter_visits_live_buffers_witness :
  exists k',
    iter_all 3 demo_registry = Done [3; 1] k' /\
    dmabuf_list k' = dmabuf_list demo_registry.
Proof.
  destruct (dma_buf_iter_visits_live_buffers 3 demo_registry)
    as (k' & Hrun & Hl & _).
  - repeat constructor; simpl; intuition discriminate.
  - simpl; lia.
  - exists k'; split; [exact Hrun | exact Hl].
Defined.

Lemma dma_buf_export_release_round_trip_witness :
  exists d k1 k2 k3,
    dma_buf_export (demo_export_info demo_ops) demo_kstate = Done (Ptr d) k1 /\
    dma_buf_file_release dma_buf_fops (Some (dmabuf_ino d)) k1 = Done 0 k2 /\
    dma_buf_release (Some d) k2
    = Done (Some {| x_priv := 0; x_resv := dma_resv_init |}) k3 /\
    dmabuf_list k3 = [] /\ module_refs k3 = [].
Proof.
  eexists _, _; 
  match goal with
  | |- exists k2 k3, _ = Done (Ptr ?d) ?k1 /\ _ =>
      destruct (dma_buf_export_release_round_trip demo_kstate k1
                  (demo_export_info demo_ops) d demo_inode_inv)
        as (k2 & k3 & h & Hf & _ & Hh & Hr & Hl & Hm & _)
  end.
  - vm_compute; reflexivity.
  - exists k2, k3. split; [vm_compute; reflexivity|].
    split; [exact Hf|]. inversion Hh; subst h.
    split; [exact Hr|]. split; [exact Hl | exact Hm].
Defined.

Lemma dma_buf_llseek_reports_size_witness :
  dma_buf_llseek dma_buf_fops 0 SEEK_END (demo_state demo_ops [] [] [] [])
  = Done 4096 (demo_state demo_ops [] [] [] []).
Proof.
  destruct (dma_buf_llseek_reports_size dma_buf_fops 0 SEEK_END
              (demo_state demo_ops [] [] [] []))
    as (r & Hrun & _ & Hr & _).
  - vm_compute; split; discriminate.
  - rewrite Hrun. destruct (Hr eq_refl) as [He _].
    rewrite (He (conj eq_refl eq_refl)); reflexivity.
Defined.

Lemma dma_buf_ioctl_dispatch_witness :
  dma_buf_ioctl false (DMA_BUF_IOCTL_SYNC (Some (Z.lor DMA_BUF_SYNC_READ DMA_BUF_SYNC_END)))
                (demo_ustate [] [])
  = lift (dma_buf_end_cpu_access DMA_FROM_DEVICE) (demo_ustate [] []) /\
  dma_buf_ioctl false (DMA_BUF_IOCTL_SYNC (Some 8)) (demo_ustate [] [])
  = Done (- EINVAL) (demo_ustate [] []).
Proof.
  split.
  - apply (dma_buf_ioctl_dispatch false (Z.lor DMA_BUF_SYNC_READ DMA_BUF_SYNC_END)
             (demo_ustate [] [])).
    vm_compute; discriminate.
  - apply (dma_buf_ioctl_dispatch false 8 (demo_ustate [] [])).
    vm_compute; discriminate.
Defined.

Lemma demo_files_wf (l : list resv_entry) (a : list Z) :
  files_wf (demo_ustate l a).
Proof.
  split; [vm_compute; discriminate|].
  intros id _; repeat split; intros [].
Qed.

Lemma dma_buf_export_sync_file_no_leak_witness :
  exists u',
    dma_buf_export_sync_file (Some demo_export_arg) true
                             (demo_ustate demo_fences [])
    = Done (0, Some 100) u' /\
    u_fd_table u' = [(100, Some 101)] /\
    u_file_refs u' 101 = 1 /\
    buf (u_dma u') = demo_buf demo_ops demo_fences [].
Proof.
  destruct (dma_buf_export_sync_file_no_leak (Some demo_export_arg) true
              (demo_ustate demo_fences []) (demo_files_wf demo_fences []))
    as (r & out & u' & Hrun & Hb & _).
  exists u'.
  assert (Hu : dma_buf_export_sync_file (Some demo_export_arg) true
                 (demo_ustate demo_fences []) = Done (r, out) u' /\
               r = 0 /\ out = Some 100 /\
               u_fd_table u' = [(100, Some 101)] /\
               u_file_refs u' 101 = 1).
  { vm_compute in Hrun; inversion Hrun; subst.
    split; [vm_compute; reflexivity|]. repeat split. }
  destruct Hu as (Hrun' & -> & -> & Ht & Hr).
  repeat split; assumption.
Defined.

Lemma dma_buf_fd_get_put_round_trip_witness :
  exists fd u1 u2 u3,
    dma_buf_fd 0 (demo_ustate [] []) = Done fd u1 /\
    0 <= fd /\
    dma_buf_get fd u1 = Done (Ptr tt) u2 /\
    f_count (dmabuf_file (buf (u_dma u2))) = 2 /\
    dma_buf_put u2 = Done tt u3 /\
    buf (u_dma u3) = demo_buf demo_ops [] [].
Proof.
  destruct (dma_buf_fd_get_put_round_trip 0 (demo_ustate [] [])
              (demo_files_wf [] []))
    as (fd & u1 & Hrun & _ & _ & _ & Hok).
  assert (Hfd : 0 <= fd) by (vm_compute in Hrun; inversion Hrun; discriminate).
  destruct (Hok Hfd) as (_ & _ & u2 & Hget & Hc & _ & u3 & Hput & Hb & _).
  exists fd, u1, u2, u3; repeat split; assumption.
Defined.

Lemma dma_buf_write_access_then_poll_ready_witness :
  exists s1 s2,
    dma_buf_begin_cpu_access DMA_TO_DEVICE
      (demo_state demo_ops demo_fences [] [] []) = Done 0 s1 /\
    dma_buf_poll (Z.lor EPOLLIN EPOLLOUT) s1
    = Done (Z.lor EPOLLIN EPOLLOUT) s2.
Proof.
  eexists;
  match goal with
  | |- exists s2, _ = Done 0 ?s1 /\ _ =>
      destruct (dma_buf_write_access_then_poll_ready DMA_TO_DEVICE
                  (demo_state demo_ops demo_fences [] [] []) s1
                  (Z.lor EPOLLIN EPOLLOUT) (or_introl eq_refl) demo_poll_inv)
        as (_ & _ & _ & s2 & Hpoll)
  end.
  - vm_compute; reflexivity.
  - exists s2; split; [vm_compute; reflexivity | exact Hpoll].
Defined.

Lemma dma_buf_poll_wake_up_keys_witness :
  exists s' evs,
    run_poll_steps demo_poll_steps (demo_state demo_ops demo_fences [] [] [])
    = Done tt s' /\
    new_events (demo_state demo_ops demo_fences [] [] []) s' evs /\
    wake_ups_keyed evs.
Proof.
  destruct (dma_buf_poll_wake_up_keys demo_poll_steps
              (demo_state demo_ops demo_fences [] [] []) demo_poll_inv)
    as (s' & evs & Hrun & Hev & Hk & _).
  - intros dcb; left; destruct dcb; reflexivity.
  - exists s', evs; repeat split; assumption.
Defined.

(** The two WARN_ON_ONCE() report once: of two failing vmaps, and of two
    maps whose pin is refused with -EBUSY, only the first warns. *)
Example vmap_failing_twice_run :
  exists s1 s2,
    dma_buf_vmap (demo_state refusing_ops [] [] [] [])
    = Done (- ENOMEM, iosys_map_null) s1 /\
    dma_buf_vmap s1 = Done (- ENOMEM, iosys_map_null) s2 /\
    trace (benv s2)
    = [EvVmap (- ENOMEM) iosys_map_null; EvWarnOnce ONCE_VMAP_FAILED;
       EvVmap (- ENOMEM) iosys_map_null] /\
    buf s2 = demo_buf refusing_ops [] [].
Proof. by_running. Qed.

Example map_attachment_busy_twice_run :
  exists s1 s2,
    dma_buf_map_attachment demo_cfg (Some static_att) DMA_TO_DEVICE
      (demo_state refusing_ops [] [static_att] [] [])
    = Done (SgErr (- EBUSY)) s1 /\
    dma_buf_map_attachment demo_cfg (Some static_att) DMA_TO_DEVICE s1
    = Done (SgErr (- EBUSY)) s2 /\
    trace (benv s2) = [EvPin 1; EvWarnOnce ONCE_PIN_EBUSY; EvPin 1].
Proof. by_running. Qed.

(** dma_buf_mmap() leaves one more reference on the file of the buffer,
    the one the vma holds. *)
Example mmap_takes_reference_run :
  exists s',
    dma_buf_mmap (Some (demo_vma 0 1)) 0 (demo_state demo_ops [] [] [] [])
    = Done 0 s' /\
    f_count (dmabuf_file (buf s')) = 2.
Proof. by_running. Qed.
